(* ===== verification/_CoqProject ===== *)
-Q . S2P
Prelude.v
JsNum.v
Utf8.v
TermModel.v
TermCells.v
TermSafety.v
TermParser.v
TermResize.v
TermFrame.v
TermTheorems.v
Utf8Scalars.v
WatFloat.v
WatTheorems.v
GlfData.v
Renderer.v
RendererTheorems.v
RenderGL.v
RenderGLTheorems.v
RenderPixels.v
Worker.v
WorkerSafety.v
WorkerLoop.v
WorkerTheorems.v
WorkerInput.v
WorkerIds.v
NativeFixture.v
NativeTheorems.v
TestSuite.v
TestSuiteTheorems.v
Evidence.v
EvidenceTheorems.v
Page.v
PageKeys.v
PageClipboard.v
PageTheorems.v
Shell.v
ShellRequests.v
ShellTheorems.v
ShellScreen.v
Base64.v
TestsWorker.v
TestsWorkerTheorems.v
TestsWorkerReport.v
Loader.v
LoaderTheorems.v
Boot.v
BootTheorems.v
TestControls.v
ControlTheorems.v
SuiteShared.v
SuiteSharedTheorems.v
RenderTest.v
RenderTestTheorems.v
PageHost.v
PageHostTheorems.v
Command.v
CommandTheorems.v
CommandLife.v
Runtime.v
RuntimeTheorems.v
HostCalls.v
Packager.v
PackagerTheorems.v
