(* ===== verification/Prelude.v ===== *)
(** * The WASTE browser runtime

    WASTE runs guest programs (a Bash shell, WebAssembly test scripts, single
    commands) on a WebAssembly engine written in C.  This library is about the
    JavaScript around that engine, under src/html-rt: everything here is
    translated from those files, whose paths below are relative to it.

    ** The program and its parts

    A page ([src/app.js]) shows a terminal and owns a worker.  The worker
    ([src/worker.js]) instantiates the engine, stages the guest's files,
    pumps the engine and passes input, signals, sizes, clocks and host
    requests to it; the engine's output goes back to the page, where
    [src/terminal/model.js] interprets it as terminal output on a grid of cells
    and [src/terminal/renderer.js] draws the grid with the outlines of
    [src/terminal/glf.js].  [src/test-suite.js] runs the installed tests in
    workers of their own and answers the guest's batch command.  The offline
    page gets all files from a compressed archive through [src/loader.js].
    [command/waste.mjs] and [command/waste.worker.mjs] run single commands for
    other applications.  [src/tests-worker.js] is the worker of the conformance harness, and
    [src/terminal/render-test.js] checks the renderer's pixels for a guest's test.

    ** Files

    - [Prelude] (this file): results with errors, loops, JavaScript integer
      conversions, arrays indexed by numbers, little-endian words, the hint
      database [waste] and the tactics [case_goal] and [b2p].
    - [JsNum]: numbers that are integers, dyadic fractions or not finite, with
      [Number(text)], correct rounding to a double, and clamping.
    - [Utf8], [Base64]: JavaScript strings, code points and UTF-8 bytes with
      [TextEncoder] and [TextDecoder] (streaming, fatal, byte order marks), and [decodeB64];
      [Utf8Scalars]: what the decoder emits are scalar values.
    - [TermModel]: terminal/model.js, the whole class [TerminalModel] as a
      record [term] and one function per method; [TermCells], [TermSafety],
      [TermParser], [TermResize], [TermFrame] hold its lemmas and
      [TermTheorems] its theorems.
    - [WatFloat], [WatTheorems]: the float literal conversion of worker.js, from
      texts to IEEE bits.
    - [GlfData]: the glyph ranges and character maps of terminal/glf.js.
    - [Renderer], [RendererTheorems]: terminal/renderer.js, as the data it
      hands to WebGL or to the 2D canvas, its sizes and its repaint scheduling.
    - [RenderGL], [RenderGLTheorems]: its WebGL calls ([initWebGL], [attribute],
      [renderWebGL]) and the part of the WebGL state machine they use.
    - [RenderPixels]: its vertex shaders and the viewport over exact rationals.
    - [Worker]: worker.js, its module variables as a record [worker], one
      computation per function and message, the pump loop of [run] cut at its
      [await]s ([pc]) and the events of its thread ([handle], [reachable]).
      [WorkerSafety], [WorkerLoop], [WorkerTheorems] are about it; [WorkerInput] accounts for
      every byte of input it got, [WorkerIds] for the numbers of its requests.
    - [NativeFixture], [NativeTheorems]: [runBrowserNative] of worker.js, the
      small system-call table of the browser-native tests.
    - [TestSuite], [TestSuiteTheorems]: test-suite.js: catalogue, selection,
      one worker request as a state machine, the job pool as interleaved steps,
      classification, summary, and the guest's command.
    - [Evidence], [EvidenceTheorems]: the loader-evidence script of app.js.
    - [Page]: the rest of app.js, its module variables as a record [page] and the
      events of the page as [step]; closures that outlive their call are entries of
      lists.  [PageKeys], [PageClipboard] (with the specification [slot] it
      refines) and [PageTheorems] are about it.
    - [Shell]: app.js and worker.js together: the page, the workers it makes, an engine for
      each, and the message queues between them, as a step relation over the two models
      ([shell_step]); [ShellRequests] (requests and answers), [ShellTheorems] (input) and
      [ShellScreen] (output) are about it.
    - [TestsWorker], [TestsWorkerTheorems], [TestsWorkerReport]: tests-worker.js, its
      handler cut at the [await]s, against an arbitrary engine; [encode_record] is the
      layout of the engine's results, and [Finishes] what a run needs of the engine.
    - [Loader], [LoaderTheorems]: loader.js: tar headers, the file table, the
      inflater's callbacks, the installed file list.
    - [Boot], [BootTheorems]: the asynchronous functions of loader.js ([boot], the loads, the
      scripts, [createWorker]) as trees of browser calls ([prog]), run against a [browser]
      that answers each call as it likes from the history; and the load that callers share.
    - [TestControls], [ControlTheorems]: the rest of test-suite.js: the constructor, the shared
      suite, the form and [showInstalledTests] with the buttons, over the job pool of [TestSuite].
    - [SuiteShared], [SuiteSharedTheorems]: the controller that the page's controls and the
      guest's commands share: [guestCommand] cut at its awaits, joined with [TestControls].
    - [RenderTest], [RenderTestTheorems]: the setup of renderer.js (context, shaders, pixel ratio)
      and render-test.js, over the models of [TermModel] and [Renderer].
    - [Command], [CommandTheorems]: the startup records of waste.mjs, the worker
      port of waste.worker.mjs and the proxy of waste.mjs as two state machines
      joined by message channels; [CommandLife]: the creation, failure and disposal
      of that proxy.
    - [PageHost], [PageHostTheorems]: the page with the two helpers [Page] takes as given: the
      controller of [SuiteShared] and the diagnostic of [RenderTest], joined in [desk_step].
    - [Runtime], [RuntimeTheorems]: [createWaste] of waste.mjs: a run of a command
      against an arbitrary engine, cut at its [await]s; [HostCalls]: its random source and
      its wrappers of input streams.
    - [Packager], [PackagerTheorems]: tools/package-embedding.mjs, the build script of the
      embedding package, over a file system that each command may change.

    ** What the theorems show

    - Terminal: from every reachable state every input is handled and keeps the
      cursor, margins and cells in range; scrolling, erasing, inserting,
      resizing and printing do to each cell what they should; the alternate
      screen leaves the primary one alone; and the behaviours that
      differ from the terminal standard, with examples.
    - Literals: decimal and hexadecimal texts give the nearest IEEE value, ties
      to even, at both widths, subnormals and overflow included.
    - Renderer: a WebGL frame shows every cell once with its colours and
      glyphs, both back ends agree, every character code has a glyph range in
      the font, and no change of the model stays undrawn.  No WebGL call of a session is
      invalid and its draws show exactly the frames, from the right buffers; backgrounds tile the canvas,
      and glyphs lie on their cells, for every cell size up to 1024 pixels of width.
    - Worker: for every engine and every order of events the engine is only
      called with valid pointers and values, wake-ups are not lost, output is
      posted in order, early events are replayed once the engine is ready,
      host replies are delivered at most once; a literal converted while the output
      ends inside a character goes wrong.
    - Page: the clipboard closures refine a one-slot protocol in every order of
      events; every message to a worker is one it accepts and the terminal stays 80
      by 24; a cancel only reaches a running batch; keys send what they should;
      restarts that do not overlap keep one worker; the evidence script completes
      against a shell that answers, however its output is cut.
    - Page and workers together, in every interleaving of their event loops and queues: the
      page answers only requests it was sent, each once and to its sender; the engine is given
      what was typed, without loss, repetition or reordering; the terminal shows the guest's
      output, in order, decoded.
    - Page, controller and diagnostic together: each answer to the guest is that of its own
      request, and a good verdict of the diagnostic was earned.
    - Test worker: one reply per job, in order; a [done] reply means a clean run; a run the
      engine finishes is reported with exactly the recorded results.
    - Encodings: Base64 and UTF-8 data read back as written, malformed data is refused.
    - Native fixture: its tables stay consistent and files read back what was
      written.
    - Test controller: each test is recorded exactly once in every interleaving,
      a cancel starts nothing new, a batch can always end by its own timers, a
      request settles once and its worker is terminated once, a pass needs a
      consistent report, the guest always gets a well-formed answer, and exactly the
      well-formed requests are accepted.  The page's buttons follow the batch, what is displayed and
      what can be downloaded are its records, and the controls always come back; page and
      guest never run batches at once and every command is answered once.
    - Render diagnostic: it restores the page on every path, a report that is ok means 35 passed
      checks on WebGL, and a display that shows the frames passes.
    - Loader: headers written by tar are read back, any one damaged byte is
      noticed, unpacking accepts exactly the archives with distinct safe
      names, the inflater gets its input once and in order; for every browser the page's
      application starts at most once, last, and with the unpacked archive only; scripts load in
      order and their URLs are revoked; callers share one load, and a failed one is forgotten.
    - Command host: the startup vector is read back as given; through the worker, input is neither
      lost nor repeated nor reordered in any interleaving, runs are neither
      refused nor mixed up, and the reader does not miss a wake-up; a runtime
      frees every buffer and destroys every session on every path, and the proxy leaks
      neither its worker nor its object URL.
    - Packager: a run changes nothing outside its output directory; its manifest describes
      exactly the files it leaves; the bundle keeps every line of its sources but for the exports.

    ** Choices and bounds

    Numbers are integers of type [Z] with their 32-bit conversions written out
    where the code has them; doubles appear as exact dyadic values rounded after
    each operation.  Texts are lists of code points, or of UTF-16 units where the code
    has strings ([Utf8] converts).  Loops over arrays are folds over
    their indices, so they need no fuel.  Some recursions carry fuel, taken
    from the size of what they walk, and never use it up: [normal_dyadic] (one
    step per factor of two), [dec_digits] (at most one per unit of its number),
    [segment_lookup] (one per segment of the character map) and [parents] (one
    per character of the path, shown by [parents_spec]).  [scan_nul] walks a field of
    fixed size; [failures_loop] takes one more turn than the engine's count, which
    reading a report does not change ([failures_run]).  Errors are values of the type [result];
    in [Worker] they keep the state reached, as an exception does.  [await] is a
    point where any other event may happen.  The C engine, WebAssembly modules, JSON,
    [fetch], the zlib inflater and the archive walk of tarballjs
    are parameters, and the theorems hold for all of them that meet the stated
    hypotheses.

    ** Not modelled

    The engine (C); the fragment shaders and the rasterizer; the resize observer; status texts,
    times and focus of the page; the clocks of the
    command host, which only pass values on.  The files under src/vfs/root/app are installed copies.  [Shell]
    still takes the answers of the controller and of the diagnostic as given: [PageHost] joins them with
    the page alone.  The numbers given to WebGL are exact rationals, not 32-bit floats. *)

From stdpp Require Import base numbers list strings gmap.
From Stdlib Require Import ZArith Lia.

#[local] Open Scope Z_scope.

(** ** Results: a computation returns a value or an error. *)

Inductive result (E A : Type) : Type :=
| Ok (a : A)
| Err (e : E).
Arguments Ok {E A} a.
Arguments Err {E A} e.

Declare Scope waste_scope.
Delimit Scope waste_scope with waste.

Definition rbind {E A B : Type} (m : result E A) (k : A → result E B) : result E B :=
  match m with
  | Ok a => k a
  | Err e => Err e
  end.

Notation "'let*' x := c 'in' k" := (rbind c (λ x, k))
  (at level 10, x name, c at level 100, k at level 200) : waste_scope.
Notation "'let*' ' p := c 'in' k" := (rbind c (λ x, match x with p => k end))
  (at level 10, p strict pattern, c at level 100, k at level 200) : waste_scope.
#[local] Open Scope waste_scope.

(** [if (cond) throw e] before the rest of a body. *)
Definition guard_err {E : Type} (b : bool) (e : E) : result E () :=
  if b then Err e else Ok ().

Definition of_option {E A : Type} (e : E) (o : option A) : result E A :=
  match o with Some a => Ok a | None => Err e end.

Lemma rbind_Ok {E A B : Type} (m : result E A) (k : A → result E B) b :
  rbind m k = Ok b ↔ ∃ a, m = Ok a ∧ k a = Ok b.
Proof. destruct m; simpl; naive_solver. Qed.

Lemma rbind_assoc {E A B C : Type} (m : result E A) (k : A → result E B) (h : B → result E C) :
  rbind (rbind m k) h = rbind m (λ a, rbind (k a) h).
Proof. by destruct m. Qed.

(** ** Loops: a [for] over a list of indices, threading a state. *)

Fixpoint foldM {E S A : Type} (f : A → S → result E S) (l : list A) (s : S) : result E S :=
  match l with
  | [] => Ok s
  | a :: l' => let* s' := f a s in foldM f l' s'
  end.

Lemma foldM_app {E S A : Type} (f : A → S → result E S) l1 l2 s :
  foldM f (l1 ++ l2) s = rbind (foldM f l1 s) (foldM f l2).
Proof.
  revert s; induction l1 as [|a l1 IH]; intros s; simpl; [done|].
  destruct (f a s); simpl; auto.
Qed.

Lemma foldM_snoc {E S A : Type} (f : A → S → result E S) l a s :
  foldM f (l ++ [a]) s = rbind (foldM f l s) (f a).
Proof. rewrite foldM_app. destruct (foldM f l s); simpl; [by destruct (f a a0)|done]. Qed.

(** Progress-indexed loop rule: [P done s] relates the processed prefix to the state. *)
Lemma foldM_progress {E S A : Type} (f : A → S → result E S) (P : list A → S → Prop) l s :
  P [] s →
  (∀ pre a suf s, l = pre ++ a :: suf → P pre s → ∃ s', f a s = Ok s' ∧ P (pre ++ [a]) s') →
  ∃ s', foldM f l s = Ok s' ∧ P l s'.
Proof.
  intros H0 Hstep.
  assert (∀ suf pre s, l = pre ++ suf → P pre s → ∃ s', foldM f suf s = Ok s' ∧ P l s') as Haux.
  { induction suf as [|a suf IH]; intros pre s1 Hl HP; simpl.
    - rewrite app_nil_r in Hl; subst; eauto.
    - destruct (Hstep pre a suf s1 Hl HP) as (s2 & -> & HP2); simpl.
      apply (IH (pre ++ [a])); [by rewrite <- app_assoc|done]. }
  by apply (Haux l []).
Qed.

(** Every outcome of a loop satisfies a postcondition its body maintains. *)
Lemma foldM_post {E S A : Type} (f : A → S → result E S) (P : S → Prop) (Q : E → Prop) l s :
  P s →
  (∀ a s, a ∈ l → P s → match f a s with Ok s' => P s' | Err e => Q e end) →
  match foldM f l s with Ok s' => P s' | Err e => Q e end.
Proof.
  revert s; induction l as [|a l IH]; intros s HP Hf; simpl; [done|].
  pose proof (Hf a s ltac:(left) HP) as H1.
  destruct (f a s) as [s'|e]; simpl; [|done].
  apply IH; [done|]. intros a' s'' ? ?; apply Hf; [by right|done].
Qed.

(** ** JavaScript integers *)

(** [ToInt32] on an integral number: [x | 0]. *)
Definition to_int32 (z : Z) : Z := (z + 2^31) mod 2^32 - 2^31.
(** [ToUint32]: [x >>> 0]. *)
Definition to_uint32 (z : Z) : Z := z mod 2^32.

(** [clamp] of terminal/model.js: [Math.max(low, Math.min(high, value))]. *)
Definition clamp (value low high : Z) : Z := Z.max low (Z.min high value).

Lemma to_int32_range z : -2^31 ≤ to_int32 z < 2^31.
Proof. unfold to_int32. pose proof (Z.mod_pos_bound (z + 2^31) (2^32)). lia. Qed.

Lemma to_int32_id z : -2^31 ≤ z < 2^31 → to_int32 z = z.
Proof. intros H. unfold to_int32. rewrite Z.mod_small; lia. Qed.

Lemma to_uint32_range z : 0 ≤ to_uint32 z < 2^32.
Proof. unfold to_uint32. by apply Z.mod_pos_bound. Qed.

Lemma to_uint32_id z : 0 ≤ z < 2^32 → to_uint32 z = z.
Proof. apply Z.mod_small. Qed.

Lemma clamp_range value low high : low ≤ high → low ≤ clamp value low high ≤ high.
Proof. unfold clamp; lia. Qed.

Lemma clamp_id value low high : low ≤ value ≤ high → clamp value low high = value.
Proof. unfold clamp; lia. Qed.

(** ** Arrays indexed by JavaScript numbers *)

Definition zlookup {A : Type} (l : list A) (i : Z) : option A :=
  if i <? 0 then None else l !! Z.to_nat i.

(** In-range store; [None] where JavaScript would grow the array or set a property. *)
Definition zinsert {A : Type} (l : list A) (i : Z) (a : A) : option (list A) :=
  if (0 <=? i) && (i <? Z.of_nat (length l)) then Some (<[Z.to_nat i := a]> l) else None.

Definition zlen {A : Type} (l : list A) : Z := Z.of_nat (length l).

Lemma zlookup_is_Some {A : Type} (l : list A) i : is_Some (zlookup l i) ↔ 0 ≤ i < zlen l.
Proof.
  unfold zlookup, zlen. case (Z.ltb_spec i 0); intros Hi.
  - split; [by intros [? ?]|lia].
  - rewrite lookup_lt_is_Some. lia.
Qed.

Lemma zlookup_None {A : Type} (l : list A) i : zlookup l i = None ↔ i < 0 ∨ zlen l ≤ i.
Proof. rewrite eq_None_not_Some, zlookup_is_Some. lia. Qed.

Lemma zlookup_in_range {A : Type} (l : list A) i : 0 ≤ i < zlen l → ∃ a, zlookup l i = Some a.
Proof. intros H. by apply zlookup_is_Some in H as [a ?]; eauto. Qed.

Lemma zlookup_Some_range {A : Type} (l : list A) i a : zlookup l i = Some a → 0 ≤ i < zlen l.
Proof. intros H. apply zlookup_is_Some. eauto. Qed.

Lemma zlookup_nat {A : Type} (l : list A) (n : nat) : zlookup l (Z.of_nat n) = l !! n.
Proof. unfold zlookup. case (Z.ltb_spec (Z.of_nat n) 0); [lia|]. by rewrite Nat2Z.id. Qed.

Lemma zinsert_Some {A : Type} (l : list A) i a :
  0 ≤ i < zlen l → zinsert l i a = Some (<[Z.to_nat i := a]> l).
Proof.
  unfold zinsert, zlen. intros H.
  case (Z.leb_spec 0 i); [|lia]. case (Z.ltb_spec i (Z.of_nat (length l))); [done|lia].
Qed.

Lemma zinsert_inv {A : Type} (l l' : list A) i a :
  zinsert l i a = Some l' → 0 ≤ i < zlen l ∧ l' = <[Z.to_nat i := a]> l.
Proof.
  unfold zinsert, zlen.
  case (Z.leb_spec 0 i); case (Z.ltb_spec i (Z.of_nat (length l))); simpl; naive_solver lia.
Qed.

Lemma zlen_insert {A : Type} (l : list A) n a : zlen (<[n := a]> l) = zlen l.
Proof. unfold zlen. by rewrite length_insert. Qed.

Lemma zlookup_insert {A : Type} (l : list A) i j a :
  0 ≤ i < zlen l →
  zlookup (<[Z.to_nat i := a]> l) j = if bool_decide (i = j) then Some a else zlookup l j.
Proof.
  unfold zlookup, zlen. intros Hi. case (Z.ltb_spec j 0); intros Hj.
  - rewrite bool_decide_eq_false_2; [done|lia].
  - case_bool_decide as Hij.
    + subst. rewrite list_lookup_insert_eq; [done|lia].
    + rewrite list_lookup_insert_ne; [done|lia].
Qed.

Lemma zlookup_ext {A : Type} (l1 l2 : list A) : (∀ i, zlookup l1 i = zlookup l2 i) → l1 = l2.
Proof. intros H. apply list_eq. intros i. specialize (H (Z.of_nat i)). by rewrite !zlookup_nat in H. Qed.

Lemma zlen_nonneg {A : Type} (l : list A) : 0 ≤ zlen l.
Proof. unfold zlen; lia. Qed.

Lemma zlookup_Forall {A : Type} (P : A → Prop) (l : list A) i a :
  Forall P l → zlookup l i = Some a → P a.
Proof.
  unfold zlookup. destruct (i <? 0); [done|]. intros H Hl. by eapply Forall_lookup_1.
Qed.

Lemma zlookup_replicate {A : Type} n (a : A) i :
  zlookup (replicate n a) i = if bool_decide (0 ≤ i < Z.of_nat n) then Some a else None.
Proof.
  case_bool_decide as H.
  - unfold zlookup. case (Z.ltb_spec i 0); [lia|]. intros _. apply lookup_replicate_2. lia.
  - apply zlookup_None. unfold zlen. rewrite length_replicate. lia.
Qed.

Lemma zlen_app {A : Type} (l1 l2 : list A) : zlen (l1 ++ l2) = zlen l1 + zlen l2.
Proof. unfold zlen. rewrite length_app. lia. Qed.

(** ** Little-endian words, as [DataView.setUint32(_, _, true)] writes them *)

Definition le32 (z : Z) : list Z :=
  [z mod 256; z / 2^8 mod 256; z / 2^16 mod 256; z / 2^24 mod 256].

Definition get_le32 (l : list Z) : option Z :=
  match l with
  | b0 :: b1 :: b2 :: b3 :: _ => Some (b0 + 2^8 * b1 + 2^16 * b2 + 2^24 * b3)
  | _ => None
  end.

Lemma get_le32_le32 z rest : 0 ≤ z < 2^32 → get_le32 (le32 z ++ rest) = Some z.
Proof.
  intros H. unfold get_le32, le32. simpl. f_equal.
  rewrite (Z.mod_small (z / 2^24) 256)
    by (split; [apply Z.div_pos; lia|apply Z.div_lt_upper_bound; lia]).
  Z.to_euclidean_division_equations. lia.
Qed.

Lemma le32_bytes z : Forall (λ b, 0 ≤ b < 256) (le32 z).
Proof. unfold le32. repeat constructor; by apply Z.mod_pos_bound. Qed.

(** A number whose low [k] bits are free, joined with another of at most [k] bits. *)
Lemma lor_low h l k : 0 ≤ k → 0 ≤ l < 2 ^ k → Z.lor (h * 2 ^ k) l = h * 2 ^ k + l.
Proof.
  intros Hk Hl. assert (Z.land (h * 2 ^ k) l = 0) as H0.
  { apply Z.bits_inj'. intros n Hn. rewrite Z.land_spec, Z.bits_0.
    destruct (Z.ltb_spec n k).
    - by rewrite Z.mul_pow2_bits_low.
    - rewrite <- (Z.mod_small l (2 ^ k)), Z.mod_pow2_bits_high, andb_false_r by lia. done. }
  by rewrite <- Z.lxor_lor, <- Z.add_nocarry_lxor.
Qed.

(** ** Texts in byte buffers *)

(** The bytes before the first NUL. *)
Fixpoint until_nul (l : list Z) : list Z :=
  match l with [] => [] | b :: l' => if b =? 0 then [] else b :: until_nul l' end.

(** ** Hint database and tactics of the development *)

Create HintDb waste discriminated.
#[export] Hint Resolve to_int32_range to_uint32_range clamp_range zlen_nonneg : waste.

(** Destruct the scrutinee of the outermost [match]/[if] in the goal, keeping its equation. *)
Ltac case_goal :=
  match goal with
  | |- context [match ?x with _ => _ end] => destruct x eqn:?
  end.

(** Turn boolean comparisons on [Z] in the context into propositions. *)
Ltac b2p :=
  repeat match goal with
  | H : _ && _ = true |- _ => apply andb_true_iff in H as [? ?]
  | H : _ || _ = false |- _ => apply orb_false_iff in H as [? ?]
  | H : negb _ = true |- _ => apply negb_true_iff in H
  | H : negb _ = false |- _ => apply negb_false_iff in H
  | H : (_ =? _) = true |- _ => apply Z.eqb_eq in H
  | H : (_ =? _) = false |- _ => apply Z.eqb_neq in H
  | H : (_ <? _) = true |- _ => apply Z.ltb_lt in H
  | H : (_ <? _) = false |- _ => apply Z.ltb_ge in H
  | H : (_ <=? _) = true |- _ => apply Z.leb_le in H
  | H : (_ <=? _) = false |- _ => apply Z.leb_gt in H
  end.
