(* ===== verification/JsNum.v ===== *)
(** * JavaScript numbers used by the terminal parser

    The terminal reads its CSI parameters with [Number(text)], so a parameter
    may be any finite double: a huge integer, a fraction such as [1.5], or
    [NaN].  This file gives the part of IEEE-754 and ECMAScript the source
    uses: rounding a rational to the nearest double (ties to even), the
    [StringToNumber] grammar restricted to what a CSI parameter can hold (the
    bytes 0x40-0x7e end the sequence, so no letters: neither exponents, hex
    literals nor Infinity), [ToInt32], and addition. *)

From stdpp Require Import base numbers list.
From Stdlib Require Import ZArith Lia.
From S2P Require Import Prelude.

#[local] Open Scope Z_scope.

(** ** Rounding a ratio to the nearest integer, ties to even *)

Definition half_even (n d : Z) : Z :=
  let q := n / d in
  let r := n mod d in
  if (d <? 2 * r) || ((2 * r =? d) && Z.odd q) then q + 1 else q.

(** The specification: within half a unit, and even when exactly half way. *)
Definition nearest_even (n d r : Z) : Prop :=
  2 * Z.abs (n - r * d) ≤ d ∧ (2 * Z.abs (n - r * d) = d → Z.even r = true).

Lemma half_even_spec n d : 0 < d → nearest_even n d (half_even n d).
Proof.
  intros Hd. unfold half_even, nearest_even.
  pose proof (Z.div_mod n d ltac:(lia)) as Hdm. pose proof (Z.mod_pos_bound n d Hd) as Hr.
  set (q := n / d) in *. set (r := n mod d) in *.
  destruct (Z.ltb_spec d (2 * r)); simpl.
  - split; [nia|]. intros. nia.
  - destruct (Z.eqb_spec (2 * r) d) as [He|He]; simpl.
    + destruct (Z.odd q) eqn:Hq.
      * split; [nia|]. intros _. rewrite Z.even_add. rewrite <- Z.negb_odd, Hq. done.
      * split; [nia|]. intros _. by rewrite <- Z.negb_odd, Hq.
    + split; [nia|]. intros. nia.
Qed.

Lemma nearest_even_unique n d r1 r2 :
  0 < d → nearest_even n d r1 → nearest_even n d r2 → r1 = r2.
Proof.
  intros Hd [H1 E1] [H2 E2].
  destruct (Z.lt_trichotomy r1 r2) as [Hlt|[->|Hlt]]; [exfalso|done|exfalso].
  - assert (r2 = r1 + 1) as -> by nia.
    assert (Z.even r1 = true) as He1 by (apply E1; nia).
    assert (Z.even (r1 + 1) = true) as He2 by (apply E2; nia).
    rewrite Z.even_add, He1 in He2. done.
  - assert (r1 = r2 + 1) as -> by nia.
    assert (Z.even r2 = true) as He1 by (apply E2; nia).
    assert (Z.even (r2 + 1) = true) as He2 by (apply E1; nia).
    rewrite Z.even_add, He1 in He2. done.
Qed.

(** ** Numbers *)

(** An integral double, a non-integral double [m / 2^k] with [m] odd, or a
    value that is not finite. *)
Inductive num : Type :=
| NInt (z : Z)
| NFrac (m : Z) (k : positive)
| NNonFinite.

#[export] Instance num_eq_dec : EqDecision num.
Proof. solve_decision. Defined.

(** [m / 2^k] with factors of two removed. *)
Fixpoint normal_dyadic (fuel : nat) (m : Z) (k : Z) : num :=
  match fuel with
  | O => NInt m
  | S fuel =>
    match k with
    | Zpos p => if Z.even m then normal_dyadic fuel (m / 2) (k - 1) else NFrac m p
    | _ => NInt (m * 2 ^ (- k))
    end
  end.
Definition mk_num (m k : Z) : num := normal_dyadic (S (Z.to_nat k)) m k.

(** [n / d] ([d > 0]) rounded to a double: 53 significant bits, the smallest
    subnormal unit 2^-1074, overflow at 2^1024. *)
Definition round_double_pos (n d : Z) : num :=
  let e0 := Z.log2 n - Z.log2 d in
  let below := if 0 <=? e0 then n <? d * 2 ^ e0 else n * 2 ^ (- e0) <? d in
  let e := if below then e0 - 1 else e0 in
  let q := Z.max (e - 52) (-1074) in
  let m := if 0 <=? q then half_even n (d * 2 ^ q) else half_even (n * 2 ^ (- q)) d in
  if (0 <=? q) && (2 ^ 1024 <=? m * 2 ^ q) then NNonFinite else mk_num m (- q).

Definition num_opp (v : num) : num :=
  match v with NInt z => NInt (- z) | NFrac m k => NFrac (- m) k | NNonFinite => NNonFinite end.

Definition round_double (n d : Z) : num :=
  if n =? 0 then NInt 0
  else if n <? 0 then num_opp (round_double_pos (- n) d) else round_double_pos n d.

(** [z + v] in double arithmetic. *)
Definition num_add (z : Z) (v : num) : num :=
  match v with
  | NInt w => round_double (z + w) 1
  | NFrac m k => round_double (z * 2 ^ Zpos k + m) (2 ^ Zpos k)
  | NNonFinite => NNonFinite
  end.

(** [v | 0]: truncate, then wrap to 32 bits; not finite gives 0. *)
Definition num_int32 (v : num) : Z :=
  match v with
  | NInt z => to_int32 z
  | NFrac m k => to_int32 (Z.quot m (2 ^ Zpos k))
  | NNonFinite => 0
  end.

(** [v || d] for a number: 0 and NaN are falsy. *)
Definition num_or (v : num) (d : Z) : num :=
  match v with NInt 0 => NInt d | NNonFinite => NInt d | _ => v end.

(** [Math.max(low, Math.min(high, v))] with integral bounds. *)
Definition num_clamp (v : num) (low high : Z) : num :=
  match v with
  | NInt z => NInt (clamp z low high)
  | NFrac m k =>
    if m <=? low * 2 ^ Zpos k then NInt (Z.max low (Z.min high low))
    else if high * 2 ^ Zpos k <=? m then NInt (Z.max low high)
    else v
  | NNonFinite => NNonFinite
  end.

Definition num_is_int (v : num) : bool := match v with NInt _ => true | _ => false end.

(** Number of iterations of [for (i = 0; i < v; i++)]. *)
Definition num_ceil (v : num) : Z :=
  match v with
  | NInt z => z
  | NFrac m k => m / 2 ^ Zpos k + 1
  | NNonFinite => 0
  end.

(** [low <= v && v <= high] with integral bounds. *)
Definition num_between (low high : Z) (v : num) : bool :=
  match v with
  | NInt z => (low <=? z) && (z <=? high)
  | NFrac m k => (low * 2 ^ Zpos k <=? m) && (m <=? high * 2 ^ Zpos k)
  | NNonFinite => false
  end.

(** ** [Number(text)] on a text without letters *)

Definition is_digit (c : Z) : bool := (48 <=? c) && (c <=? 57).

(** WhiteSpace and LineTerminator code points trimmed by [StringToNumber]. *)
Definition is_js_space (c : Z) : bool :=
  ((9 <=? c) && (c <=? 13)) || (c =? 32) || (c =? 160) || (c =? 5760) ||
  ((8192 <=? c) && (c <=? 8202)) || (c =? 8232) || (c =? 8233) || (c =? 8239) ||
  (c =? 8287) || (c =? 12288) || (c =? 65279).

Fixpoint skip_space (l : list Z) : list Z :=
  match l with
  | c :: l' => if is_js_space c then skip_space l' else l
  | [] => []
  end.
Definition js_trim (l : list Z) : list Z := rev (skip_space (rev (skip_space l))).

(** Longest digit prefix: its value (from [acc]), its length, and the rest. *)
Fixpoint read_digits (acc n : Z) (l : list Z) : Z * Z * list Z :=
  match l with
  | c :: l' => if is_digit c then read_digits (acc * 10 + (c - 48)) (n + 1) l' else (acc, n, l)
  | [] => (acc, n, [])
  end.

(** StrUnsignedDecimalLiteral without exponent; [None] is NaN. *)
Definition parse_unsigned (l : list Z) : option (Z * Z) :=
  let '(ip, ni, rest) := read_digits 0 0 l in
  match rest with
  | [] => if ni =? 0 then None else Some (ip, 1)
  | c :: rest' =>
    if c =? 46 then
      let '(v, nf, rest'') := read_digits ip 0 rest' in
      match rest'' with
      | [] => if ni + nf =? 0 then None else Some (v, 10 ^ nf)
      | _ => None
      end
    else None
  end.

Definition js_number (l : list Z) : num :=
  match js_trim l with
  | [] => NInt 0
  | c :: l' =>
    let '(neg, body) := if c =? 45 then (true, l') else if c =? 43 then (false, l') else (false, c :: l') in
    match parse_unsigned body with
    | None => NNonFinite
    | Some (n, d) => round_double (if neg then - n else n) d
    end
  end.

Example js_number_ex : js_number [49; 46; 53] = NFrac 3 1 ∧ js_number [43; 52; 50; 32] = NInt 42
  ∧ js_number [53; 58] = NNonFinite ∧ js_number [46] = NNonFinite ∧ js_number [46; 53] = NFrac 1 1
  ∧ js_number (repeat 57 20) = NInt 100000000000000000000.
Proof. by vm_compute. Qed.

(** ** Integral parameters *)

Lemma half_even_1 n : half_even n 1 = n.
Proof. unfold half_even. by rewrite Z.div_1_r, Z.mod_1_r. Qed.

Lemma normal_dyadic_int fuel n k :
  0 ≤ k → (Z.to_nat k < fuel)%nat → normal_dyadic fuel (n * 2 ^ k) k = NInt n.
Proof.
  revert k; induction fuel as [|fuel IH]; intros k Hk Hf; [lia|]. simpl.
  destruct k as [|p|p]; [by rewrite !Z.mul_1_r| |lia].
  assert (n * 2 ^ Zpos p = 2 * (n * 2 ^ (Zpos p - 1))) as Heq.
  { replace (Zpos p) with (Z.succ (Zpos p - 1)) at 1 by lia. rewrite Z.pow_succ_r; lia. }
  rewrite Heq, Z.even_mul; simpl. rewrite Z.mul_comm, Z.div_mul by lia. apply IH; lia.
Qed.

Lemma mk_num_int n k : 0 ≤ k → mk_num (n * 2 ^ k) k = NInt n.
Proof. intros. apply normal_dyadic_int; lia. Qed.

Lemma mk_num_neg m k : k ≤ 0 → mk_num m k = NInt (m * 2 ^ (- k)).
Proof. intros. unfold mk_num. destruct k; simpl; try lia; done. Qed.

(** An integral ratio rounds to an integer, and exactly so below 2^53. *)
Lemma round_double_pos_int n :
  0 < n → round_double_pos n 1 = NNonFinite ∨ ∃ z, round_double_pos n 1 = NInt z.
Proof.
  intros Hn. unfold round_double_pos. rewrite Z.sub_0_r, Z.mul_1_l.
  case_match; [by left|]. right.
  match goal with |- context [mk_num _ (- ?q)] => destruct (Z.leb_spec 0 q) as [Hq|Hq] end.
  - eexists. apply mk_num_neg. lia.
  - rewrite half_even_1. eexists. apply mk_num_int. lia.
Qed.

Lemma round_double_int z :
  round_double z 1 = NNonFinite ∨ ∃ w, round_double z 1 = NInt w.
Proof.
  unfold round_double. case (Z.eqb_spec z 0); [eauto|]. intros.
  case (Z.ltb_spec z 0); intros; [|apply round_double_pos_int; lia].
  destruct (round_double_pos_int (- z)) as [->|[w ->]]; simpl; eauto. lia.
Qed.

Lemma round_double_exact z : Z.abs z < 2 ^ 53 → round_double z 1 = NInt z.
Proof.
  intros Hz.
  assert (∀ n, 0 < n < 2 ^ 53 → round_double_pos n 1 = NInt n) as Hpos.
  { intros n Hn. unfold round_double_pos. rewrite Z.sub_0_r, Z.mul_1_l.
    pose proof (Z.log2_spec n ltac:(lia)) as [Hl _]. pose proof (Z.log2_nonneg n) as Hl0.
    assert (Z.log2 n < 53) by (apply Z.log2_lt_pow2; lia).
    case (Z.leb_spec 0 (Z.log2 n)); [|lia]. intros _.
    case (Z.ltb_spec n (2 ^ Z.log2 n)); [lia|]. intros _.
    destruct (Z.eq_dec (Z.log2 n) 52) as [He|He].
    - rewrite He. change (Z.max (52 - 52) (-1074)) with 0.
      change (1 * 2 ^ 0) with 1. rewrite half_even_1.
      assert ((2 ^ 1024 <=? n * 2 ^ 0) = false) as Hov.
      { apply Z.leb_gt. assert (2 ^ 53 < 2 ^ 1024) by (by vm_compute). lia. }
      cbn [andb Z.leb Z.compare]. rewrite Hov, mk_num_neg by lia. f_equal. apply Z.mul_1_r.
    - assert (Z.max (Z.log2 n - 52) (-1074) = Z.log2 n - 52) as -> by lia.
      case (Z.leb_spec 0 (Z.log2 n - 52)); [lia|]. intros _. simpl.
      rewrite half_even_1. apply mk_num_int. lia. }
  unfold round_double. case (Z.eqb_spec z 0); [by intros ->|]. intros.
  case (Z.ltb_spec z 0); intros; rewrite Hpos by lia; simpl; [f_equal; lia|done].
Qed.

Lemma num_add_exact z w : Z.abs (z + w) < 2 ^ 53 → num_add z (NInt w) = NInt (z + w).
Proof. apply round_double_exact. Qed.

(** A text without a decimal point is an integer or NaN. *)
Lemma read_digits_rest acc n l v n' r :
  read_digits acc n l = (v, n', r) → ∀ c, c ∈ r → c ∈ l.
Proof.
  revert acc n; induction l as [|c l IH]; intros acc n H x Hx; simpl in H; [by simplify_eq|].
  destruct (is_digit c); [|by simplify_eq]. right. by eapply IH.
Qed.

Lemma parse_unsigned_int l n d : 46 ∉ l → parse_unsigned l = Some (n, d) → d = 1.
Proof.
  intros Hl. unfold parse_unsigned. destruct (read_digits 0 0 l) as [[ip ni] rest] eqn:Hr.
  destruct rest as [|c rest].
  - destruct (ni =? 0); naive_solver.
  - case (Z.eqb_spec c 46); [|done]. intros ->. exfalso. apply Hl.
    eapply read_digits_rest; [done|by left].
Qed.

Lemma skip_space_sub l c : c ∈ skip_space l → c ∈ l.
Proof. induction l as [|a l IH]; simpl; [done|]. destruct (is_js_space a); [right; auto|done]. Qed.

Lemma js_trim_sub l c : c ∈ js_trim l → c ∈ l.
Proof.
  unfold js_trim. rewrite list_elem_of_In, <- in_rev, <- list_elem_of_In.
  intros H%skip_space_sub. rewrite list_elem_of_In, <- in_rev, <- list_elem_of_In in H.
  by apply skip_space_sub.
Qed.

Lemma js_number_integral l :
  46 ∉ l → js_number l = NNonFinite ∨ ∃ z, js_number l = NInt z.
Proof.
  intros Hl. unfold js_number. destruct (js_trim l) as [|c l'] eqn:Ht; [eauto|].
  assert (46 ∉ c :: l') as Hc. { rewrite <- Ht. intros H. by apply Hl, js_trim_sub. }
  assert (∀ neg body, 46 ∉ body →
    match parse_unsigned body with
    | None => NNonFinite
    | Some (n, d) => round_double (if (neg : bool) then - n else n) d
    end = NNonFinite ∨ ∃ z, match parse_unsigned body with
    | None => NNonFinite
    | Some (n, d) => round_double (if (neg : bool) then - n else n) d
    end = NInt z) as Haux.
  { intros neg body Hb. destruct (parse_unsigned body) as [[n d]|] eqn:Hp; [|by left].
    apply parse_unsigned_int in Hp as ->; [|done]. apply round_double_int. }
  rewrite not_elem_of_cons in Hc. destruct Hc.
  case (c =? 45); [apply (Haux true); done|]. case (c =? 43); apply (Haux false); [done|by rewrite not_elem_of_cons].
Qed.

(** ** Decimal texts *)

(** The digits [String(n)] of a non-negative integer. *)
Fixpoint dec_digits (fuel : nat) (n : Z) (acc : list Z) : list Z :=
  match fuel with
  | O => acc
  | S fuel =>
    let acc' := (48 + n mod 10) :: acc in
    if n <? 10 then acc' else dec_digits fuel (n / 10) acc'
  end.
Definition dec_text (n : Z) : list Z := dec_digits (S (Z.to_nat n)) n [].

Lemma read_digits_app_digits acc n l v k r :
  read_digits acc n l = (v, k, r) →
  ∀ d, r = [] → is_digit d = true → read_digits acc n (l ++ [d]) = (v * 10 + (d - 48), k + 1, []).
Proof.
  revert acc n; induction l as [|c l IH]; intros acc n H d -> Hd; simpl in *.
  - simplify_eq. by rewrite Hd.
  - destruct (is_digit c); [by eapply IH|done].
Qed.

Lemma dec_digits_app fuel n acc : dec_digits fuel n acc = dec_digits fuel n [] ++ acc.
Proof.
  revert n acc; induction fuel as [|fuel IH]; intros n acc; simpl; [done|].
  destruct (n <? 10); [done|]. rewrite IH, (IH _ [_]). by rewrite <- app_assoc.
Qed.

Lemma dec_digits_read fuel n :
  0 ≤ n < Z.of_nat fuel →
  ∃ k, 0 < k ∧ read_digits 0 0 (dec_digits fuel n []) = (n, k, []).
Proof.
  revert n; induction fuel as [|fuel IH]; intros n Hn; [lia|]. simpl.
  assert (is_digit (48 + n mod 10) = true) as Hd.
  { pose proof (Z.mod_pos_bound n 10). unfold is_digit. apply andb_true_iff; split; apply Z.leb_le; lia. }
  case (Z.ltb_spec n 10); intros Hlt.
  - simpl. rewrite Hd. exists 1. rewrite Z.mod_small by lia. split; [lia|]. repeat f_equal; lia.
  - assert (n / 10 < n) by (apply Z.div_lt; lia).
    assert (0 ≤ n / 10) by (apply Z.div_pos; lia).
    destruct (IH (n / 10) ltac:(lia)) as (k & Hk & Hr).
    rewrite dec_digits_app.
    rewrite (read_digits_app_digits _ _ _ _ _ _ Hr _ eq_refl Hd).
    exists (k + 1). split; [lia|]. pose proof (Z.div_mod n 10). repeat f_equal. lia.
Qed.

Lemma dec_digits_digits fuel n acc :
  Forall (λ c, is_digit c = true) acc → Forall (λ c, is_digit c = true) (dec_digits fuel n acc).
Proof.
  revert n acc; induction fuel as [|fuel IH]; intros n acc Ha; simpl; [done|].
  assert (is_digit (48 + n mod 10) = true) as Hd.
  { pose proof (Z.mod_pos_bound n 10). unfold is_digit. apply andb_true_iff; split; apply Z.leb_le; lia. }
  destruct (n <? 10); [|apply IH]; by constructor.
Qed.

Lemma dec_text_digits n : Forall (λ c, is_digit c = true) (dec_text n).
Proof. by apply dec_digits_digits. Qed.

Lemma digit_not_space c : is_digit c = true → is_js_space c = false.
Proof. unfold is_digit, is_js_space. intros H. b2p. repeat (apply orb_false_iff; split); try (apply andb_false_iff; right; apply Z.leb_gt; lia) || (try apply andb_false_iff; try left; (apply Z.leb_gt || apply Z.eqb_neq); lia). Qed.

Lemma skip_space_digits l : Forall (λ c, is_digit c = true) l → skip_space l = l.
Proof. destruct 1; simpl; [done|]. by rewrite digit_not_space. Qed.

Lemma js_trim_digits l : Forall (λ c, is_digit c = true) l → js_trim l = l.
Proof.
  intros H. unfold js_trim. rewrite (skip_space_digits l) by done.
  rewrite skip_space_digits by (by apply List.Forall_rev). apply rev_involutive.
Qed.

Lemma js_number_dec n : 0 ≤ n < 2 ^ 53 → js_number (dec_text n) = NInt n.
Proof.
  intros Hn. unfold js_number.
  pose proof (dec_text_digits n) as Hd. rewrite js_trim_digits by done.
  destruct (dec_digits_read (S (Z.to_nat n)) n ltac:(lia)) as (k & Hk & Hr).
  fold (dec_text n) in Hr. destruct (dec_text n) as [|c l] eqn:Ht; [simpl in Hr; naive_solver lia|].
  apply Forall_cons in Hd as [Hc _].
  assert (c ≠ 45 ∧ c ≠ 43) as [H1 H2] by (unfold is_digit in Hc; b2p; lia).
  apply Z.eqb_neq in H1, H2. rewrite H1, H2. unfold parse_unsigned. rewrite Hr.
  case (Z.eqb_spec k 0); [lia|]. intros _. apply round_double_exact. lia.
Qed.

(** ** Rounding does not pass an integer bound *)

Lemma half_even_le n d K : 0 < d → n ≤ K * d → half_even n d ≤ K.
Proof.
  intros Hd Hn. unfold half_even. pose proof (Z.div_mod n d ltac:(lia)) as Hdm.
  pose proof (Z.mod_pos_bound n d Hd).
  assert (n / d ≤ K) by (apply Z.div_le_upper_bound; lia).
  destruct (Z.ltb_spec d (2 * (n mod d))); simpl; [nia|].
  destruct (Z.eqb_spec (2 * (n mod d)) d); simpl; [|done]. destruct (Z.odd _); [nia|done].
Qed.

Lemma normal_dyadic_ceil fuel m k C :
  (Z.to_nat k < fuel)%nat → 0 ≤ k → m ≤ C * 2 ^ k → num_ceil (normal_dyadic fuel m k) ≤ C.
Proof.
  revert m k; induction fuel as [|fuel IH]; intros m k Hf Hk Hm; [lia|]. simpl.
  destruct k as [|p|p]; [simpl; lia| |lia].
  assert (2 ^ Zpos p = 2 * 2 ^ (Zpos p - 1)) as Hp.
  { replace (Zpos p) with (Z.succ (Zpos p - 1)) at 1 by lia. rewrite Z.pow_succ_r; lia. }
  destruct (Z.even m) eqn:He.
  - apply IH; [lia|lia|]. apply Z.div_le_upper_bound; lia.
  - simpl. assert (m ≠ C * 2 ^ Zpos p).
    { intros ->. rewrite Hp, Z.mul_assoc, (Z.mul_comm C 2), <- Z.mul_assoc, Z.even_mul in He. done. }
    assert (0 < 2 ^ Zpos p) by (apply Z.pow_pos_nonneg; lia).
    assert (m / 2 ^ Zpos p < C) by (apply Z.div_lt_upper_bound; lia). lia.
Qed.

Lemma num_add_ceil z m k C :
  0 < z * 2 ^ Zpos k + m ≤ C * 2 ^ Zpos k → C < 2 ^ 31 → num_ceil (num_add z (NFrac m k)) ≤ C.
Proof.
  intros Hn HC. simpl. set (n := z * 2 ^ Zpos k + m) in *. set (d := 2 ^ Zpos k) in *.
  assert (0 < d) as Hd by (apply Z.pow_pos_nonneg; lia).
  unfold round_double. case (Z.eqb_spec n 0); [lia|]. intros _.
  case (Z.ltb_spec n 0); [lia|]. intros _. unfold round_double_pos.
  assert (0 < C) by nia.
  assert (Z.log2 n - Z.log2 d ≤ 31) as Hlog.
  { assert (Z.log2 n ≤ Z.log2 (C * d)) by (apply Z.log2_le_mono; lia).
    assert (Z.log2 (C * d) ≤ Z.log2 C + Z.log2 d + 1) by (apply Z.log2_mul_above; lia).
    assert (Z.log2 C < 31) by (apply Z.log2_lt_pow2; lia). lia. }
  set (e := if _ : bool then Z.log2 n - Z.log2 d - 1 else Z.log2 n - Z.log2 d).
  assert (e ≤ 31) by (unfold e; case_match; lia).
  assert (Z.max (e - 52) (-1074) < 0) as Hq by lia. set (q := Z.max _ _) in *.
  case (Z.leb_spec 0 q); [lia|]. intros _. simpl.
  apply normal_dyadic_ceil; [lia|lia|]. apply half_even_le; [done|].
  assert (0 < 2 ^ (- q)) by (apply Z.pow_pos_nonneg; lia). nia.
Qed.
