(* ===== verification/Utf8.v ===== *)
(** * Texts and their UTF-8 bytes

    The sources move texts between three forms: JavaScript strings (sequences
    of UTF-16 units), code points (what [for (const c of text)] visits) and
    UTF-8 bytes ([TextEncoder], [TextDecoder]).  This file gives the three as
    lists of integers with their conversions, the decoder of the Encoding
    Standard as a state machine fed byte by byte, and the [TextDecoder] object
    with its [stream], [fatal] and [ignoreBOM] options.  The theorems state that
    a fatal decoder accepts exactly the bytes an encoder writes, and that a
    streaming decoder does not depend on how its input is cut. *)

From stdpp Require Import base numbers list.
From Stdlib Require Import ZArith Lia.
From S2P Require Import Prelude.

#[local] Open Scope Z_scope.

(** ** UTF-16 units and code points *)

Definition is_high (u : Z) : bool := (55296 <=? u) && (u <=? 56319).
Definition is_low (u : Z) : bool := (56320 <=? u) && (u <=? 57343).
Definition is_surrogate (c : Z) : bool := (55296 <=? c) && (c <=? 57343).

(** [for (const character of text) ... character.codePointAt(0)]: a lone surrogate is visited as itself. *)
Fixpoint points (l : list Z) : list Z :=
  match l with
  | [] => []
  | u :: l' =>
    match l' with
    | v :: l'' =>
      if is_high u && is_low v then ((u - 55296) * 1024 + (v - 56320) + 65536) :: points l''
      else u :: points l'
    | [] => [u]
    end
  end.

(** The units of a code point: [String.fromCodePoint]. *)
Definition units1 (c : Z) : list Z :=
  if 65535 <? c then [55296 + (c - 65536) / 1024; 56320 + (c - 65536) mod 1024] else [c].
Definition units (l : list Z) : list Z := l ≫= units1.

(** ** Encoding *)

(** The argument of [encode] is a USVString: surrogates become U+FFFD. *)
Definition scalar_of (c : Z) : Z := if is_surrogate c then 65533 else c.

Definition trail (c : Z) (k : Z) : Z := Z.lor 128 (Z.land (Z.shiftr c (6 * k)) 63).

Definition encode1 (c : Z) : list Z :=
  if c <=? 127 then [c]
  else if c <=? 2047 then [Z.shiftr c 6 + 192; trail c 0]
  else if c <=? 65535 then [Z.shiftr c 12 + 224; trail c 1; trail c 0]
  else [Z.shiftr c 18 + 240; trail c 2; trail c 1; trail c 0].

Definition encode_points (l : list Z) : list Z := l ≫= encode1.

(** [new TextEncoder().encode(text)] of a string. *)
Definition text_encode (text : list Z) : list Z := encode_points (scalar_of <$> points text).

(** ** The decoder *)

(** The code point so far, the bytes still needed, and the bounds of the next byte. *)
Record utf8_state : Type := mkUtf8 { u_point : Z; u_need : nat; u_lower : Z; u_upper : Z }.

Definition utf8_init : utf8_state := mkUtf8 0 0 128 191.

#[export] Instance utf8_state_eq_dec : EqDecision utf8_state.
Proof. solve_decision. Defined.

(** A byte where a sequence may start: [None] in the output is an error. *)
Definition utf8_lead (b : Z) : utf8_state * list (option Z) :=
  if b <=? 127 then (utf8_init, [Some b])
  else if (194 <=? b) && (b <=? 223) then (mkUtf8 (Z.land b 31) 1 128 191, [])
  else if (224 <=? b) && (b <=? 239) then
    (mkUtf8 (Z.land b 15) 2 (if b =? 224 then 160 else 128) (if b =? 237 then 159 else 191), [])
  else if (240 <=? b) && (b <=? 244) then
    (mkUtf8 (Z.land b 7) 3 (if b =? 240 then 144 else 128) (if b =? 244 then 143 else 191), [])
  else (utf8_init, [None]).

(** One byte; a byte that cannot continue a sequence ends it with an error and is read again. *)
Definition utf8_byte (b : Z) (s : utf8_state) : utf8_state * list (option Z) :=
  match u_need s with
  | O => utf8_lead b
  | S n =>
    if (u_lower s <=? b) && (b <=? u_upper s) then
      let point := Z.lor (Z.shiftl (u_point s) 6) (Z.land b 63) in
      match n with
      | O => (utf8_init, [Some point])
      | S _ => (mkUtf8 point n 128 191, [])
      end
    else let '(s1, out) := utf8_lead b in (s1, None :: out)
  end.

Fixpoint utf8_run (l : list Z) (s : utf8_state) : utf8_state * list (option Z) :=
  match l with
  | [] => (s, [])
  | b :: l' =>
    let '(s1, o1) := utf8_byte b s in
    let '(s2, o2) := utf8_run l' s1 in
    (s2, o1 ++ o2)
  end.

(** The end of the input inside a sequence is one more error. *)
Definition utf8_end (s : utf8_state) : list (option Z) :=
  match u_need s with O => [] | S _ => [None] end.

(** ** [TextDecoder] *)

Record decoder : Type := mkDecoder { d_state : utf8_state; d_bomSeen : bool; d_doNotFlush : bool }.

Definition new_decoder : decoder := mkDecoder utf8_init false false.

(** Removes the byte order mark in front of a stream, unless [ignoreBOM]. *)
Definition serialize (ignoreBOM bomSeen : bool) (out : list Z) : list Z * bool :=
  if ignoreBOM || bomSeen then (out, bomSeen)
  else match out with
       | [] => ([], false)
       | c :: out' => (if c =? 65279 then out' else out, true)
       end.

Definition replace_errors (out : list (option Z)) : list Z := default 65533 <$> out.

(** [decoder.decode(bytes, {stream})]: a call after one without [stream] starts afresh. *)
Definition decode (ignoreBOM stream : bool) (bytes : list Z) (d : decoder) : list Z * decoder :=
  let d0 := if d_doNotFlush d then d else new_decoder in
  let '(s, out) := utf8_run bytes (d_state d0) in
  let out := if stream then out else out ++ utf8_end s in
  let s := if stream then s else utf8_init in
  let '(text, bom) := serialize ignoreBOM (d_bomSeen d0) (replace_errors out) in
  (text, mkDecoder s bom stream).

(** [new TextDecoder("utf-8", {ignoreBOM}).decode(bytes)]. *)
Definition decode_once (ignoreBOM : bool) (bytes : list Z) : list Z :=
  (decode ignoreBOM false bytes new_decoder).1.

(** The same with [fatal: true]: [None] is the TypeError. *)
Definition decode_fatal (ignoreBOM : bool) (bytes : list Z) : option (list Z) :=
  let '(s, out) := utf8_run bytes utf8_init in
  out ← mapM (M := option) id (out ++ utf8_end s);
  Some (serialize ignoreBOM false out).1.

Example decode_examples :
  decode_once false [239; 187; 191; 104; 195; 169] = [104; 233] ∧
  decode_once true [239; 187; 191; 104] = [65279; 104] ∧
  decode_once false [240; 159; 146; 41; 226; 130] = [65533; 41; 65533] ∧
  decode_fatal false [195; 40] = None ∧
  text_encode [55357; 56489; 55357] = [240; 159; 146; 169; 239; 191; 189].
Proof. by vm_compute. Qed.

(** ** Arithmetic of the encoder and the decoder *)

Definition scalar (c : Z) : Prop := (0 ≤ c < 55296) ∨ (57344 ≤ c ≤ 1114111).
Definition is_byte (b : Z) : Prop := 0 ≤ b < 256.

Lemma next_point a b : Z.lor (Z.shiftl a 6) (Z.land b 63) = a * 64 + b mod 64.
Proof.
  change 63 with (Z.ones 6). rewrite Z.land_ones by done.
  pose proof (Z.mod_pos_bound b (2 ^ 6) ltac:(done)). by rewrite Z.shiftl_mul_pow2, lor_low.
Qed.

Lemma trail_spec c k : 0 ≤ k → trail c k = 128 + c / 2 ^ (6 * k) mod 64.
Proof.
  intros Hk. unfold trail. change 63 with (Z.ones 6). rewrite Z.land_ones, Z.shiftr_div_pow2 by lia.
  pose proof (Z.mod_pos_bound (c / 2 ^ (6 * k)) (2 ^ 6) ltac:(done)).
  change 128 with (Z.shiftl 2 6). rewrite Z.shiftl_mul_pow2, lor_low by done. done.
Qed.

Lemma encode1_cases c :
  encode1 c =
    if c <=? 127 then [c]
    else if c <=? 2047 then [c / 64 + 192; 128 + c mod 64]
    else if c <=? 65535 then [c / 4096 + 224; 128 + c / 64 mod 64; 128 + c mod 64]
    else [c / 262144 + 240; 128 + c / 4096 mod 64; 128 + c / 64 mod 64; 128 + c mod 64].
Proof.
  unfold encode1. rewrite !trail_spec, !Z.shiftr_div_pow2 by lia. simpl Z.mul.
  change (2 ^ 0) with 1. rewrite Z.div_1_r. done.
Qed.

Lemma land_small b m k : m = Z.ones k → 0 ≤ k → Z.land b m = b mod 2 ^ k.
Proof. intros -> Hk. by apply Z.land_ones. Qed.

(** The lead byte of a sequence, by the range it is in. *)
Lemma utf8_lead_cases b :
  utf8_lead b =
    if b <=? 127 then (utf8_init, [Some b])
    else if (194 <=? b) && (b <=? 223) then (mkUtf8 (b mod 32) 1 128 191, [])
    else if (224 <=? b) && (b <=? 239) then
      (mkUtf8 (b mod 16) 2 (if b =? 224 then 160 else 128) (if b =? 237 then 159 else 191), [])
    else if (240 <=? b) && (b <=? 244) then
      (mkUtf8 (b mod 8) 3 (if b =? 240 then 144 else 128) (if b =? 244 then 143 else 191), [])
    else (utf8_init, [None]).
Proof.
  unfold utf8_lead. by rewrite (land_small b 31 5), (land_small b 15 4), (land_small b 7 3).
Qed.

(** One step inside a sequence. *)
Lemma utf8_next p n lo hi b :
  lo ≤ b ≤ hi →
  utf8_byte b (mkUtf8 p (S n) lo hi) =
    match n with O => (utf8_init, [Some (p * 64 + b mod 64)]) | S _ => (mkUtf8 (p * 64 + b mod 64) n 128 191, []) end.
Proof.
  intros H. unfold utf8_byte. simpl u_need. cbn iota. rewrite next_point. simpl.
  rewrite (proj2 (Z.leb_le lo b)), (proj2 (Z.leb_le b hi)) by lia. by destruct n.
Qed.

Lemma utf8_stop p n lo hi b :
  ¬ (lo ≤ b ≤ hi) → ∃ s o, utf8_byte b (mkUtf8 p (S n) lo hi) = (s, None :: o).
Proof.
  intros H. unfold utf8_byte. simpl.
  destruct (Z.leb_spec lo b), (Z.leb_spec b hi); simpl; try lia; destruct (utf8_lead b); eauto.
Qed.

(** ** Round trip *)

Lemma utf8_run_app l1 l2 s :
  utf8_run (l1 ++ l2) s =
    let '(s1, o1) := utf8_run l1 s in let '(s2, o2) := utf8_run l2 s1 in (s2, o1 ++ o2).
Proof.
  revert s. induction l1 as [|b l1 IH]; intros s; simpl; [by destruct (utf8_run l2 s)|].
  destruct (utf8_byte b s) as [s1 o1]. rewrite IH. destruct (utf8_run l1 s1) as [s2 o2].
  destruct (utf8_run l2 s2) as [s3 o3]. by rewrite app_assoc.
Qed.

Lemma utf8_run_encode1 c : scalar c → utf8_run (encode1 c) utf8_init = (utf8_init, [Some c]).
Proof.
  intros Hc. rewrite encode1_cases. unfold scalar in Hc.
  destruct (Z.leb_spec c 127); [|destruct (Z.leb_spec c 2047); [|destruct (Z.leb_spec c 65535)]];
    cbn [utf8_run]; unfold utf8_byte at 1; simpl u_need; cbn iota; rewrite utf8_lead_cases.
  - by rewrite (proj2 (Z.leb_le c 127)).
  - assert (194 ≤ c / 64 + 192 ≤ 223) by (Z.to_euclidean_division_equations; lia).
    repeat (case_match; b2p; try lia; simplify_eq).
    rewrite utf8_next in * by (Z.to_euclidean_division_equations; lia). simplify_eq/=. repeat f_equal.
    Z.to_euclidean_division_equations. lia.
  - assert (224 ≤ c / 4096 + 224 ≤ 239) by (Z.to_euclidean_division_equations; lia).
    rewrite (proj2 (Z.leb_gt _ 127)), (proj2 (Z.leb_gt (c / 4096 + 224) 223)), andb_false_r by lia.
    rewrite (proj2 (Z.leb_le 224 _)), (proj2 (Z.leb_le _ 239)) by lia. simpl andb. cbn iota.
    rewrite utf8_next.
    2:{ case_match; b2p; case_match; b2p; Z.to_euclidean_division_equations; lia. }
    rewrite utf8_next by (Z.to_euclidean_division_equations; lia). simpl. repeat f_equal.
    Z.to_euclidean_division_equations. lia.
  - assert (240 ≤ c / 262144 + 240 ≤ 244) by (Z.to_euclidean_division_equations; lia).
    rewrite (proj2 (Z.leb_gt _ 127)), (proj2 (Z.leb_gt (c / 262144 + 240) 223)), (proj2 (Z.leb_gt (c / 262144 + 240) 239)),
      !andb_false_r by lia.
    rewrite (proj2 (Z.leb_le 240 _)), (proj2 (Z.leb_le _ 244)) by lia. simpl andb. cbn iota.
    rewrite utf8_next.
    2:{ case_match; b2p; case_match; b2p; Z.to_euclidean_division_equations; lia. }
    rewrite utf8_next by (Z.to_euclidean_division_equations; lia).
    rewrite utf8_next by (Z.to_euclidean_division_equations; lia). simpl. repeat f_equal.
    Z.to_euclidean_division_equations. lia.
Qed.

Lemma encode_points_cons c l : encode_points (c :: l) = encode1 c ++ encode_points l.
Proof. done. Qed.

Lemma utf8_run_encode l :
  Forall scalar l → utf8_run (encode_points l) utf8_init = (utf8_init, Some <$> l).
Proof.
  induction 1 as [|c l Hc _ IH]; [done|].
  by rewrite encode_points_cons, utf8_run_app, utf8_run_encode1, IH.
Qed.

(** ** Exactness *)

(** All outcomes of a run that ends after [l]. *)
Definition utf8_all (l : list Z) (s : utf8_state) : list (option Z) :=
  let '(s1, out) := utf8_run l s in out ++ utf8_end s1.

Lemma utf8_all_cons b l s : utf8_all (b :: l) s = (utf8_byte b s).2 ++ utf8_all l (utf8_byte b s).1.
Proof.
  unfold utf8_all. simpl. destruct (utf8_byte b s) as [s1 o1]. simpl.
  destruct (utf8_run l s1). by rewrite app_assoc.
Qed.

(** Inside a sequence a run without errors goes on with a byte in bounds. *)
Lemma utf8_all_inside l p n lo hi t :
  utf8_all l (mkUtf8 p (S n) lo hi) = Some <$> t →
  ∃ b l', l = b :: l' ∧ lo ≤ b ≤ hi ∧
    match n with
    | O => ∃ t', t = (p * 64 + b mod 64) :: t' ∧ utf8_all l' utf8_init = Some <$> t'
    | S _ => utf8_all l' (mkUtf8 (p * 64 + b mod 64) n 128 191) = Some <$> t
    end.
Proof.
  destruct l as [|b l']; [by destruct t|]. rewrite utf8_all_cons.
  destruct (decide (lo ≤ b ≤ hi)) as [Hb|Hb].
  - rewrite utf8_next by done. intros H. exists b, l'. split; [done|]. split; [done|].
    destruct n; [|done]. destruct t as [|c t']; [done|]. simpl in H. injection H as <- H. eauto.
  - destruct (utf8_stop p n lo hi b Hb) as (s & o & ->). by destruct t.
Qed.

Lemma encode1_1 b : b ≤ 127 → [b] = encode1 b.
Proof. intros. rewrite encode1_cases. by rewrite (proj2 (Z.leb_le b 127)). Qed.

Lemma encode1_2 b b1 : 194 ≤ b ≤ 223 → 128 ≤ b1 ≤ 191 →
  [b; b1] = encode1 (b mod 32 * 64 + b1 mod 64) ∧ scalar (b mod 32 * 64 + b1 mod 64).
Proof.
  intros. set (c := b mod 32 * 64 + b1 mod 64).
  assert (c = (b - 192) * 64 + (b1 - 128)) as -> by (unfold c; Z.to_euclidean_division_equations; lia).
  rewrite encode1_cases. unfold scalar. repeat (case_match; b2p; try lia).
  split; [|lia]. repeat f_equal; Z.to_euclidean_division_equations; lia.
Qed.

Lemma encode1_3 b b1 b2 : 224 ≤ b ≤ 239 →
  (if b =? 224 then 160 else 128) ≤ b1 ≤ (if b =? 237 then 159 else 191) → 128 ≤ b2 ≤ 191 →
  let c := (b mod 16 * 64 + b1 mod 64) * 64 + b2 mod 64 in [b; b1; b2] = encode1 c ∧ scalar c.
Proof.
  intros Hb H1 H2 c.
  assert (128 ≤ b1 ≤ 191) as H1' by (repeat case_match; lia).
  assert (c = (b - 224) * 4096 + (b1 - 128) * 64 + (b2 - 128)) as -> by (unfold c; Z.to_euclidean_division_equations; lia).
  assert (b = 224 → 160 ≤ b1) by (intros ->; simpl in *; lia).
  assert (b = 237 → b1 ≤ 159) by (intros ->; simpl in *; lia).
  clear H1. rewrite encode1_cases. unfold scalar. repeat (case_match; b2p; try lia).
  split; [|lia]. repeat f_equal; Z.to_euclidean_division_equations; lia.
Qed.

Lemma encode1_4 b b1 b2 b3 : 240 ≤ b ≤ 244 →
  (if b =? 240 then 144 else 128) ≤ b1 ≤ (if b =? 244 then 143 else 191) → 128 ≤ b2 ≤ 191 → 128 ≤ b3 ≤ 191 →
  let c := ((b mod 8 * 64 + b1 mod 64) * 64 + b2 mod 64) * 64 + b3 mod 64 in [b; b1; b2; b3] = encode1 c ∧ scalar c.
Proof.
  intros Hb H1 H2 H3 c.
  assert (128 ≤ b1 ≤ 191) as H1' by (repeat case_match; lia).
  assert (c = (b - 240) * 262144 + (b1 - 128) * 4096 + (b2 - 128) * 64 + (b3 - 128)) as ->
    by (unfold c; Z.to_euclidean_division_equations; lia).
  assert (b = 240 → 144 ≤ b1) by (intros ->; simpl in *; lia).
  assert (b = 244 → b1 ≤ 143) by (intros ->; simpl in *; lia).
  clear H1. rewrite encode1_cases. unfold scalar. repeat (case_match; b2p; try lia).
  split; [|lia]. repeat f_equal; Z.to_euclidean_division_equations; lia.
Qed.

Lemma utf8_all_exact l t :
  Forall is_byte l → utf8_all l utf8_init = Some <$> t → l = encode_points t ∧ Forall scalar t.
Proof.
  remember (length l) as n eqn:Hn. revert l t Hn.
  induction n as [n IH] using (well_founded_induction lt_wf). intros l t -> Hl.
  destruct l as [|b l]; [destruct t; [by split|done]|]. rewrite utf8_all_cons.
  apply Forall_cons in Hl as [Hb Hl]. unfold is_byte in Hb.
  assert (∀ l1 l2 c t', l = l1 ++ l2 → utf8_all l2 utf8_init = Some <$> t' → (b :: l1) = encode1 c → scalar c →
            b :: l = encode_points (c :: t') ∧ Forall scalar (c :: t')) as Hstep.
  { intros l1 l2 c t' -> Ht Hc Hs. apply Forall_app in Hl as [_ Hl].
    destruct (IH (length l2) ltac:(simpl; rewrite length_app; lia) l2 t' eq_refl Hl Ht) as [-> HF].
    split; [|by constructor]. by rewrite encode_points_cons, <- Hc. }
  unfold utf8_byte. simpl u_need. cbn iota. rewrite utf8_lead_cases.
  destruct (Z.leb_spec b 127).
  { intros Hr. destruct t as [|c t]; [done|]. injection Hr as <- Hr.
    apply (Hstep [] l); [done|done|by apply encode1_1|unfold scalar; lia]. }
  destruct ((194 <=? b) && (b <=? 223)) eqn:H2.
  { b2p. simpl app. intros (b1 & l1 & -> & Hb1 & t' & -> & Ht)%utf8_all_inside.
    destruct (encode1_2 b b1) as [He Hs]; [lia..|]. by apply (Hstep [b1] l1). }
  destruct ((224 <=? b) && (b <=? 239)) eqn:H3.
  { b2p. simpl app. intros (b1 & l1 & -> & Hb1 & (b2 & l2 & -> & Hb2 & t' & -> & Ht)%utf8_all_inside)%utf8_all_inside.
    destruct (encode1_3 b b1 b2) as [He Hs]; [lia..|]. by apply (Hstep [b1; b2] l2). }
  destruct ((240 <=? b) && (b <=? 244)) eqn:H4.
  { b2p. simpl app. intros (b1 & l1 & -> & Hb1 & (b2 & l2 & -> & Hb2 &
      (b3 & l3 & -> & Hb3 & t' & -> & Ht)%utf8_all_inside)%utf8_all_inside)%utf8_all_inside.
    destruct (encode1_4 b b1 b2 b3) as [He Hs]; [lia..|]. by apply (Hstep [b1; b2; b3] l3). }
  by destruct t.
Qed.

Lemma mapM_id_Some (out : list (option Z)) t : mapM (M := option) id out = Some t ↔ out = Some <$> t.
Proof.
  rewrite mapM_Some. revert t. induction out as [|o out IH]; intros t; split.
  - intros H. by inversion H.
  - intros H. destruct t; [constructor|done].
  - intros H. inversion H as [|? c ? t' Ho Ht]; subst. simpl. f_equal; [done|]. by apply IH.
  - intros H. destruct t as [|c t]; [done|]. injection H as -> H. constructor; [done|]. by apply IH.
Qed.

Lemma decode_fatal_encode t : Forall scalar t → decode_fatal true (encode_points t) = Some t.
Proof.
  intros Ht. unfold decode_fatal. rewrite utf8_run_encode by done. simpl. rewrite app_nil_r.
  by rewrite (proj2 (mapM_id_Some _ t)).
Qed.

(** A fatal [TextDecoder] with [ignoreBOM] accepts exactly the byte
    sequences that [TextEncoder] writes for Unicode scalar values, and
    gives back the text that was encoded: no overlong form, surrogate, truncated
    sequence or value above U+10FFFF is accepted, and nothing well formed is
    refused. *)
Theorem utf8_fatal_exact bytes t :
  Forall is_byte bytes →
  decode_fatal true bytes = Some t ↔ bytes = encode_points t ∧ Forall scalar t.
Proof.
  intros Hb. unfold decode_fatal. split.
  - destruct (utf8_run bytes utf8_init) as [s out] eqn:Hr. simpl.
    destruct (mapM id (out ++ utf8_end s)) as [t0|] eqn:Hm; [|done]. simpl. intros [= ->].
    apply utf8_all_exact; [done|]. unfold utf8_all. rewrite Hr. by apply mapM_id_Some.
  - intros [-> Ht]. by apply decode_fatal_encode.
Qed.

Lemma utf8_fatal_exact_witness :
  Forall is_byte [226; 130; 172; 33] ∧
  (decode_fatal true [226; 130; 172; 33] = Some [8364; 33] ↔
   [226; 130; 172; 33] = encode_points [8364; 33] ∧ Forall scalar [8364; 33]).
Proof.
  assert (Forall is_byte [226; 130; 172; 33]) as H by (repeat constructor; lia).
  split; [exact H|]. exact (utf8_fatal_exact [226; 130; 172; 33] [8364; 33] H).
Defined.

(** ** Streams *)

(** What a decoder has been given and what it has returned. *)
Fixpoint decode_chunks (ignoreBOM : bool) (chunks : list (list Z)) (d : decoder) : list Z * decoder :=
  match chunks with
  | [] => ([], d)
  | c :: rest =>
    let '(t1, d1) := decode ignoreBOM true c d in
    let '(t2, d2) := decode_chunks ignoreBOM rest d1 in
    (t1 ++ t2, d2)
  end.

Lemma serialize_app ib bom o1 o2 :
  serialize ib bom (o1 ++ o2) =
    let '(t1, b1) := serialize ib bom o1 in let '(t2, b2) := serialize ib b1 o2 in (t1 ++ t2, b2).
Proof.
  unfold serialize. destruct (ib || bom) eqn:Hb; simpl; [by rewrite Hb|].
  apply orb_false_iff in Hb as [-> ->].
  destruct o1 as [|c o1]; simpl; [by destruct o2|]. by destruct (c =? 65279).
Qed.

Lemma decode_app ib l1 l2 d :
  decode ib true (l1 ++ l2) d =
    let '(t1, d1) := decode ib true l1 d in let '(t2, d2) := decode ib true l2 d1 in (t1 ++ t2, d2).
Proof.
  unfold decode. set (d0 := if d_doNotFlush d then d else new_decoder). rewrite utf8_run_app.
  destruct (utf8_run l1 (d_state d0)) as [s1 o1].
  unfold replace_errors.
  destruct (serialize ib (d_bomSeen d0) (default 65533 <$> o1)) as [t1 b1] eqn:H1. simpl.
  destruct (utf8_run l2 s1) as [s2 o2]. rewrite fmap_app, serialize_app, H1.
  by destruct (serialize ib b1 (default 65533 <$> o2)).
Qed.

(** A stream cut into chunks decodes as the whole. *)
Lemma decode_chunks_join ib c chunks d :
  decode_chunks ib (c :: chunks) d = decode ib true (c ++ concat chunks) d.
Proof.
  revert c d. induction chunks as [|c' chunks IH]; intros c d.
  - simpl. rewrite app_nil_r. destruct (decode ib true c d). by rewrite app_nil_r.
  - change (concat (c' :: chunks)) with (c' ++ concat chunks). rewrite decode_app.
    change (decode_chunks ib (c :: c' :: chunks) d) with
      (let '(t1, d1) := decode ib true c d in
       let '(t2, d2) := decode_chunks ib (c' :: chunks) d1 in (t1 ++ t2, d2)).
    destruct (decode ib true c d) as [t1 d1]. by rewrite IH.
Qed.

(** A decoder between two characters of a stream. *)
Definition between (d : decoder) : Prop := d_state d = utf8_init ∧ d_doNotFlush d = true ∧ d_bomSeen d = true.

Lemma utf8_run_ascii bytes : Forall (λ b, 0 ≤ b ≤ 127) bytes → utf8_run bytes utf8_init = (utf8_init, Some <$> bytes).
Proof.
  induction 1 as [|b l Hb _ IH]; [done|]. simpl. unfold utf8_byte. simpl. unfold utf8_lead.
  rewrite (proj2 (Z.leb_le b 127)) by (simpl in Hb; lia). by rewrite IH.
Qed.

Lemma replace_some l : replace_errors (Some <$> l) = l.
Proof. unfold replace_errors. rewrite <- list_fmap_compose. apply list_fmap_id. Qed.

(** Encoded text passes a decoder that is between two characters unchanged. *)
Lemma decode_encoded t d :
  Forall scalar t → between d → decode false true (encode_points t) d = (t, mkDecoder utf8_init true true).
Proof.
  intros Ht (Hs & Hf & Hb). unfold decode. rewrite Hf, Hs, utf8_run_encode, Hb by done. simpl.
  by rewrite replace_some.
Qed.

(** ** Lengths *)

Lemma encode1_length c : zlen (encode1 c) ≤ 3 * zlen (units1 c).
Proof.
  unfold encode1, units1, zlen. repeat (case_match; b2p; try lia; simpl; try lia).
Qed.

Lemma encode_points_length l : zlen (encode_points l) ≤ 3 * zlen (units l).
Proof.
  induction l as [|c l IH]; [done|]. rewrite encode_points_cons.
  change (units (c :: l)) with (units1 c ++ units l). rewrite !zlen_app. pose proof (encode1_length c). lia.
Qed.

Lemma encode1_bytes c : 0 ≤ c ≤ 1114111 → Forall is_byte (encode1 c).
Proof.
  intros Hc. rewrite encode1_cases. unfold is_byte.
  repeat (case_match; b2p); repeat constructor; try lia; Z.to_euclidean_division_equations; lia.
Qed.

(** ** Strings *)

Definition is_unit (u : Z) : Prop := 0 ≤ u ≤ 65535.

Lemma points_pair u v l :
  points (u :: v :: l) =
    if is_high u && is_low v then ((u - 55296) * 1024 + (v - 56320) + 65536) :: points l else u :: points (v :: l).
Proof. done. Qed.

Lemma points_range l : Forall is_unit l → Forall (λ c, 0 ≤ c ≤ 1114111) (points l).
Proof.
  remember (length l) as n eqn:Hn. revert l Hn.
  induction n as [n IH] using (well_founded_induction lt_wf). intros l -> Hl.
  destruct l as [|u l]; [constructor|]. apply Forall_cons in Hl as [Hu Hl]. unfold is_unit in Hu.
  destruct l as [|v l]; [repeat constructor; lia|]. apply Forall_cons in Hl as [Hv Hl'].
  rewrite points_pair.
  destruct (is_high u && is_low v) eqn:Hp.
  - constructor; [unfold is_high, is_low in Hp; b2p; lia|]. apply (IH (length l)); simpl; [lia|done|done].
  - constructor; [lia|]. apply (IH (length (v :: l))); simpl; [lia|done|]. by constructor.
Qed.

Lemma scalar_of_scalar c : 0 ≤ c ≤ 1114111 → scalar (scalar_of c).
Proof. intros Hc. unfold scalar_of, is_surrogate, scalar. case_match; b2p; [lia|]. apply andb_false_iff in H as []; b2p; lia. Qed.

Lemma scalars_of_text text : Forall is_unit text → Forall scalar (scalar_of <$> points text).
Proof. intros H%points_range. apply Forall_fmap. eapply Forall_impl; [done|]. apply scalar_of_scalar. Qed.

Lemma text_encode_bytes text : Forall is_unit text → Forall is_byte (text_encode text).
Proof.
  intros H%scalars_of_text. unfold text_encode, encode_points. apply Forall_bind.
  eapply Forall_impl; [done|]. intros c Hc. apply encode1_bytes. unfold scalar in Hc. lia.
Qed.

(** What [TextEncoder] writes, a decoder between characters reads as the same text, lone surrogates replaced. *)
Lemma decode_text_encode text d :
  Forall is_unit text → between d →
  decode false true (text_encode text) d = (scalar_of <$> points text, mkDecoder utf8_init true true).
Proof. intros H%scalars_of_text. by apply decode_encoded. Qed.

(** Texts without surrogates, such as every text written below, are their own code points. *)
Lemma points_plain text : Forall (λ u, is_surrogate u = false) text → points text = text.
Proof.
  induction 1 as [|u l Hu Hl IH]; [done|]. destruct l as [|v l]; [done|]. rewrite points_pair.
  assert (is_high u = false) as ->.
  { unfold is_surrogate, is_high in *. apply andb_false_iff in Hu. apply andb_false_iff.
    rewrite !Z.leb_gt in *. lia. }
  simpl andb. cbn iota. by rewrite IH.
Qed.

Lemma text_encode_ascii text : Forall (λ u, 0 ≤ u ≤ 127) text → text_encode text = text.
Proof.
  intros H. unfold text_encode. rewrite points_plain.
  2:{ eapply Forall_impl; [done|]. intros u Hu. simpl in Hu. unfold is_surrogate. by rewrite (proj2 (Z.leb_gt 55296 u)) by lia. }
  induction H as [|u l Hu Hl IH]; [done|]. rewrite fmap_cons, encode_points_cons, IH. simpl in Hu.
  unfold scalar_of, is_surrogate. rewrite (proj2 (Z.leb_gt 55296 u)) by lia. simpl.
  unfold encode1. by rewrite (proj2 (Z.leb_le u 127)) by lia.
Qed.

(** ** Fields ended by a NUL *)

Lemma encode1_nonzero c : scalar c → c ≠ 0 → Forall (λ b, b ≠ 0) (encode1 c).
Proof.
  intros Hs Hc. assert (0 < c) by (unfold scalar in Hs; lia). rewrite encode1_cases.
  repeat case_match; repeat (apply Forall_cons; split); try apply Forall_nil_2; Z.to_euclidean_division_equations; lia.
Qed.

Lemma encode_nonzero t : Forall scalar t → Forall (λ c, c ≠ 0) t → Forall (λ b, b ≠ 0) (encode_points t).
Proof.
  induction t as [|c t IH]; intros Hs Hn; [constructor|]. apply Forall_cons in Hs as [? ?], Hn as [? ?].
  rewrite encode_points_cons. apply Forall_app. split; [by apply encode1_nonzero|by apply IH].
Qed.

Lemma decode_once_encode ib t : Forall scalar t → ib = true ∨ head t ≠ Some 65279 → decode_once ib (encode_points t) = t.
Proof.
  intros Ht Hb. unfold decode_once, decode. simpl. rewrite utf8_run_encode by done. simpl. rewrite app_nil_r, replace_some.
  unfold serialize. destruct ib; simpl; [done|]. destruct t as [|c t]; [done|]. simpl.
  destruct (Z.eqb_spec c 65279) as [->|]; [|done]. by destruct Hb.
Qed.

Lemma decode_fatal_field t : Forall scalar t → head t ≠ Some 65279 → decode_fatal false (encode_points t) = Some t.
Proof.
  intros Ht Hb. unfold decode_fatal. rewrite utf8_run_encode by done. simpl. rewrite app_nil_r.
  rewrite (proj2 (mapM_id_Some _ t)) by done. simpl. destruct t as [|c t]; [done|]. simpl.
  destruct (Z.eqb_spec c 65279) as [->|]; done.
Qed.

(** ASCII text is its own encoding. *)
Lemma encode_points_ascii l : Forall (λ c, c ≤ 127) l → encode_points l = l.
Proof.
  induction 1 as [|c l Hc _ IH]; [done|]. rewrite encode_points_cons, IH. unfold encode1. by rewrite (proj2 (Z.leb_le _ _) Hc).
Qed.

Lemma units_plain l : Forall (λ c, c ≤ 65535) l → units l = l.
Proof.
  induction 1 as [|c l Hc _ IH]; [done|]. change (units (c :: l)) with (units1 c ++ units l). rewrite IH.
  unfold units1. by rewrite (proj2 (Z.ltb_ge _ _)) by done.
Qed.

Lemma encode_points_bytes l : Forall scalar l → Forall is_byte (encode_points l).
Proof.
  induction 1 as [|c l Hc _ IH]; [constructor|]. rewrite encode_points_cons. apply Forall_app. split; [|done].
  apply encode1_bytes. unfold scalar in Hc. lia.
Qed.

Lemma units_app l1 l2 : units (l1 ++ l2) = units l1 ++ units l2.
Proof. apply bind_app. Qed.

(** Rough bound on the size of an encoded text. *)
Lemma points_length l : (length (points l) ≤ length l)%nat.
Proof.
  induction l as [l IH] using (induction_ltof1 _ length). unfold ltof in IH. destruct l as [|u [|v l]]; [done|done|].
  change (points (u :: v :: l)) with
    (if is_high u && is_low v then ((u - 55296) * 1024 + (v - 56320) + 65536) :: points l else u :: points (v :: l)).
  pose proof (IH l ltac:(simpl; lia)). pose proof (IH (v :: l) ltac:(simpl; lia)).
  destruct (is_high u && is_low v); cbn [length] in *; lia.
Qed.

Lemma text_encode_length text : zlen (text_encode text) ≤ 4 * zlen text.
Proof.
  enough (∀ l, (length (encode_points l) ≤ 4 * length l)%nat) as H.
  { pose proof (H (scalar_of <$> points text)) as H1. rewrite length_fmap in H1. pose proof (points_length text).
    unfold zlen, text_encode. lia. }
  induction l as [|c l IH]; [done|]. rewrite encode_points_cons, length_app. simpl.
  assert (length (encode1 c) ≤ 4)%nat by (unfold encode1; repeat case_match; simpl; lia). lia.
Qed.
