(* ===== verification/TermModel.v ===== *)
(** * The VT/ANSI screen model (src/html-rt/src/terminal/model.js)

    [TerminalModel] keeps two screens of [columns * rows] cells, a cursor per
    screen, a pen and a byte-wise escape-sequence parser.  Each method of the
    class is one definition here, with its name; the object is the record
    [term], threaded explicitly.  [this.active] is a reference to one of the
    two screens, so it is the flag [on_alt].

    JavaScript lets the code read or write past an array or at a fractional
    index; those outcomes are the faults [OutOfRange] and [NonInteger] of
    [result fault], so that their absence is a theorem (file TermSafety).

    [this.current] is an object literal that [restoreCursor] replaces by a copy
    of [this.saved], which also has the properties [x] and [y]: the pen
    therefore carries an optional position ([pen_xy]).  The same two properties
    then spread into the cells drawn with that pen; no code reads them there,
    and cells do not model them. *)

From stdpp Require Import base numbers list strings.
From Stdlib Require Import ZArith Lia.
From S2P Require Import Prelude JsNum.

#[local] Open Scope Z_scope.
#[local] Open Scope waste_scope.

Inductive fault : Type :=
| NonInteger   (* a non-integral number reached an array index, a margin or a palette index *)
| OutOfRange.  (* an integral index outside the cell array *)

(** ** Colours *)

Definition PALETTE : list string :=
  ["#000000"; "#aa0000"; "#00aa00"; "#aa5500";
   "#0000aa"; "#aa00aa"; "#00aaaa"; "#aaaaaa";
   "#555555"; "#ff5555"; "#55ff55"; "#ffff55";
   "#5555ff"; "#ff55ff"; "#55ffff"; "#ffffff"]%string.

Definition palette_at (i : Z) : string := default ""%string (zlookup PALETTE i).

Definition hex_digit (d : Z) : string :=
  match zlookup ["0"; "1"; "2"; "3"; "4"; "5"; "6"; "7"; "8"; "9"; "a"; "b"; "c"; "d"; "e"; "f"]%string d with
  | Some s => s
  | None => ""%string
  end.

(** [clamp(value | 0, 0, 255).toString(16).padStart(2, "0")]: two hexadecimal digits. *)
Definition hex_byte (v : Z) : string :=
  let b := clamp (to_int32 v) 0 255 in (hex_digit (b / 16) +:+ hex_digit (b mod 16))%string.

Definition rgb (red green blue : num) : string :=
  ("#" +:+ hex_byte (num_int32 red) +:+ hex_byte (num_int32 green) +:+ hex_byte (num_int32 blue))%string.

Definition xterm_channel (i : Z) : Z := default 0 (zlookup [0; 95; 135; 175; 215; 255] i).

Definition xtermColor (v : num) : string :=
  let value := clamp (num_int32 v) 0 255 in
  if value <? 16 then palette_at value
  else if 232 <=? value then
    let shade := NInt (8 + (value - 232) * 10) in rgb shade shade shade
  else
    let n := value - 16 in
    rgb (NInt (xterm_channel (n / 36))) (NInt (xterm_channel ((n / 6) mod 6)))
        (NInt (xterm_channel (n mod 6))).

(** ** Data *)

Record attrs : Type := mkAttrs {
  fg : string; bg : string; bold : bool; underline : bool; inverse : bool }.

Record cell : Type := mkCell { code : Z; look : attrs }.

Record screen : Type := mkScreen {
  s_columns : Z; s_rows : Z; s_x : Z; s_y : Z;
  scrollTop : Z; scrollBottom : Z; cells : list cell }.

(** [this.current]: the drawing attributes, and the stray [x], [y] properties. *)
Record pen : Type := mkPen { pen_attrs : attrs; pen_xy : option (Z * Z) }.

Record saved_cursor : Type := mkSaved { sv_x : Z; sv_y : Z; sv_attrs : attrs }.

Inductive pstate : Type := Normal | Esc | Csi | Charset | Osc.

#[export] Instance pstate_eq_dec : EqDecision pstate.
Proof. solve_decision. Defined.
#[export] Instance attrs_eq_dec : EqDecision attrs.
Proof. solve_decision. Defined.
#[export] Instance cell_eq_dec : EqDecision cell.
Proof. solve_decision. Defined.

Record term : Type := mkTerm {
  columns : Z;
  rows : Z;
  primary : screen;
  alternate : screen;
  on_alt : bool;
  saved : saved_cursor;
  cursorVisible : bool;
  applicationCursorKeys : bool;
  applicationKeypad : bool;
  insertMode : bool;
  state : pstate;
  csi : list Z;
  osc : list Z;
  oscEscaped : bool;
  lastGraphic : option cell;
  current : pen;
}.

Definition set_columns (v : Z) (t : term) : term :=
  mkTerm v (rows t) (primary t) (alternate t) (on_alt t) (saved t) (cursorVisible t)
    (applicationCursorKeys t) (applicationKeypad t) (insertMode t) (state t) (csi t)
    (osc t) (oscEscaped t) (lastGraphic t) (current t).
Definition set_rows (v : Z) (t : term) : term :=
  mkTerm (columns t) v (primary t) (alternate t) (on_alt t) (saved t) (cursorVisible t)
    (applicationCursorKeys t) (applicationKeypad t) (insertMode t) (state t) (csi t)
    (osc t) (oscEscaped t) (lastGraphic t) (current t).
Definition set_primary (v : screen) (t : term) : term :=
  mkTerm (columns t) (rows t) v (alternate t) (on_alt t) (saved t) (cursorVisible t)
    (applicationCursorKeys t) (applicationKeypad t) (insertMode t) (state t) (csi t)
    (osc t) (oscEscaped t) (lastGraphic t) (current t).
Definition set_alternate (v : screen) (t : term) : term :=
  mkTerm (columns t) (rows t) (primary t) v (on_alt t) (saved t) (cursorVisible t)
    (applicationCursorKeys t) (applicationKeypad t) (insertMode t) (state t) (csi t)
    (osc t) (oscEscaped t) (lastGraphic t) (current t).
Definition set_on_alt (v : bool) (t : term) : term :=
  mkTerm (columns t) (rows t) (primary t) (alternate t) v (saved t) (cursorVisible t)
    (applicationCursorKeys t) (applicationKeypad t) (insertMode t) (state t) (csi t)
    (osc t) (oscEscaped t) (lastGraphic t) (current t).
Definition set_saved (v : saved_cursor) (t : term) : term :=
  mkTerm (columns t) (rows t) (primary t) (alternate t) (on_alt t) v (cursorVisible t)
    (applicationCursorKeys t) (applicationKeypad t) (insertMode t) (state t) (csi t)
    (osc t) (oscEscaped t) (lastGraphic t) (current t).
Definition set_cursorVisible (v : bool) (t : term) : term :=
  mkTerm (columns t) (rows t) (primary t) (alternate t) (on_alt t) (saved t) v
    (applicationCursorKeys t) (applicationKeypad t) (insertMode t) (state t) (csi t)
    (osc t) (oscEscaped t) (lastGraphic t) (current t).
Definition set_applicationCursorKeys (v : bool) (t : term) : term :=
  mkTerm (columns t) (rows t) (primary t) (alternate t) (on_alt t) (saved t) (cursorVisible t)
    v (applicationKeypad t) (insertMode t) (state t) (csi t) (osc t) (oscEscaped t)
    (lastGraphic t) (current t).
Definition set_applicationKeypad (v : bool) (t : term) : term :=
  mkTerm (columns t) (rows t) (primary t) (alternate t) (on_alt t) (saved t) (cursorVisible t)
    (applicationCursorKeys t) v (insertMode t) (state t) (csi t) (osc t) (oscEscaped t)
    (lastGraphic t) (current t).
Definition set_insertMode (v : bool) (t : term) : term :=
  mkTerm (columns t) (rows t) (primary t) (alternate t) (on_alt t) (saved t) (cursorVisible t)
    (applicationCursorKeys t) (applicationKeypad t) v (state t) (csi t) (osc t)
    (oscEscaped t) (lastGraphic t) (current t).
Definition set_state (v : pstate) (t : term) : term :=
  mkTerm (columns t) (rows t) (primary t) (alternate t) (on_alt t) (saved t) (cursorVisible t)
    (applicationCursorKeys t) (applicationKeypad t) (insertMode t) v (csi t) (osc t)
    (oscEscaped t) (lastGraphic t) (current t).
Definition set_csi (v : list Z) (t : term) : term :=
  mkTerm (columns t) (rows t) (primary t) (alternate t) (on_alt t) (saved t) (cursorVisible t)
    (applicationCursorKeys t) (applicationKeypad t) (insertMode t) (state t) v (osc t)
    (oscEscaped t) (lastGraphic t) (current t).
Definition set_osc (v : list Z) (t : term) : term :=
  mkTerm (columns t) (rows t) (primary t) (alternate t) (on_alt t) (saved t) (cursorVisible t)
    (applicationCursorKeys t) (applicationKeypad t) (insertMode t) (state t) (csi t) v
    (oscEscaped t) (lastGraphic t) (current t).
Definition set_oscEscaped (v : bool) (t : term) : term :=
  mkTerm (columns t) (rows t) (primary t) (alternate t) (on_alt t) (saved t) (cursorVisible t)
    (applicationCursorKeys t) (applicationKeypad t) (insertMode t) (state t) (csi t)
    (osc t) v (lastGraphic t) (current t).
Definition set_lastGraphic (v : option cell) (t : term) : term :=
  mkTerm (columns t) (rows t) (primary t) (alternate t) (on_alt t) (saved t) (cursorVisible t)
    (applicationCursorKeys t) (applicationKeypad t) (insertMode t) (state t) (csi t)
    (osc t) (oscEscaped t) v (current t).
Definition set_current (v : pen) (t : term) : term :=
  mkTerm (columns t) (rows t) (primary t) (alternate t) (on_alt t) (saved t) (cursorVisible t)
    (applicationCursorKeys t) (applicationKeypad t) (insertMode t) (state t) (csi t)
    (osc t) (oscEscaped t) (lastGraphic t) v.

Definition set_scr_xy (x y : Z) (s : screen) : screen :=
  mkScreen (s_columns s) (s_rows s) x y (scrollTop s) (scrollBottom s) (cells s).
Definition set_scr_region (top bottom : Z) (s : screen) : screen :=
  mkScreen (s_columns s) (s_rows s) (s_x s) (s_y s) top bottom (cells s).
Definition set_scr_cells (cs : list cell) (s : screen) : screen :=
  mkScreen (s_columns s) (s_rows s) (s_x s) (s_y s) (scrollTop s) (scrollBottom s) cs.

Definition default_attrs : attrs := mkAttrs (palette_at 7) (palette_at 0) false false false.

Definition blankCell : cell := mkCell 32 default_attrs.

(** ** Screens and the cursor *)

Definition makeScreen (columns rows : Z) : screen :=
  mkScreen columns rows 0 0 0 (rows - 1) (replicate (Z.to_nat (columns * rows)) blankCell).

Definition constructor (cols rws : Z) : term :=
  let columns := Z.max 1 (to_int32 cols) in
  let rows := Z.max 1 (to_int32 rws) in
  mkTerm columns rows (makeScreen columns rows) (makeScreen columns rows) false
    (mkSaved 0 0 default_attrs) true false false false Normal [] [] false None
    (mkPen default_attrs None).

Definition active (t : term) : screen := if on_alt t then alternate t else primary t.

Definition set_active (s : screen) (t : term) : term :=
  if on_alt t then set_alternate s t else set_primary s t.

Definition resetScreen (t : term) (s : screen) : screen :=
  mkScreen (s_columns s) (s_rows s) 0 0 0 (rows t - 1)
    (replicate (length (cells s)) blankCell).

Definition x (t : term) : Z := s_x (active t).
Definition y (t : term) : Z := s_y (active t).

(** The setters [set x(value)] and [set y(value)]. *)
Definition set_x (value : num) (t : term) : term :=
  set_active (set_scr_xy (clamp (num_int32 value) 0 (columns t - 1)) (y t) (active t)) t.
Definition set_y (value : num) (t : term) : term :=
  set_active (set_scr_xy (x t) (clamp (num_int32 value) 0 (rows t - 1)) (active t)) t.

Definition index (t : term) (x y : Z) : Z := y * columns t + x.

Definition cell_at (t : term) (x y : Z) : option cell := zlookup (cells (active t)) (index t x y).

(** What [snapshot] copies out. *)
Record snapshot_t : Type := mkSnapshot {
  sn_columns : Z; sn_rows : Z; sn_x : Z; sn_y : Z; sn_cursorVisible : bool; sn_cells : list cell }.
Definition snapshot (t : term) : snapshot_t :=
  mkSnapshot (columns t) (rows t) (x t) (y t) (cursorVisible t) (cells (active t)).

(** [cells[i]] read as a cell and [cells[i] = c]. *)
Definition get_cell (i : Z) (cs : list cell) : result fault cell := of_option OutOfRange (zlookup cs i).
Definition put_cell (i : Z) (c : cell) (cs : list cell) : result fault (list cell) :=
  of_option OutOfRange (zinsert cs i c).

Definition with_cells (f : list cell → result fault (list cell)) (t : term) : result fault term :=
  let* cs := f (cells (active t)) in
  Ok (set_active (set_scr_cells cs (active t)) t).

(** ** Resizing *)

Definition resizeScreen (columns rows : Z) (old : screen) : result fault screen :=
  let next := makeScreen columns rows in
  let* cs := foldM (λ y cs,
      foldM (λ x cs,
        let* c := get_cell (y * s_columns old + x) (cells old) in
        put_cell (y * columns + x) c cs)
      (seqZ 0 (Z.min columns (s_columns old))) cs)
    (seqZ 0 (Z.min rows (s_rows old))) (cells next) in
  Ok (mkScreen columns rows (clamp (s_x old) 0 (columns - 1)) (clamp (s_y old) 0 (rows - 1))
        (scrollTop next) (scrollBottom next) cs).

Definition resize (cols rws : Z) (t : term) : result fault term :=
  let cols := Z.max 1 (to_int32 cols) in
  let rws := Z.max 1 (to_int32 rws) in
  if (cols =? columns t) && (rws =? rows t) then Ok t
  else
    let old := active t in
    let t1 := set_rows rws (set_columns cols t) in
    let* p := resizeScreen cols rws (primary t) in
    let* a := resizeScreen cols rws (alternate t) in
    let t2 := set_alternate a (set_primary p t1) in
    Ok (set_y (NInt (s_y old)) (set_x (NInt (s_x old)) t2)).

(** ** Erasing and scrolling *)

Definition eraseCell (t : term) : cell :=
  let cur := pen_attrs (current t) in
  mkCell 32 (mkAttrs (if inverse cur then bg cur else fg cur)
                     (if inverse cur then fg cur else bg cur) false false false).

(** [Array.prototype.copyWithin(target, start, end)] on integral arguments. *)
Definition rel_index (len i : Z) : Z := if i <? 0 then Z.max (len + i) 0 else Z.min i len.
Definition copyWithin {A : Type} (target start fin : Z) (l : list A) : list A :=
  let len := zlen l in
  let to := rel_index len target in
  let from := rel_index len start in
  let count := Z.min (rel_index len fin - from) (len - to) in
  if 0 <? count then
    take (Z.to_nat to) l ++ take (Z.to_nat count) (drop (Z.to_nat from) l) ++
    drop (Z.to_nat (to + count)) l
  else l.

Definition fill_cells (from to : Z) (c : cell) (cs : list cell) : result fault (list cell) :=
  foldM (λ i, put_cell i c) (seqZ from (to - from)) cs.

Definition scrollLines (top bottom : Z) (count : num) (down : bool) (t : term) : result fault term :=
  match num_clamp count 1 (bottom - top + 1) with
  | NInt count =>
    let start := top * columns t in
    let fin := (bottom + 1) * columns t in
    let offset := count * columns t in
    let blankStart := if down then start else fin - offset in
    with_cells (λ cs,
      let cs := if down then copyWithin (start + offset) start (fin - offset) cs
                else copyWithin start (start + offset) fin cs in
      fill_cells blankStart (blankStart + offset) (eraseCell t) cs) t
  | _ => Err NonInteger
  end.

Definition lineFeed (t : term) : result fault term :=
  if y t =? scrollBottom (active t)
  then scrollLines (scrollTop (active t)) (scrollBottom (active t)) (NInt 1) false t
  else Ok (set_y (NInt (y t + 1)) t).

Definition reverseIndex (t : term) : result fault term :=
  if y t =? scrollTop (active t)
  then scrollLines (scrollTop (active t)) (scrollBottom (active t)) (NInt 1) true t
  else Ok (set_y (NInt (y t - 1)) t).

Definition changeLines (count : num) (insert : bool) (t : term) : result fault term :=
  if (y t <? scrollTop (active t)) || (scrollBottom (active t) <? y t) then Ok t
  else
    let* t1 := scrollLines (y t) (scrollBottom (active t)) count insert t in
    Ok (set_x (NInt 0) t1).

(** [undefined] where the parameter is absent. *)
Definition setScrollRegion (top bottom : option num) (t : term) : result fault term :=
  let arg (v : option num) (d : Z) := match v with Some v => num_or v d | None => NInt d end in
  match arg top 1, arg bottom (rows t) with
  | NInt top, NInt bottom =>
    let top := top - 1 in
    let bottom := bottom - 1 in
    if (top <? 0) || (rows t <=? bottom) || (bottom <=? top) then Ok t
    else
      let t1 := set_active (set_scr_region top bottom (active t)) t in
      Ok (set_y (NInt 0) (set_x (NInt 0) t1))
  | _, _ => Err NonInteger
  end.

(** ** Printing *)

Definition swap_colors (a : attrs) : attrs :=
  mkAttrs (bg a) (fg a) (bold a) (underline a) (inverse a).

(** A cell drawn with the pen: inverse video swaps the colours. *)
Definition pen_cell (t : term) (c : Z) : cell :=
  let a := pen_attrs (current t) in
  mkCell c (if inverse a then swap_colors a else a).

Definition put (c : Z) (cellOverride : option cell) (t : term) : result fault term :=
  if (c <? 32) || (c =? 127) then Ok t
  else
    let cell := match cellOverride with Some o => o | None => pen_cell t c end in
    let* t1 :=
      (if insertMode t then
         with_cells (foldM (λ column cs,
             let* prev := get_cell (index t (column - 1) (y t)) cs in
             put_cell (index t column (y t)) prev cs)
           (rev (seqZ (x t + 1) (columns t - 1 - x t)))) t
       else Ok t) in
    let* t2 := with_cells (put_cell (index t (x t) (y t)) cell) t1 in
    let t3 := set_lastGraphic (Some cell) t2 in
    if x t3 =? columns t3 - 1
    then lineFeed (set_active (set_scr_xy 0 (y t3) (active t3)) t3)
    else Ok (set_x (NInt (x t3 + 1)) t3).

Definition repeatLast (count : num) (t : term) : result fault term :=
  match lastGraphic t with
  | None => Ok t
  | Some _ =>
    let count := num_clamp (num_or count 1) 1 (columns t * rows t) in
    foldM (λ _ t, match lastGraphic t with
                  | Some g => put (code g) (Some g) t
                  | None => Ok t
                  end)
      (seqZ 0 (num_ceil count)) t
  end.

(** Code points of an ASCII string literal. *)
Fixpoint codes (s : string) : list Z :=
  match s with
  | EmptyString => []
  | String a s' => Z.of_N (Ascii.N_of_ascii a) :: codes s'
  end.

Definition keySequence (t : term) (key : string) : option (list Z) :=
  let cursorPrefix := if applicationCursorKeys t then 27 :: codes "O" else 27 :: codes "[" in
  let sequences : list (string * list Z) :=
    [("ArrowUp"%string, cursorPrefix ++ codes "A"); ("ArrowDown"%string, cursorPrefix ++ codes "B");
     ("ArrowRight"%string, cursorPrefix ++ codes "C"); ("ArrowLeft"%string, cursorPrefix ++ codes "D");
     ("Home"%string, cursorPrefix ++ codes "H"); ("End"%string, cursorPrefix ++ codes "F");
     ("Insert"%string, 27 :: codes "[2~"); ("Delete"%string, 27 :: codes "[3~");
     ("PageUp"%string, 27 :: codes "[5~"); ("PageDown"%string, 27 :: codes "[6~");
     ("Escape"%string, [27]); ("F1"%string, 27 :: codes "OP"); ("F2"%string, 27 :: codes "OQ");
     ("F3"%string, 27 :: codes "OR"); ("F4"%string, 27 :: codes "OS"); ("F5"%string, 27 :: codes "[15~");
     ("F6"%string, 27 :: codes "[17~"); ("F7"%string, 27 :: codes "[18~"); ("F8"%string, 27 :: codes "[19~");
     ("F9"%string, 27 :: codes "[20~"); ("F10"%string, 27 :: codes "[21~"); ("F11"%string, 27 :: codes "[23~");
     ("F12"%string, 27 :: codes "[24~")] in
  snd <$> find (λ p, bool_decide (p.1 = key)) sequences.

(** ** Erasing and shifting characters *)

Definition eraseCharacters (count : num) (t : term) : result fault term :=
  match num_add (x t) (num_clamp count 1 (columns t - x t)) with
  | NNonFinite => Ok t
  | fin => with_cells (foldM (λ x, put_cell (index t x (y t)) (pen_cell t 32))
             (seqZ (x t) (num_ceil fin - x t))) t
  end.

Definition insertCharacters (count : num) (t : term) : result fault term :=
  match num_clamp count 1 (columns t - x t) with
  | NInt count =>
    with_cells (λ cs,
      let* cs := foldM (λ column cs,
          let* c := get_cell (index t (column - count) (y t)) cs in
          put_cell (index t column (y t)) c cs)
        (rev (seqZ (x t + count) (columns t - (x t + count)))) cs in
      foldM (λ column, put_cell (index t column (y t)) (pen_cell t 32)) (seqZ (x t) count) cs) t
  | _ => Err NonInteger
  end.

Definition deleteCharacters (count : num) (t : term) : result fault term :=
  match num_clamp count 1 (columns t - x t) with
  | NInt count =>
    with_cells (λ cs,
      let* cs := foldM (λ column cs,
          let* c := get_cell (index t (column + count) (y t)) cs in
          put_cell (index t column (y t)) c cs)
        (seqZ (x t) (columns t - count - x t)) cs in
      foldM (λ column, put_cell (index t column (y t)) (pen_cell t 32))
        (seqZ (columns t - count) count) cs) t
  | _ => Err NonInteger
  end.

(** [for (x = from; x <= to; x++) cells[index(x, row)] = blankCell()] *)
Definition blank_run (t : term) (row from to : Z) : list cell → result fault (list cell) :=
  foldM (λ x, put_cell (index t x row) blankCell) (seqZ from (to - from + 1)).

Definition eraseLine (mode : num) (t : term) : result fault term :=
  let from := if bool_decide (mode = NInt 1) then 0 else x t in
  let to := if bool_decide (mode = NInt 1) then x t
            else if bool_decide (mode = NInt 2) then columns t - 1 else columns t - 1 in
  with_cells (blank_run t (y t) from to) t.

Definition eraseDisplay (mode : num) (t : term) : result fault term :=
  if bool_decide (mode = NInt 2) || bool_decide (mode = NInt 3) then
    with_cells (λ cs, foldM (λ i, put_cell i blankCell) (seqZ 0 (zlen cs)) cs) t
  else if bool_decide (mode = NInt 1) then
    let* t1 := with_cells (foldM (λ y, blank_run t y 0 (columns t - 1)) (seqZ 0 (y t))) t in
    eraseLine (NInt 1) t1
  else
    let* t1 := eraseLine (NInt 0) t in
    with_cells (foldM (λ y, blank_run t1 y 0 (columns t1 - 1))
                  (seqZ (y t1 + 1) (rows t1 - (y t1 + 1)))) t1.

(** ** Select graphic rendition *)

Definition set_fg (c : string) (p : pen) : pen :=
  let a := pen_attrs p in
  mkPen (mkAttrs c (bg a) (bold a) (underline a) (inverse a)) (pen_xy p).
Definition set_bg (c : string) (p : pen) : pen :=
  let a := pen_attrs p in
  mkPen (mkAttrs (fg a) c (bold a) (underline a) (inverse a)) (pen_xy p).
Definition set_bold (b : bool) (p : pen) : pen :=
  let a := pen_attrs p in
  mkPen (mkAttrs (fg a) (bg a) b (underline a) (inverse a)) (pen_xy p).
Definition set_underline (b : bool) (p : pen) : pen :=
  let a := pen_attrs p in
  mkPen (mkAttrs (fg a) (bg a) (bold a) b (inverse a)) (pen_xy p).
Definition set_inverse (b : bool) (p : pen) : pen :=
  let a := pen_attrs p in
  mkPen (mkAttrs (fg a) (bg a) (bold a) (underline a) b) (pen_xy p).

(** The branches that look at one value only. *)
Definition sgr_one (v : num) (p : pen) : result fault pen :=
  match v with
  | NInt value =>
    Ok (if value =? 0 then mkPen default_attrs None
        else if value =? 1 then set_bold true p
        else if value =? 22 then set_bold false p
        else if value =? 4 then set_underline true p
        else if value =? 24 then set_underline false p
        else if value =? 7 then set_inverse true p
        else if value =? 27 then set_inverse false p
        else if value =? 39 then set_fg (palette_at 7) p
        else if value =? 49 then set_bg (palette_at 0) p
        else if (30 <=? value) && (value <=? 37) then set_fg (palette_at (value - 30)) p
        else if (40 <=? value) && (value <=? 47) then set_bg (palette_at (value - 40)) p
        else if (90 <=? value) && (value <=? 97) then set_fg (palette_at (value - 90 + 8)) p
        else if (100 <=? value) && (value <=? 107) then set_bg (palette_at (value - 100 + 8)) p
        else p)
  | _ =>
    if num_between 30 37 v || num_between 40 47 v || num_between 90 97 v || num_between 100 107 v
    then Err NonInteger else Ok p
  end.

Fixpoint sgr_loop (values : list num) (p : pen) : result fault pen :=
  match values with
  | [] => Ok p
  | v :: rest =>
    if bool_decide (v = NInt 38) || bool_decide (v = NInt 48) then
      let target := if bool_decide (v = NInt 38) then set_fg else set_bg in
      match rest with
      | m :: c :: rest1 =>
        if bool_decide (m = NInt 5) then sgr_loop rest1 (target (xtermColor c) p)
        else if bool_decide (m = NInt 2) then
          match rest1 with
          | green :: blue :: rest2 => sgr_loop rest2 (target (rgb c green blue) p)
          | _ => sgr_loop rest p
          end
        else sgr_loop rest p
      | _ => sgr_loop rest p
      end
    else
      let* p' := sgr_one v p in sgr_loop rest p'
  end.

Definition sgr (values : list num) (t : term) : result fault term :=
  let values := match values with [] => [NInt 0] | _ => values end in
  let* p := sgr_loop values (current t) in Ok (set_current p t).

(** ** Saved cursor, alternate screen, reset *)

(** [{x: this.x, y: this.y, ...this.current}]: a position carried by the pen wins. *)
Definition saveCursor (t : term) : term :=
  let '(sx, sy) := default (x t, y t) (pen_xy (current t)) in
  set_saved (mkSaved sx sy (pen_attrs (current t))) t.

Definition restoreCursor (t : term) : term :=
  let s := saved t in
  let t1 := set_y (NInt (sv_y s)) (set_x (NInt (sv_x s)) t) in
  set_current (mkPen (sv_attrs s) (Some (sv_x s, sv_y s))) t1.

Definition enterAlternate (t : term) : term :=
  let t1 := saveCursor t in
  set_on_alt true (set_alternate (resetScreen t1 (alternate t1)) t1).

Definition leaveAlternate (t : term) : term := restoreCursor (set_on_alt false t).

Definition fullReset (t : term) : term :=
  let t1 := set_primary (resetScreen t (primary t)) t in
  let t2 := set_alternate (resetScreen t1 (alternate t1)) t1 in
  let t3 := set_state Normal (set_cursorVisible true (set_on_alt false t2)) in
  let t4 := set_applicationKeypad false (set_applicationCursorKeys false t3) in
  set_current (mkPen default_attrs None) (set_lastGraphic None (set_insertMode false t4)).

(** ** The escape-sequence parser *)

(** [String.prototype.split(";")]: never empty. *)
Fixpoint split_on (sep : Z) (l : list Z) : list (list Z) :=
  match l with
  | [] => [[]]
  | c :: l' =>
    if c =? sep then [] :: split_on sep l'
    else match split_on sep l' with
         | w :: ws => (c :: w) :: ws
         | [] => [[c]]
         end
  end.

(** A parameter: empty is 0, and so is a value that is not finite. *)
Definition param_value (w : list Z) : num :=
  match w with
  | [] => NInt 0
  | _ => match js_number w with NNonFinite => NInt 0 | v => v end
  end.

Definition params (source : list Z) : option Z * list num :=
  let '(prefix, source) :=
    match source with
    | c :: rest => if (60 <=? c) && (c <=? 63) then (Some c, rest) else (None, source)
    | [] => (None, source)
    end in
  (prefix, param_value <$> split_on 59 source).

Definition includes (v : Z) (values : list num) : bool := bool_decide (NInt v ∈ values).

(** [case "h": case "l":] *)
Definition set_modes (on privateMode : bool) (values : list num) (t : term) : term :=
  let t := if negb privateMode && includes 4 values then set_insertMode on t else t in
  let t := if privateMode && includes 1 values then set_applicationCursorKeys on t else t in
  let t := if privateMode && (includes 1049 values || includes 47 values)
           then (if on then enterAlternate t else leaveAlternate t) else t in
  if privateMode && includes 25 values then set_cursorVisible on t else t.

Definition executeCsi (final : Z) (t : term) : result fault term :=
  let '(prefix, values) := params (csi t) in
  let privateMode := bool_decide (prefix = Some 63) in
  if bool_decide (is_Some prefix) && negb (privateMode && ((final =? 104) || (final =? 108)))
  then Ok t
  else
    let first := num_or (default (NInt 0) (head values)) 0 in
    let n := num_or first 1 in
    let top := scrollTop (active t) in
    let bottom := scrollBottom (active t) in
    let up t := set_y (num_add (y t) (num_opp n)) t in
    let down t := set_y (num_add (y t) n) t in
    match final with
    | 65 (* A *) => Ok (up t)
    | 66 (* B *) | 101 (* e *) => Ok (down t)
    | 67 (* C *) | 97 (* a *) => Ok (set_x (num_add (x t) n) t)
    | 68 (* D *) => Ok (set_x (num_add (x t) (num_opp n)) t)
    | 69 (* E *) => Ok (set_x (NInt 0) (down t))
    | 70 (* F *) => Ok (set_x (NInt 0) (up t))
    | 71 (* G *) | 96 (* ` *) => Ok (set_x (num_add (-1) n) t)
    | 100 (* d *) => Ok (set_y (num_add (-1) n) t)
    | 72 (* H *) | 102 (* f *) =>
      let row := num_or (default (NInt 0) (values !! 0%nat)) 1 in
      let col := num_or (default (NInt 0) (values !! 1%nat)) 1 in
      Ok (set_x (num_add (-1) col) (set_y (num_add (-1) row) t))
    | 74 (* J *) => eraseDisplay first t
    | 75 (* K *) => eraseLine first t
    | 88 (* X *) => eraseCharacters n t
    | 64 (* @ *) => insertCharacters n t
    | 80 (* P *) => deleteCharacters n t
    | 76 (* L *) => changeLines n true t
    | 77 (* M *) => changeLines n false t
    | 83 (* S *) => scrollLines top bottom n false t
    | 84 (* T *) => scrollLines top bottom n true t
    | 98 (* b *) => repeatLast n t
    | 109 (* m *) => sgr values t
    | 115 (* s *) => Ok (saveCursor t)
    | 117 (* u *) => Ok (restoreCursor t)
    | 104 (* h *) => Ok (set_modes true privateMode values t)
    | 108 (* l *) => Ok (set_modes false privateMode values t)
    | 114 (* r *) =>
      if negb privateMode then setScrollRegion (values !! 0%nat) (values !! 1%nat) t else Ok t
    | _ => Ok t
    end.

(** [String.prototype.length] counts UTF-16 units. *)
Definition utf16_units (c : Z) : Z := if 65535 <? c then 2 else 1.
Definition utf16_length (l : list Z) : Z := foldr (λ c n, utf16_units c + n) 0 l.

Definition consume_osc (c : Z) (t : term) : term :=
  if c =? 7 then set_osc [] (set_state Normal t)
  else if c =? 27 then set_oscEscaped true t
  else if oscEscaped t && (c =? 92) then set_oscEscaped false (set_osc [] (set_state Normal t))
  else
    let t := set_oscEscaped false t in
    if utf16_length (osc t) <? 4096 then set_osc (osc t ++ [c]) t else t.

Definition consume_csi (c : Z) (t : term) : result fault term :=
  if (64 <=? c) && (c <=? 126) then
    let* t1 := executeCsi c t in Ok (set_state Normal t1)
  else if utf16_length (csi t) <? 128 then Ok (set_csi (csi t ++ [c]) t)
  else Ok (set_state Normal t).

Definition consume_esc (c : Z) (t : term) : result fault term :=
  if c =? 91 then Ok (set_csi [] (set_state Csi t))
  else if c =? 93 then Ok (set_osc [] (set_state Osc t))
  else if (c =? 40) || (c =? 41) then Ok (set_state Charset t)
  else
    let* t1 :=
      (if c =? 55 then Ok (saveCursor t)
       else if c =? 56 then Ok (restoreCursor t)
       else if c =? 99 then Ok (fullReset t)
       else if c =? 61 then Ok (set_applicationKeypad true t)
       else if c =? 62 then Ok (set_applicationKeypad false t)
       else if c =? 68 then lineFeed t
       else if c =? 69 then lineFeed (set_x (NInt 0) t)
       else if c =? 77 then reverseIndex t
       else Ok t) in
    Ok (set_state Normal t1).

Definition consume_normal (c : Z) (t : term) : result fault term :=
  if c =? 27 then Ok (set_state Esc t)
  else if (c =? 10) || (c =? 11) || (c =? 12) then lineFeed t
  else if c =? 13 then Ok (set_x (NInt 0) t)
  else if c =? 8 then Ok (set_x (NInt (x t - 1)) t)
  else if c =? 9 then Ok (set_x (NInt (Z.min (columns t - 1) (Z.land (x t + 8) (Z.lnot 7)))) t)
  else if (c <? 32) || (c =? 127) then Ok t
  else put c None t.

Definition consume (c : Z) (t : term) : result fault term :=
  match state t with
  | Osc => Ok (consume_osc c t)
  | Csi => consume_csi c t
  | Charset => Ok (set_state Normal t)
  | Esc => consume_esc c t
  | Normal => consume_normal c t
  end.

(** [write] of a string: its code points, in order. *)
Definition write (text : list Z) (t : term) : result fault term := foldM consume text t.

(** ** Splitting at a separator *)

Lemma split_on_none sep l : sep ∉ l → split_on sep l = [l].
Proof.
  induction l as [|c l IH]; intros Hn; [done|]. apply not_elem_of_cons in Hn as [Hc Hl]. simpl.
  case (Z.eqb_spec c sep); [congruence|]. intros _. by rewrite IH.
Qed.

Lemma split_on_app sep l l' : sep ∉ l → split_on sep (l ++ sep :: l') = l :: split_on sep l'.
Proof.
  induction l as [|c l IH]; intros Hn; simpl; [by rewrite Z.eqb_refl|].
  apply not_elem_of_cons in Hn as [Hc Hl]. case (Z.eqb_spec c sep); [congruence|]. intros _. by rewrite IH.
Qed.

Lemma split_on_nonempty sep l : split_on sep l ≠ [].
Proof. destruct l as [|c l]; simpl; [done|]. destruct (c =? sep); [done|]. by destruct (split_on sep l). Qed.

(** The parts have no separator, and give the text back. *)
Lemma split_on_parts sep l : Forall (λ w, sep ∉ w) (split_on sep l).
Proof.
  induction l as [|c l IH]; simpl; [by repeat constructor; apply not_elem_of_nil|].
  destruct (Z.eqb_spec c sep) as [->|Hne]; [constructor; [apply not_elem_of_nil|done]|].
  destruct IH as [|w ws Hw Hws]; [repeat constructor|constructor; [|done]]; apply not_elem_of_cons; split; try done.
  apply not_elem_of_nil.
Qed.

Lemma split_on_join sep l : split_on sep l ≫= (λ w, w ++ [sep]) = l ++ [sep].
Proof.
  induction l as [|c l IH]; [done|]. cbn [split_on]. destruct (Z.eqb_spec c sep) as [->|Hne].
  - cbn [mbind list_bind app]. by rewrite IH.
  - pose proof (split_on_nonempty sep l). destruct (split_on sep l) as [|w ws]; [done|]. cbn [mbind list_bind app] in *. by rewrite IH.
Qed.

(** Ended parts come apart again. *)
Lemma split_on_ended sep ws w :
  Forall (λ w, sep ∉ w) (ws ++ [w]) → split_on sep ((ws ≫= (λ w, w ++ [sep])) ++ w) = ws ++ [w].
Proof.
  intros [Hws Hw]%Forall_app. apply Forall_cons in Hw as [Hw _].
  induction Hws as [|v ws Hv _ IH]; [simpl; apply split_on_none; exact Hw|]. cbn [mbind list_bind app].
  rewrite <- !app_assoc. cbn [app]. rewrite split_on_app by done. by rewrite IH.
Qed.
