(* ===== verification/TermCells.v ===== *)
(** * Loops over the cell array

    The loops of the screen model write cells one index at a time.  Each lemma
    gives the array a loop produces as a function of the index, and that the
    loop neither faults nor changes the length. *)

From stdpp Require Import base numbers list strings.
From Stdlib Require Import ZArith Lia.
From S2P Require Import Prelude JsNum TermModel.

#[local] Open Scope Z_scope.
#[local] Open Scope waste_scope.

Lemma foldM_ext {E S A : Type} (f g : A → S → result E S) l s :
  (∀ a s, a ∈ l → f a s = g a s) → foldM f l s = foldM g l s.
Proof.
  revert s; induction l as [|a l IH]; intros s H; simpl; [done|].
  rewrite H by left. destruct (g a s); simpl; [|done]. apply IH. intros; apply H; by right.
Qed.

Lemma seqZ_snoc lo (n : nat) : seqZ lo (Z.of_nat (S n)) = seqZ lo (Z.of_nat n) ++ [lo + Z.of_nat n].
Proof. rewrite Nat2Z.inj_succ, <- Z.add_1_r, seqZ_app by lia. done. Qed.

Lemma seqZ_split lo (n : nat) : seqZ lo (Z.of_nat (S n)) = lo :: seqZ (Z.succ lo) (Z.of_nat n).
Proof. rewrite seqZ_cons by lia. f_equal. f_equal. lia. Qed.

Lemma Forall_zlookup {A : Type} (P : A → Prop) (l : list A) :
  Forall P l ↔ ∀ i a, zlookup l i = Some a → P a.
Proof.
  split; [intros H i a; by apply zlookup_Forall|].
  intros H. apply Forall_lookup. intros i a Ha. apply (H (Z.of_nat i)). by rewrite zlookup_nat.
Qed.

Lemma get_cell_ok i cs : 0 ≤ i < zlen cs → ∃ c, get_cell i cs = Ok c ∧ zlookup cs i = Some c.
Proof. intros [c Hc]%zlookup_in_range. exists c. unfold get_cell. by rewrite Hc. Qed.

Lemma put_cell_ok i c cs :
  0 ≤ i < zlen cs → put_cell i c cs = Ok (<[Z.to_nat i := c]> cs).
Proof. intros H. unfold put_cell. by rewrite zinsert_Some. Qed.

(** ** Constant fills *)

Lemma const_loop (base lo : Z) (n : nat) c cs :
  0 ≤ base + lo → base + lo + Z.of_nat n ≤ zlen cs →
  ∃ cs', foldM (λ i, put_cell (base + i) c) (seqZ lo (Z.of_nat n)) cs = Ok cs' ∧
    zlen cs' = zlen cs ∧
    ∀ j, zlookup cs' j =
      if bool_decide (base + lo ≤ j < base + lo + Z.of_nat n) then Some c else zlookup cs j.
Proof.
  intros H0 H1. induction n as [|n IH].
  - exists cs. split; [done|]. split; [done|]. intros j. rewrite bool_decide_eq_false_2; [done|lia].
  - destruct IH as (cs1 & Hf & Hlen & Hl); [lia|].
    rewrite seqZ_snoc, foldM_snoc, Hf. simpl. rewrite put_cell_ok by lia.
    eexists; split; [done|]. rewrite zlen_insert. split; [done|]. intros j.
    rewrite zlookup_insert by lia. rewrite Hl. repeat case_bool_decide; try done; lia.
Qed.

Lemma const_range (f : Z → list cell → result fault (list cell)) (base lo n : Z) c cs :
  (∀ i s, f i s = put_cell (base + i) c s) →
  0 ≤ n → 0 ≤ base + lo → base + lo + n ≤ zlen cs →
  ∃ cs', foldM f (seqZ lo n) cs = Ok cs' ∧ zlen cs' = zlen cs ∧
    ∀ j, zlookup cs' j = if bool_decide (base + lo ≤ j < base + lo + n) then Some c else zlookup cs j.
Proof.
  intros Hf Hn H0 H1. rewrite (foldM_ext _ (λ i, put_cell (base + i) c)) by (intros; apply Hf).
  destruct (const_loop base lo (Z.to_nat n) c cs) as (cs' & H); [lia|lia|].
  rewrite Z2Nat.id in H by lia. eauto.
Qed.

(** ** Shifts within a row *)

Lemma shift_right_loop (base d lo : Z) (n : nat) cs :
  0 < d → 0 ≤ base + lo - d → base + lo + Z.of_nat n ≤ zlen cs →
  ∃ cs', foldM (λ i cs, let* c := get_cell (base + i - d) cs in put_cell (base + i) c cs)
           (rev (seqZ lo (Z.of_nat n))) cs = Ok cs' ∧
    zlen cs' = zlen cs ∧
    ∀ j, zlookup cs' j =
      if bool_decide (base + lo ≤ j < base + lo + Z.of_nat n) then zlookup cs (j - d) else zlookup cs j.
Proof.
  intros Hd. revert cs; induction n as [|n IH]; intros cs H0 H1.
  - exists cs. split; [done|]. split; [done|]. intros j. rewrite bool_decide_eq_false_2; [done|lia].
  - rewrite seqZ_snoc, rev_app_distr. cbn [rev app foldM].
    destruct (get_cell_ok (base + (lo + Z.of_nat n) - d) cs) as (c & -> & Hc); [lia|].
    cbn [rbind]. rewrite put_cell_ok by lia. cbn [rbind].
    destruct (IH (<[Z.to_nat (base + (lo + Z.of_nat n)):=c]> cs)) as (cs' & -> & Hlen & Hl);
      [lia|rewrite zlen_insert; lia|].
    rewrite zlen_insert in Hlen. eexists; split; [done|]. split; [done|]. intros j. rewrite Hl.
    rewrite !zlookup_insert by lia. repeat case_bool_decide; try done; try lia; subst.
    rewrite <- Hc. f_equal; lia.
Qed.

Lemma shift_left_loop (base d lo : Z) (n : nat) cs :
  0 < d → 0 ≤ base + lo → base + lo + Z.of_nat n + d ≤ zlen cs →
  ∃ cs', foldM (λ i cs, let* c := get_cell (base + i + d) cs in put_cell (base + i) c cs)
           (seqZ lo (Z.of_nat n)) cs = Ok cs' ∧
    zlen cs' = zlen cs ∧
    ∀ j, zlookup cs' j =
      if bool_decide (base + lo ≤ j < base + lo + Z.of_nat n) then zlookup cs (j + d) else zlookup cs j.
Proof.
  intros Hd. revert lo cs; induction n as [|n IH]; intros lo cs H0 H1.
  - exists cs. split; [done|]. split; [done|]. intros j. rewrite bool_decide_eq_false_2; [done|lia].
  - rewrite seqZ_split. cbn [foldM].
    destruct (get_cell_ok (base + lo + d) cs) as (c & -> & Hc); [lia|].
    cbn [rbind]. rewrite put_cell_ok by lia. cbn [rbind].
    destruct (IH (Z.succ lo) (<[Z.to_nat (base + lo):=c]> cs)) as (cs' & -> & Hlen & Hl);
      [lia|rewrite zlen_insert; lia|].
    rewrite zlen_insert in Hlen. eexists; split; [done|]. split; [done|]. intros j. rewrite Hl.
    rewrite !zlookup_insert by lia. repeat case_bool_decide; try done; try lia; subst.
    rewrite <- Hc. f_equal; lia.
Qed.

(** ** [copyWithin] *)

Lemma zlookup_app {A : Type} (l1 l2 : list A) j :
  zlookup (l1 ++ l2) j = if j <? zlen l1 then zlookup l1 j else zlookup l2 (j - zlen l1).
Proof.
  unfold zlookup, zlen. case (Z.ltb_spec j 0); intros Hj.
  - case (Z.ltb_spec j (Z.of_nat (length l1))); [done|lia].
  - case (Z.ltb_spec j (Z.of_nat (length l1))); intros Hl.
    + rewrite lookup_app_l; [done|lia].
    + case (Z.ltb_spec (j - Z.of_nat (length l1)) 0); [lia|]. intros _.
      rewrite lookup_app_r by lia. f_equal. lia.
Qed.

Lemma zlookup_take {A : Type} (l : list A) n j :
  0 ≤ n → zlookup (take (Z.to_nat n) l) j = if j <? n then zlookup l j else None.
Proof.
  intros Hn. unfold zlookup. case (Z.ltb_spec j 0); intros; [by case_match|].
  case (Z.ltb_spec j n); intros; [rewrite lookup_take_lt; [done|lia]|apply lookup_take_ge; lia].
Qed.

Lemma zlookup_drop {A : Type} (l : list A) n j :
  0 ≤ n → 0 ≤ j → zlookup (drop (Z.to_nat n) l) j = zlookup l (n + j).
Proof.
  intros Hn Hj. unfold zlookup. case (Z.ltb_spec j 0); [lia|]. case (Z.ltb_spec (n + j) 0); [lia|].
  intros. rewrite lookup_drop. f_equal. lia.
Qed.

Lemma zlen_take {A : Type} (l : list A) n : 0 ≤ n → zlen (take (Z.to_nat n) l) = Z.min n (zlen l).
Proof. unfold zlen. rewrite length_take. lia. Qed.
Lemma zlen_drop {A : Type} (l : list A) n : 0 ≤ n ≤ zlen l → zlen (drop (Z.to_nat n) l) = zlen l - n.
Proof. unfold zlen. rewrite length_drop. lia. Qed.

Lemma copyWithin_spec {A : Type} (l : list A) to from fin :
  0 ≤ to → 0 ≤ from ≤ fin → fin ≤ zlen l → to + (fin - from) ≤ zlen l →
  zlen (copyWithin to from fin l) = zlen l ∧
  ∀ j, zlookup (copyWithin to from fin l) j =
    if bool_decide (to ≤ j < to + (fin - from)) then zlookup l (j - to + from) else zlookup l j.
Proof.
  intros H1 H2 H3 H4. unfold copyWithin, rel_index.
  repeat (case (Z.ltb_spec _ 0); [lia|intros _]).
  rewrite !Z.min_l by lia.
  case (Z.ltb_spec 0 (fin - from)); intros Hc.
  - split.
    + rewrite !zlen_app, !zlen_take, !zlen_drop by lia. lia.
    + intros j. rewrite !zlookup_app, !zlen_take, !zlen_drop, !zlookup_take by lia.
      rewrite !Z.min_l by lia.
      case (Z.ltb_spec j to); intros; [by rewrite bool_decide_eq_false_2 by lia|].
      case (Z.ltb_spec (j - to) (fin - from)); intros.
      * rewrite zlookup_drop, bool_decide_eq_true_2 by lia. f_equal. lia.
      * rewrite zlookup_drop, bool_decide_eq_false_2 by lia. f_equal. lia.
  - split; [done|]. intros j. by rewrite bool_decide_eq_false_2 by lia.
Qed.
