(* ===== verification/TermSafety.v ===== *)
(** * Type safety of the screen model

    [wf] is the invariant of [TerminalModel]: both screens have the terminal's
    size, the cursor and the scroll margins are inside it, the cell array has
    exactly [columns * rows] cells, and every stored colour is a [#rrggbb]
    string.  Each operation is shown to run without an out-of-range access and
    to preserve [wf], with the exact cells it leaves behind. *)

From stdpp Require Import base numbers list strings.
From Stdlib Require Import ZArith Lia Ascii.
From S2P Require Import Prelude JsNum TermModel TermCells.

#[local] Open Scope Z_scope.
#[local] Open Scope waste_scope.

(** ** The invariant *)

Definition is_hex (a : Ascii.ascii) : bool :=
  let c := Z.of_N (Ascii.N_of_ascii a) in
  ((48 <=? c) && (c <=? 57)) || ((97 <=? c) && (c <=? 102)).

Fixpoint all_hex (s : string) : bool :=
  match s with
  | EmptyString => true
  | String a s' => is_hex a && all_hex s'
  end.

(** ["#"] followed by six lower-case hexadecimal digits. *)
Definition valid_color (s : string) : bool :=
  match s with
  | String "#"%char s' => (String.length s' =? 6)%nat && all_hex s'
  | _ => false
  end.

Definition valid_attrs (a : attrs) : Prop := valid_color (fg a) = true ∧ valid_color (bg a) = true.
Definition valid_cell (c : cell) : Prop := valid_attrs (look c).

Record wf_screen (cols rws : Z) (s : screen) : Prop := {
  ws_columns : s_columns s = cols;
  ws_rows : s_rows s = rws;
  ws_x : 0 ≤ s_x s < cols;
  ws_y : 0 ≤ s_y s < rws;
  ws_region : 0 ≤ scrollTop s ≤ scrollBottom s;
  ws_bottom : scrollBottom s < rws;
  ws_len : zlen (cells s) = cols * rws;
  ws_valid : Forall valid_cell (cells s) }.

Record wf (t : term) : Prop := {
  wf_columns : 1 ≤ columns t < 2 ^ 31;
  wf_rows : 1 ≤ rows t < 2 ^ 31;
  wf_primary : wf_screen (columns t) (rows t) (primary t);
  wf_alternate : wf_screen (columns t) (rows t) (alternate t);
  wf_pen : valid_attrs (pen_attrs (current t));
  wf_saved : valid_attrs (sv_attrs (saved t));
  wf_graphic : ∀ g, lastGraphic t = Some g → valid_cell g;
  wf_csi : utf16_length (csi t) ≤ 129;
  wf_osc : utf16_length (osc t) ≤ 4097 }.

(** ** Record plumbing *)

Definition recell (cs : list cell) (t : term) : term := set_active (set_scr_cells cs (active t)) t.

Lemma active_set_active s t : active (set_active s t) = s.
Proof. unfold active, set_active. destruct t as [? ? ? ? []]; done. Qed.

Lemma set_active_set_active s s' t : set_active s (set_active s' t) = set_active s t.
Proof. unfold set_active. destruct t as [? ? ? ? []]; done. Qed.

Lemma columns_set_active s t : columns (set_active s t) = columns t.
Proof. unfold set_active. destruct (on_alt t); done. Qed.
Lemma rows_set_active s t : rows (set_active s t) = rows t.
Proof. unfold set_active. destruct (on_alt t); done. Qed.
Lemma current_set_active s t : current (set_active s t) = current t.
Proof. unfold set_active. destruct (on_alt t); done. Qed.
Lemma state_set_active s t : state (set_active s t) = state t.
Proof. unfold set_active. destruct (on_alt t); done. Qed.
Lemma insertMode_set_active s t : insertMode (set_active s t) = insertMode t.
Proof. unfold set_active. destruct (on_alt t); done. Qed.
Lemma lastGraphic_set_active s t : lastGraphic (set_active s t) = lastGraphic t.
Proof. unfold set_active. destruct (on_alt t); done. Qed.
Lemma csi_set_active s t : csi (set_active s t) = csi t.
Proof. unfold set_active. destruct (on_alt t); done. Qed.
Lemma saved_set_active s t : saved (set_active s t) = saved t.
Proof. unfold set_active. destruct (on_alt t); done. Qed.
Lemma on_alt_set_active s t : on_alt (set_active s t) = on_alt t.
Proof. unfold set_active. destruct (on_alt t) eqn:H; done. Qed.

Create Rewrite HintDb term.
#[export] Hint Rewrite active_set_active set_active_set_active columns_set_active rows_set_active
  current_set_active state_set_active insertMode_set_active lastGraphic_set_active
  csi_set_active saved_set_active on_alt_set_active : term.

Lemma with_cells_ok f t cs : f (cells (active t)) = Ok cs → with_cells f t = Ok (recell cs t).
Proof. intros H. unfold with_cells. by rewrite H. Qed.

Lemma cells_recell cs t : cells (active (recell cs t)) = cs.
Proof. unfold recell. by rewrite active_set_active. Qed.
Lemma columns_recell cs t : columns (recell cs t) = columns t.
Proof. apply columns_set_active. Qed.
Lemma rows_recell cs t : rows (recell cs t) = rows t.
Proof. apply rows_set_active. Qed.
Lemma x_recell cs t : x (recell cs t) = x t.
Proof. unfold x, recell. by rewrite active_set_active. Qed.
Lemma y_recell cs t : y (recell cs t) = y t.
Proof. unfold y, recell. by rewrite active_set_active. Qed.
Lemma recell_recell cs cs' t : recell cs (recell cs' t) = recell cs t.
Proof. unfold recell. by rewrite active_set_active, set_active_set_active. Qed.
Lemma current_recell cs t : current (recell cs t) = current t.
Proof. apply current_set_active. Qed.
#[export] Hint Rewrite cells_recell columns_recell rows_recell x_recell y_recell recell_recell
  current_recell : term.

Lemma wf_active t : wf t → wf_screen (columns t) (rows t) (active t).
Proof. intros []. unfold active. by destruct (on_alt t). Qed.

Lemma wf_set_active s t : wf t → wf_screen (columns t) (rows t) s → wf (set_active s t).
Proof.
  intros [] Hs. unfold set_active. destruct (on_alt t); constructor; simpl; done.
Qed.

Lemma wf_recell cs t :
  wf t → zlen cs = zlen (cells (active t)) → Forall valid_cell cs → wf (recell cs t).
Proof.
  intros Hw Hlen Hv. apply wf_set_active; [done|].
  destruct (wf_active t Hw). constructor; simpl; try done. by rewrite Hlen.
Qed.

(** Bounds of the cursor, for [lia]. *)
Lemma wf_bounds t : wf t →
  1 ≤ columns t < 2 ^ 31 ∧ 1 ≤ rows t < 2 ^ 31 ∧ 0 ≤ x t < columns t ∧ 0 ≤ y t < rows t ∧
  0 ≤ scrollTop (active t) ≤ scrollBottom (active t) ∧ scrollBottom (active t) < rows t ∧
  zlen (cells (active t)) = columns t * rows t.
Proof.
  intros Hw. destruct (wf_active t Hw). destruct Hw. unfold x, y. repeat split; try done; lia.
Qed.

(** ** Colours *)

Lemma valid_palette i : 0 ≤ i < 16 → valid_color (palette_at i) = true.
Proof.
  intros Hi. unfold palette_at.
  assert (Forall (λ s, valid_color s = true) PALETTE) as HP by (by repeat constructor).
  destruct (zlookup_in_range PALETTE i ltac:(unfold zlen; simpl; lia)) as [s Hs].
  rewrite Hs. exact (zlookup_Forall _ _ _ _ HP Hs).
Qed.

Lemma hex_digit_spec d : 0 ≤ d < 16 → ∃ a, hex_digit d = String a EmptyString ∧ is_hex a = true.
Proof.
  intros Hd. unfold hex_digit.
  assert (Forall (λ s, ∃ a, s = String a EmptyString ∧ is_hex a = true)
    ["0"; "1"; "2"; "3"; "4"; "5"; "6"; "7"; "8"; "9"; "a"; "b"; "c"; "d"; "e"; "f"]%string) as HF
    by (repeat constructor; eexists; split; reflexivity).
  destruct (zlookup_in_range ["0"; "1"; "2"; "3"; "4"; "5"; "6"; "7"; "8"; "9"; "a"; "b"; "c"; "d"; "e"; "f"]%string d
    ltac:(unfold zlen; simpl; lia)) as [s Hs].
  rewrite Hs. exact (zlookup_Forall _ _ _ _ HF Hs).
Qed.

Lemma hex_byte_spec v : ∃ a b,
  hex_byte v = String a (String b EmptyString) ∧ is_hex a = true ∧ is_hex b = true.
Proof.
  unfold hex_byte. pose proof (clamp_range (to_int32 v) 0 255 ltac:(lia)) as Hc.
  set (z := clamp _ _ _) in *.
  destruct (hex_digit_spec (z / 16)) as (a & -> & Ha);
    [split; [apply Z.div_pos|apply Z.div_lt_upper_bound]; lia|].
  destruct (hex_digit_spec (z mod 16)) as (b & -> & Hb); [apply Z.mod_pos_bound; lia|]. eauto.
Qed.

Lemma valid_rgb r g b : valid_color (rgb r g b) = true.
Proof.
  unfold rgb.
  destruct (hex_byte_spec (num_int32 r)) as (a1 & a2 & -> & H1 & H2).
  destruct (hex_byte_spec (num_int32 g)) as (b1 & b2 & -> & H3 & H4).
  destruct (hex_byte_spec (num_int32 b)) as (c1 & c2 & -> & H5 & H6).
  simpl. by rewrite H1, H2, H3, H4, H5, H6.
Qed.

Lemma valid_xtermColor v : valid_color (xtermColor v) = true.
Proof.
  unfold xtermColor. pose proof (clamp_range (num_int32 v) 0 255 ltac:(lia)).
  case (Z.ltb_spec (clamp (num_int32 v) 0 255) 16); [intros; apply valid_palette; lia|].
  intros. case_match; apply valid_rgb.
Qed.

Lemma valid_default : valid_attrs default_attrs.
Proof. by split. Qed.

Lemma valid_blank : valid_cell blankCell.
Proof. by split. Qed.

Lemma valid_eraseCell t : wf t → valid_cell (eraseCell t).
Proof. intros [_ _ _ _ [Hf Hb] _ _ _ _]. unfold eraseCell. split; simpl; by destruct (inverse _). Qed.

Lemma valid_pen_cell t c : wf t → valid_cell (pen_cell t c).
Proof. intros [_ _ _ _ [Hf Hb] _ _ _ _]. unfold pen_cell. destruct (inverse _); by split. Qed.

(** An outcome that keeps the colours valid, or stops on a fraction. *)
Definition pen_post (r : result fault pen) : Prop :=
  match r with Ok p => valid_attrs (pen_attrs p) | Err e => e = NonInteger end.

Lemma sgr_one_valid v p : valid_attrs (pen_attrs p) → pen_post (sgr_one v p).
Proof.
  intros [Hf Hb]. unfold pen_post, sgr_one. destruct v as [z|m k|]; [|destruct (_ || _); [done|by split]|by split].
  repeat (case_match; [b2p; try (split; simpl; try apply valid_palette; first [done|lia])|]); by split.
Qed.

Lemma sgr_loop_valid values p : valid_attrs (pen_attrs p) → pen_post (sgr_loop values p).
Proof.
  remember (length values) as n eqn:Hn. revert values Hn p.
  induction (lt_wf n) as [n _ IH]; intros values Hn p Hp; subst n.
  assert (∀ l p', (length l < length values)%nat → valid_attrs (pen_attrs p') →
    pen_post (sgr_loop l p')) as IH'.
  { intros. by eapply IH. }
  clear IH. destruct values as [|v rest]; simpl in *; [done|].
  case_match.
  - repeat case_match; subst; apply IH'; simpl; try lia; try done; destruct Hp;
      split; simpl; first [done|apply valid_xtermColor|apply valid_rgb].
  - pose proof (sgr_one_valid v p Hp) as H1. destruct (sgr_one v p); simpl; [|done].
    apply IH'; [lia|done].
Qed.

(** Integral values never fault. *)
Lemma sgr_loop_total values p :
  Forall (λ v, num_is_int v = true) values → ∃ p', sgr_loop values p = Ok p'.
Proof.
  remember (length values) as n eqn:Hn. revert values Hn p.
  induction (lt_wf n) as [n _ IH]; intros values Hn p Hv; subst n.
  assert (∀ l p', (length l < length values)%nat → Forall (λ v, num_is_int v = true) l →
    ∃ p'', sgr_loop l p' = Ok p'') as IH'.
  { intros. by eapply IH. }
  clear IH. destruct values as [|v rest]; simpl in *; [eauto|].
  apply Forall_cons in Hv as [Hv Hr].
  case_match.
  - repeat case_match; subst; apply IH'; simpl; try lia; try done; by repeat (apply Forall_cons in Hr as [_ Hr]).
  - destruct v; try done. simpl. apply IH'; [lia|done].
Qed.

(** ** Outcomes *)

(** The operation succeeds, changes only the active cells, and leaves [f]. *)
Definition cells_after (t : term) (r : result fault term) (f : Z → option cell) : Prop :=
  ∃ cs, r = Ok (recell cs t) ∧ zlen cs = zlen (cells (active t)) ∧ ∀ j, zlookup cs j = f j.

(** The operation succeeds in a well-formed state. *)
Definition runs (r : result fault term) : Prop := ∃ t, r = Ok t ∧ wf t.

(** The operation succeeds in a well-formed state or stops on a fraction. *)
Definition safe (r : result fault term) : Prop :=
  match r with Ok t => wf t | Err e => e = NonInteger end.

Lemma runs_safe r : runs r → safe r.
Proof. by intros (t & -> & ?). Qed.

Lemma valid_lookup t i c : wf t → zlookup (cells (active t)) i = Some c → valid_cell c.
Proof. intros Hw. destruct (wf_active t Hw). by apply zlookup_Forall. Qed.

Lemma cells_after_runs t r f :
  wf t → cells_after t r f → (∀ j c, f j = Some c → valid_cell c) → runs r.
Proof.
  intros Hw (cs & -> & Hlen & Hl) Hv. eexists; split; [done|].
  apply wf_recell; [done..|]. apply Forall_zlookup. intros i c. rewrite Hl. apply Hv.
Qed.

(** Close [∀ j c, f j = Some c → valid_cell c] for the functions of this file. *)
Ltac solve_valid :=
  let H := fresh in
  intros ? ? H; repeat case_match; simplify_eq;
  first [by eapply valid_lookup|by apply valid_eraseCell|by apply valid_pen_cell
        |apply valid_blank|done].

Lemma safe_bind r (k : term → result fault term) :
  safe r → (∀ t, wf t → safe (k t)) → safe (rbind r k).
Proof. destruct r; simpl; auto. Qed.

Lemma runs_bind r (k : term → result fault term) :
  runs r → (∀ t, wf t → runs (k t)) → runs (rbind r k).
Proof. intros (t & -> & H) Hk. simpl. auto. Qed.

Lemma runs_Ok t : wf t → runs (Ok t).
Proof. unfold runs. eauto. Qed.

(** ** Cursor and margins *)

Lemma wf_set_x v t : wf t → wf (set_x v t).
Proof.
  intros Hw. pose proof (wf_bounds t Hw). apply wf_set_active; [done|].
  destruct (wf_active t Hw). constructor; simpl; try done.
  pose proof (clamp_range (num_int32 v) 0 (columns t - 1)). lia.
Qed.

Lemma wf_set_y v t : wf t → wf (set_y v t).
Proof.
  intros Hw. pose proof (wf_bounds t Hw). apply wf_set_active; [done|].
  destruct (wf_active t Hw). constructor; simpl; try done.
  pose proof (clamp_range (num_int32 v) 0 (rows t - 1)). lia.
Qed.

Lemma wf_home t : wf t → wf (set_active (set_scr_xy 0 (y t) (active t)) t).
Proof.
  intros Hw. pose proof (wf_bounds t Hw). apply wf_set_active; [done|].
  destruct (wf_active t Hw). constructor; simpl; try done. lia.
Qed.

Lemma setScrollRegion_safe top bottom t : wf t → safe (setScrollRegion top bottom t).
Proof.
  intros Hw. pose proof (wf_bounds t Hw). unfold setScrollRegion.
  destruct (match top with Some v => num_or v 1 | None => NInt 1 end) as [tp| |]; try done.
  destruct (match bottom with Some v => num_or v (rows t) | None => NInt (rows t) end) as [bt| |]; try done.
  case_match; [done|]. b2p. apply wf_set_y, wf_set_x, wf_set_active; [done|].
  destruct (wf_active t Hw). constructor; simpl; try done; lia.
Qed.

(** ** Scrolling *)

Definition scroll_cells (t : term) (top bottom c : Z) (down : bool) (j : Z) : option cell :=
  let C := columns t in
  let cs := cells (active t) in
  if bool_decide (top * C ≤ j < (bottom + 1) * C) then
    if down then
      if bool_decide (j < (top + c) * C) then Some (eraseCell t) else zlookup cs (j - c * C)
    else
      if bool_decide ((bottom + 1 - c) * C ≤ j) then Some (eraseCell t) else zlookup cs (j + c * C)
  else zlookup cs j.

Lemma fill_cells_spec from to c cs :
  0 ≤ from ≤ to → to ≤ zlen cs →
  ∃ cs', fill_cells from to c cs = Ok cs' ∧ zlen cs' = zlen cs ∧
    ∀ j, zlookup cs' j = if bool_decide (from ≤ j < to) then Some c else zlookup cs j.
Proof.
  intros H1 H2. unfold fill_cells.
  destruct (const_range (λ i, put_cell i c) 0 from (to - from) c cs) as (cs' & -> & Hlen & Hl);
    [done|lia|lia|lia|].
  exists cs'. split; [done|]. split; [done|]. intros j. rewrite Hl.
  repeat case_bool_decide; done || lia.
Qed.

Lemma scrollLines_cells t top bottom n down :
  wf t → 0 ≤ top ≤ bottom → bottom < rows t →
  cells_after t (scrollLines top bottom (NInt n) down t)
    (scroll_cells t top bottom (clamp n 1 (bottom - top + 1)) down).
Proof.
  intros Hw Ht Hb. pose proof (wf_bounds t Hw) as (HC & _ & _ & _ & _ & _ & Hlen).
  unfold scrollLines, scroll_cells. simpl num_clamp. cbn match.
  pose proof (clamp_range n 1 (bottom - top + 1) ltac:(lia)) as Hc. set (c := clamp _ _ _) in *.
  rewrite !Z.mul_add_distr_r, !Z.mul_sub_distr_r, !Z.mul_add_distr_r, !Z.mul_1_l.
  assert (0 ≤ top * columns t) by nia.
  assert (columns t ≤ c * columns t) by nia.
  assert (top * columns t + c * columns t ≤ bottom * columns t + columns t) by nia.
  assert (bottom * columns t + columns t ≤ zlen (cells (active t))) by nia.
  set (T := top * columns t) in *. set (K := c * columns t) in *.
  set (B := bottom * columns t) in *.
  unfold cells_after.
  assert (∃ cs1, (if down then copyWithin (T + K) T (B + columns t - K) (cells (active t))
     else copyWithin T (T + K) (B + columns t) (cells (active t))) = cs1 ∧ zlen cs1 = zlen (cells (active t)) ∧
     ∀ j, zlookup cs1 j = if down
       then if bool_decide (T + K ≤ j < B + columns t) then zlookup (cells (active t)) (j - K) else zlookup (cells (active t)) j
       else if bool_decide (T ≤ j < B + columns t - K) then zlookup (cells (active t)) (j + K) else zlookup (cells (active t)) j)
    as (cs1 & Hcopy & Hl1 & Hz1).
  { eexists; split; [done|]. destruct down.
    - destruct (copyWithin_spec (cells (active t)) (T + K) T (B + columns t - K)) as [-> Hz]; [lia..|].
      split; [done|]. intros j. rewrite Hz. repeat case_bool_decide; try lia; f_equal; lia.
    - destruct (copyWithin_spec (cells (active t)) T (T + K) (B + columns t)) as [-> Hz]; [lia..|].
      split; [done|]. intros j. rewrite Hz. repeat case_bool_decide; try lia; f_equal; lia. }
  destruct (fill_cells_spec (if down then T else B + columns t - K)
    ((if down then T else B + columns t - K) + K) (eraseCell t) cs1) as (cs2 & Hfill & Hl2 & Hz2);
    [destruct down; lia|destruct down; lia|].
  exists cs2. split; [|split; [lia|]].
  - apply with_cells_ok. cbv beta zeta. rewrite Hcopy. exact Hfill.
  - intros j. rewrite Hz2, Hz1. destruct down; repeat case_bool_decide; done || lia.
Qed.

Lemma scrollLines_runs t top bottom n down :
  wf t → 0 ≤ top ≤ bottom → bottom < rows t → runs (scrollLines top bottom (NInt n) down t).
Proof.
  intros Hw Ht Hb. eapply cells_after_runs; [done|by apply scrollLines_cells|].
  unfold scroll_cells. solve_valid.
Qed.

Lemma scrollLines_safe t top bottom v down :
  wf t → 0 ≤ top ≤ bottom → bottom < rows t → safe (scrollLines top bottom v down t).
Proof.
  intros Hw Ht Hb. unfold scrollLines.
  destruct (num_clamp v 1 (bottom - top + 1)) as [c|m k|] eqn:Hv; [|done|done].
  assert (clamp c 1 (bottom - top + 1) = c) as Hc.
  { unfold num_clamp in Hv. repeat case_match; simplify_eq; unfold clamp; lia. }
  pose proof (scrollLines_runs t top bottom c down Hw Ht Hb) as Hr%runs_safe.
  unfold scrollLines in Hr. simpl num_clamp in Hr. by rewrite Hc in Hr.
Qed.

Lemma lineFeed_runs t : wf t → runs (lineFeed t).
Proof.
  intros Hw. pose proof (wf_bounds t Hw). unfold lineFeed. case_match.
  - apply scrollLines_runs; [done|lia|lia].
  - by apply runs_Ok, wf_set_y.
Qed.

Lemma reverseIndex_runs t : wf t → runs (reverseIndex t).
Proof.
  intros Hw. pose proof (wf_bounds t Hw). unfold reverseIndex. case_match.
  - apply scrollLines_runs; [done|lia|lia].
  - by apply runs_Ok, wf_set_y.
Qed.

Lemma changeLines_safe v ins t : wf t → safe (changeLines v ins t).
Proof.
  intros Hw. pose proof (wf_bounds t Hw). unfold changeLines. case_match; [done|]. b2p.
  apply safe_bind; [apply scrollLines_safe; [done|lia|lia]|]. intros. by apply wf_set_x.
Qed.

Lemma changeLines_runs n ins t : wf t → runs (changeLines (NInt n) ins t).
Proof.
  intros Hw. pose proof (wf_bounds t Hw). unfold changeLines. case_match; [by apply runs_Ok|]. b2p.
  apply runs_bind; [apply scrollLines_runs; [done|lia|lia]|]. intros. by apply runs_Ok, wf_set_x.
Qed.

(** ** Characters within a row *)

(** The row of the cursor starts at [y * columns]. *)
Definition row_base (t : term) : Z := y t * columns t.

Lemma row_in_range t : wf t →
  0 ≤ row_base t ∧ row_base t + columns t ≤ zlen (cells (active t)).
Proof. intros Hw. pose proof (wf_bounds t Hw). unfold row_base. nia. Qed.

Definition erased_run (t : term) (from fin : Z) (c : cell) (j : Z) : option cell :=
  if bool_decide (row_base t + from ≤ j < row_base t + fin) then Some c
  else zlookup (cells (active t)) j.

Lemma row_fill_cells t from n c :
  wf t → 0 ≤ from → 0 ≤ n → from + n ≤ columns t →
  cells_after t (with_cells (foldM (λ x, put_cell (index t x (y t)) c) (seqZ from n)) t)
    (erased_run t from (from + n) c).
Proof.
  intros Hw H0 H1 H2. pose proof (row_in_range t Hw).
  destruct (const_range (λ x, put_cell (index t x (y t)) c) (row_base t) from n c (cells (active t)))
    as (cs & Hf & Hlen & Hl); [done|lia|lia|lia|].
  exists cs. split; [by apply with_cells_ok|]. split; [done|]. intros j. rewrite Hl. unfold erased_run.
  by rewrite Z.add_assoc.
Qed.

Lemma eraseCharacters_int n t :
  wf t →
  cells_after t (eraseCharacters (NInt n) t)
    (erased_run t (x t) (x t + clamp n 1 (columns t - x t)) (pen_cell t 32)).
Proof.
  intros Hw. pose proof (wf_bounds t Hw). unfold eraseCharacters. simpl num_clamp.
  pose proof (clamp_range n 1 (columns t - x t) ltac:(lia)). set (c := clamp _ _ _) in *.
  rewrite num_add_exact by lia. simpl num_ceil. replace (x t + c - x t) with c by lia.
  apply row_fill_cells; [done|lia|lia|lia].
Qed.

Lemma eraseCharacters_runs v t : wf t → runs (eraseCharacters v t).
Proof.
  intros Hw. pose proof (wf_bounds t Hw) as Hb.
  assert (∀ n, n ≤ columns t - x t → runs (with_cells (foldM (λ x, put_cell (index t x (y t)) (pen_cell t 32))
             (seqZ (x t) n)) t)) as Hrun.
  { intros n Hn. destruct (Z.leb_spec 0 n) as [Hp|Hp].
    - eapply cells_after_runs; [done|apply row_fill_cells; [done|lia|lia|lia]|].
      unfold erased_run. solve_valid.
    - rewrite seqZ_nil by lia. simpl.
      eapply cells_after_runs; [done|exists (cells (active t)); split; [by apply with_cells_ok|done]|].
      simpl. solve_valid. }
  unfold eraseCharacters. destruct (num_add _ _) eqn:Hadd; [| |by apply runs_Ok]; apply Hrun;
    rewrite <- Hadd; clear Hadd;
    (destruct (num_clamp v 1 (columns t - x t)) as [c|fm fk|] eqn:Hv; [| |simpl; lia]);
    unfold num_clamp in Hv; repeat case_match; simplify_eq; b2p;
    try (rewrite num_add_exact by (unfold clamp; lia); simpl; unfold clamp; lia).
  all: assert (0 < 2 ^ Zpos fk) by (apply Z.pow_pos_nonneg; lia).
  all: apply Z.le_sub_le_add_r, (num_add_ceil _ _ _ (columns t - x t + x t)); [nia|lia].
Qed.

Definition inserted_row (t : term) (count : Z) (j : Z) : option cell :=
  if bool_decide (row_base t + x t ≤ j < row_base t + x t + count) then Some (pen_cell t 32)
  else if bool_decide (row_base t + x t + count ≤ j < row_base t + columns t)
  then zlookup (cells (active t)) (j - count)
  else zlookup (cells (active t)) j.

Lemma insertCharacters_cells n t :
  wf t → cells_after t (insertCharacters (NInt n) t) (inserted_row t (clamp n 1 (columns t - x t))).
Proof.
  intros Hw. pose proof (wf_bounds t Hw). pose proof (row_in_range t Hw).
  unfold insertCharacters. simpl num_clamp. cbn match.
  pose proof (clamp_range n 1 (columns t - x t) ltac:(lia)). set (c := clamp _ _ _) in *.
  destruct (shift_right_loop (row_base t) c (x t + c) (Z.to_nat (columns t - (x t + c))) (cells (active t)))
    as (cs1 & Hf1 & Hlen1 & Hl1); [lia..|]. rewrite Z2Nat.id in Hf1, Hl1 by lia.
  destruct (const_range (λ column, put_cell (index t column (y t)) (pen_cell t 32)) (row_base t) (x t) c
    (pen_cell t 32) cs1) as (cs2 & Hf2 & Hlen2 & Hl2); [done|lia|lia|lia|].
  exists cs2. split; [|split; [lia|]].
  - apply with_cells_ok. erewrite foldM_ext, Hf1; [exact Hf2|].
    intros a s _. unfold index, row_base. by replace (y t * columns t + (a - c)) with (y t * columns t + a - c) by lia.
  - intros j. rewrite Hl2, Hl1. unfold inserted_row. repeat case_bool_decide; done || lia.
Qed.

Definition deleted_row (t : term) (count : Z) (j : Z) : option cell :=
  if bool_decide (row_base t + x t ≤ j < row_base t + columns t - count)
  then zlookup (cells (active t)) (j + count)
  else if bool_decide (row_base t + columns t - count ≤ j < row_base t + columns t)
  then Some (pen_cell t 32)
  else zlookup (cells (active t)) j.

Lemma deleteCharacters_cells n t :
  wf t → cells_after t (deleteCharacters (NInt n) t) (deleted_row t (clamp n 1 (columns t - x t))).
Proof.
  intros Hw. pose proof (wf_bounds t Hw). pose proof (row_in_range t Hw).
  unfold deleteCharacters. simpl num_clamp. cbn match.
  pose proof (clamp_range n 1 (columns t - x t) ltac:(lia)). set (c := clamp _ _ _) in *.
  destruct (shift_left_loop (row_base t) c (x t) (Z.to_nat (columns t - c - x t)) (cells (active t)))
    as (cs1 & Hf1 & Hlen1 & Hl1); [lia..|]. rewrite Z2Nat.id in Hf1, Hl1 by lia.
  destruct (const_range (λ column, put_cell (index t column (y t)) (pen_cell t 32)) (row_base t)
    (columns t - c) c (pen_cell t 32) cs1) as (cs2 & Hf2 & Hlen2 & Hl2); [done|lia|lia|lia|].
  exists cs2. split; [|split; [lia|]].
  - apply with_cells_ok. erewrite foldM_ext, Hf1; [exact Hf2|].
    intros a s _. unfold index, row_base. by rewrite Z.add_assoc.
  - intros j. rewrite Hl2, Hl1. unfold deleted_row. repeat case_bool_decide; done || lia.
Qed.

Lemma clamp_fixed v low high c : low ≤ high → num_clamp v low high = NInt c → clamp c low high = c.
Proof. intros Hb Hv. unfold num_clamp in Hv. repeat case_match; simplify_eq; unfold clamp; lia. Qed.

Lemma insertCharacters_runs n t : wf t → runs (insertCharacters (NInt n) t).
Proof.
  intros Hw. eapply cells_after_runs; [done|by apply insertCharacters_cells|].
  unfold inserted_row. solve_valid.
Qed.

Lemma deleteCharacters_runs n t : wf t → runs (deleteCharacters (NInt n) t).
Proof.
  intros Hw. eapply cells_after_runs; [done|by apply deleteCharacters_cells|].
  unfold deleted_row. solve_valid.
Qed.

Lemma insertCharacters_safe v t : wf t → safe (insertCharacters v t).
Proof.
  intros Hw. pose proof (wf_bounds t Hw). unfold insertCharacters.
  destruct (num_clamp v 1 (columns t - x t)) as [c|m k|] eqn:Hv; [|done|done].
  apply clamp_fixed in Hv; [|lia].
  pose proof (insertCharacters_runs c t Hw) as Hr%runs_safe.
  unfold insertCharacters in Hr. simpl num_clamp in Hr. by rewrite Hv in Hr.
Qed.

Lemma deleteCharacters_safe v t : wf t → safe (deleteCharacters v t).
Proof.
  intros Hw. pose proof (wf_bounds t Hw). unfold deleteCharacters.
  destruct (num_clamp v 1 (columns t - x t)) as [c|m k|] eqn:Hv; [|done|done].
  apply clamp_fixed in Hv; [|lia].
  pose proof (deleteCharacters_runs c t Hw) as Hr%runs_safe.
  unfold deleteCharacters in Hr. simpl num_clamp in Hr. by rewrite Hv in Hr.
Qed.

(** ** Erasing lines and the display *)

Lemma blank_run_spec t row from to cs :
  0 ≤ row * columns t + from → from ≤ to + 1 → row * columns t + to + 1 ≤ zlen cs →
  ∃ cs', blank_run t row from to cs = Ok cs' ∧ zlen cs' = zlen cs ∧
    ∀ j, zlookup cs' j =
      if bool_decide (row * columns t + from ≤ j ≤ row * columns t + to) then Some blankCell
      else zlookup cs j.
Proof.
  intros H0 H1 H2. unfold blank_run.
  destruct (const_range (λ x, put_cell (index t x row) blankCell) (row * columns t) from (to - from + 1)
    blankCell cs) as (cs' & -> & Hlen & Hl); [done|lia|lia|lia|].
  exists cs'. split; [done|]. split; [done|]. intros j. rewrite Hl.
  repeat case_bool_decide; done || lia.
Qed.

Lemma blank_rows_spec t lo (n : nat) cs :
  1 ≤ columns t → 0 ≤ lo → (lo + Z.of_nat n) * columns t ≤ zlen cs →
  ∃ cs', foldM (λ y, blank_run t y 0 (columns t - 1)) (seqZ lo (Z.of_nat n)) cs = Ok cs' ∧
    zlen cs' = zlen cs ∧
    ∀ j, zlookup cs' j =
      if bool_decide (lo * columns t ≤ j < (lo + Z.of_nat n) * columns t) then Some blankCell
      else zlookup cs j.
Proof.
  intros HC Hlo. induction n as [|n IH]; intros Hr.
  - exists cs. split; [done|]. split; [done|]. intros j. rewrite bool_decide_eq_false_2; [done|lia].
  - destruct IH as (cs1 & Hf & Hlen & Hl); [nia|].
    rewrite seqZ_snoc, foldM_snoc, Hf. simpl.
    destruct (blank_run_spec t (lo + Z.of_nat n) 0 (columns t - 1) cs1) as (cs2 & -> & Hlen2 & Hl2);
      [nia|lia|nia|].
    exists cs2. split; [done|]. split; [lia|]. intros j. rewrite Hl2, Hl.
    repeat case_bool_decide; done || nia.
Qed.

Definition eraseLine_from (mode : num) (t : term) : Z := if bool_decide (mode = NInt 1) then 0 else x t.
Definition eraseLine_to (mode : num) (t : term) : Z :=
  if bool_decide (mode = NInt 1) then x t else columns t - 1.

Lemma eraseLine_cells mode t :
  wf t → cells_after t (eraseLine mode t)
    (erased_run t (eraseLine_from mode t) (eraseLine_to mode t + 1) blankCell).
Proof.
  intros Hw. pose proof (wf_bounds t Hw). pose proof (row_in_range t Hw). unfold row_base in *.
  unfold eraseLine. fold (eraseLine_from mode t).
  replace (if bool_decide (mode = NInt 1) then x t
      else if bool_decide (mode = NInt 2) then columns t - 1 else columns t - 1)
    with (eraseLine_to mode t) by (unfold eraseLine_to; by repeat case_bool_decide).
  assert (0 ≤ eraseLine_from mode t ≤ eraseLine_to mode t ∧ eraseLine_to mode t < columns t).
  { unfold eraseLine_from, eraseLine_to. case_bool_decide; lia. }
  destruct (blank_run_spec t (y t) (eraseLine_from mode t) (eraseLine_to mode t) (cells (active t)))
    as (cs & Hf & Hlen & Hl); [lia..|].
  exists cs. split; [by apply with_cells_ok|]. split; [done|]. intros j. rewrite Hl.
  unfold erased_run, row_base. repeat case_bool_decide; done || lia.
Qed.

Lemma eraseLine_runs mode t : wf t → runs (eraseLine mode t).
Proof.
  intros Hw. eapply cells_after_runs; [done|by apply eraseLine_cells|]. unfold erased_run. solve_valid.
Qed.

(** The cells [eraseDisplay] blanks, by mode. *)
Definition display_erased (mode : num) (t : term) (j : Z) : bool :=
  if bool_decide (mode = NInt 2) || bool_decide (mode = NInt 3) then true
  else if bool_decide (mode = NInt 1) then bool_decide (j ≤ row_base t + x t)
  else bool_decide (row_base t + x t ≤ j).

Definition erased_display (mode : num) (t : term) (j : Z) : option cell :=
  if bool_decide (0 ≤ j < columns t * rows t) && display_erased mode t j then Some blankCell
  else zlookup (cells (active t)) j.

Lemma eraseDisplay_cells mode t : wf t → cells_after t (eraseDisplay mode t) (erased_display mode t).
Proof.
  intros Hw. pose proof (wf_bounds t Hw) as (HC & HR & Hx & Hy & _ & _ & Hlen).
  unfold eraseDisplay, erased_display, display_erased.
  assert (0 ≤ row_base t) by (unfold row_base; nia).
  assert (row_base t + columns t ≤ columns t * rows t) by (unfold row_base; nia).
  case_match; [|case_match].
  - destruct (const_range (λ i, put_cell i blankCell) 0 0 (zlen (cells (active t))) blankCell (cells (active t)))
      as (cs & Hf & Hl1 & Hl); [done|lia|lia|lia|].
    exists cs. split; [by apply with_cells_ok|]. split; [done|]. intros j. rewrite Hl, Hlen.
    rewrite andb_true_r. repeat case_bool_decide; done || lia.
  - destruct (blank_rows_spec t 0 (Z.to_nat (y t)) (cells (active t))) as (cs & Hf & Hl1 & Hl); [lia|lia|nia|].
    rewrite Z2Nat.id in Hf, Hl by lia. rewrite (with_cells_ok _ _ _ Hf). simpl.
    assert (wf (recell cs t)) as Hw1.
    { apply wf_recell; [done|lia|]. apply Forall_zlookup. intros i c. rewrite Hl. revert i c. solve_valid. }
    destruct (eraseLine_cells (NInt 1) (recell cs t) Hw1) as (cs2 & -> & Hl2 & Hz2).
    exists cs2. autorewrite with term in *. split; [done|]. split; [lia|]. intros j. rewrite Hz2.
    unfold erased_run, eraseLine_from, eraseLine_to, row_base. autorewrite with term. rewrite Hl.
    rewrite (bool_decide_eq_true_2 (NInt 1 = NInt 1)) by done. simpl.
    fold (row_base t) in *. unfold row_base in *.
    repeat case_bool_decide; simpl; try done; try lia; try nia;
      symmetry; try (apply zlookup_None; lia).
  - destruct (eraseLine_cells (NInt 0) t Hw) as (cs & -> & Hl1 & Hl). simpl.
    autorewrite with term.
    destruct (blank_rows_spec (recell cs t) (y t + 1) (Z.to_nat (rows t - (y t + 1))) cs)
      as (cs2 & Hf2 & Hl2 & Hz2); [autorewrite with term; lia|lia|autorewrite with term; nia|].
    autorewrite with term in *. rewrite Z2Nat.id in Hf2, Hz2 by lia.
    exists cs2. split.
    + rewrite (with_cells_ok _ _ cs2); [by autorewrite with term|]. by autorewrite with term.
    + split; [lia|]. intros j. rewrite Hz2, Hl. unfold erased_run, eraseLine_from, eraseLine_to, row_base in *.
      rewrite !(bool_decide_eq_false_2 (NInt 0 = NInt 1)) by done. simpl.
      repeat case_bool_decide; simpl; try done; try lia; try nia; try (symmetry; apply zlookup_None; lia).
Qed.

Lemma eraseDisplay_runs mode t : wf t → runs (eraseDisplay mode t).
Proof.
  intros Hw. eapply cells_after_runs; [done|by apply eraseDisplay_cells|].
  unfold erased_display. solve_valid.
Qed.

(** ** Printing *)

(** The cells [put] leaves before it moves the cursor. *)
Definition put_cells (c : cell) (t : term) (j : Z) : option cell :=
  if bool_decide (j = row_base t + x t) then Some c
  else if insertMode t && bool_decide (row_base t + x t < j < row_base t + columns t)
  then zlookup (cells (active t)) (j - 1)
  else zlookup (cells (active t)) j.

Definition put_glyph (c : Z) (ov : option cell) (t : term) : cell :=
  match ov with Some o => o | None => pen_cell t c end.

(** The cursor motion after a cell is drawn. *)
Definition advance (t : term) : result fault term :=
  if x t =? columns t - 1
  then lineFeed (set_active (set_scr_xy 0 (y t) (active t)) t)
  else Ok (set_x (NInt (x t + 1)) t).

Lemma put_spec c ov t :
  wf t → 32 ≤ c → c ≠ 127 →
  ∃ cs, put c ov t = advance (set_lastGraphic (Some (put_glyph c ov t)) (recell cs t)) ∧
    zlen cs = zlen (cells (active t)) ∧ ∀ j, zlookup cs j = put_cells (put_glyph c ov t) t j.
Proof.
  intros Hw Hc1 Hc2. pose proof (wf_bounds t Hw) as (HC & _ & Hx & _ & _ & _ & Hlen).
  pose proof (row_in_range t Hw) as Hrow. unfold put, put_cells.
  case (Z.ltb_spec c 32); [lia|]. case (Z.eqb_spec c 127); [done|]. intros _ _. simpl.
  fold (put_glyph c ov t). set (g := put_glyph c ov t).
  assert (∃ cs1, (if insertMode t then
         with_cells (foldM (λ column cs,
             let* prev := get_cell (index t (column - 1) (y t)) cs in
             put_cell (index t column (y t)) prev cs)
           (rev (seqZ (x t + 1) (columns t - 1 - x t)))) t
       else Ok t) = Ok (recell cs1 t) ∧ zlen cs1 = zlen (cells (active t)) ∧
     ∀ j, zlookup cs1 j = if insertMode t && bool_decide (row_base t + x t < j < row_base t + columns t)
       then zlookup (cells (active t)) (j - 1) else zlookup (cells (active t)) j)
    as (cs1 & -> & Hl1 & Hz1).
  { destruct (insertMode t); simpl.
    - destruct (shift_right_loop (row_base t) 1 (x t + 1) (Z.to_nat (columns t - 1 - x t)) (cells (active t)))
        as (cs1 & Hf1 & Hlen1 & Hz1); [lia..|]. rewrite Z2Nat.id in Hf1, Hz1 by lia.
      exists cs1. split; [|split; [done|]].
      + apply with_cells_ok. erewrite foldM_ext; [exact Hf1|].
        intros a s _. unfold index, row_base. by replace (y t * columns t + (a - 1)) with (y t * columns t + a - 1) by lia.
      + intros j. rewrite Hz1. repeat case_bool_decide; done || lia.
    - exists (cells (active t)). split; [|done]. f_equal.
      unfold recell, set_active, active. destruct t as [? ? [] [] []]; done. }
  cbn [rbind]. change (index t (x t) (y t)) with (row_base t + x t).
  rewrite (with_cells_ok _ _ (<[Z.to_nat (row_base t + x t) := g]> cs1)).
  2: { autorewrite with term. apply put_cell_ok. lia. }
  autorewrite with term. eexists. split; [done|]. rewrite zlen_insert. split; [done|].
  intros j. rewrite zlookup_insert by lia. rewrite Hz1. repeat case_bool_decide; done || lia.
Qed.

Lemma advance_runs t : wf t → runs (advance t).
Proof.
  intros Hw. unfold advance. case_match.
  - by apply lineFeed_runs, wf_home.
  - by apply runs_Ok, wf_set_x.
Qed.

Lemma wf_set_lastGraphic g t : wf t → valid_cell g → wf (set_lastGraphic (Some g) t).
Proof. intros [] Hg. constructor; simpl; try done. by intros ? [= <-]. Qed.

Lemma put_runs c ov t :
  wf t → (∀ o, ov = Some o → valid_cell o) → runs (put c ov t).
Proof.
  intros Hw Hov. destruct ((c <? 32) || (c =? 127)) eqn:Hp.
  - unfold put. rewrite Hp. by apply runs_Ok.
  - b2p. destruct (put_spec c ov t Hw) as (cs & -> & Hl & Hz); [done..|].
    assert (valid_cell (put_glyph c ov t)) as Hg.
    { unfold put_glyph. destruct ov; [by apply Hov|by apply valid_pen_cell]. }
    apply advance_runs, wf_set_lastGraphic; [|done].
    apply wf_recell; [done..|]. apply Forall_zlookup. intros i a. rewrite Hz. unfold put_cells.
    revert i a. solve_valid.
Qed.

Lemma repeatLast_runs v t : wf t → runs (repeatLast v t).
Proof.
  intros Hw. unfold repeatLast. destruct (lastGraphic t); [|by apply runs_Ok].
  generalize (seqZ 0 (num_ceil (num_clamp (num_or v 1) 1 (columns t * rows t)))).
  intros l. revert t Hw. induction l as [|a l IH]; intros t Hw; [by apply runs_Ok|].
  cbn [foldM]. apply runs_bind; [|auto]. destruct (lastGraphic t) as [g|] eqn:Hg; [|by apply runs_Ok].
  apply put_runs; [done|]. intros o [= <-]. by apply Hw.
Qed.

(** ** Pen, saved cursor, screens *)

Lemma wf_set_current p t : wf t → valid_attrs (pen_attrs p) → wf (set_current p t).
Proof. intros [] H. by constructor. Qed.

Lemma sgr_safe values t : wf t → safe (sgr values t).
Proof.
  intros Hw. unfold sgr.
  match goal with |- context [sgr_loop ?v ?p] =>
    pose proof (sgr_loop_valid v p (wf_pen t Hw)) as H; destruct (sgr_loop v p) end; simpl in *; [|done].
  by apply wf_set_current.
Qed.

Lemma sgr_runs values t : wf t → Forall (λ v, num_is_int v = true) values → runs (sgr values t).
Proof.
  intros Hw Hv. pose proof (sgr_safe values t Hw) as Hs. unfold sgr in *.
  destruct (sgr_loop_total (match values with [] => [NInt 0] | _ => values end) (current t)) as [p Hp].
  { destruct values; [by repeat constructor|done]. }
  rewrite Hp in *. simpl in *. by apply runs_Ok.
Qed.

Lemma wf_saveCursor t : wf t → wf (saveCursor t).
Proof. intros []. unfold saveCursor. destruct (default _ _). by constructor. Qed.

Lemma wf_restoreCursor t : wf t → wf (restoreCursor t).
Proof. intros Hw. unfold restoreCursor. apply wf_set_current; [by apply wf_set_y, wf_set_x|]. apply Hw. Qed.

Lemma wf_set_on_alt b t : wf t → wf (set_on_alt b t).
Proof. intros []. by constructor. Qed.

Lemma wf_resetScreen t s :
  wf t → wf_screen (columns t) (rows t) s → wf_screen (columns t) (rows t) (resetScreen t s).
Proof.
  intros Hw []. pose proof (wf_bounds t Hw). constructor; simpl; try done; try lia.
  - unfold zlen in *. by rewrite length_replicate.
  - apply Forall_replicate, valid_blank.
Qed.

Lemma wf_enterAlternate t : wf t → wf (enterAlternate t).
Proof.
  intros Hw%wf_saveCursor. unfold enterAlternate. apply wf_set_on_alt.
  pose proof (wf_resetScreen _ _ Hw (wf_alternate _ Hw)). destruct Hw. by constructor.
Qed.

Lemma wf_leaveAlternate t : wf t → wf (leaveAlternate t).
Proof. intros Hw. by apply wf_restoreCursor, wf_set_on_alt. Qed.

Lemma wf_fullReset t : wf t → wf (fullReset t).
Proof.
  intros Hw. pose proof (wf_resetScreen _ _ Hw (wf_primary _ Hw)).
  pose proof (wf_resetScreen _ _ Hw (wf_alternate _ Hw)). destruct Hw.
  constructor; simpl; try done.
Qed.

Lemma wf_makeScreen cols rws : 1 ≤ cols → 1 ≤ rws → wf_screen cols rws (makeScreen cols rws).
Proof.
  intros Hc Hr. constructor; simpl; try done; try lia.
  - unfold zlen. rewrite length_replicate. nia.
  - apply Forall_replicate, valid_blank.
Qed.

Lemma wf_constructor cols rws : wf (constructor cols rws).
Proof.
  pose proof (to_int32_range cols). pose proof (to_int32_range rws).
  constructor; simpl; try done; try lia; apply wf_makeScreen; lia.
Qed.

Lemma wf_set_modes on pm values t : wf t → wf (set_modes on pm values t).
Proof.
  intros Hw. unfold set_modes.
  assert (∀ b t, wf t → wf (set_insertMode b t)) as H1 by (intros ? ? []; by constructor).
  assert (∀ b t, wf t → wf (set_applicationCursorKeys b t)) as H2 by (intros ? ? []; by constructor).
  assert (∀ b t, wf t → wf (set_cursorVisible b t)) as H3 by (intros ? ? []; by constructor).
  repeat case_match; repeat first [done|apply H1|apply H2|apply H3|apply wf_enterAlternate|apply wf_leaveAlternate].
Qed.
