(* ===== verification/TermParser.v ===== *)
(** * Safety of the escape-sequence parser

    Whatever code points arrive, in whatever state, [write] keeps the screen
    invariant and never indexes outside the cell array.  It can stop only when
    a control sequence carries a parameter with a decimal point. *)

From stdpp Require Import base numbers list strings.
From Stdlib Require Import ZArith Lia.
From S2P Require Import Prelude JsNum TermModel TermCells TermSafety.

#[local] Open Scope Z_scope.
#[local] Open Scope waste_scope.

Lemma split_on_sub sep l w c : w ∈ split_on sep l → c ∈ w → c ∈ l.
Proof.
  revert w; induction l as [|a l IH]; intros w Hw Hc; simpl in Hw.
  - apply list_elem_of_singleton in Hw as ->. done.
  - destruct (a =? sep).
    + apply elem_of_cons in Hw as [->|Hw]; [by apply elem_of_nil in Hc|]. right. eauto.
    + destruct (split_on sep l) as [|w0 ws] eqn:Hs.
      * apply list_elem_of_singleton in Hw as ->. apply list_elem_of_singleton in Hc as ->. left.
      * apply elem_of_cons in Hw as [->|Hw].
        -- apply elem_of_cons in Hc as [->|Hc]; [left|]. right. apply (IH w0); [left|done].
        -- right. apply (IH w); [by right|done].
Qed.

Lemma param_value_int w : 46 ∉ w → num_is_int (param_value w) = true.
Proof.
  intros Hw. unfold param_value. destruct w as [|c w]; [done|].
  destruct (js_number_integral _ Hw) as [->|[z ->]]; done.
Qed.

Lemma params_int source : 46 ∉ source → Forall (λ v, num_is_int v = true) (params source).2.
Proof.
  intros Hs. unfold params.
  assert (∀ l, 46 ∉ l → Forall (λ v, num_is_int v = true) (param_value <$> split_on 59 l)) as Haux.
  { intros l Hl. apply Forall_fmap, Forall_forall. intros w Hw. simpl. apply param_value_int.
    intros H. by eapply Hl, split_on_sub. }
  destruct source as [|c rest]; [by apply (Haux [])|].
  apply not_elem_of_cons in Hs as Hs'. destruct Hs' as [_ Hr].
  destruct ((60 <=? c) && (c <=? 63)); [by apply (Haux rest)|by apply (Haux (c :: rest))].
Qed.

Lemma num_or_int v d : num_is_int v = true → ∃ z, num_or v d = NInt z.
Proof. destruct v as [[]| |]; simpl; eauto; done. Qed.

(** [executeCsi] on any parameters. *)
Lemma executeCsi_safe final t : wf t → safe (executeCsi final t).
Proof.
  intros Hw. pose proof (wf_bounds t Hw). unfold executeCsi.
  destruct (params (csi t)) as [prefix values]. case_match; [done|].
  set (first := num_or (default (NInt 0) (head values)) 0). clearbody first.
  generalize (num_or first 1) as n. intros n.
  repeat case_match;
    first [ done | apply scrollLines_safe; [done|lia|lia] | by apply changeLines_safe
          | by apply insertCharacters_safe | by apply deleteCharacters_safe | by apply sgr_safe
          | by apply setScrollRegion_safe
          | apply runs_safe; first [by apply eraseDisplay_runs|by apply eraseLine_runs
              |by apply eraseCharacters_runs|by apply repeatLast_runs]
          | simpl; repeat first [done|apply wf_set_x|apply wf_set_y|apply wf_saveCursor
              |apply wf_restoreCursor|apply wf_set_modes] ].
Qed.

Lemma setScrollRegion_runs (top bottom : option num) t :
  wf t → (∀ v, top = Some v → num_is_int v = true) → (∀ v, bottom = Some v → num_is_int v = true) →
  runs (setScrollRegion top bottom t).
Proof.
  intros Hw Ht Hb. pose proof (setScrollRegion_safe top bottom t Hw) as Hs.
  assert (∀ (v : option num) d, (∀ w, v = Some w → num_is_int w = true) →
    ∃ z, match v with Some w => num_or w d | None => NInt d end = NInt z) as Harg.
  { intros [w|] d Hv; [by apply num_or_int, Hv|eauto]. }
  unfold setScrollRegion in *.
  destruct (Harg top 1 Ht) as [z1 Hz1], (Harg bottom (rows t) Hb) as [z2 Hz2].
  clear Harg. rewrite Hz1, Hz2 in *. clear Hz1 Hz2. destruct (_ || _); by apply runs_Ok.
Qed.

(** On integral parameters it always succeeds. *)
Lemma executeCsi_runs final t : wf t → 46 ∉ csi t → runs (executeCsi final t).
Proof.
  intros Hw Hdot. pose proof (wf_bounds t Hw). unfold executeCsi.
  pose proof (params_int (csi t) Hdot) as Hints.
  destruct (params (csi t)) as [prefix values]. simpl in Hints.
  case_match; [by apply runs_Ok|].
  assert (∃ f, num_or (default (NInt 0) (head values)) 0 = NInt f) as [f ->].
  { apply num_or_int. destruct Hints; [done|]. done. }
  assert (∃ n, num_or (NInt f) 1 = NInt n) as [n ->] by (by apply num_or_int).
  repeat case_match;
    first [ apply scrollLines_runs; [done|lia|lia] | by apply changeLines_runs
          | by apply insertCharacters_runs | by apply deleteCharacters_runs | by apply sgr_runs
          | by apply eraseDisplay_runs|by apply eraseLine_runs
          | by apply eraseCharacters_runs|by apply repeatLast_runs
          | apply setScrollRegion_runs; [done|intros v Hv; exact (Forall_lookup_1 _ _ _ _ Hints Hv)..]
          | apply runs_Ok; repeat first [done|apply wf_set_x|apply wf_set_y|apply wf_saveCursor
              |apply wf_restoreCursor|apply wf_set_modes] ].
Qed.

Lemma utf16_length_app l c : utf16_length (l ++ [c]) = utf16_length l + utf16_units c.
Proof. induction l as [|a l IH]; simpl; [lia|]. rewrite IH. lia. Qed.

Lemma utf16_units_range c : 1 ≤ utf16_units c ≤ 2.
Proof. unfold utf16_units. case_match; lia. Qed.

Lemma wf_set_state s t : wf t → wf (set_state s t).
Proof. intros []. by constructor. Qed.
Lemma wf_set_oscEscaped b t : wf t → wf (set_oscEscaped b t).
Proof. intros []. by constructor. Qed.
Lemma wf_set_osc l t : wf t → utf16_length l ≤ 4097 → wf (set_osc l t).
Proof. intros [] ?. by constructor. Qed.
Lemma wf_set_csi l t : wf t → utf16_length l ≤ 129 → wf (set_csi l t).
Proof. intros [] ?. by constructor. Qed.
Lemma wf_set_keypad b t : wf t → wf (set_applicationKeypad b t).
Proof. intros []. by constructor. Qed.

Lemma wf_consume_osc c t : wf t → wf (consume_osc c t).
Proof.
  intros Hw. unfold consume_osc.
  assert (utf16_length [] ≤ 4097) by (simpl; lia).
  repeat case_match; b2p; repeat first [done|apply wf_set_oscEscaped|apply wf_set_osc|apply wf_set_state].
  rewrite utf16_length_app. pose proof (utf16_units_range c). simpl in *. lia.
Qed.

Lemma consume_esc_runs c t : wf t → runs (consume_esc c t).
Proof.
  intros Hw. unfold consume_esc.
  do 3 (case_match; [apply runs_Ok; first [apply wf_set_csi; [by apply wf_set_state|simpl; lia]
    |apply wf_set_osc; [by apply wf_set_state|simpl; lia]|by apply wf_set_state]|]).
  apply runs_bind; [|intros; by apply runs_Ok, wf_set_state].
  repeat case_match; first [by apply lineFeed_runs|by apply lineFeed_runs, wf_set_x|by apply reverseIndex_runs
    |apply runs_Ok; first [done|by apply wf_saveCursor|by apply wf_restoreCursor|by apply wf_fullReset
    |by apply wf_set_keypad]].
Qed.

Lemma consume_normal_runs c t : wf t → runs (consume_normal c t).
Proof.
  intros Hw. unfold consume_normal.
  repeat case_match; first [by apply lineFeed_runs|by apply put_runs
    |apply runs_Ok; first [done|by apply wf_set_x|by apply wf_set_state]].
Qed.

Lemma consume_csi_safe c t : wf t → safe (consume_csi c t).
Proof.
  intros Hw. unfold consume_csi. case_match.
  - apply safe_bind; [by apply executeCsi_safe|]. intros. by apply wf_set_state.
  - case_match; simpl; [|by apply wf_set_state]. apply wf_set_csi; [done|].
    rewrite utf16_length_app. pose proof (utf16_units_range c). b2p. lia.
Qed.

Lemma consume_csi_runs c t : wf t → 46 ∉ csi t → runs (consume_csi c t).
Proof.
  intros Hw Hd. pose proof (consume_csi_safe c t Hw) as Hs. unfold consume_csi in *. case_match.
  - apply runs_bind; [by apply executeCsi_runs|]. intros. by apply runs_Ok, wf_set_state.
  - case_match; by apply runs_Ok.
Qed.

Lemma consume_safe c t : wf t → safe (consume c t).
Proof.
  intros Hw. unfold consume. destruct (state t).
  - by apply runs_safe, consume_normal_runs.
  - by apply runs_safe, consume_esc_runs.
  - by apply consume_csi_safe.
  - simpl. by apply wf_set_state.
  - simpl. by apply wf_consume_osc.
Qed.

(** The only way to stop. *)
Lemma consume_stops c t e : wf t → consume c t = Err e → e = NonInteger ∧ state t = Csi ∧ 46 ∈ csi t.
Proof.
  intros Hw He. pose proof (consume_safe c t Hw) as Hs. rewrite He in Hs. simpl in Hs. split; [done|].
  assert (runs (consume c t) → False) as Hno by (intros (t' & Ht & _); congruence).
  unfold consume in Hno. destruct (state t).
  - exfalso. by apply Hno, consume_normal_runs.
  - exfalso. by apply Hno, consume_esc_runs.
  - split; [done|]. destruct (decide (46 ∈ csi t)); [done|]. exfalso. by apply Hno, consume_csi_runs.
  - exfalso. by apply Hno, runs_Ok, wf_set_state.
  - exfalso. by apply Hno, runs_Ok, wf_consume_osc.
Qed.

(** ** Whole texts *)

Definition write_stop (text : list Z) (t : term) : Prop :=
  ∃ pre c suf t1, text = pre ++ c :: suf ∧ write pre t = Ok t1 ∧ state t1 = Csi ∧ 46 ∈ csi t1.

Definition write_post (text : list Z) (t : term) (r : result fault term) : Prop :=
  match r with
  | Ok t' => wf t'
  | Err e => e = NonInteger ∧ write_stop text t
  end.

Lemma write_post_holds text t : wf t → write_post text t (write text t).
Proof.
  unfold write. intros Hw. induction text as [|c text IH] using rev_ind; [done|].
  rewrite foldM_snoc. destruct (foldM consume text t) as [t1|e] eqn:Hf; simpl in *.
  - pose proof (consume_safe c t1 IH) as Hs. destruct (consume c t1) as [t2|e] eqn:Hc; [done|].
    apply consume_stops in Hc as (-> & Hst & Hin); [|done]. split; [done|].
    exists text, c, [], t1. done.
  - destruct IH as [-> (pre & c' & suf & t1 & -> & H)]. split; [done|].
    exists pre, c', (suf ++ [c]), t1. by rewrite <- app_assoc.
Qed.
