(* ===== verification/TermResize.v ===== *)
(** * Resizing and the operations a page performs on the terminal

    [resize] rebuilds both buffers at the new size, keeping the common
    upper-left rectangle.  [reachable] is the set of states the page can bring
    the model to with [write] and [resize]. *)

From stdpp Require Import base numbers list strings.
From Stdlib Require Import ZArith Lia.
From S2P Require Import Prelude JsNum TermModel TermCells TermSafety TermParser.

#[local] Open Scope Z_scope.
#[local] Open Scope waste_scope.

(** The inner loop: one row of the old screen. *)
Lemma copy_row_loop (old : list cell) ob nb (n : nat) cs :
  0 ≤ ob → ob + Z.of_nat n ≤ zlen old → 0 ≤ nb → nb + Z.of_nat n ≤ zlen cs →
  ∃ cs', foldM (λ x cs, let* c := get_cell (ob + x) old in put_cell (nb + x) c cs)
           (seqZ 0 (Z.of_nat n)) cs = Ok cs' ∧
    zlen cs' = zlen cs ∧
    ∀ j, zlookup cs' j =
      if bool_decide (nb ≤ j < nb + Z.of_nat n) then zlookup old (ob + (j - nb)) else zlookup cs j.
Proof.
  intros H1 H2 H3 H4. induction n as [|n IH].
  - exists cs. split; [done|]. split; [done|]. intros j. rewrite bool_decide_eq_false_2; [done|lia].
  - destruct IH as (cs1 & Hf & Hlen & Hl); [lia|lia|].
    rewrite seqZ_snoc, foldM_snoc, Hf. cbn [rbind]. rewrite Z.add_0_l.
    destruct (get_cell_ok (ob + Z.of_nat n) old) as (c & -> & Hc); [lia|]. cbn [rbind].
    rewrite put_cell_ok by lia. eexists; split; [done|]. rewrite zlen_insert. split; [done|].
    intros j. rewrite zlookup_insert by lia. rewrite Hl.
    repeat case_bool_decide; try done; try lia. subst. rewrite <- Hc. f_equal. lia.
Qed.

(** The outer loop, in coordinates. *)
Lemma copy_rows_loop (old : list cell) oc orows cols rws w (n : nat) cs :
  zlen old = oc * orows → zlen cs = cols * rws → 0 ≤ w → w ≤ cols → w ≤ oc →
  Z.of_nat n ≤ rws → Z.of_nat n ≤ orows →
  ∃ cs', foldM (λ y cs, foldM (λ x cs, let* c := get_cell (y * oc + x) old in put_cell (y * cols + x) c cs)
           (seqZ 0 w) cs) (seqZ 0 (Z.of_nat n)) cs = Ok cs' ∧
    zlen cs' = zlen cs ∧
    ∀ x y, 0 ≤ x < cols → 0 ≤ y < rws →
      zlookup cs' (y * cols + x) =
        if bool_decide (x < w ∧ y < Z.of_nat n) then zlookup old (y * oc + x)
        else zlookup cs (y * cols + x).
Proof.
  intros Ho Hc Hw1 Hw2 Hw3 Hn1 Hn2. induction n as [|n IH].
  - exists cs. split; [done|]. split; [done|]. intros x y ? ?. rewrite bool_decide_eq_false_2; [done|lia].
  - destruct IH as (cs1 & Hf & Hlen & Hl); [lia|lia|].
    rewrite seqZ_snoc, foldM_snoc, Hf. cbn [rbind]. rewrite Z.add_0_l.
    destruct (copy_row_loop old (Z.of_nat n * oc) (Z.of_nat n * cols) (Z.to_nat w) cs1)
      as (cs2 & Hf2 & Hl2 & Hz2); [nia|nia|nia|nia|]. rewrite Z2Nat.id in Hf2, Hz2 by lia.
    rewrite Hf2. exists cs2. split; [done|]. split; [lia|]. intros x y Hx Hy. rewrite Hz2.
    destruct (decide (y = Z.of_nat n)) as [->|Hne].
    + destruct (decide (x < w)).
      * rewrite !bool_decide_eq_true_2 by lia. f_equal. lia.
      * rewrite !bool_decide_eq_false_2 by lia. rewrite Hl by lia.
        by rewrite bool_decide_eq_false_2 by lia.
    + rewrite bool_decide_eq_false_2 by nia. rewrite Hl by lia. repeat case_bool_decide; done || lia.
Qed.

(** What a resized buffer shows at [(x, y)]. *)
Definition resized_cell (old : screen) (x y : Z) : option cell :=
  if bool_decide (x < s_columns old ∧ y < s_rows old)
  then zlookup (cells old) (y * s_columns old + x) else Some blankCell.

Lemma resizeScreen_spec cols rws oc orows old :
  wf_screen oc orows old → 1 ≤ cols → 1 ≤ rws → 1 ≤ oc → 1 ≤ orows →
  ∃ s, resizeScreen cols rws old = Ok s ∧ wf_screen cols rws s ∧
    ∀ x y, 0 ≤ x < cols → 0 ≤ y < rws → zlookup (cells s) (y * cols + x) = resized_cell old x y.
Proof.
  intros Hold Hc Hr Hoc Hor. destruct Hold as [Ec Er Hx Hy Hreg Hbot Hlen Hv].
  unfold resizeScreen.
  destruct (copy_rows_loop (cells old) oc orows cols rws (Z.min cols oc) (Z.to_nat (Z.min rws orows))
    (cells (makeScreen cols rws))) as (cs & Hf & Hl & Hz); try lia; try done.
  { simpl. unfold zlen. rewrite length_replicate. nia. }
  rewrite Z2Nat.id in Hf, Hz by lia. rewrite Ec, Er, Hf. cbn [rbind].
  assert (zlen (cells (makeScreen cols rws)) = cols * rws) as Hm
    by (simpl; unfold zlen; rewrite length_replicate; nia).
  assert (∀ x y, 0 ≤ x < cols → 0 ≤ y < rws → zlookup cs (y * cols + x) = resized_cell old x y) as Hcell.
  { intros x y Hx' Hy'. rewrite Hz by done. unfold resized_cell. rewrite Ec, Er.
    assert (zlookup (cells (makeScreen cols rws)) (y * cols + x) = Some blankCell) as ->.
    { simpl. rewrite zlookup_replicate, bool_decide_eq_true_2; [done|nia]. }
    repeat case_bool_decide; done || lia. }
  eexists. split; [done|]. split; [|exact Hcell].
  constructor; simpl; try done.
  - pose proof (clamp_range (s_x old) 0 (cols - 1)). lia.
  - pose proof (clamp_range (s_y old) 0 (rws - 1)). lia.
  - lia.
  - lia.
  - by rewrite Hl.
  - apply Forall_zlookup. intros i c Hi.
    pose proof (zlookup_Some_range _ _ _ Hi) as Hri.
    assert (i = i / cols * cols + i mod cols) as Hdec by (rewrite Z.mul_comm; apply Z.div_mod; lia).
    pose proof (Z.mod_pos_bound i cols ltac:(lia)).
    assert (0 ≤ i / cols < rws) by (split; [apply Z.div_pos; lia|apply Z.div_lt_upper_bound; lia]).
    rewrite Hdec, Hcell in Hi by lia. unfold resized_cell in Hi. case_match; simplify_eq; [|apply valid_blank].
    by eapply zlookup_Forall.
Qed.

(** The terminal after a resize: its size, its cursor and its contents. *)
Definition resize_post (cols rws : Z) (t t' : term) : Prop :=
  columns t' = Z.max 1 (to_int32 cols) ∧ rows t' = Z.max 1 (to_int32 rws) ∧
  on_alt t' = on_alt t ∧
  x t' = Z.min (x t) (columns t' - 1) ∧ y t' = Z.min (y t) (rows t' - 1) ∧
  ∀ i j, 0 ≤ i < columns t' → 0 ≤ j < rows t' →
    cell_at t' i j = if bool_decide (i < columns t ∧ j < rows t) then cell_at t i j else Some blankCell.

Lemma resize_runs cols rws t :
  wf t → ∃ t', resize cols rws t = Ok t' ∧ wf t' ∧ resize_post cols rws t t'.
Proof.
  intros Hw. pose proof (wf_bounds t Hw) as Hb. unfold resize, resize_post.
  pose proof (to_int32_range cols). pose proof (to_int32_range rws).
  set (c := Z.max 1 (to_int32 cols)) in *. set (r := Z.max 1 (to_int32 rws)) in *.
  destruct ((c =? columns t) && (r =? rows t)) eqn:Heq.
  - b2p. exists t. split; [done|]. split; [done|]. repeat split; try lia.
    intros i j Hi Hj. rewrite bool_decide_eq_true_2; [done|lia].
  - destruct (resizeScreen_spec c r (columns t) (rows t) (primary t)) as (p & -> & Hp & Hpz);
      [apply Hw|lia..|].
    destruct (resizeScreen_spec c r (columns t) (rows t) (alternate t)) as (a & -> & Ha & Haz);
      [apply Hw|lia..|].
    cbn [rbind]. set (t2 := set_alternate a (set_primary p (set_rows r (set_columns c t)))).
    assert (wf t2) as Hw2. { destruct Hw. constructor; simpl; try done; lia. }
    eexists. split; [done|]. split; [by apply wf_set_y, wf_set_x|].
    assert (columns t2 = c) as Ec by done. assert (rows t2 = r) as Er by done.
    assert (0 ≤ x t < 2 ^ 31 ∧ 0 ≤ y t < 2 ^ 31) as [Hx Hy] by lia.
    fold (x t) (y t). unfold cell_at, index, set_y, set_x, x, y.
    autorewrite with term. simpl. rewrite ?active_set_active. simpl.
    rewrite ?Ec, ?Er. fold (x t) (y t). rewrite !to_int32_id by lia.
    assert (on_alt t2 = on_alt t) as Ealt by done.
    split; [done|]. split; [done|]. split; [done|].
    split; [unfold clamp; lia|]. split; [unfold clamp; lia|].
    intros i j Hi Hj.
    assert (zlookup (cells (active t2)) (j * c + i) = resized_cell (active t) i j) as ->.
    { unfold active. rewrite Ealt. destruct (on_alt t); [by apply Haz|by apply Hpz]. }
    unfold resized_cell. by rewrite (ws_columns _ _ _ (wf_active t Hw)), (ws_rows _ _ _ (wf_active t Hw)).
Qed.

(** ** What the page does *)

Inductive page_op : Type :=
| OpWrite (text : list Z)
| OpResize (cols rws : Z).

Definition run_op (op : page_op) (t : term) : result fault term :=
  match op with
  | OpWrite text => write text t
  | OpResize cols rws => resize cols rws t
  end.

Inductive reachable : term → Prop :=
| reach_new cols rws : reachable (constructor cols rws)
| reach_op op t t' : reachable t → run_op op t = Ok t' → reachable t'.

Lemma reachable_wf t : reachable t → wf t.
Proof.
  induction 1 as [cols rws|op t t' _ IH Hop]; [apply wf_constructor|].
  destruct op as [text|cols rws]; simpl in Hop.
  - pose proof (write_post_holds text t IH) as Hp. by rewrite Hop in Hp.
  - destruct (resize_runs cols rws t IH) as (t'' & Ht & Hw' & _). rewrite Hop in Ht. by injection Ht as ->.
Qed.
