(* ===== verification/TermFrame.v ===== *)
(** * The alternate screen does not touch the primary one

    [frame t t'] says an operation kept the size, stayed on the same screen and,
    when that screen is the alternate one, left the primary one alone. *)

From stdpp Require Import base numbers list strings.
From Stdlib Require Import ZArith Lia.
From S2P Require Import Prelude JsNum TermModel TermCells TermSafety.

#[local] Open Scope Z_scope.
#[local] Open Scope waste_scope.

Definition same_size (t t' : term) : Prop := columns t' = columns t ∧ rows t' = rows t.

Definition frame (t t' : term) : Prop :=
  on_alt t' = on_alt t ∧ (on_alt t = true → primary t' = primary t) ∧ same_size t t'.

#[export] Instance frame_preorder : PreOrder frame.
Proof.
  split; [by intros t|]. intros t1 t2 t3 (H1 & H2 & H5 & H6) (H3 & H4 & H7 & H8). split; [congruence|].
  split; [|split; congruence]. intros Ht. rewrite H4, H2 by congruence. done.
Qed.

(** The frame condition on an outcome. *)
Definition framed (t : term) (r : result fault term) : Prop :=
  match r with Ok t' => frame t t' | Err _ => True end.

Lemma framed_bind t r k :
  framed t r → (∀ t', frame t t' → framed t' (k t')) → framed t (rbind r k).
Proof.
  destruct r as [t1|e]; simpl; [|done]. intros H Hk. specialize (Hk t1 H).
  destruct (k t1) as [t2|]; simpl in *; [|done]. by transitivity t1.
Qed.

Lemma framed_trans t t' r : frame t t' → framed t' r → framed t r.
Proof. intros H. destruct r; simpl; [|done]. intros. by transitivity t'. Qed.

Lemma frame_set_active s t : frame t (set_active s t).
Proof. unfold frame, set_active. destruct t as [? ? ? ? []]; simpl; done. Qed.
Lemma frame_set_x v t : frame t (set_x v t).
Proof. apply frame_set_active. Qed.
Lemma frame_set_y v t : frame t (set_y v t).
Proof. apply frame_set_active. Qed.
Lemma frame_with_cells f t : framed t (with_cells f t).
Proof. unfold with_cells. destruct (f _); simpl; [apply frame_set_active|done]. Qed.

Lemma framed_scrollLines top bottom v down t : framed t (scrollLines top bottom v down t).
Proof. unfold scrollLines. case_match; [apply frame_with_cells|done..]. Qed.

Lemma framed_lineFeed t : framed t (lineFeed t).
Proof. unfold lineFeed. case_match; [apply framed_scrollLines|apply frame_set_y]. Qed.

Lemma framed_reverseIndex t : framed t (reverseIndex t).
Proof. unfold reverseIndex. case_match; [apply framed_scrollLines|apply frame_set_y]. Qed.

Lemma framed_changeLines v b t : framed t (changeLines v b t).
Proof.
  unfold changeLines. case_match; [simpl; reflexivity|].
  apply framed_bind; [apply framed_scrollLines|]. intros. apply frame_set_x.
Qed.

Lemma framed_setScrollRegion a b t : framed t (setScrollRegion a b t).
Proof.
  unfold setScrollRegion.
  destruct (match a with Some v => num_or v 1 | None => NInt 1 end); try done.
  destruct (match b with Some v => num_or v (rows t) | None => NInt (rows t) end); try done.
  destruct (_ || _); simpl; [reflexivity|].
  etransitivity; [apply frame_set_active|]. etransitivity; [apply frame_set_x|apply frame_set_y].
Qed.

Lemma framed_put c ov t : framed t (put c ov t).
Proof.
  unfold put. case_match; [simpl; reflexivity|].
  apply framed_bind.
  - case_match; [apply frame_with_cells|simpl; reflexivity].
  - intros t1 _. apply framed_bind; [apply frame_with_cells|]. intros t2 _.
    set (t3 := set_lastGraphic _ t2). apply (framed_trans _ t3); [by destruct t2|].
    case_match; [|apply frame_set_x].
    eapply framed_trans; [apply frame_set_active|]. apply framed_lineFeed.
Qed.

Lemma framed_repeatLast v t : framed t (repeatLast v t).
Proof.
  unfold repeatLast. destruct (lastGraphic t); [|simpl; reflexivity].
  generalize (seqZ 0 (num_ceil (num_clamp (num_or v 1) 1 (columns t * rows t)))).
  intros l. revert t. induction l as [|a l IH]; intros t; [simpl; reflexivity|].
  cbn [foldM]. apply framed_bind; [|intros; apply IH].
  destruct (lastGraphic t); [apply framed_put|simpl; reflexivity].
Qed.

Lemma framed_eraseLine m t : framed t (eraseLine m t).
Proof. apply frame_with_cells. Qed.

Lemma framed_eraseDisplay m t : framed t (eraseDisplay m t).
Proof.
  unfold eraseDisplay. case_match; [apply frame_with_cells|]. case_match.
  - apply framed_bind; [apply frame_with_cells|]. intros. apply framed_eraseLine.
  - apply framed_bind; [apply framed_eraseLine|]. intros. apply frame_with_cells.
Qed.

Lemma framed_sgr vs t : framed t (sgr vs t).
Proof. unfold sgr. destruct (sgr_loop _ _); simpl; [by destruct t|done]. Qed.

Lemma framed_eraseCharacters v t : framed t (eraseCharacters v t).
Proof. unfold eraseCharacters. case_match; [apply frame_with_cells..|simpl; reflexivity]. Qed.
Lemma framed_insertCharacters v t : framed t (insertCharacters v t).
Proof. unfold insertCharacters. case_match; [apply frame_with_cells|done..]. Qed.
Lemma framed_deleteCharacters v t : framed t (deleteCharacters v t).
Proof. unfold deleteCharacters. case_match; [apply frame_with_cells|done..]. Qed.

Lemma frame_saveCursor t : frame t (saveCursor t).
Proof. unfold saveCursor. destruct (default _ _). by destruct t. Qed.
Lemma frame_restoreCursor t : frame t (restoreCursor t).
Proof.
  unfold restoreCursor.
  set (t1 := set_y _ _). assert (frame t t1) as Ht1.
  { etransitivity; [apply frame_set_x|apply frame_set_y]. }
  etransitivity; [exact Ht1|]. by destruct t1.
Qed.

(** Whatever was executed, the size is kept, and staying on the alternate screen keeps the primary one. *)
Definition alt_kept (t : term) (r : result fault term) : Prop :=
  match r with
  | Ok t' => (on_alt t = true → on_alt t' = true → primary t' = primary t) ∧ same_size t t'
  | Err _ => True
  end.

Lemma framed_alt_kept t r : framed t r → alt_kept t r.
Proof. destruct r; simpl; [|done]. intros (H1 & H2 & H3). auto. Qed.

Lemma alt_kept_modes on pm vs t : alt_kept t (Ok (set_modes on pm vs t)).
Proof.
  simpl. unfold set_modes.
  set (t1 := if negb pm && includes 4 vs then _ else t).
  assert (frame t t1) as H1 by (unfold t1; destruct (_ && _), t; done).
  set (t2 := if pm && includes 1 vs then _ else t1).
  assert (frame t t2) as H2.
  { etransitivity; [exact H1|]. unfold t2. destruct (pm && includes 1 vs); [|done]. by destruct t1. }
  set (t3 := if pm && (includes 1049 vs || includes 47 vs) then _ else t2).
  assert (alt_kept t (Ok t3)) as H3.
  { unfold t3. destruct (pm && (includes 1049 vs || includes 47 vs)); [|by apply framed_alt_kept]. destruct on.
    - unfold enterAlternate. assert (frame t (saveCursor t2)) as (_ & Hs & Hz) by (etransitivity; [exact H2|apply frame_saveCursor]).
      split; [|done]. intros Ht _. simpl. by rewrite Hs.
    - unfold leaveAlternate. destruct (frame_restoreCursor (set_on_alt false t2)) as (Hf & _ & Hz1 & Hz2).
      destruct H2 as (_ & _ & Hz3 & Hz4). split; [intros _ Hon; by rewrite Hf in Hon|].
      split; rewrite ?Hz1, ?Hz2; done. }
  clearbody t3. destruct (pm && includes 25 vs); [|done]. by destruct t3.
Qed.

Lemma alt_kept_executeCsi final t : alt_kept t (executeCsi final t).
Proof.
  unfold executeCsi. destruct (params (csi t)) as [prefix values]. case_match; [done|].
  generalize (num_or (default (NInt 0) (head values)) 0). intros f.
  generalize (num_or f 1). intros n.
  repeat case_match; first [ apply alt_kept_modes | apply framed_alt_kept;
    first [ apply framed_scrollLines | apply framed_changeLines | apply framed_insertCharacters
          | apply framed_deleteCharacters | apply framed_sgr | apply framed_setScrollRegion
          | apply framed_eraseDisplay | apply framed_eraseLine | apply framed_eraseCharacters
          | apply framed_repeatLast | apply frame_set_x | apply frame_set_y
          | apply frame_saveCursor | apply frame_restoreCursor
          | simpl; reflexivity
          | simpl; etransitivity; [apply frame_set_y|apply frame_set_x] ] ].
Qed.

Lemma alt_kept_state (r : result fault term) t s :
  alt_kept t r → alt_kept t (rbind r (λ t1, Ok (set_state s t1))).
Proof. destruct r as [t1|]; simpl; [|done]. by destruct t1. Qed.

Lemma alt_kept_consume c t : alt_kept t (consume c t).
Proof.
  unfold consume. destruct (state t).
  - unfold consume_normal. repeat case_match; apply framed_alt_kept;
      first [apply framed_lineFeed|apply framed_put|apply frame_set_x|simpl; reflexivity|by destruct t].
  - unfold consume_esc. do 3 (case_match; [apply framed_alt_kept; by destruct t|]).
    apply alt_kept_state. repeat case_match;
      first [ done | apply framed_alt_kept; first [apply framed_lineFeed|apply framed_reverseIndex|apply frame_saveCursor
        |apply frame_restoreCursor|simpl; reflexivity
        |eapply framed_trans; [apply frame_set_x|apply framed_lineFeed]| by destruct t]].
  - unfold consume_csi. case_match; [apply alt_kept_state, alt_kept_executeCsi|].
    case_match; apply framed_alt_kept; by destruct t.
  - apply framed_alt_kept. by destruct t.
  - apply framed_alt_kept. unfold consume_osc. repeat case_match; by destruct t.
Qed.

(** Output never changes the size of the terminal. *)
Lemma write_size text t t' : write text t = Ok t' → same_size t t'.
Proof.
  revert t. induction text as [|c text IH]; intros t; unfold write; cbn [foldM]; [by intros [= ->]|].
  pose proof (alt_kept_consume c t) as Hk. destruct (consume c t) as [t1|]; simpl; [|done].
  intros H. destruct Hk as [_ [H1 H2]]. destruct (IH t1 H) as [H3 H4]. split; congruence.
Qed.
