(* ===== verification/TermTheorems.v ===== *)
(** * What the terminal promises its clients

    The statements the page and the guest programs rely on, each proved from
    the component lemmas of the Term files. *)

From stdpp Require Import base numbers list strings.
From Stdlib Require Import ZArith Lia.
From S2P Require Import Prelude JsNum TermModel TermCells TermSafety TermParser TermResize TermFrame.

#[local] Open Scope Z_scope.
#[local] Open Scope waste_scope.

(** ** Helpers: positions of the cursor, rows and cells *)

Lemma x_set_x v t : x (set_x v t) = clamp (num_int32 v) 0 (columns t - 1).
Proof. unfold x at 1, set_x. by rewrite active_set_active. Qed.
Lemma y_set_x v t : y (set_x v t) = y t.
Proof. unfold y at 1, set_x. by rewrite active_set_active. Qed.
Lemma x_set_y v t : x (set_y v t) = x t.
Proof. unfold x at 1, set_y. by rewrite active_set_active. Qed.
Lemma y_set_y v t : y (set_y v t) = clamp (num_int32 v) 0 (rows t - 1).
Proof. unfold y at 1, set_y. by rewrite active_set_active. Qed.
Lemma cells_set_x v t : cells (active (set_x v t)) = cells (active t).
Proof. unfold set_x. by rewrite active_set_active. Qed.
Lemma cells_set_y v t : cells (active (set_y v t)) = cells (active t).
Proof. unfold set_y. by rewrite active_set_active. Qed.
Lemma columns_set_x v t : columns (set_x v t) = columns t.
Proof. apply columns_set_active. Qed.
Lemma columns_set_y v t : columns (set_y v t) = columns t.
Proof. apply columns_set_active. Qed.
Lemma rows_set_x v t : rows (set_x v t) = rows t.
Proof. apply rows_set_active. Qed.
Lemma rows_set_y v t : rows (set_y v t) = rows t.
Proof. apply rows_set_active. Qed.
#[export] Hint Rewrite x_set_x y_set_x x_set_y y_set_y cells_set_x cells_set_y
  columns_set_x columns_set_y rows_set_x rows_set_y : term.

(** Reading a cell of the result of an operation that only redraws cells. *)
Lemma cells_after_at t r f i j :
  cells_after t r f → ∃ t', r = Ok t' ∧ cell_at t' i j = f (index t i j) ∧ x t' = x t ∧ y t' = y t.
Proof.
  intros (cs & -> & _ & Hl). eexists; split; [done|].
  unfold cell_at, index. autorewrite with term. by rewrite Hl.
Qed.

(** Linear position in a row of the grid. *)
Lemma index_row_bounds C a b i j :
  0 ≤ i < C → (a * C ≤ j * C + i < (b + 1) * C ↔ a ≤ j ≤ b).
Proof. intros Hi. split; intros; nia. Qed.

(** ** Printing a run of characters *)

Definition printable (c : Z) : Prop := 32 ≤ c ∧ c ≠ 127.

(** The state after a run of characters that stays on the row. *)
Record printed (l : list Z) (t t' : term) : Prop := {
  pr_wf : wf t';
  pr_x : x t' = x t + zlen l;
  pr_y : y t' = y t;
  pr_state : state t' = Normal;
  pr_mode : insertMode t' = insertMode t;
  pr_columns : columns t' = columns t;
  pr_current : current t' = current t;
  pr_cells : ∀ j, zlookup (cells (active t')) j =
    if bool_decide (row_base t + x t ≤ j < row_base t + x t + zlen l)
    then pen_cell t <$> zlookup l (j - (row_base t + x t)) else zlookup (cells (active t)) j }.

Lemma zlen_snoc {A : Type} (l : list A) a : zlen (l ++ [a]) = zlen l + 1.
Proof. unfold zlen. rewrite length_app. simpl. lia. Qed.

Lemma consume_printable c t :
  wf t → state t = Normal → insertMode t = false → printable c → x t + 1 < columns t →
  ∃ t', consume c t = Ok t' ∧ printed [c] t t'.
Proof.
  intros Hw Hs Hi [Hc1 Hc2] Hx. pose proof (wf_bounds t Hw).
  unfold consume. rewrite Hs. unfold consume_normal.
  assert (∀ k, k < 32 → (c =? k) = false) as Hne by (intros; apply Z.eqb_neq; lia).
  rewrite !Hne by lia. simpl.
  assert ((c <? 32) = false) as -> by (apply Z.ltb_ge; lia).
  assert ((c =? 127) = false) as -> by (by apply Z.eqb_neq). simpl.
  destruct (put_spec c None t Hw Hc1 Hc2) as (cs & -> & Hl & Hz).
  unfold put_glyph, put_cells in Hz. unfold put_glyph. rewrite Hi in Hz. simpl in Hz.
  set (t1 := set_lastGraphic _ _).
  assert (wf t1) as Hw1.
  { apply wf_set_lastGraphic; [|by apply valid_pen_cell]. apply wf_recell; [done..|].
    apply Forall_zlookup. intros i a. rewrite Hz. revert i a. solve_valid. }
  assert (x t1 = x t) as Ex by (apply (x_recell cs t)).
  assert (y t1 = y t) as Ey by (apply (y_recell cs t)).
  assert (columns t1 = columns t) as Ec by (apply (columns_recell cs t)).
  assert (cells (active t1) = cs) as Ecs by (apply (cells_recell cs t)).
  assert (state t1 = state t) as Est by (apply (state_set_active _ t)).
  assert (insertMode t1 = insertMode t) as Eim by (apply (insertMode_set_active _ t)).
  assert (current t1 = current t) as Ecur by (apply (current_set_active _ t)).
  clearbody t1.
  unfold advance. rewrite Ex, Ec.
  assert ((x t =? columns t - 1) = false) as -> by (apply Z.eqb_neq; lia).
  eexists. split; [done|]. constructor.
  - by apply wf_set_x.
  - rewrite x_set_x, Ec. simpl. rewrite to_int32_id by lia. unfold clamp. change (zlen [c]) with 1. lia.
  - by rewrite y_set_x.
  - unfold set_x. rewrite state_set_active. congruence.
  - unfold set_x. by rewrite insertMode_set_active.
  - by rewrite columns_set_x.
  - unfold set_x. by rewrite current_set_active.
  - intros j. rewrite cells_set_x, Ecs, Hz. change (zlen [c]) with 1.
    repeat case_bool_decide; try done; try lia. subst. by replace (row_base t + x t - (row_base t + x t)) with 0 by lia.
Qed.

Lemma write_printable l t :
  wf t → state t = Normal → insertMode t = false → Forall printable l → x t + zlen l < columns t →
  ∃ t', write l t = Ok t' ∧ printed l t t'.
Proof.
  intros Hw Hs Hi. unfold write. induction l as [|c l IH] using rev_ind; intros Hp Hx.
  - exists t. split; [done|]. change (zlen []) with 0 in *. constructor; try done; change (zlen []) with 0; try lia.
    intros j. rewrite bool_decide_eq_false_2; [done|lia].
  - rewrite zlen_snoc in Hx. apply Forall_app in Hp as [Hp1 Hp2]. rewrite Forall_singleton in Hp2.
    destruct IH as (t1 & Hf & [Hw1 Hx1 Hy1 Hs1 Hm1 Hc1 Hcur1 Hz1]); [done|lia|].
    rewrite foldM_snoc, Hf. cbn [rbind].
    change (zlen [c]) with 1 in *.
    destruct (consume_printable c t1) as (t2 & -> & [Hw2 Hx2 Hy2 Hs2 Hm2 Hc2 Hcur2 Hz2]);
      [done|done|congruence|exact Hp2|lia|].
    assert (pen_cell t1 c = pen_cell t c) as Hpen by (unfold pen_cell; by rewrite Hcur1).
    change (zlen [c]) with 1 in *. assert (row_base t1 = row_base t) as Hrb by (unfold row_base; congruence).
    exists t2. split; [done|]. constructor; try done; try congruence; rewrite ?zlen_snoc; try lia.
    intros j. rewrite Hz2, Hz1, Hrb, Hx1. pose proof (zlen_nonneg l).
    repeat case_bool_decide; try done; try lia.
    + replace (j - (row_base t + (x t + zlen l))) with 0 by lia. simpl. rewrite Hpen.
      rewrite zlookup_app. case (Z.ltb_spec (j - (row_base t + x t)) (zlen l)); [lia|]. intros _.
      by replace (j - (row_base t + x t) - zlen l) with 0 by lia.
    + rewrite zlookup_app. case (Z.ltb_spec (j - (row_base t + x t)) (zlen l)); [done|lia].
Qed.

(** ** Parameter bytes of a control sequence *)

Definition param_byte (c : Z) : Prop := 0 ≤ c < 64.

Lemma utf16_length_params l : Forall param_byte l → utf16_length l = zlen l.
Proof.
  induction 1 as [|c l [Hc1 Hc2] _ IH]; [done|]. change (utf16_length (c :: l)) with (utf16_units c + utf16_length l).
  rewrite IH. unfold utf16_units, zlen. case (Z.ltb_spec 65535 c); [lia|]. simpl. lia.
Qed.

Lemma write_params l t :
  state t = Csi → Forall param_byte (csi t) → Forall param_byte l → zlen (csi t) + zlen l ≤ 128 →
  write l t = Ok (set_csi (csi t ++ l) t).
Proof.
  revert t; induction l as [|c l IH]; intros t Hs Hcsi Hl Hlen.
  - simpl. rewrite app_nil_r. by destruct t.
  - apply Forall_cons in Hl as [Hc Hl]. unfold zlen in *. simpl in Hlen.
    cbn [write foldM]. unfold write in *. unfold consume at 1. rewrite Hs. unfold consume_csi.
    assert ((64 <=? c) = false) as -> by (apply Z.leb_gt; destruct Hc; lia). simpl.
    rewrite utf16_length_params by done. unfold zlen.
    assert ((Z.of_nat (length (csi t)) <? 128) = true) as -> by (apply Z.ltb_lt; lia).
    cbn [rbind]. rewrite IH; simpl; [by rewrite <- app_assoc|done|apply Forall_app; by repeat constructor; destruct Hc|done|].
    rewrite length_app. simpl. lia.
Qed.

Lemma dec_digits_length fuel n acc k :
  0 ≤ n < 10 ^ Z.of_nat (S k) → (length (dec_digits fuel n acc) ≤ S k + length acc)%nat.
Proof.
  revert n acc k; induction fuel as [|fuel IH]; intros n acc k Hn; simpl; [lia|].
  case (Z.ltb_spec n 10); intros Hlt; simpl; [lia|].
  destruct k as [|k]; [change (10 ^ Z.of_nat 1) with 10 in Hn; lia|].
  etransitivity; [apply (IH _ _ k)|simpl; lia].
  split; [apply Z.div_pos; lia|]. apply Z.div_lt_upper_bound; [lia|].
  rewrite <- Z.pow_succ_r by lia. rewrite <- Nat2Z.inj_succ. lia.
Qed.

Lemma dec_text_length n : 0 ≤ n ≤ 2 ^ 31 → zlen (dec_text n) ≤ 10.
Proof.
  intros Hn. unfold zlen, dec_text.
  assert (2 ^ 31 < 10 ^ Z.of_nat 10) by (by vm_compute).
  pose proof (dec_digits_length (S (Z.to_nat n)) n [] 9 ltac:(lia)) as H'. change (length (@nil Z)) with 0%nat in H'. lia.
Qed.

Lemma dec_text_params n : Forall param_byte (dec_text n).
Proof.
  eapply Forall_impl; [apply dec_text_digits|]. intros c Hc. unfold is_digit in Hc. b2p. unfold param_byte. lia.
Qed.

Lemma dec_text_cons n : 0 ≤ n → ∃ c l, dec_text n = c :: l ∧ is_digit c = true.
Proof.
  intros Hn. pose proof (dec_text_digits n) as Hd.
  destruct (dec_digits_read (S (Z.to_nat n)) n) as (k & Hk & Hr); [lia|]. fold (dec_text n) in Hr.
  destruct (dec_text n) as [|c l]; [simpl in Hr; simplify_eq; lia|].
  apply Forall_cons in Hd as [Hd _]. eauto.
Qed.

Lemma dec_text_no_sep n : 59 ∉ dec_text n.
Proof.
  intros H. pose proof (dec_text_digits n) as Hd. rewrite Forall_forall in Hd.
  apply Hd in H. unfold is_digit in H. b2p. lia.
Qed.

Lemma param_value_dec n : 0 ≤ n < 2 ^ 53 → param_value (dec_text n) = NInt n.
Proof.
  intros Hn. unfold param_value. destruct (dec_text_cons n ltac:(lia)) as (c & l & Hd & _).
  rewrite Hd, <- Hd, js_number_dec by done. done.
Qed.

Lemma params_two r c :
  0 ≤ r < 2 ^ 53 → 0 ≤ c < 2 ^ 53 → params (dec_text r ++ 59 :: dec_text c) = (None, [NInt r; NInt c]).
Proof.
  intros Hr Hc. unfold params. destruct (dec_text_cons r ltac:(lia)) as (d & l & Hd & Hdig).
  rewrite Hd. cbn [app]. unfold is_digit in Hdig. b2p.
  assert ((60 <=? d) = false) as -> by (apply Z.leb_gt; lia). simpl andb. cbn match.
  rewrite app_comm_cons, <- Hd, split_on_app, split_on_none by apply dec_text_no_sep.
  simpl. by rewrite !param_value_dec.
Qed.

Lemma params_one n : 0 ≤ n < 2 ^ 53 → params (dec_text n) = (None, [NInt n]).
Proof.
  intros Hn. unfold params. destruct (dec_text_cons n ltac:(lia)) as (d & l & Hd & Hdig).
  rewrite Hd. unfold is_digit in Hdig. b2p.
  assert ((60 <=? d) = false) as -> by (apply Z.leb_gt; lia). simpl andb. cbn match.
  rewrite <- Hd, split_on_none by apply dec_text_no_sep. simpl. by rewrite param_value_dec.
Qed.

(** ** Safety *)

(** C1: In every state the page can reach from a new terminal by writing text
    and resizing, the screen invariant holds (cursor and margins on the grid,
    exactly [columns * rows] cells, well-formed colours); one more operation
    keeps it, never indexes outside the cell array, and can stop only in a
    control sequence one of whose parameters contains a decimal point. *)
Theorem terminal_reachable_safe t op :
  reachable t →
  wf t ∧ match run_op op t with
         | Ok t' => wf t'
         | Err e => e = NonInteger ∧ ∃ text, op = OpWrite text ∧ write_stop text t
         end.
Proof.
  intros Hw%reachable_wf. split; [done|]. destruct op as [text|cols rws]; simpl.
  - pose proof (write_post_holds text t Hw) as Hp. destruct (write text t); simpl in Hp; naive_solver.
  - destruct (resize_runs cols rws t Hw) as (t' & -> & ? & _). done.
Qed.

Definition safe_demo : list Z := 27 :: codes "[2J" ++ codes "ok".

Lemma terminal_reachable_safe_witness :
  wf (constructor 8 3) ∧
  match run_op (OpWrite safe_demo) (constructor 8 3) with
  | Ok t' => wf t'
  | Err e => e = NonInteger ∧ ∃ text, OpWrite safe_demo = OpWrite text
                              ∧ write_stop text (constructor 8 3)
  end.
Proof. exact (terminal_reachable_safe (constructor 8 3) (OpWrite safe_demo) (reach_new 8 3)). Defined.

(** The exception is real: a fractional count such as CSI 1.5 @ makes the
    terminal read the cell array at a fractional index (the cells it shifts
    become [undefined]). *)
Theorem fractional_count_stops :
  write (codes "abc" ++ 13 :: 27 :: codes "[1.5@") (constructor 8 3) = Err NonInteger.
Proof. by vm_compute. Qed.



(** ** Redrawing *)

(** C37: Scrolling a region by [n] lines moves every row of the region by the
    clamped count, blanks exactly the vacated rows in the pen's effective
    colours, and touches no cell outside the region and not the cursor. *)
Theorem scroll_moves_rows t top bottom n down i j :
  wf t → 0 ≤ top ≤ bottom → bottom < rows t → 0 ≤ i < columns t →
  ∃ t', scrollLines top bottom (NInt n) down t = Ok t' ∧ x t' = x t ∧ y t' = y t ∧
    let c := clamp n 1 (bottom - top + 1) in
    let from := if down then j - c else j + c in
    cell_at t' i j =
      if bool_decide (top ≤ j ≤ bottom) then
        if bool_decide (top ≤ from ≤ bottom) then cell_at t i from else Some (eraseCell t)
      else cell_at t i j.
Proof.
  intros Hw Ht Hb Hi. pose proof (scrollLines_cells t top bottom n down Hw Ht Hb) as Hc.
  destruct (cells_after_at _ _ _ i j Hc) as (t' & Hok & Hat & Hx & Hy).
  exists t'. repeat split; try done. cbv zeta. rewrite Hat. unfold scroll_cells, cell_at, index.
  pose proof (index_row_bounds (columns t) top bottom i j Hi) as Hrow.
  pose proof (clamp_range n 1 (bottom - top + 1) ltac:(lia)) as Hcl. set (c := clamp _ _ _) in *.
  assert (∀ k, (j + k) * columns t + i = j * columns t + i + k * columns t) as Hadd by (intros; lia).
  destruct (decide (top ≤ j ≤ bottom)) as [Hin|Hout].
  - rewrite !(bool_decide_eq_true_2 (top ≤ j ≤ bottom)), bool_decide_eq_true_2 by tauto.
    destruct down.
    + destruct (decide (top ≤ j - c)).
      * rewrite bool_decide_eq_false_2, bool_decide_eq_true_2 by nia. f_equal. lia.
      * rewrite bool_decide_eq_true_2, bool_decide_eq_false_2 by nia. done.
    + destruct (decide (j + c ≤ bottom)).
      * rewrite bool_decide_eq_false_2, bool_decide_eq_true_2 by nia. f_equal. lia.
      * rewrite bool_decide_eq_true_2, bool_decide_eq_false_2 by nia. done.
  - rewrite !bool_decide_eq_false_2 by tauto. done.
Qed.

Lemma scroll_moves_rows_witness :
  ∃ t', scrollLines 0 1 (NInt 1) false (constructor 8 3) = Ok t' ∧ x t' = 0 ∧ y t' = 0 ∧
    cell_at t' 0 1 = Some (eraseCell (constructor 8 3)).
Proof.
  destruct (scroll_moves_rows (constructor 8 3) 0 1 1 false 0 1 (wf_constructor 8 3)
    ltac:(lia) ltac:(by vm_compute) ltac:(vm_compute; split; congruence)) as (t' & H1 & H2 & H3 & H4).
  exists t'. split; [exact H1|]. split; [exact H2|]. split; [exact H3|]. exact H4.
Defined.

(** [CSI J] blanks from the cursor to the end of the screen, [CSI 1 J] from
    the start to the cursor, [CSI 2 J] and [CSI 3 J] everything; every other
    cell, and the cursor, stays. *)
Theorem erase_display_blanks mode t i j :
  wf t → 0 ≤ i < columns t → 0 ≤ j < rows t →
  ∃ t', eraseDisplay mode t = Ok t' ∧ x t' = x t ∧ y t' = y t ∧
    cell_at t' i j =
      if (if bool_decide (mode = NInt 2 ∨ mode = NInt 3) then true
          else if bool_decide (mode = NInt 1) then bool_decide (j < y t ∨ j = y t ∧ i ≤ x t)
          else bool_decide (y t < j ∨ j = y t ∧ x t ≤ i))
      then Some blankCell else cell_at t i j.
Proof.
  intros Hw Hi Hj. pose proof (wf_bounds t Hw) as (HC & HR & Hx & Hy & _).
  destruct (cells_after_at _ _ _ i j (eraseDisplay_cells mode t Hw)) as (t' & Hok & Hat & ? & ?).
  exists t'. repeat split; try done. rewrite Hat. unfold erased_display, display_erased, row_base, index.
  rewrite (bool_decide_eq_true_2 (0 ≤ j * columns t + i < columns t * rows t)) by nia. simpl.
  replace (bool_decide (mode = NInt 2) || bool_decide (mode = NInt 3))
    with (bool_decide (mode = NInt 2 ∨ mode = NInt 3)) by (repeat case_bool_decide; naive_solver).
  assert ((j * columns t + i ≤ y t * columns t + x t) ↔ (j < y t ∨ j = y t ∧ i ≤ x t)) as H1 by nia.
  assert ((y t * columns t + x t ≤ j * columns t + i) ↔ (y t < j ∨ j = y t ∧ x t ≤ i)) as H2 by nia.
  by rewrite (bool_decide_ext _ _ H1), (bool_decide_ext _ _ H2).
Qed.

Lemma erase_display_blanks_witness :
  ∃ t', eraseDisplay (NInt 0) (constructor 8 3) = Ok t' ∧ cell_at t' 1 1 = Some blankCell.
Proof.
  destruct (erase_display_blanks (NInt 0) (constructor 8 3) 1 1 (wf_constructor 8 3)
    ltac:(vm_compute; split; congruence) ltac:(vm_compute; split; congruence)) as (t' & H1 & _ & _ & H2).
  exists t'. split; [exact H1|exact H2].
Defined.

(** [CSI 2 K] (erase the whole line) leaves every cell left of the cursor
    in place: it behaves exactly as [CSI 0 K], erasing from the cursor. *)
Theorem erase_line_2_keeps_prefix t :
  eraseLine (NInt 2) t = eraseLine (NInt 0) t ∧
  (wf t → ∀ i, 0 ≤ i < x t → ∃ t', eraseLine (NInt 2) t = Ok t' ∧ cell_at t' i (y t) = cell_at t i (y t)).
Proof.
  split; [done|]. intros Hw i Hi.
  destruct (cells_after_at _ _ _ i (y t) (eraseLine_cells (NInt 2) t Hw)) as (t' & Hok & Hat & _).
  exists t'. split; [done|]. rewrite Hat. unfold erased_run, eraseLine_from, index, row_base.
  rewrite (bool_decide_eq_false_2 (NInt 2 = NInt 1)) by done.
  rewrite bool_decide_eq_false_2; [done|lia].
Qed.

Lemma erase_line_2_keeps_prefix_witness :
  ∃ t', eraseLine (NInt 2) (set_x (NInt 2) (constructor 8 3)) = Ok t' ∧
    cell_at t' 0 (y (set_x (NInt 2) (constructor 8 3))) =
    cell_at (set_x (NInt 2) (constructor 8 3)) 0 (y (set_x (NInt 2) (constructor 8 3))).
Proof.
  apply (proj2 (erase_line_2_keeps_prefix (set_x (NInt 2) (constructor 8 3)))).
  - apply wf_set_x, wf_constructor.
  - rewrite x_set_x. simpl. by vm_compute.
Defined.

(** Inserting [n] blanks at the cursor and deleting [n] characters again
    gives back every cell of the row except the [n] that were pushed over the
    right margin, which are blank; no other row changes. *)
Theorem insert_delete_roundtrip n t i j :
  wf t → 0 ≤ i < columns t → 0 ≤ j < rows t →
  let c := clamp n 1 (columns t - x t) in
  ∃ t1 t2, insertCharacters (NInt n) t = Ok t1 ∧ deleteCharacters (NInt n) t1 = Ok t2 ∧
    cell_at t2 i j =
      if bool_decide (j = y t ∧ columns t - c ≤ i) then Some (pen_cell t 32) else cell_at t i j.
Proof.
  intros Hw Hi Hj c. pose proof (wf_bounds t Hw) as (HC & HR & Hx & Hy & _).
  assert (1 ≤ c ≤ columns t - x t) as Hc by (apply clamp_range; lia).
  destruct (insertCharacters_cells n t Hw) as (cs & Hins & Hlen & Hz).
  assert (wf (recell cs t)) as Hw1.
  { apply wf_recell; [done..|]. apply Forall_zlookup. intros k a. rewrite Hz. unfold inserted_row.
    revert k a. solve_valid. }
  destruct (cells_after_at _ _ _ i j (deleteCharacters_cells n (recell cs t) Hw1))
    as (t2 & Hdel & Hat & _).
  exists (recell cs t), t2. split; [done|]. split; [done|]. rewrite Hat.
  unfold deleted_row, row_base, index. autorewrite with term. fold c. rewrite !Hz.
  unfold inserted_row, pen_cell, row_base, cell_at, index. autorewrite with term. fold c.
  destruct (decide (j = y t)) as [->|Hne].
  - repeat case_bool_decide; try done; try lia. f_equal. lia.
  - rewrite !bool_decide_eq_false_2 by nia. done.
Qed.

Lemma insert_delete_roundtrip_witness :
  let t := set_x (NInt 2) (constructor 8 3) in
  ∃ t1 t2, insertCharacters (NInt 3) t = Ok t1 ∧ deleteCharacters (NInt 3) t1 = Ok t2 ∧
    cell_at t2 5 0 = Some (pen_cell t 32).
Proof.
  intros t.
  destruct (insert_delete_roundtrip 3 t 5 0 (wf_set_x _ _ (wf_constructor 8 3))
    ltac:(by vm_compute) ltac:(by vm_compute)) as (t1 & t2 & H1 & H2 & H3).
  exists t1, t2. split; [exact H1|]. split; [exact H2|exact H3].
Defined.

(** In insert mode (IRM) a printed character shifts the rest of the row one
    column right, losing only the last cell, and is drawn at the cursor. *)
Theorem insert_mode_shifts c t i :
  wf t → state t = Normal → insertMode t = true → printable c → x t + 1 < columns t →
  0 ≤ i < columns t →
  ∃ t', consume c t = Ok t' ∧ x t' = x t + 1 ∧ y t' = y t ∧
    cell_at t' i (y t) =
      if bool_decide (i < x t) then cell_at t i (y t)
      else if bool_decide (i = x t) then Some (pen_cell t c) else cell_at t (i - 1) (y t).
Proof.
  intros Hw Hs Hi [Hc1 Hc2] Hx Hcol. pose proof (wf_bounds t Hw) as (HC & _ & Hxr & _).
  unfold consume. rewrite Hs. unfold consume_normal.
  assert (∀ k, k < 32 → (c =? k) = false) as Hne by (intros; apply Z.eqb_neq; lia).
  rewrite !Hne by lia. simpl.
  assert ((c <? 32) = false) as -> by (apply Z.ltb_ge; lia).
  assert ((c =? 127) = false) as -> by (by apply Z.eqb_neq). simpl.
  destruct (put_spec c None t Hw Hc1 Hc2) as (cs & -> & Hl & Hz).
  unfold put_glyph, put_cells in Hz. unfold put_glyph, advance. rewrite Hi in Hz. simpl in Hz.
  assert (x (set_lastGraphic (Some (pen_cell t c)) (recell cs t)) = x t) as Ex by (apply (x_recell cs t)).
  assert (columns (set_lastGraphic (Some (pen_cell t c)) (recell cs t)) = columns t) as Ec
    by (apply (columns_recell cs t)).
  rewrite Ex, Ec. assert ((x t =? columns t - 1) = false) as -> by (apply Z.eqb_neq; lia).
  eexists. split; [done|]. rewrite x_set_x, y_set_x. simpl num_int32.
  rewrite to_int32_id by lia. split; [|split].
  - rewrite Ec. unfold clamp. lia.
  - apply (y_recell cs t).
  - unfold cell_at, index. rewrite columns_set_x, Ec, cells_set_x.
    assert (cells (active (set_lastGraphic (Some (pen_cell t c)) (recell cs t))) = cs) as ->
      by (apply (cells_recell cs t)).
    rewrite Hz. unfold row_base.
    repeat case_bool_decide; simpl; try done; try lia. f_equal. lia.
Qed.

Lemma insert_mode_shifts_witness :
  let t := set_insertMode true (constructor 8 3) in
  ∃ t', consume 65 t = Ok t' ∧ cell_at t' 0 0 = Some (pen_cell t 65).
Proof.
  intros t.
  destruct (insert_mode_shifts 65 t 0 ltac:(destruct (wf_constructor 8 3); by constructor) eq_refl eq_refl
    ltac:(by split) ltac:(by vm_compute) ltac:(by vm_compute)) as (t' & H1 & _ & _ & H2).
  exists t'. split; [exact H1|exact H2].
Defined.

(** Writing a run of printable characters that fits on the row draws them
    one after the other in the pen's attributes, moves the cursor past them,
    and changes no other cell. *)
Theorem print_run l t :
  wf t → state t = Normal → insertMode t = false → Forall printable l → x t + zlen l < columns t →
  ∃ t', write l t = Ok t' ∧ x t' = x t + zlen l ∧ y t' = y t ∧
    ∀ i j, 0 ≤ i < columns t → 0 ≤ j < rows t →
      cell_at t' i j = if bool_decide (j = y t ∧ x t ≤ i < x t + zlen l)
                       then pen_cell t <$> zlookup l (i - x t) else cell_at t i j.
Proof.
  intros Hw Hs Hi Hl Hx. pose proof (wf_bounds t Hw).
  destruct (write_printable l t Hw Hs Hi Hl Hx) as (t' & Hwr & [_ Hx' Hy' _ _ Hc' _ Hz]).
  exists t'. repeat split; try done. intros i j Hi' Hj'. unfold cell_at, index.
  rewrite Hc', Hz. unfold row_base. destruct (decide (j = y t)) as [->|Hne].
  - repeat case_bool_decide; try done; try lia. f_equal. f_equal. lia.
  - rewrite !bool_decide_eq_false_2 by nia. done.
Qed.

Lemma print_run_witness :
  ∃ t', write [104; 105] (constructor 8 3) = Ok t' ∧ x t' = 2 ∧ y t' = 0.
Proof.
  destruct (print_run [104; 105] (constructor 8 3) (wf_constructor 8 3) eq_refl eq_refl
    ltac:(repeat constructor; by vm_compute) ltac:(by vm_compute)) as (t' & H1 & H2 & H3 & _).
  exists t'. split; [exact H1|]. split; [exact H2|exact H3].
Defined.

(** ** Control sequences *)

Definition cup_text (r c : Z) : list Z := 27 :: 91 :: dec_text r ++ 59 :: dec_text c ++ [72].

Lemma write_app l1 l2 t : write (l1 ++ l2) t = rbind (write l1 t) (write l2).
Proof. apply foldM_app. Qed.

Lemma write_esc_csi t : state t = Normal → write [27; 91] t = Ok (set_csi [] (set_state Csi t)).
Proof. intros Hs. unfold write. simpl. unfold consume at 1. rewrite Hs. by destruct t. Qed.

Lemma executeCsi_cup r c t :
  1 ≤ r ≤ 2 ^ 31 → 1 ≤ c ≤ 2 ^ 31 → csi t = dec_text r ++ 59 :: dec_text c →
  executeCsi 72 t = Ok (set_x (NInt (-1 + c)) (set_y (NInt (-1 + r)) t)).
Proof.
  intros Hr Hc Hcsi. unfold executeCsi. rewrite Hcsi, params_two by lia. cbn -[num_or num_add].
  assert (∀ n, 1 ≤ n → num_or (NInt n) 1 = NInt n) as Hor by (intros [] ?; done || lia).
  rewrite !Hor by lia. by rewrite !num_add_exact by lia.
Qed.

Lemma consume_csi_final c t t' :
  state t = Csi → 64 ≤ c ≤ 126 → executeCsi c t = Ok t' → consume c t = Ok (set_state Normal t').
Proof.
  intros Hs Hc He. unfold consume. rewrite Hs. unfold consume_csi.
  assert ((64 <=? c) && (c <=? 126) = true) as -> by (apply andb_true_iff; split; apply Z.leb_le; lia).
  by rewrite He.
Qed.

(** The text [ESC [ r ; c H], with [r] and [c] in decimal, puts the cursor
    on row [r - 1] and column [c - 1], clamped to the screen, draws nothing
    and returns the parser to its ground state. *)
Theorem cursor_position_text r c t :
  wf t → state t = Normal → 1 ≤ r ≤ 2 ^ 31 → 1 ≤ c ≤ 2 ^ 31 →
  ∃ t', write (cup_text r c) t = Ok t' ∧ state t' = Normal ∧
    y t' = Z.min (r - 1) (rows t - 1) ∧ x t' = Z.min (c - 1) (columns t - 1) ∧
    cells (active t') = cells (active t).
Proof.
  intros Hw Hs Hr Hc. pose proof (wf_bounds t Hw) as (HC & HR & _).
  unfold cup_text.
  replace (27 :: 91 :: dec_text r ++ 59 :: dec_text c ++ [72])
    with ([27; 91] ++ (dec_text r ++ 59 :: dec_text c) ++ [72]) by (simpl; by rewrite <- app_assoc).
  rewrite write_app, write_esc_csi by done. cbn [rbind]. rewrite write_app.
  rewrite write_params; [|done|done| |].
  2: { apply Forall_app. split; [apply dec_text_params|]. constructor; [unfold param_byte; lia|apply dec_text_params]. }
  2: { pose proof (dec_text_length r). pose proof (dec_text_length c).
       simpl csi. unfold zlen in *. rewrite length_app. simpl. lia. }
  simpl csi. rewrite app_nil_l.
  set (t1 := set_csi (dec_text r ++ 59 :: dec_text c) _). cbn [rbind write foldM].
  rewrite (consume_csi_final 72 t1 _ eq_refl ltac:(lia) (executeCsi_cup r c t1 Hr Hc eq_refl)).
  eexists. split; [done|]. split; [done|].
  change (y (set_state Normal (set_x (NInt (-1 + c)) (set_y (NInt (-1 + r)) t1))))
    with (y (set_x (NInt (-1 + c)) (set_y (NInt (-1 + r)) t1))).
  change (x (set_state Normal (set_x (NInt (-1 + c)) (set_y (NInt (-1 + r)) t1))))
    with (x (set_x (NInt (-1 + c)) (set_y (NInt (-1 + r)) t1))).
  change (cells (active (set_state Normal (set_x (NInt (-1 + c)) (set_y (NInt (-1 + r)) t1)))))
    with (cells (active (set_x (NInt (-1 + c)) (set_y (NInt (-1 + r)) t1)))).
  rewrite y_set_x, y_set_y, x_set_x, columns_set_y, cells_set_x, cells_set_y. simpl num_int32.
  rewrite !to_int32_id by lia. change (rows t1) with (rows t). change (columns t1) with (columns t).
  unfold clamp. split; [lia|]. split; [lia|]. done.
Qed.

Lemma cursor_position_text_witness :
  ∃ t', write (cup_text 2 99) (constructor 8 3) = Ok t' ∧ y t' = 1 ∧ x t' = 7.
Proof.
  destruct (cursor_position_text 2 99 (constructor 8 3) (wf_constructor 8 3) eq_refl ltac:(lia) ltac:(lia))
    as (t' & H1 & _ & H2 & H3 & _).
  exists t'. split; [exact H1|]. split; [exact H2|exact H3].
Defined.

(** A cursor-down count that brings the row past [2^31] wraps in
    [value | 0]: the cursor jumps to the top row instead of stopping at the
    bottom one. *)
Theorem cursor_down_wraps n t :
  wf t → csi t = dec_text n → 2 ^ 31 ≤ y t + n < 2 ^ 32 →
  ∃ t', executeCsi 66 t = Ok t' ∧ y t' = 0.
Proof.
  intros Hw Hcsi Hn. pose proof (wf_bounds t Hw) as (HC & HR & _ & Hy & _).
  assert (0 < n < 2 ^ 53) as Hn53 by lia.
  unfold executeCsi. rewrite Hcsi, params_one by lia. cbn -[num_or num_add].
  assert (num_or (num_or (NInt n) 0) 1 = NInt n) as -> by (destruct n; done || lia).
  rewrite num_add_exact by lia. eexists. split; [done|].
  rewrite y_set_y. simpl. unfold to_int32, clamp.
  replace ((y t + n + 2 ^ 31) mod 2 ^ 32) with (y t + n + 2 ^ 31 - 2 ^ 32); [lia|].
  apply (Z.mod_unique_pos _ _ 1); lia.
Qed.

Lemma cursor_down_wraps_witness :
  let t := set_csi (dec_text 2147483648) (constructor 8 3) in
  ∃ t', executeCsi 66 t = Ok t' ∧ y t' = 0.
Proof.
  intros t. apply (cursor_down_wraps 2147483648 t).
  - apply wf_set_csi; [apply wf_constructor|].
    rewrite utf16_length_params by apply dec_text_params. pose proof (dec_text_length 2147483648 ltac:(lia)). lia.
  - reflexivity.
  - assert (y t = 0) as -> by reflexivity. lia.
Defined.

(** ** Saved cursor and alternate screen *)

Lemma x_restore t : x (restoreCursor t) = clamp (to_int32 (sv_x (saved t))) 0 (columns t - 1).
Proof.
  unfold restoreCursor. set (t1 := set_y _ _). change (x (set_current _ t1)) with (x t1).
  unfold t1. by rewrite x_set_y, x_set_x.
Qed.
Lemma y_restore t : y (restoreCursor t) = clamp (to_int32 (sv_y (saved t))) 0 (rows t - 1).
Proof.
  unfold restoreCursor. set (t1 := set_y _ _). change (y (set_current _ t1)) with (y t1).
  unfold t1. by rewrite y_set_y, rows_set_x.
Qed.

(** DECSC/DECRC: when the pen carries no position, a saved cursor comes
    back with its position and attributes from any later state of the same
    size that has not saved again. *)
Theorem save_restore_cursor t t' :
  wf t → pen_xy (current t) = None →
  saved t' = saved (saveCursor t) → columns t' = columns t → rows t' = rows t →
  x (restoreCursor t') = x t ∧ y (restoreCursor t') = y t ∧
  pen_attrs (current (restoreCursor t')) = pen_attrs (current t).
Proof.
  intros Hw Hpen Hs Hc Hr. pose proof (wf_bounds t Hw).
  rewrite x_restore, y_restore, Hs, Hc, Hr. unfold saveCursor. rewrite Hpen. simpl.
  rewrite !to_int32_id by lia. unfold clamp. split; [lia|]. split; [lia|].
  unfold saveCursor in Hs. rewrite Hpen in Hs. by rewrite Hs.
Qed.

Lemma save_restore_cursor_witness :
  let t := set_x (NInt 5) (constructor 8 3) in
  x (restoreCursor (set_x (NInt 0) (saveCursor t))) = 5.
Proof.
  intros t. exact (proj1 (save_restore_cursor t (set_x (NInt 0) (saveCursor t))
    (wf_set_x _ _ (wf_constructor 8 3)) eq_refl eq_refl eq_refl eq_refl)).
Defined.

(** After one restore the pen carries the restored position, and the next
    save stores that one instead of the cursor's: a save/restore pair around a
    cursor motion then returns to the old place, wherever the cursor was. *)
Theorem save_after_restore_is_stale t a b :
  wf t → 0 ≤ a < columns t → 0 ≤ b < rows t →
  let moved := set_y (NInt b) (set_x (NInt a) (restoreCursor (saveCursor t))) in
  x moved = a ∧ y moved = b ∧
  (pen_xy (current t) = None →
   x (restoreCursor (saveCursor moved)) = x t ∧ y (restoreCursor (saveCursor moved)) = y t).
Proof.
  intros Hw Ha Hb moved. pose proof (wf_bounds t Hw).
  assert (columns moved = columns t ∧ rows moved = rows t) as [Ec Er].
  { unfold moved, restoreCursor, saveCursor. destruct (default _ _).
    by rewrite ?columns_set_y, ?columns_set_x, ?rows_set_y, ?rows_set_x; simpl;
       rewrite ?columns_set_y, ?columns_set_x, ?rows_set_y, ?rows_set_x. }
  assert (columns (restoreCursor (saveCursor t)) = columns t) as Ec0.
  { unfold moved in Ec. by rewrite columns_set_y, columns_set_x in Ec. }
  assert (rows (restoreCursor (saveCursor t)) = rows t) as Er0.
  { unfold moved in Er. by rewrite rows_set_y, rows_set_x in Er. }
  split; [|split].
  - unfold moved. rewrite x_set_y, x_set_x, Ec0. simpl. rewrite to_int32_id by lia. unfold clamp. lia.
  - unfold moved. rewrite y_set_y, rows_set_x, Er0. simpl. rewrite to_int32_id by lia. unfold clamp. lia.
  - intros Hpen.
    assert (pen_xy (current moved) = Some (x t, y t)) as Hxy.
    { unfold moved, set_y, set_x. rewrite !current_set_active. unfold restoreCursor, saveCursor.
      rewrite Hpen. done. }
    rewrite x_restore, y_restore. unfold saveCursor. rewrite Hxy. simpl. rewrite Ec, Er.
    rewrite !to_int32_id by lia. unfold clamp. lia.
Qed.

Lemma save_after_restore_is_stale_witness :
  let t := constructor 8 3 in
  let moved := set_y (NInt 2) (set_x (NInt 5) (restoreCursor (saveCursor t))) in
  x moved = 5 ∧ x (restoreCursor (saveCursor moved)) = 0.
Proof.
  intros t moved.
  destruct (save_after_restore_is_stale t 5 2 (wf_constructor 8 3) ltac:(by vm_compute) ltac:(by vm_compute))
    as (H1 & _ & H2).
  split; [exact H1|]. exact (proj1 (H2 eq_refl)).
Defined.

(** The states a text goes through, every one on the alternate screen. *)
Fixpoint stays_alt (text : list Z) (t : term) : Prop :=
  on_alt t = true ∧
  match text with
  | [] => True
  | c :: text' => match consume c t with Ok t' => stays_alt text' t' | Err _ => False end
  end.

Lemma stays_alt_primary text t :
  stays_alt text t → ∃ t', write text t = Ok t' ∧ on_alt t' = true ∧ primary t' = primary t.
Proof.
  revert t; induction text as [|c text IH]; intros t [Ht Hrest]; [eauto|].
  pose proof (alt_kept_consume c t) as Hk. unfold write in *. cbn [foldM].
  destruct (consume c t) as [t1|e]; [|done]. cbn [rbind]. destruct Hk as [Hk _].
  destruct (IH t1 Hrest) as (t' & -> & Ho & Hp).
  assert (on_alt t1 = true) by (by destruct text as [|? ?], Hrest).
  exists t'. rewrite Hp. auto.
Qed.

(** C13: A full-screen program on the alternate screen cannot damage the shell's
    screen: whatever it writes between entering and leaving, the primary
    buffer has the cells it had. *)
Theorem alternate_screen_isolated text t :
  on_alt t = false → stays_alt text (enterAlternate t) →
  ∃ t', write text (enterAlternate t) = Ok t' ∧
    cells (active (leaveAlternate t')) = cells (active t) ∧ on_alt (leaveAlternate t') = false.
Proof.
  intros Ht Hs. destruct (stays_alt_primary _ _ Hs) as (t' & Hw & Ho & Hp). exists t'. split; [done|].
  assert (primary (enterAlternate t) = primary t) as He.
  { unfold enterAlternate, saveCursor. by destruct (default _ _). }
  unfold leaveAlternate, restoreCursor. set (t1 := set_on_alt false t').
  set (t2 := set_y _ _).
  change (active (set_current _ t2)) with (active t2). change (on_alt (set_current _ t2)) with (on_alt t2).
  unfold t2. rewrite cells_set_y, cells_set_x. split.
  - change (cells (primary t') = cells (active t)). rewrite Hp, He. unfold active. by rewrite Ht.
  - unfold set_y, set_x. by rewrite !on_alt_set_active.
Qed.

Lemma alternate_screen_isolated_witness :
  ∃ t', write [118; 105; 10] (enterAlternate (constructor 8 3)) = Ok t' ∧
    cells (active (leaveAlternate t')) = cells (active (constructor 8 3)) ∧
    on_alt (leaveAlternate t') = false.
Proof. apply (alternate_screen_isolated [118; 105; 10] (constructor 8 3)); [reflexivity|by vm_compute]. Defined.

(** ** Operating-system commands *)

(** What an OSC string leaves alone. *)
Definition same_display (t t' : term) : Prop :=
  primary t' = primary t ∧ alternate t' = alternate t ∧ on_alt t' = on_alt t ∧
  current t' = current t ∧ saved t' = saved t ∧ cursorVisible t' = cursorVisible t.

Lemma osc_payload l t :
  state t = Osc → Forall (λ c, c ≠ 7 ∧ c ≠ 27 ∧ c ≠ 92) l →
  ∃ t', write l t = Ok t' ∧ state t' = Osc ∧ same_display t t'.
Proof.
  intros Hs Hl. revert t Hs; induction Hl as [|c l (H1 & H2 & H3) _ IH]; intros t Hs; [by exists t|].
  unfold write in *. cbn [foldM]. unfold consume at 1. rewrite Hs. cbn [rbind].
  assert (state (consume_osc c t) = Osc ∧ same_display t (consume_osc c t)) as [Hs1 Hd1].
  { unfold consume_osc. apply Z.eqb_neq in H1, H2, H3. rewrite H1, H2, H3, andb_false_r.
    case_match; by destruct t. }
  destruct (IH _ Hs1) as (t' & -> & Hs2 & Hd2). exists t'. split; [done|]. split; [done|].
  unfold same_display in *. naive_solver congruence.
Qed.

(** An OSC string (such as a window title) ended by BEL is swallowed
    whole: no character of it reaches the screen. *)
Theorem osc_is_invisible l t :
  state t = Normal → Forall (λ c, c ≠ 7 ∧ c ≠ 27 ∧ c ≠ 92) l →
  ∃ t', write (27 :: 93 :: l ++ [7]) t = Ok t' ∧ state t' = Normal ∧ same_display t t'.
Proof.
  intros Hs Hl. change (27 :: 93 :: l ++ [7]) with ([27; 93] ++ l ++ [7]).
  assert (write [27; 93] t = Ok (set_osc [] (set_state Osc t))) as He.
  { unfold write. simpl. unfold consume at 1. rewrite Hs. by destruct t. }
  rewrite write_app, He. cbn [rbind]. rewrite write_app.
  destruct (osc_payload l (set_osc [] (set_state Osc t)) eq_refl Hl) as (t1 & -> & Hs1 & Hd1).
  cbn [rbind]. unfold write. cbn [foldM]. unfold consume. rewrite Hs1. simpl.
  eexists. split; [done|]. split; [done|].
  unfold same_display in *. simpl in *. naive_solver.
Qed.

Lemma osc_is_invisible_witness :
  ∃ t', write (27 :: 93 :: [48; 59; 116] ++ [7]) (constructor 8 3) = Ok t' ∧ state t' = Normal ∧
    same_display (constructor 8 3) t'.
Proof. apply osc_is_invisible; [reflexivity|repeat constructor; done]. Defined.

(** The escape flag of a BEL-terminated OSC string is never cleared: the
    flag set by an [ESC] just before the BEL makes the next OSC string end at
    its first backslash, whose remaining text is then drawn on the screen. *)
Theorem osc_escape_flag_leaks :
  match write ([27; 93; 27; 7] ++ [27; 93; 92; 65]) (constructor 8 3) with
  | Ok t => state t = Normal ∧ cell_at t 0 0 = Some (mkCell 65 default_attrs)
  | Err _ => False
  end ∧
  match write ([27; 93; 7] ++ [27; 93; 92; 65]) (constructor 8 3) with
  | Ok t => state t = Osc ∧ cell_at t 0 0 = Some blankCell
  | Err _ => False
  end.
Proof. by vm_compute. Qed.
