(* ===== verification/Utf8Scalars.v ===== *)
(** * What a decoder yields

    Whatever bytes it is fed, a [TextDecoder] yields Unicode scalar values, and a
    string made of scalar values reads back as them: nothing is lost between a
    decoded text, the string the page receives and the characters it writes. *)

From stdpp Require Import base numbers list strings.
From Stdlib Require Import ZArith Lia.
From S2P Require Import Prelude JsNum TermModel Utf8.

#[local] Open Scope Z_scope.

(** The code point so far cannot become a surrogate or leave the range. *)
Definition utf8_ok (s : utf8_state) : Prop :=
  match u_need s with
  | 0%nat => True
  | 1%nat => (0 ≤ u_point s ≤ 863 ∨ 896 ≤ u_point s ≤ 17407) ∧ 128 ≤ u_lower s ∧ u_upper s ≤ 191
  | 2%nat => (0 ≤ u_point s ≤ 12 ∨ u_point s = 13 ∧ u_upper s ≤ 159 ∨ 14 ≤ u_point s ≤ 271) ∧ 128 ≤ u_lower s ∧ u_upper s ≤ 191
  | 3%nat => (u_point s = 0 ∧ 144 ≤ u_lower s ∨ 1 ≤ u_point s ≤ 3 ∨ u_point s = 4 ∧ u_upper s ≤ 143) ∧ 128 ≤ u_lower s ∧ u_upper s ≤ 191
  | _ => False
  end.

Definition scalar_out (o : option Z) : Prop := match o with Some c => scalar c | None => True end.

Lemma utf8_lead_ok b : is_byte b → utf8_ok (utf8_lead b).1 ∧ Forall scalar_out (utf8_lead b).2.
Proof.
  unfold is_byte, utf8_lead. intros Hb.
  change 31 with (Z.ones 5). change 15 with (Z.ones 4). change 7 with (Z.ones 3). rewrite !Z.land_ones by lia.
  change (2 ^ 5) with 32. change (2 ^ 4) with 16. change (2 ^ 3) with 8.
  case (Z.leb_spec b 127); intros H1; [split; [done|]; apply Forall_singleton; unfold scalar_out, scalar; lia|].
  destruct (_ && _) eqn:H2; [b2p; split; [|constructor]; unfold utf8_ok; simpl; Z.to_euclidean_division_equations; lia|].
  destruct ((224 <=? b) && (b <=? 239)) eqn:H3.
  { b2p. split; [|constructor]. unfold utf8_ok. simpl.
    case (Z.eqb_spec b 224); case (Z.eqb_spec b 237); intros; Z.to_euclidean_division_equations; lia. }
  destruct ((240 <=? b) && (b <=? 244)) eqn:H4; [|split; [done|by repeat constructor]].
  b2p. split; [|constructor]. unfold utf8_ok. simpl.
  case (Z.eqb_spec b 240); case (Z.eqb_spec b 244); intros; Z.to_euclidean_division_equations; lia.
Qed.

Lemma utf8_byte_ok b s : is_byte b → utf8_ok s → utf8_ok (utf8_byte b s).1 ∧ Forall scalar_out (utf8_byte b s).2.
Proof.
  intros Hb Hs. destruct s as [p n lo hi]. destruct n as [|n]; [by apply utf8_lead_ok|].
  destruct (decide (lo ≤ b ≤ hi)) as [Hr|Hr].
  - rewrite utf8_next by done. unfold is_byte in Hb. unfold utf8_ok in Hs. simpl in Hs.
    destruct n as [|[|[|n]]]; simpl in *; try done.
    + split; [done|]. apply Forall_singleton. unfold scalar_out, scalar. Z.to_euclidean_division_equations; lia.
    + split; [|constructor]. unfold utf8_ok. simpl. Z.to_euclidean_division_equations; lia.
    + split; [|constructor]. unfold utf8_ok. simpl. Z.to_euclidean_division_equations; lia.
  - unfold utf8_byte. simpl. destruct (_ && _) eqn:H; [b2p; lia|].
    destruct (utf8_lead_ok b Hb) as [H1 H2]. destruct (utf8_lead b). simpl in *. split; [done|by constructor].
Qed.

Lemma utf8_run_ok l s : Forall is_byte l → utf8_ok s → utf8_ok (utf8_run l s).1 ∧ Forall scalar_out (utf8_run l s).2.
Proof.
  intros Hl. revert s. induction Hl as [|b l Hb _ IH]; intros s Hs; [by split|]. simpl.
  destruct (utf8_byte_ok b s Hb Hs) as [H1 H2]. destruct (utf8_byte b s) as [s1 o1]. simpl in *.
  destruct (IH s1 H1) as [H3 H4]. destruct (utf8_run l s1) as [s2 o2]. simpl in *. split; [done|]. by apply Forall_app.
Qed.

(** A decoder never yields anything but scalar values. *)
Lemma decode_scalars ib stream bytes d :
  Forall is_byte bytes → utf8_ok (d_state d) → Forall scalar (decode ib stream bytes d).1.
Proof.
  intros Hb Hd. unfold decode.
  assert (utf8_ok (d_state (if d_doNotFlush d then d else new_decoder))) as Hs by (by destruct (d_doNotFlush d)).
  destruct (utf8_run_ok bytes _ Hb Hs) as [_ H2]. destruct (utf8_run bytes _) as [s out]. simpl in H2.
  assert (Forall scalar_out (if stream then out else out ++ utf8_end s)) as H3.
  { destruct stream; [done|]. apply Forall_app. split; [done|]. unfold utf8_end. destruct (u_need s); by repeat constructor. }
  assert (Forall scalar (replace_errors (if stream then out else out ++ utf8_end s))) as H4.
  { unfold replace_errors. apply Forall_fmap. eapply Forall_impl; [exact H3|]. intros [c|] Hc; simpl in *; [done|unfold scalar; lia]. }
  unfold serialize. destruct (_ || _); [done|]. destruct (replace_errors _) as [|c l]; [done|]. simpl.
  destruct (c =? 65279); [|done]. by apply Forall_cons in H4 as [_ H4].
Qed.

(** ** Strings of scalar values *)

Lemma points_units t : Forall scalar t → points (units t) = t.
Proof.
  induction 1 as [|c t Hc _ IH]; [done|]. change (units (c :: t)) with (units1 c ++ units t). unfold units1, scalar in *.
  case (Z.ltb_spec 65535 c); intros Hlt.
  - set (u := 55296 + _). set (v := 56320 + _). cbn [app]. rewrite points_pair.
    assert (is_high u = true) as -> by (unfold is_high, u; apply andb_true_iff; rewrite !Z.leb_le; Z.to_euclidean_division_equations; lia).
    assert (is_low v = true) as -> by (unfold is_low, v; apply andb_true_iff; rewrite !Z.leb_le; Z.to_euclidean_division_equations; lia).
    simpl andb. cbn iota. rewrite IH. f_equal. unfold u, v. Z.to_euclidean_division_equations; lia.
  - assert (is_high c = false) as Hh by (unfold is_high; apply andb_false_iff; rewrite !Z.leb_gt; lia). cbn [app].
    destruct (units t) as [|v l]; [by rewrite <- IH|]. rewrite points_pair, Hh. simpl andb. cbn iota. by rewrite IH.
Qed.
