(* ===== verification/WatFloat.v ===== *)
(** * Float literals (src/html-rt/src/worker.js: watFloat and its helpers)

    The C engine asks the page to convert float tokens ([strtod]/[strtof]
    imports).  The page computes the IEEE bits with BigInt arithmetic.  The
    functions here return those bits; [DataView] then only reinterprets them.
    Texts are lists of character codes, as the WAT lexer accepted them: a text
    that is not a numeral makes [BigInt] throw, which is [Err]. *)

From stdpp Require Import base numbers list strings.
From Stdlib Require Import ZArith Lia.
From S2P Require Import Prelude JsNum.

#[local] Open Scope Z_scope.
#[local] Open Scope waste_scope.

(** ** BigInt rounding *)

Definition roundShiftEven (value shift : Z) : Z :=
  if shift <=? 0 then Z.shiftl value (- shift)
  else
    let rounded := Z.shiftr value shift in
    let remainder := value - Z.shiftl rounded shift in
    let halfway := Z.shiftl 1 (shift - 1) in
    if (halfway <? remainder) || ((remainder =? halfway) && negb (Z.land rounded 1 =? 0))
    then rounded + 1 else rounded.

(** BigInt [/] and [%] truncate; the code only divides non-negative numbers. *)
Definition roundRatioEven (numerator denominator : Z) : Z :=
  let rounded := Z.quot numerator denominator in
  let remainder := Z.rem numerator denominator in
  let comparison := remainder * 2 - denominator in
  if (0 <? comparison) || ((comparison =? 0) && negb (Z.land rounded 1 =? 0))
  then rounded + 1 else rounded.

(** [x.toString(2).length] of a positive BigInt. *)
Definition bit_length (n : Z) : Z := Z.log2 n + 1.

(** [(negative ? 0x80000000 : 0) | (exponentField << 23) | Number(fraction & 0x7fffffn)], then [>>> 0]. *)
Definition f32_bits (negative : bool) (exponentField fraction : Z) : Z :=
  to_uint32 (Z.lor (Z.lor (to_int32 (if negative then 2147483648 else 0))
                          (to_int32 (Z.shiftl exponentField 23)))
                   (Z.land fraction 8388607)).

(** [(negative ? (1n << 63n) : 0n) | (BigInt(exponentField) << 52n) | (fraction & 0xfffffffffffffn)]. *)
Definition f64_bits (negative : bool) (exponentField fraction : Z) : Z :=
  Z.lor (Z.lor (if negative then Z.shiftl 1 63 else 0) (Z.shiftl exponentField 52))
        (Z.land fraction 4503599627370495).

(** ** Decimal literals to binary32 *)

(** The exponent search: the largest [u] with [2^u <= numerator / denominator]. *)
Definition unbiased_exponent (numerator denominator : Z) : Z :=
  let unbiased := bit_length numerator - bit_length denominator in
  if (if 0 <=? unbiased then numerator <? Z.shiftl denominator unbiased
      else Z.shiftl numerator (- unbiased) <? denominator)
  then unbiased - 1 else unbiased.

(** From [const decimalScale] to the end of [watDecimalF32], for a non-zero magnitude. *)
Definition decimal_f32 (negative : bool) (magnitude decimalScale : Z) : Z :=
  let '(numerator, denominator) :=
    if 0 <=? decimalScale then (magnitude * 10 ^ decimalScale, 1) else (magnitude, 10 ^ (- decimalScale)) in
  let unbiased := unbiased_exponent numerator denominator in
  if -126 <=? unbiased then
    let shift := 23 - unbiased in
    let rounded := if 0 <=? shift then roundRatioEven (Z.shiftl numerator shift) denominator
                   else roundRatioEven numerator (Z.shiftl denominator (- shift)) in
    let '(rounded, unbiased) :=
      if rounded =? Z.shiftl 1 24 then (Z.shiftr rounded 1, unbiased + 1) else (rounded, unbiased) in
    if 127 <? unbiased then f32_bits negative 255 0
    else f32_bits negative (unbiased + 127) (rounded - Z.shiftl 1 23)
  else
    let units := roundRatioEven (Z.shiftl numerator 149) denominator in
    if Z.shiftl 1 23 <=? units then f32_bits negative 1 (units - Z.shiftl 1 23)
    else f32_bits negative 0 units.

(** ** Hexadecimal literals *)

(** From [const precision] to the end of [watHexFloat], for a non-zero magnitude;
    [scale] is [exponent - fractionDigits * 4]. *)
Definition hex_float (negative asF32 : bool) (magnitude scale : Z) : Z :=
  let bits := if asF32 then f32_bits negative else f64_bits negative in
  let precision := if asF32 then 24 else 53 in
  let bias := if asF32 then 127 else 1023 in
  let maximumExponent := if asF32 then 127 else 1023 in
  let minimumNormal := if asF32 then -126 else -1022 in
  let minimumSubnormal := if asF32 then -149 else -1074 in
  let fractionBits := precision - 1 in
  let bitLength := bit_length magnitude in
  let unbiased := bitLength - 1 + scale in
  if minimumNormal <=? unbiased then
    let rounded := roundShiftEven magnitude (bitLength - precision) in
    let '(rounded, unbiased) :=
      if rounded =? Z.shiftl 1 precision then (Z.shiftr rounded 1, unbiased + 1) else (rounded, unbiased) in
    if maximumExponent <? unbiased then bits (if asF32 then 255 else 2047) 0
    else bits (unbiased + bias) (rounded - Z.shiftl 1 fractionBits)
  else
    let unitShift := scale - minimumSubnormal in
    let units := if 0 <=? unitShift then Z.shiftl magnitude unitShift
                 else roundShiftEven magnitude (- unitShift) in
    let normalUnit := Z.shiftl 1 fractionBits in
    if normalUnit <=? units then bits 1 (units - normalUnit) else bits 0 units.

(** ** Texts *)

Inductive literal_error : Type :=
| SyntaxError     (* [BigInt] of a text that is not a numeral *)
| RangeError.     (* [BigInt] of an exponent that is not an integer *)

Definition to_lower (c : Z) : Z := if (65 <=? c) && (c <=? 90) then c + 32 else c.

(** [indexOf]: the text before the first [c] and the text after it. *)
Fixpoint cut (c : Z) (l : list Z) : option (list Z * list Z) :=
  match l with
  | [] => None
  | a :: l' => if a =? c then Some ([], l') else prod_map (cons a) id <$> cut c l'
  end.

Definition strip_sign (l : list Z) : bool * list Z :=
  match l with
  | c :: l' => if c =? 45 then (true, l') else if c =? 43 then (false, l') else (false, l)
  | [] => (false, [])
  end.

(** [BigInt] of an expression with [Number(exponent)]: a NaN or a fraction throws;
    [Number] of the empty text is 0.  An exponent that overflows [Number] is not an
    [NInt] either. *)
Definition exponent_value (l : list Z) : result literal_error Z :=
  match js_number l with NInt z => Ok z | _ => Err RangeError end.

Definition digit_value (base c : Z) : option Z :=
  let v := if (48 <=? c) && (c <=? 57) then c - 48
           else if (97 <=? c) && (c <=? 102) then c - 87 else 99 in
  if v <? base then Some v else None.

(** [BigInt(digits || "0")] in the given base. *)
Definition big_int (base : Z) (l : list Z) : result literal_error Z :=
  foldM (λ c acc, of_option SyntaxError ((λ d, acc * base + d) <$> digit_value base c)) l 0.

(** Integer digits and fraction digits, with the number of the latter. *)
Definition significand_digits (l : list Z) : list Z * Z :=
  match cut 46 l with
  | Some (ip, fp) => (ip ++ fp, zlen fp)
  | None => (l, 0)
  end.

Definition starts_0x (l : list Z) : bool :=
  match l with a :: b :: _ => (a =? 48) && (b =? 120) | _ => false end.

Definition drop_0x (l : list Z) : list Z := if starts_0x l then drop 2 l else l.

Definition watDecimalF32 (text : list Z) : result literal_error Z :=
  let '(negative, source) := strip_sign (to_lower <$> text) in
  let '(significand, exponent) := match cut 101 source with Some (s, e) => (s, Some e) | None => (source, None) end in
  let '(digits, fractionDigits) := significand_digits significand in
  let* magnitude := big_int 10 digits in
  if magnitude =? 0 then Ok (if negative then 2147483648 else 0)
  else
    let* decimalExponent := match exponent with Some e => exponent_value e | None => Ok 0 end in
    Ok (decimal_f32 negative magnitude (decimalExponent - fractionDigits)).

Definition watHexFloat (text : list Z) (asF32 : bool) : result literal_error Z :=
  let '(negative, source) := strip_sign (to_lower <$> text) in
  let '(significand, exponent) := match cut 112 source with Some (s, e) => (s, Some e) | None => (source, None) end in
  let '(digits, fractionDigits) := significand_digits (drop_0x significand) in
  let* magnitude := big_int 16 digits in
  if magnitude =? 0 then
    Ok (if negative then (if asF32 then 2147483648 else Z.shiftl 1 63) else 0)
  else
    let* exponent := match exponent with Some e => exponent_value e | None => Ok 0 end in
    Ok (hex_float negative asF32 magnitude (exponent - fractionDigits * 4)).

(** ** The reference: round to nearest, ties to even *)

Section ieee.
Context (p w : Z).  (* significand bits, exponent bits *)

Definition ieee_bias : Z := 2 ^ (w - 1) - 1.
(** Exponent of the smallest subnormal. *)
Definition ieee_qmin : Z := 2 - ieee_bias - p.
Definition ieee_inf : Z := (2 ^ w - 1) * 2 ^ (p - 1).

(** Unit exponent of the binade of [n / d]. *)
Definition ieee_q (n d : Z) : Z := Z.max (unbiased_exponent n d - (p - 1)) ieee_qmin.

(** [n / d] in units of [2^q], rounded. *)
Definition ieee_m (n d : Z) : Z :=
  let q := ieee_q n d in
  if 0 <=? q then half_even n (d * 2 ^ q) else half_even (n * 2 ^ (- q)) d.

(** The magnitude bits: exponent and fraction fields run on, so a carry out of
    the fraction is a carry into the exponent, and one out of the exponent is
    infinity. *)
Definition ieee_magnitude (n d : Z) : Z :=
  Z.min ieee_inf ((ieee_q n d - ieee_qmin) * 2 ^ (p - 1) + ieee_m n d).

Definition ieee_bits (negative : bool) (n d : Z) : Z :=
  (if negative then 2 ^ (p - 1 + w) else 0) + (if n =? 0 then 0 else ieee_magnitude n d).
End ieee.

(** [Number(text)] on a decimal literal: the nearest binary64. *)
Definition decimal_f64 (negative : bool) (magnitude decimalScale : Z) : Z :=
  if 0 <=? decimalScale then ieee_bits 53 11 negative (magnitude * 10 ^ decimalScale) 1
  else ieee_bits 53 11 negative magnitude (10 ^ (- decimalScale)).

Definition number_f64 (text : list Z) : result literal_error Z :=
  let '(negative, source) := strip_sign (to_lower <$> text) in
  let '(significand, exponent) := match cut 101 source with Some (s, e) => (s, Some e) | None => (source, None) end in
  let* decimalExponent := match exponent with Some e => exponent_value e | None => Ok 0 end in
  let '(digits, fractionDigits) := significand_digits significand in
  let* magnitude := big_int 10 digits in
  Ok (decimal_f64 negative magnitude (decimalExponent - fractionDigits)).

Definition watFloat (text : list Z) (asF32 : bool) : result literal_error Z :=
  let unsigned := snd (strip_sign text) in
  if starts_0x (to_lower <$> unsigned) then watHexFloat text asF32
  else if asF32 then watDecimalF32 text else number_f64 text.

(** ** The rounding helpers *)

Lemma odd_land_1 z : negb (Z.land z 1 =? 0) = Z.odd z.
Proof.
  change 1 with (Z.ones 1). rewrite Z.land_ones by lia. change (2 ^ 1) with 2. rewrite Zmod_odd.
  by destruct (Z.odd z).
Qed.

Lemma roundRatioEven_half_even n d : 0 ≤ n → 0 < d → roundRatioEven n d = half_even n d.
Proof.
  intros Hn Hd. unfold roundRatioEven, half_even.
  rewrite Z.quot_div_nonneg, Z.rem_mod_nonneg, odd_land_1 by lia.
  assert ((0 <? n mod d * 2 - d) = (d <? 2 * (n mod d))) as -> by (apply eq_true_iff_eq; rewrite !Z.ltb_lt; lia).
  assert ((n mod d * 2 - d =? 0) = (2 * (n mod d) =? d)) as -> by (apply eq_true_iff_eq; rewrite !Z.eqb_eq; lia).
  done.
Qed.

Lemma roundShiftEven_neg v s : s ≤ 0 → roundShiftEven v s = v * 2 ^ (- s).
Proof.
  intros Hs. unfold roundShiftEven. case (Z.leb_spec s 0); [|lia]. intros. by rewrite Z.shiftl_mul_pow2 by lia.
Qed.

Lemma roundShiftEven_half_even v s : 0 < s → roundShiftEven v s = half_even v (2 ^ s).
Proof.
  intros Hs. unfold roundShiftEven, half_even. case (Z.leb_spec s 0); [lia|]. intros _.
  rewrite odd_land_1, Z.shiftr_div_pow2, !Z.shiftl_mul_pow2 by lia. rewrite Z.mul_1_l.
  assert (2 ^ s = 2 * 2 ^ (s - 1)) as Hp.
  { rewrite <- Z.pow_succ_r by lia. f_equal. lia. }
  assert (0 < 2 ^ s) by (apply Z.pow_pos_nonneg; lia).
  pose proof (Z.div_mod v (2 ^ s)) as Hdm.
  replace (v - v / 2 ^ s * 2 ^ s) with (v mod 2 ^ s) by lia.
  assert ((2 ^ (s - 1) <? v mod 2 ^ s) = (2 ^ s <? 2 * (v mod 2 ^ s))) as -> by (apply eq_true_iff_eq; rewrite !Z.ltb_lt; lia).
  assert ((v mod 2 ^ s =? 2 ^ (s - 1)) = (2 * (v mod 2 ^ s) =? 2 ^ s)) as -> by (apply eq_true_iff_eq; rewrite !Z.eqb_eq; lia).
  done.
Qed.

Lemma half_even_scale n d k : 0 < d → 0 < k → half_even (n * k) (d * k) = half_even n d.
Proof.
  intros Hd Hk. apply (nearest_even_unique n d); [done| |by apply half_even_spec].
  pose proof (half_even_spec (n * k) (d * k) ltac:(nia)) as [H1 H2].
  set (r := half_even (n * k) (d * k)) in *.
  assert (n * k - r * (d * k) = (n - r * d) * k) as He by ring.
  rewrite He, Z.abs_mul, (Z.abs_eq k) in H1, H2 by lia. split; [nia|]. intros. apply H2. nia.
Qed.

Lemma half_even_exact n k : 0 < k → half_even (n * k) k = n.
Proof. intros Hk. pose proof (half_even_scale n 1 k ltac:(lia) Hk) as H. rewrite Z.mul_1_l in H. by rewrite H, half_even_1. Qed.

Lemma half_even_ge n d K : 0 < d → K * d ≤ n → K ≤ half_even n d.
Proof.
  intros Hd Hn. unfold half_even. assert (K ≤ n / d) by (apply Z.div_le_lower_bound; lia).
  destruct (_ || _); lia.
Qed.

(** ** The exponent search *)

Definition ratio_ge (n d e : Z) : Prop := if 0 <=? e then d * 2 ^ e ≤ n else d ≤ n * 2 ^ (- e).

Lemma ratio_ge_mul n d e k : 0 ≤ k → 0 ≤ k + e → ratio_ge n d e ↔ d * 2 ^ (k + e) ≤ n * 2 ^ k.
Proof.
  intros Hk Hke. unfold ratio_ge. case (Z.leb_spec 0 e); intros He.
  - rewrite Z.pow_add_r by lia. assert (0 < 2 ^ k) by (apply Z.pow_pos_nonneg; lia).
    assert (d * (2 ^ k * 2 ^ e) = (d * 2 ^ e) * 2 ^ k) as -> by ring. split; intros; nia.
  - replace k with ((k + e) + (- e)) at 2 by lia. rewrite (Z.pow_add_r 2 (k + e) (- e)) by lia.
    assert (0 < 2 ^ (k + e)) by (apply Z.pow_pos_nonneg; lia).
    assert (n * (2 ^ (k + e) * 2 ^ (- e)) = (n * 2 ^ (- e)) * 2 ^ (k + e)) as -> by ring.
    split; intros; nia.
Qed.

Lemma unbiased_exponent_spec n d :
  0 < n → 0 < d → ratio_ge n d (unbiased_exponent n d) ∧ ¬ ratio_ge n d (unbiased_exponent n d + 1).
Proof.
  intros Hn Hd. unfold unbiased_exponent, bit_length.
  replace (Z.log2 n + 1 - (Z.log2 d + 1)) with (Z.log2 n - Z.log2 d) by lia.
  pose proof (Z.log2_spec n Hn) as [Hn1 Hn2]. pose proof (Z.log2_spec d Hd) as [Hd1 Hd2].
  pose proof (Z.log2_nonneg n). pose proof (Z.log2_nonneg d).
  set (a := Z.log2 n) in *. set (b := Z.log2 d) in *.
  rewrite Z.pow_succ_r in Hn2, Hd2 by lia.
  assert (¬ ratio_ge n d (a - b + 1)) as Hup.
  { rewrite (ratio_ge_mul _ _ _ b) by lia. replace (b + (a - b + 1)) with (Z.succ a) by lia.
    rewrite Z.pow_succ_r by lia. nia. }
  assert (ratio_ge n d (a - b - 1)) as Hlow.
  { rewrite (ratio_ge_mul _ _ _ (b + 1)) by lia. replace (b + 1 + (a - b - 1)) with a by lia.
    rewrite Z.pow_add_r by lia. change (2 ^ 1) with 2. nia. }
  assert ((if 0 <=? a - b then n <? Z.shiftl d (a - b) else Z.shiftl n (- (a - b)) <? d) = true
    ↔ ¬ ratio_ge n d (a - b)) as Htest.
  { unfold ratio_ge. case (Z.leb_spec 0 (a - b)); intros; rewrite Z.shiftl_mul_pow2, Z.ltb_lt by lia; lia. }
  destruct (if 0 <=? a - b then n <? Z.shiftl d (a - b) else Z.shiftl n (- (a - b)) <? d) eqn:Ht.
  - split; [done|]. replace (a - b - 1 + 1) with (a - b) by lia. by apply Htest.
  - split; [|done]. destruct (Z.leb_spec 0 (a - b)) as [Hab|Hab]; unfold ratio_ge in *.
    + case (Z.leb_spec 0 (a - b)); [|lia]. intros _. rewrite Z.shiftl_mul_pow2 in Ht by lia. b2p. lia.
    + case (Z.leb_spec 0 (a - b)); [lia|]. intros _. rewrite Z.shiftl_mul_pow2 in Ht by lia. b2p. lia.
Qed.

Lemma ratio_ge_mono n d e e' : 0 < d → 0 < n → e ≤ e' → ratio_ge n d e' → ratio_ge n d e.
Proof.
  intros Hd Hn He H. set (k := Z.abs e + Z.abs e').
  rewrite (ratio_ge_mul _ _ e' k) in H by lia. rewrite (ratio_ge_mul _ _ e k) by lia.
  assert (2 ^ (k + e) ≤ 2 ^ (k + e')) by (apply Z.pow_le_mono_r; lia). nia.
Qed.

Lemma unbiased_exponent_unique n d e :
  0 < n → 0 < d → ratio_ge n d e → ¬ ratio_ge n d (e + 1) → unbiased_exponent n d = e.
Proof.
  intros Hn Hd H1 H2. destruct (unbiased_exponent_spec n d Hn Hd) as [H3 H4].
  set (u := unbiased_exponent n d) in *.
  destruct (Z.lt_trichotomy u e) as [H|[H|H]]; [|done|].
  - exfalso. apply H4. eapply ratio_ge_mono; [..|exact H1]; lia.
  - exfalso. apply H2. eapply ratio_ge_mono; [..|exact H3]; lia.
Qed.

(** ** The reference significand *)

Lemma pow2_pos k : 0 ≤ k → 0 < 2 ^ k.
Proof. intros. apply Z.pow_pos_nonneg; lia. Qed.

Section reference.
Context (p w : Z) (Hp : 1 < p).

(** The ratio in units of [2^q]. *)
Definition scaled_n (n q : Z) : Z := n * 2 ^ Z.max 0 (- q).
Definition scaled_d (d q : Z) : Z := d * 2 ^ Z.max 0 q.

Lemma ieee_m_scaled n d :
  ieee_m p w n d = half_even (scaled_n n (ieee_q p w n d)) (scaled_d d (ieee_q p w n d)).
Proof.
  unfold ieee_m, scaled_n, scaled_d. case (Z.leb_spec 0 (ieee_q p w n d)); intros.
  - rewrite (Z.max_l 0), (Z.max_r 0) by lia. by rewrite Z.mul_1_r.
  - rewrite (Z.max_r 0), (Z.max_l 0) by lia. by rewrite Z.mul_1_r.
Qed.

Lemma scaled_ratio n d q E :
  q ≤ E → ratio_ge n d E ↔ scaled_d d q * 2 ^ (E - q) ≤ scaled_n n q.
Proof.
  intros HE. unfold scaled_n, scaled_d. destruct (Z.leb_spec 0 q).
  - rewrite (Z.max_l 0 (- q)), (Z.max_r 0 q), Z.mul_1_r, <- Z.mul_assoc, <- Z.pow_add_r by lia.
    replace (q + (E - q)) with E by lia. unfold ratio_ge. case (Z.leb_spec 0 E); [done|lia].
  - rewrite (Z.max_r 0 (- q)), (Z.max_l 0 q), Z.mul_1_r by lia.
    rewrite (ratio_ge_mul _ _ _ (- q)) by lia. by replace (- q + E) with (E - q) by lia.
Qed.

Lemma scaled_d_pos d q : 0 < d → 0 < scaled_d d q.
Proof. intros. unfold scaled_d. pose proof (pow2_pos (Z.max 0 q)). nia. Qed.
Lemma scaled_n_pos n q : 0 < n → 0 < scaled_n n q.
Proof. intros. unfold scaled_n. pose proof (pow2_pos (Z.max 0 (- q))). nia. Qed.

(** A normal binade: [2^(p-1) <= m <= 2^p]; below it [m <= 2^(p-1)]. *)
Lemma ieee_m_normal n d :
  0 < n → 0 < d → ieee_q p w n d = unbiased_exponent n d - (p - 1) →
  2 ^ (p - 1) ≤ ieee_m p w n d ≤ 2 ^ p.
Proof.
  intros Hn Hd Hq. destruct (unbiased_exponent_spec n d Hn Hd) as [H1 H2].
  set (e := unbiased_exponent n d) in *. rewrite ieee_m_scaled, Hq.
  set (q := e - (p - 1)) in *. pose proof (scaled_d_pos d q Hd).
  rewrite (scaled_ratio _ _ q) in H1, H2 by lia.
  replace (e - q) with (p - 1) in H1 by lia. replace (e + 1 - q) with p in H2 by lia.
  split; [apply half_even_ge; lia|apply half_even_le; lia].
Qed.

Lemma ieee_m_subnormal n d :
  0 < n → 0 < d → unbiased_exponent n d - (p - 1) < ieee_q p w n d →
  0 ≤ ieee_m p w n d ≤ 2 ^ (p - 1).
Proof.
  intros Hn Hd Hq. destruct (unbiased_exponent_spec n d Hn Hd) as [_ H2].
  set (e := unbiased_exponent n d) in *. rewrite ieee_m_scaled.
  set (q := ieee_q p w n d) in *. pose proof (scaled_d_pos d q Hd). pose proof (scaled_n_pos n q Hn).
  assert (¬ ratio_ge n d (q + (p - 1))) as H3.
  { intros H3. apply H2. eapply ratio_ge_mono; [..|exact H3]; lia. }
  rewrite (scaled_ratio _ _ q) in H3 by lia. replace (q + (p - 1) - q) with (p - 1) in H3 by lia.
  split; [apply half_even_ge; lia|apply half_even_le; lia].
Qed.
End reference.

(** ** Packing the fields *)

Lemma f32_bits_fields neg e f :
  0 ≤ e ≤ 255 → 0 ≤ f < 2 ^ 23 → f32_bits neg e f = (if neg then 2 ^ 31 else 0) + e * 2 ^ 23 + f.
Proof.
  intros He Hf. unfold f32_bits.
  change 8388607 with (Z.ones 23). rewrite Z.land_ones, (Z.mod_small f) by lia.
  rewrite Z.shiftl_mul_pow2, (to_int32_id (e * 2 ^ 23)) by lia.
  assert (to_int32 (if neg then 2147483648 else 0) = (if neg then -1 else 0) * 2 ^ 31) as -> by (by destruct neg).
  rewrite lor_low by lia.
  replace ((if neg then -1 else 0) * 2 ^ 31 + e * 2 ^ 23) with (((if neg then -256 else 0) + e) * 2 ^ 23)
    by (destruct neg; lia).
  rewrite lor_low by lia. unfold to_uint32.
  destruct neg; [|rewrite Z.mod_small; lia]. symmetry. apply (Z.mod_unique_pos _ _ (-1)); lia.
Qed.

Lemma f64_bits_fields neg e f :
  0 ≤ e ≤ 2047 → 0 ≤ f < 2 ^ 52 → f64_bits neg e f = (if neg then 2 ^ 63 else 0) + e * 2 ^ 52 + f.
Proof.
  intros He Hf. unfold f64_bits.
  change 4503599627370495 with (Z.ones 52). rewrite Z.land_ones, (Z.mod_small f) by lia.
  rewrite !Z.shiftl_mul_pow2 by lia.
  assert ((if neg then 1 * 2 ^ 63 else 0) = (if neg then 1 else 0) * 2 ^ 63) as -> by (by destruct neg).
  rewrite lor_low by lia.
  replace ((if neg then 1 else 0) * 2 ^ 63 + e * 2 ^ 52) with (((if neg then 2048 else 0) + e) * 2 ^ 52)
    by (destruct neg; lia).
  rewrite lor_low by lia. destruct neg; lia.
Qed.

(** The common tail of both converters: renormalise, overflow, pack. *)
Section pack.
Context (p w : Z) (bits : Z → Z → Z) (sign : Z).
Context (Hp : 1 < p) (Hw : 1 < w).
Context (Hbits : ∀ e f, 0 ≤ e ≤ 2 ^ w - 1 → 0 ≤ f < 2 ^ (p - 1) → bits e f = sign + e * 2 ^ (p - 1) + f).

Lemma pack_normal n d :
  0 < n → 0 < d → 1 - ieee_bias w ≤ unbiased_exponent n d →
  (let '(rounded, unbiased) :=
     if ieee_m p w n d =? 2 ^ p then (2 ^ (p - 1), unbiased_exponent n d + 1)
     else (ieee_m p w n d, unbiased_exponent n d) in
   if ieee_bias w <? unbiased then bits (2 ^ w - 1) 0
   else bits (unbiased + ieee_bias w) (rounded - 2 ^ (p - 1))) = sign + ieee_magnitude p w n d.
Proof.
  intros Hn Hd He. set (e := unbiased_exponent n d) in *.
  assert (ieee_q p w n d = e - (p - 1)) as Hq by (unfold ieee_q, ieee_qmin; fold e; lia).
  pose proof (ieee_m_normal p w Hp n d Hn Hd Hq) as Hm. unfold ieee_magnitude, ieee_inf.
  rewrite Hq. unfold ieee_qmin. set (m := ieee_m p w n d) in *.
  assert (2 ^ p = 2 * 2 ^ (p - 1)) as H2p by (rewrite <- Z.pow_succ_r by lia; f_equal; lia).
  assert (2 ^ w = 2 * (ieee_bias w + 1)) as H2w.
  { unfold ieee_bias. replace w with (Z.succ (w - 1)) at 1 by lia. rewrite Z.pow_succ_r; lia. }
  assert (1 ≤ ieee_bias w). { unfold ieee_bias. assert (2 ^ 1 ≤ 2 ^ (w - 1)) by (apply Z.pow_le_mono_r; lia). lia. }
  pose proof (pow2_pos (p - 1) ltac:(lia)) as HP. set (P := 2 ^ (p - 1)) in *. set (b := ieee_bias w) in *.
  replace (e - (p - 1) - (2 - b - p)) with (e + b - 1) by lia.
  case (Z.eqb_spec m (2 ^ p)); intros Hc.
  - case (Z.ltb_spec b (e + 1)); intros Ho; rewrite Hbits by lia.
    + rewrite Z.min_l by nia. lia.
    + rewrite Z.min_r by nia. nia.
  - case (Z.ltb_spec b e); intros Ho; rewrite Hbits by lia.
    + rewrite Z.min_l by nia. lia.
    + rewrite Z.min_r by nia. nia.
Qed.

Lemma pack_subnormal n d :
  0 < n → 0 < d → unbiased_exponent n d < 1 - ieee_bias w →
  (if 2 ^ (p - 1) <=? ieee_m p w n d then bits 1 (ieee_m p w n d - 2 ^ (p - 1))
   else bits 0 (ieee_m p w n d)) = sign + ieee_magnitude p w n d.
Proof.
  intros Hn Hd He. set (e := unbiased_exponent n d) in *.
  assert (ieee_q p w n d = ieee_qmin p w) as Hq by (unfold ieee_q, ieee_qmin; fold e; lia).
  pose proof (ieee_m_subnormal p w Hp n d Hn Hd) as Hm. fold e in Hm.
  rewrite Hq in Hm. specialize (Hm ltac:(unfold ieee_qmin; lia)).
  unfold ieee_magnitude, ieee_inf. rewrite Hq. set (m := ieee_m p w n d) in *.
  pose proof (pow2_pos (p - 1) ltac:(lia)) as HP. set (P := 2 ^ (p - 1)) in *.
  assert (2 ^ 2 ≤ 2 ^ w) by (apply Z.pow_le_mono_r; lia).
  case (Z.leb_spec P m); intros Hc; rewrite Hbits by lia; nia.
Qed.
End pack.
