(* ===== verification/WatTheorems.v ===== *)
(** * Theorems on the float literal converters (worker.js: watFloat and its helpers)

    [decimal_f32] and [hex_float] are shown equal to the reference [ieee_bits],
    and the reference is shown to be the closest representable number, ties to
    the even encoding, for every finite result. *)

From stdpp Require Import base numbers list strings.
From Stdlib Require Import ZArith Lia.
From S2P Require Import Prelude JsNum WatFloat.

#[local] Open Scope Z_scope.
#[local] Open Scope waste_scope.

(** ** Scaling both sides by powers of two *)

Lemma half_even_pow n d i j i' j' :
  0 < d → 0 ≤ i → 0 ≤ j → 0 ≤ i' → 0 ≤ j' → i - j = i' - j' →
  half_even (n * 2 ^ i) (d * 2 ^ j) = half_even (n * 2 ^ i') (d * 2 ^ j').
Proof.
  intros Hd Hi Hj Hi' Hj' H.
  pose proof (pow2_pos i Hi). pose proof (pow2_pos j Hj). pose proof (pow2_pos i' Hi'). pose proof (pow2_pos j' Hj').
  rewrite <- (half_even_scale (n * 2 ^ i) (d * 2 ^ j) (2 ^ i')) by nia.
  rewrite <- (half_even_scale (n * 2 ^ i') (d * 2 ^ j') (2 ^ i)) by nia.
  rewrite <- !Z.mul_assoc, <- !Z.pow_add_r by lia.
  f_equal; f_equal; f_equal; lia.
Qed.

Lemma ieee_m_pow p w n d i j :
  0 < d → 0 ≤ i → 0 ≤ j → j - i = ieee_q p w n d → ieee_m p w n d = half_even (n * 2 ^ i) (d * 2 ^ j).
Proof.
  intros Hd Hi Hj H. rewrite ieee_m_scaled. unfold scaled_n, scaled_d. apply half_even_pow; lia.
Qed.

Definition sign_bits (p w : Z) (negative : bool) : Z := if negative then 2 ^ (p - 1 + w) else 0.

Lemma ieee_bits_pos p w negative n d :
  0 < n → ieee_bits p w negative n d = sign_bits p w negative + ieee_magnitude p w n d.
Proof. intros. unfold ieee_bits. by rewrite (proj2 (Z.eqb_neq n 0)) by lia. Qed.

(** The code halves a significand that rounded up to a power of two. *)
Lemma renormalise p (m u : Z) :
  0 < p →
  (if m =? Z.shiftl 1 p then (Z.shiftr m 1, u + 1) else (m, u)) =
  (if m =? 2 ^ p then (2 ^ (p - 1), u + 1) else (m, u)).
Proof.
  intros Hp. rewrite Z.shiftl_1_l. case (Z.eqb_spec m (2 ^ p)); [|done]. intros ->.
  by rewrite Z.shiftr_div_pow2, <- Z.pow_sub_r by lia.
Qed.

(** ** Decimal literals *)

Definition decimal_ratio (magnitude decimalScale : Z) : Z * Z :=
  if 0 <=? decimalScale then (magnitude * 10 ^ decimalScale, 1) else (magnitude, 10 ^ (- decimalScale)).

Lemma decimal_ratio_pos magnitude decimalScale :
  0 < magnitude → 0 < (decimal_ratio magnitude decimalScale).1 ∧ 0 < (decimal_ratio magnitude decimalScale).2.
Proof.
  intros Hm. unfold decimal_ratio. case (Z.leb_spec 0 decimalScale); intros; simpl.
  - assert (0 < 10 ^ decimalScale) by (apply Z.pow_pos_nonneg; lia). nia.
  - split; [done|apply Z.pow_pos_nonneg; lia].
Qed.

Lemma decimal_f32_ieee negative magnitude decimalScale :
  0 < magnitude →
  decimal_f32 negative magnitude decimalScale =
  ieee_bits 24 8 negative (decimal_ratio magnitude decimalScale).1 (decimal_ratio magnitude decimalScale).2.
Proof.
  intros Hm. destruct (decimal_ratio_pos magnitude decimalScale Hm) as [Hn Hd].
  rewrite ieee_bits_pos by done. unfold decimal_f32. fold (decimal_ratio magnitude decimalScale).
  destruct (decimal_ratio magnitude decimalScale) as [n d]. simpl in Hn, Hd. cbn [fst snd].
  assert (∀ e f, 0 ≤ e ≤ 2 ^ 8 - 1 → 0 ≤ f < 2 ^ (24 - 1) →
    f32_bits negative e f = sign_bits 24 8 negative + e * 2 ^ (24 - 1) + f) as Hbits.
  { intros e f He Hf. rewrite f32_bits_fields by lia. by destruct negative. }
  set (u := unbiased_exponent n d).
  case (Z.leb_spec (-126) u); intros Hu.
  - rewrite <- (pack_normal 24 8 (f32_bits negative) _ ltac:(lia) ltac:(lia) Hbits) by (fold u; change (ieee_bias 8) with 127; lia).
    fold u. change (ieee_bias 8) with 127. change (2 ^ 8 - 1) with 255.
    assert (ieee_q 24 8 n d = u - 23) as Hq by (unfold ieee_q; fold u; change (ieee_qmin 24 8) with (-149); lia).
    assert ((if 0 <=? 23 - u then roundRatioEven (Z.shiftl n (23 - u)) d
             else roundRatioEven n (Z.shiftl d (- (23 - u)))) = ieee_m 24 8 n d) as ->; [|by rewrite (renormalise 24)].
    case (Z.leb_spec 0 (23 - u)); intros Hs; rewrite Z.shiftl_mul_pow2 by lia.
    + pose proof (pow2_pos (23 - u) Hs). rewrite roundRatioEven_half_even by nia.
      rewrite (ieee_m_pow _ _ _ _ (23 - u) 0) by lia. by rewrite Z.mul_1_r.
    + pose proof (pow2_pos (- (23 - u)) ltac:(lia)). rewrite roundRatioEven_half_even by nia.
      rewrite (ieee_m_pow _ _ _ _ 0 (- (23 - u))) by lia. by rewrite Z.mul_1_r.
  - rewrite <- (pack_subnormal 24 8 (f32_bits negative) _ ltac:(lia) ltac:(lia) Hbits) by (fold u; change (ieee_bias 8) with 127; lia).
    assert (ieee_q 24 8 n d = -149) as Hq by (unfold ieee_q; fold u; change (ieee_qmin 24 8) with (-149); lia).
    cbv zeta. rewrite (Z.shiftl_mul_pow2 n), roundRatioEven_half_even by lia.
    rewrite (ieee_m_pow _ _ _ _ 149 0) by lia. by rewrite Z.mul_1_r.
Qed.

(** ** Hexadecimal literals *)

Definition hex_ratio (magnitude scale : Z) : Z * Z :=
  (magnitude * 2 ^ Z.max 0 scale, 2 ^ Z.max 0 (- scale)).

Lemma roundShiftEven_pow v s i j :
  0 ≤ i → 0 ≤ j → j - i = s → roundShiftEven v s = half_even (v * 2 ^ i) (2 ^ j).
Proof.
  intros Hi Hj H. destruct (Z.leb_spec s 0).
  - rewrite roundShiftEven_neg by lia. rewrite <- (half_even_1 (v * 2 ^ (- s))).
    pose proof (half_even_pow v 1 (- s) 0 i j) as E. rewrite !Z.mul_1_l in E. apply E; lia.
  - rewrite roundShiftEven_half_even by lia.
    pose proof (half_even_pow v 1 0 s i j) as E. rewrite !Z.mul_1_l, Z.mul_1_r in E. apply E; lia.
Qed.

Lemma hex_unbiased magnitude scale :
  0 < magnitude →
  unbiased_exponent (hex_ratio magnitude scale).1 (hex_ratio magnitude scale).2 = Z.log2 magnitude + scale.
Proof.
  intros Hm. pose proof (Z.log2_spec magnitude Hm) as [H1 H2]. pose proof (Z.log2_nonneg magnitude).
  pose proof (pow2_pos (Z.max 0 scale)) as Ha. pose proof (pow2_pos (Z.max 0 (- scale))) as Hb.
  apply unbiased_exponent_unique; simpl; [nia|lia|..].
  all: set (l := Z.log2 magnitude) in *; set (k := Z.max 0 (- scale));
    rewrite (ratio_ge_mul _ _ _ k), <- Z.mul_assoc, <- !Z.pow_add_r by lia.
  - replace (k + (k + (l + scale))) with (l + (Z.max 0 scale + k)) by lia.
    rewrite (Z.pow_add_r 2 l) by lia. pose proof (pow2_pos (Z.max 0 scale + k)). nia.
  - replace (k + (k + (l + scale + 1))) with (Z.succ l + (Z.max 0 scale + k)) by lia.
    rewrite (Z.pow_add_r 2 (Z.succ l)) by lia. pose proof (pow2_pos (Z.max 0 scale + k)). nia.
Qed.

Lemma hex_float_ieee negative asF32 magnitude scale :
  0 < magnitude →
  hex_float negative asF32 magnitude scale =
  (if asF32 then ieee_bits 24 8 else ieee_bits 53 11) negative
    (hex_ratio magnitude scale).1 (hex_ratio magnitude scale).2.
Proof.
  intros Hm. unfold hex_float.
  set (p := if asF32 then 24 else 53). set (w := if asF32 then 8 else 11).
  set (bits := if asF32 then f32_bits negative else f64_bits negative).
  assert ((if asF32 then ieee_bits 24 8 else ieee_bits 53 11) = ieee_bits p w) as -> by (by destruct asF32).
  assert ((if asF32 then 127 else 1023) = ieee_bias w) as -> by (by destruct asF32).
  assert ((if asF32 then -126 else -1022) = 1 - ieee_bias w) as -> by (by destruct asF32).
  assert ((if asF32 then -149 else -1074) = ieee_qmin p w) as -> by (by destruct asF32).
  assert ((if asF32 then 255 else 2047) = 2 ^ w - 1) as -> by (by destruct asF32).
  assert (1 < p) as Hp by (by destruct asF32). assert (1 < w) as Hw by (by destruct asF32).
  assert (∀ e f, 0 ≤ e ≤ 2 ^ w - 1 → 0 ≤ f < 2 ^ (p - 1) →
    bits e f = sign_bits p w negative + e * 2 ^ (p - 1) + f) as Hbits.
  { intros e f He Hf. subst bits p w. destruct asF32.
    - rewrite f32_bits_fields by lia. by destruct negative.
    - rewrite f64_bits_fields by lia. by destruct negative. }
  assert (0 < (hex_ratio magnitude scale).1 ∧ 0 < (hex_ratio magnitude scale).2) as [Hn Hd].
  { simpl. pose proof (pow2_pos (Z.max 0 scale)). pose proof (pow2_pos (Z.max 0 (- scale))). nia. }
  pose proof (hex_unbiased magnitude scale Hm) as Hu.
  rewrite ieee_bits_pos by done. unfold bit_length.
  replace (Z.log2 magnitude + 1 - 1 + scale) with (Z.log2 magnitude + scale) by lia.
  clearbody p w bits. pose proof (Z.log2_nonneg magnitude).
  case (Z.leb_spec (1 - ieee_bias w) (Z.log2 magnitude + scale)); intros Hc.
  - rewrite renormalise by lia. rewrite <- (pack_normal p w bits _ Hp Hw Hbits) by lia. rewrite Hu, Z.shiftl_1_l.
    assert (roundShiftEven magnitude (Z.log2 magnitude + 1 - p) =
      ieee_m p w (hex_ratio magnitude scale).1 (hex_ratio magnitude scale).2) as ->; [|done].
    set (k := Z.log2 magnitude) in *.
    rewrite (ieee_m_pow _ _ _ _ (p + Z.max 0 (- scale)) (Z.max 0 scale + k + 1)); [|lia..|].
    2: { unfold ieee_q. rewrite Hu. unfold ieee_qmin. lia. }
    simpl. rewrite <- Z.mul_assoc, <- !Z.pow_add_r by lia. apply roundShiftEven_pow; lia.
  - rewrite <- (pack_subnormal p w bits _ Hp Hw Hbits) by lia. rewrite Z.shiftl_1_l.
    assert ((if 0 <=? scale - ieee_qmin p w then Z.shiftl magnitude (scale - ieee_qmin p w)
             else roundShiftEven magnitude (- (scale - ieee_qmin p w))) =
      ieee_m p w (hex_ratio magnitude scale).1 (hex_ratio magnitude scale).2) as ->; [|done].
    set (q := ieee_qmin p w).
    rewrite (ieee_m_pow _ _ _ _ (Z.max 0 (- q)) (Z.max 0 q)); [|lia..|].
    2: { unfold ieee_q. rewrite Hu. fold q. unfold ieee_qmin in q. lia. }
    simpl. rewrite <- Z.mul_assoc, <- !Z.pow_add_r by lia.
    rewrite <- (roundShiftEven_pow _ (- (scale - q))) by lia.
    case (Z.leb_spec 0 (scale - q)); intros; [|done].
    rewrite roundShiftEven_neg, Z.opp_involutive, Z.shiftl_mul_pow2 by lia. done.
Qed.

(** ** The reference is the nearest representable number *)

Section nearest.
Context (p w : Z) (Hp : 1 < p) (Hw : 1 < w).

(** The number a finite encoding stands for, in units of the smallest subnormal. *)
Definition units (B : Z) : Z :=
  let E := B / 2 ^ (p - 1) in let F := B mod 2 ^ (p - 1) in
  if E =? 0 then F else (2 ^ (p - 1) + F) * 2 ^ (E - 1).

(** The ratio [n / d] in the same units is [n * 2^(-qmin) / d]. *)
Definition distance (n d B : Z) : Z := Z.abs (n * 2 ^ (- ieee_qmin p w) - units B * d).

Lemma ieee_qmin_neg : ieee_qmin p w < 0.
Proof.
  unfold ieee_qmin, ieee_bias. assert (2 ^ 1 ≤ 2 ^ (w - 1)) by (apply Z.pow_le_mono_r; lia). lia.
Qed.

Lemma units_fields E F :
  0 ≤ E → 0 ≤ F < 2 ^ (p - 1) →
  units (E * 2 ^ (p - 1) + F) = if E =? 0 then F else (2 ^ (p - 1) + F) * 2 ^ (E - 1).
Proof.
  intros HE HF. unfold units.
  rewrite Z.div_add_l, (Z.div_small F), Z.add_0_r by lia.
  by rewrite (Z.add_comm _ F), Z.mod_add, (Z.mod_small F) by lia.
Qed.

Lemma pow_p : 2 ^ p = 2 * 2 ^ (p - 1).
Proof. rewrite <- Z.pow_succ_r by lia. f_equal. lia. Qed.

(** The running-on encoding of [m] units of [2^k]. *)
Lemma units_run_on k m :
  0 ≤ k → 0 ≤ m ≤ 2 ^ p → (0 < k → 2 ^ (p - 1) ≤ m) → units (k * 2 ^ (p - 1) + m) = m * 2 ^ k.
Proof.
  intros Hk Hm Hn. pose proof pow_p as H2p. pose proof (pow2_pos (p - 1) ltac:(lia)) as HP.
  destruct (Z.lt_ge_cases m (2 ^ (p - 1))) as [Hlt|Hge]; [|destruct (Z.eq_dec m (2 ^ p)) as [->|Hne]].
  - assert (k = 0) as -> by lia. rewrite units_fields by lia. simpl. lia.
  - replace (k * 2 ^ (p - 1) + 2 ^ p) with ((k + 2) * 2 ^ (p - 1) + 0) by lia.
    rewrite units_fields by lia. rewrite (proj2 (Z.eqb_neq _ 0)) by lia.
    replace (k + 2 - 1) with (Z.succ k) by lia. rewrite Z.pow_succ_r by lia. lia.
  - replace (k * 2 ^ (p - 1) + m) with ((k + 1) * 2 ^ (p - 1) + (m - 2 ^ (p - 1))) by lia.
    rewrite units_fields by lia. rewrite (proj2 (Z.eqb_neq _ 0)) by lia.
    replace (k + 1 - 1) with k by lia. lia.
Qed.

Lemma nearest_multiple X D m t :
  0 < D → nearest_even X D m →
  Z.abs (X - m * D) ≤ Z.abs (X - t * D) ∧
  (t ≠ m → Z.abs (X - m * D) = Z.abs (X - t * D) → Z.even m = true).
Proof.
  intros HD [H1 H2]. destruct (Z.eq_dec t m) as [->|Hne]; [done|].
  assert (D ≤ Z.abs (t * D - m * D)).
  { rewrite <- Z.mul_sub_distr_r, Z.abs_mul, (Z.abs_eq D) by lia. nia. }
  split; [lia|]. intros _ He. apply H2. lia.
Qed.

(** An encoding of the binade of [2^k] or above is a multiple of [2^k]; one below is
    less than [2^(p-1) 2^k]. *)
Lemma units_cases B k :
  0 ≤ B → 0 ≤ k → (∃ t, units B = t * 2 ^ k) ∨ (0 < k ∧ units B < 2 ^ (p - 1) * 2 ^ k).
Proof.
  intros HB Hk. pose proof (pow2_pos (p - 1) ltac:(lia)) as HP. pose proof (pow2_pos k Hk).
  unfold units. pose proof (Z.mod_pos_bound B _ HP). assert (0 ≤ B / 2 ^ (p - 1)) by (apply Z.div_pos; lia).
  set (E := B / 2 ^ (p - 1)) in *. set (F := B mod 2 ^ (p - 1)) in *.
  destruct (Z.eq_dec k 0) as [->|Hk0]; [left; eexists; by rewrite Z.mul_1_r|].
  case (Z.eqb_spec E 0); intros HE; [right; nia|].
  destruct (Z.le_gt_cases k (E - 1)).
  - left. exists ((2 ^ (p - 1) + F) * 2 ^ (E - 1 - k)). rewrite <- Z.mul_assoc, <- Z.pow_add_r by lia. f_equal. f_equal. lia.
  - right. split; [lia|]. assert (2 ^ (E - 1) ≤ 2 ^ (k - 1)) by (apply Z.pow_le_mono_r; lia).
    assert (2 ^ k = 2 * 2 ^ (k - 1)) by (rewrite <- Z.pow_succ_r by lia; f_equal; lia).
    pose proof (pow2_pos (E - 1) ltac:(lia)). nia.
Qed.

Definition binade (n d : Z) : Z := ieee_q p w n d - ieee_qmin p w.

Lemma binade_nonneg n d : 0 ≤ binade n d.
Proof. unfold binade, ieee_q. lia. Qed.

Lemma ieee_m_nearest n d :
  0 < d → nearest_even (n * 2 ^ (- ieee_qmin p w)) (d * 2 ^ binade n d) (ieee_m p w n d).
Proof.
  intros Hd. pose proof ieee_qmin_neg. pose proof (binade_nonneg n d).
  rewrite (ieee_m_pow _ _ _ _ (- ieee_qmin p w) (binade n d)); [|unfold binade in *; lia..].
  apply half_even_spec. pose proof (pow2_pos (binade n d)). nia.
Qed.

Lemma ieee_m_range n d : 0 < n → 0 < d → 0 ≤ ieee_m p w n d ≤ 2 ^ p ∧ (0 < binade n d → 2 ^ (p - 1) ≤ ieee_m p w n d).
Proof.
  intros Hn Hd. pose proof pow_p. pose proof (pow2_pos (p - 1) ltac:(lia)).
  destruct (Z.lt_ge_cases (unbiased_exponent n d - (p - 1)) (ieee_q p w n d)) as [Hlt|Hge].
  - pose proof (ieee_m_subnormal p w Hp n d Hn Hd Hlt). split; [lia|]. unfold binade, ieee_q in *. lia.
  - pose proof (ieee_m_normal p w Hp n d Hn Hd ltac:(unfold ieee_q in *; lia)). lia.
Qed.

(** Above the lowest binade the ratio is at least [2^(p-1)] units of [2^q]. *)
Lemma binade_low n d :
  0 < n → 0 < d → 0 < binade n d → 2 ^ (p - 1) * (d * 2 ^ binade n d) ≤ n * 2 ^ (- ieee_qmin p w).
Proof.
  intros Hn Hd Hb. destruct (unbiased_exponent_spec n d Hn Hd) as [H1 _]. pose proof ieee_qmin_neg.
  unfold binade in *. assert (ieee_q p w n d = unbiased_exponent n d - (p - 1)) as Hq by (unfold ieee_q in *; lia).
  rewrite Hq in *. set (e := unbiased_exponent n d) in *.
  rewrite (ratio_ge_mul _ _ _ (- ieee_qmin p w)) in H1 by lia.
  replace (- ieee_qmin p w + e) with ((p - 1) + (e - (p - 1) - ieee_qmin p w)) in H1 by lia.
  rewrite Z.pow_add_r in H1 by lia. lia.
Qed.

Lemma ieee_magnitude_finite n d :
  ieee_magnitude p w n d < ieee_inf p w → ieee_magnitude p w n d = binade n d * 2 ^ (p - 1) + ieee_m p w n d.
Proof. unfold ieee_magnitude, binade. lia. Qed.

Lemma ieee_nearest n d B :
  0 < n → 0 < d → 0 ≤ B → ieee_magnitude p w n d < ieee_inf p w →
  distance n d (ieee_magnitude p w n d) ≤ distance n d B ∧
  (units B ≠ units (ieee_magnitude p w n d) → distance n d (ieee_magnitude p w n d) = distance n d B →
   Z.even (ieee_magnitude p w n d) = true).
Proof.
  intros Hn Hd HB Hfin. rewrite ieee_magnitude_finite by done.
  pose proof (binade_nonneg n d) as Hk. destruct (ieee_m_range n d Hn Hd) as [Hm Hnorm].
  pose proof (ieee_m_nearest n d Hd) as Hne. pose proof (binade_low n d Hn Hd) as Hlow.
  unfold distance. rewrite units_run_on by done.
  set (k := binade n d) in *. set (m := ieee_m p w n d) in *. set (X := n * 2 ^ (- ieee_qmin p w)) in *.
  pose proof (pow2_pos k Hk) as HK. assert (0 < d * 2 ^ k) as HD by nia.
  assert (Z.even (k * 2 ^ (p - 1) + m) = Z.even m) as Hev.
  { replace (p - 1) with (Z.succ (p - 2)) by lia. rewrite Z.pow_succ_r by lia.
    replace (k * (2 * 2 ^ (p - 2)) + m) with (m + 2 * (k * 2 ^ (p - 2))) by lia. apply Z.even_add_mul_2. }
  rewrite Hev. replace (m * 2 ^ k * d) with (m * (d * 2 ^ k)) by lia.
  destruct (units_cases B k HB Hk) as [[t Ht]|[Hk0 Hlt]].
  - rewrite Ht. replace (t * 2 ^ k * d) with (t * (d * 2 ^ k)) by lia.
    destruct (nearest_multiple _ _ _ t HD Hne) as [H1 H2]. split; [done|]. intros Hu He. apply H2; [|done].
    by intros ->.
  - destruct (nearest_multiple _ _ _ (2 ^ (p - 1)) HD Hne) as [H1 _]. specialize (Hlow Hk0).
    assert (units B * d < 2 ^ (p - 1) * 2 ^ k * d) by nia. split; [lia|]. lia.
Qed.

(** The ratio stays below [2^p] units of its binade. *)
Lemma binade_high n d :
  0 < n → 0 < d → n * 2 ^ (- ieee_qmin p w) < 2 ^ p * (d * 2 ^ binade n d).
Proof.
  intros Hn Hd. destruct (unbiased_exponent_spec n d Hn Hd) as [_ H2]. pose proof ieee_qmin_neg.
  pose proof (binade_nonneg n d).
  assert (¬ ratio_ge n d (ieee_q p w n d + p)) as H3.
  { intros H3. apply H2. eapply ratio_ge_mono; [..|exact H3]; try lia. unfold ieee_q. lia. }
  unfold binade in *. rewrite (ratio_ge_mul _ _ _ (- ieee_qmin p w)) in H3 by lia.
  replace (- ieee_qmin p w + (ieee_q p w n d + p)) with (p + (ieee_q p w n d - ieee_qmin p w)) in H3 by lia.
  rewrite Z.pow_add_r in H3 by lia. lia.
Qed.

(** Half a unit above the largest finite number: everything from there on is infinity. *)
Definition overflow_bound : Z := (2 * 2 ^ p - 1) * 2 ^ (2 ^ w - 3).

Lemma ieee_overflow n d :
  0 < n → 0 < d →
  ieee_magnitude p w n d = ieee_inf p w ↔ overflow_bound * d ≤ 2 * (n * 2 ^ (- ieee_qmin p w)).
Proof.
  intros Hn Hd. unfold ieee_magnitude, ieee_inf, overflow_bound. fold (binade n d).
  pose proof (binade_nonneg n d) as Hk. destruct (ieee_m_range n d Hn Hd) as [Hm Hnorm].
  destruct (ieee_m_nearest n d Hd) as [Hne Htie]. pose proof (binade_low n d Hn Hd) as Hlow.
  pose proof (binade_high n d Hn Hd) as Hhigh. pose proof pow_p as H2p.
  pose proof (pow2_pos (p - 1) ltac:(lia)) as HP. assert (2 ^ 2 ≤ 2 ^ w) by (apply Z.pow_le_mono_r; lia).
  set (k := binade n d) in *. set (m := ieee_m p w n d) in *. set (X := n * 2 ^ (- ieee_qmin p w)) in *.
  set (K := 2 ^ w - 3) in *. set (P := 2 ^ (p - 1)) in *. pose proof (pow2_pos k Hk) as HK.
  pose proof (pow2_pos K ltac:(lia)) as HKK. replace (2 ^ w - 1) with (K + 2) by lia. rewrite H2p in *.
  destruct (Z.lt_trichotomy k K) as [Hlt|[Heq|Hgt]].
  - assert (2 ^ k * 2 ≤ 2 ^ K).
    { rewrite Z.mul_comm, <- Z.pow_succ_r by lia. apply Z.pow_le_mono_r; lia. }
    assert (2 * P * (d * (2 ^ k * 2)) ≤ 2 * P * (d * 2 ^ K)) by nia.
    assert (d * 2 ^ K ≤ P * (d * 2 ^ K)) by nia. split; intros; exfalso; nia.
  - rewrite Heq in *. assert (Z.even (2 * P) = true) as Hev by (by rewrite Z.even_mul).
    split; intros Hi; [assert (m = 2 * P) by nia; nia|].
    assert (m = 2 * P); [|nia]. destruct (Z.eq_dec m (2 * P)) as [|Hmn]; [done|exfalso].
    assert (m = 2 * P - 1) as Hm1 by nia.
    assert (Z.even m = true) as Hem by (apply Htie; nia).
    rewrite Hm1 in Hem. replace (2 * P - 1) with (-1 + 2 * P) in Hem by lia. by rewrite Z.even_add_mul_2 in Hem.
  - assert (2 * 2 ^ K ≤ 2 ^ k).
    { rewrite <- Z.pow_succ_r by lia. apply Z.pow_le_mono_r; lia. }
    specialize (Hlow ltac:(lia)). specialize (Hnorm ltac:(lia)).
    assert (P * (d * (2 * 2 ^ K)) ≤ P * (d * 2 ^ k)) by nia.
    split; intros; nia.
Qed.
End nearest.

(** [R] is the correctly rounded encoding of [n / d] with the given sign: infinity
    exactly from the overflow bound on, and otherwise no encoding is closer, a tie
    going to the even encoding. *)
Definition correctly_rounded (p w : Z) (negative : bool) (n d R : Z) : Prop :=
  let M := R - sign_bits p w negative in
  0 ≤ M ≤ ieee_inf p w ∧
  (M = ieee_inf p w ↔ overflow_bound p w * d ≤ 2 * (n * 2 ^ (- ieee_qmin p w))) ∧
  (M < ieee_inf p w → ∀ B, 0 ≤ B →
    distance p w n d M ≤ distance p w n d B ∧
    (units p B ≠ units p M → distance p w n d M = distance p w n d B → Z.even M = true)).

Lemma ieee_bits_rounded p w negative n d :
  1 < p → 1 < w → 0 < n → 0 < d → correctly_rounded p w negative n d (ieee_bits p w negative n d).
Proof.
  intros Hp Hw Hn Hd. unfold correctly_rounded. rewrite ieee_bits_pos by done.
  replace (sign_bits p w negative + ieee_magnitude p w n d - sign_bits p w negative) with (ieee_magnitude p w n d) by lia.
  split; [|split; [by apply ieee_overflow|intros; by apply ieee_nearest]].
  unfold ieee_magnitude. fold (binade p w n d). pose proof (binade_nonneg p w n d).
  destruct (ieee_m_range p w Hp n d Hn Hd) as [Hm _]. pose proof (pow2_pos (p - 1) ltac:(lia)).
  assert (2 ^ 2 ≤ 2 ^ w) by (apply Z.pow_le_mono_r; lia). unfold ieee_inf. nia.
Qed.

(** ** Texts *)

(** Positional value of a digit string. *)
Fixpoint digits_value (base : Z) (l : list Z) : Z :=
  match l with
  | [] => 0
  | c :: l' => default 0 (digit_value base c) * base ^ zlen l' + digits_value base l'
  end.

Definition is_digit_of (base c : Z) : Prop := is_Some (digit_value base c).

#[export] Instance is_digit_of_dec base c : Decision (is_digit_of base c).
Proof. unfold is_digit_of. apply _. Defined.

Lemma big_int_digits base l :
  Forall (is_digit_of base) l → big_int base l = Ok (digits_value base l).
Proof.
  intros HF. unfold big_int.
  assert (∀ acc, foldM (λ c acc, of_option SyntaxError ((λ d, acc * base + d) <$> digit_value base c)) l acc
    = Ok (acc * base ^ zlen l + digits_value base l)) as H.
  { induction HF as [|c l [d Hd] _ IH]; intros acc; simpl.
    - f_equal. change (zlen []) with 0. lia.
    - rewrite Hd. simpl. rewrite IH. f_equal.
      assert (zlen (c :: l) = Z.succ (zlen l)) as -> by (unfold zlen; simpl; lia).
      rewrite Z.pow_succ_r by (unfold zlen; lia). lia. }
  by rewrite H.
Qed.

Lemma cut_not_in c l r : c ∉ l → cut c (l ++ c :: r) = Some (l, r).
Proof.
  induction l as [|a l IH]; intros H; simpl; [by rewrite Z.eqb_refl|].
  apply not_elem_of_cons in H as [H1 H2]. by rewrite (proj2 (Z.eqb_neq a c)), IH by done.
Qed.

Lemma digit_bounds base c : base ≤ 16 → is_digit_of base c → 48 ≤ c ≤ 57 ∨ (10 < base ∧ 97 ≤ c ≤ 102).
Proof.
  intros Hb [d Hd]. unfold digit_value in Hd.
  destruct ((48 <=? c) && (c <=? 57)) eqn:H1; [b2p; lia|].
  destruct ((97 <=? c) && (c <=? 102)) eqn:H2; b2p; [|destruct (99 <? base) eqn:H3; b2p; [lia|done]].
  destruct (c - 87 <? base) eqn:H3; [b2p; lia|done].
Qed.

Lemma to_lower_digits base l : base ≤ 16 → Forall (is_digit_of base) l → to_lower <$> l = l.
Proof.
  intros Hb HF. induction HF as [|c l Hc _ IH]; [done|]. rewrite fmap_cons, IH. f_equal.
  apply digit_bounds in Hc; [|done]. unfold to_lower. destruct (_ && _) eqn:H; [b2p; lia|done].
Qed.

Lemma digits_not_in base l c : base ≤ 16 → Forall (is_digit_of base) l → (c < 48 ∨ (57 < c < 97) ∨ 102 < c ∨ (base ≤ 10 ∧ 57 < c)) → c ∉ l.
Proof.
  intros Hb HF Hc Hin. rewrite Forall_forall in HF. apply HF, digit_bounds in Hin; lia.
Qed.

(** The sign of a numeral and its text. *)
Definition sign_text (s : option bool) : list Z :=
  match s with None => [] | Some false => [43] | Some true => [45] end.

Definition is_negative (s : option bool) : bool := default false s.

Lemma strip_sign_text s c l : c ≠ 43 → c ≠ 45 → strip_sign (sign_text s ++ c :: l) = (is_negative s, c :: l).
Proof. intros H1 H2. apply Z.eqb_neq in H1, H2. destruct s as [[]|]; simpl; [done|done|by rewrite H1, H2]. Qed.

Lemma to_lower_sign s : to_lower <$> sign_text s = sign_text s.
Proof. by destruct s as [[]|]. Qed.

(** The head of a numeral [ip . rest] is not a sign. *)
Lemma strip_sign_numeral s base ip rest :
  base ≤ 16 → Forall (is_digit_of base) ip →
  strip_sign (sign_text s ++ ip ++ 46 :: rest) = (is_negative s, ip ++ 46 :: rest).
Proof.
  intros Hb HF. destruct HF as [|c l Hc _]; simpl; [by apply strip_sign_text|].
  apply digit_bounds in Hc; [|done]. apply strip_sign_text; lia.
Qed.

Lemma significand_digits_point ip fp :
  46 ∉ ip → significand_digits (ip ++ 46 :: fp) = (ip ++ fp, zlen fp).
Proof. intros. unfold significand_digits. by rewrite cut_not_in. Qed.

Lemma watDecimalF32_numeral s ip fp E e :
  Forall (is_digit_of 10) ip → Forall (is_digit_of 10) fp →
  js_number (to_lower <$> E) = NInt e → 0 < digits_value 10 (ip ++ fp) →
  watDecimalF32 (sign_text s ++ ip ++ 46 :: fp ++ 101 :: E) =
  Ok (decimal_f32 (is_negative s) (digits_value 10 (ip ++ fp)) (e - zlen fp)).
Proof.
  intros Hi Hf HE Hpos. unfold watDecimalF32.
  repeat (rewrite fmap_app || rewrite fmap_cons).
  rewrite to_lower_sign, (to_lower_digits 10 ip), (to_lower_digits 10 fp) by done.
  change (to_lower 46) with 46. change (to_lower 101) with 101.
  rewrite (strip_sign_numeral s 10) by done. set (E' := to_lower <$> E) in *.
  replace (ip ++ 46 :: fp ++ 101 :: E') with ((ip ++ 46 :: fp) ++ 101 :: E') by (by rewrite <- app_assoc).
  rewrite cut_not_in.
  2: { rewrite elem_of_app, elem_of_cons. intros [H|[H|H]]; [|lia|]; revert H; eapply (digits_not_in 10); try done; lia. }
  rewrite significand_digits_point by (eapply (digits_not_in 10); [done..|lia]).
  rewrite big_int_digits by (by apply Forall_app). simpl.
  rewrite (proj2 (Z.eqb_neq _ 0)) by lia. unfold exponent_value. by rewrite HE.
Qed.

Lemma watHexFloat_numeral s asF32 ip fp E e :
  Forall (is_digit_of 16) ip → Forall (is_digit_of 16) fp →
  js_number (to_lower <$> E) = NInt e → 0 < digits_value 16 (ip ++ fp) →
  watHexFloat (sign_text s ++ 48 :: 120 :: ip ++ 46 :: fp ++ 112 :: E) asF32 =
  Ok (hex_float (is_negative s) asF32 (digits_value 16 (ip ++ fp)) (e - zlen fp * 4)).
Proof.
  intros Hi Hf HE Hpos. unfold watHexFloat.
  repeat (rewrite fmap_app || rewrite fmap_cons).
  rewrite to_lower_sign, (to_lower_digits 16 ip), (to_lower_digits 16 fp) by done.
  change (to_lower 46) with 46. change (to_lower 48) with 48. change (to_lower 120) with 120. change (to_lower 112) with 112.
  rewrite strip_sign_text by lia. set (E' := to_lower <$> E) in *.
  replace (48 :: 120 :: ip ++ 46 :: fp ++ 112 :: E') with ((48 :: 120 :: ip ++ 46 :: fp) ++ 112 :: E')
    by (simpl; by rewrite <- app_assoc).
  rewrite cut_not_in.
  2: { rewrite !elem_of_cons, elem_of_app, elem_of_cons.
       intros [H|[H|[H|[H|H]]]]; [lia|lia| |lia|]; revert H; eapply (digits_not_in 16); try done; lia. }
  change (drop_0x (48 :: 120 :: ip ++ 46 :: fp)) with (ip ++ 46 :: fp). rewrite significand_digits_point by (eapply (digits_not_in 16); [done..|lia]).
  rewrite big_int_digits by (by apply Forall_app). simpl.
  rewrite (proj2 (Z.eqb_neq _ 0)) by lia. unfold exponent_value. by rewrite HE.
Qed.

Lemma watFloat_hex s asF32 rest :
  watFloat (sign_text s ++ 48 :: 120 :: rest) asF32 = watHexFloat (sign_text s ++ 48 :: 120 :: rest) asF32.
Proof. unfold watFloat. by rewrite strip_sign_text by lia. Qed.

Lemma watFloat_decimal s ip rest :
  Forall (is_digit_of 10) ip →
  watFloat (sign_text s ++ ip ++ 46 :: rest) true = watDecimalF32 (sign_text s ++ ip ++ 46 :: rest).
Proof.
  intros HF. unfold watFloat. rewrite (strip_sign_numeral s 10) by done. simpl.
  destruct HF as [|c l Hc HF]; [by destruct rest|]. destruct HF as [|c' l' Hc' HF]; simpl.
  - change (to_lower 46) with 46. destruct (to_lower c =? 48); done.
  - apply digit_bounds in Hc, Hc'; [|done..]. assert (to_lower c' ≠ 120).
    { unfold to_lower. destruct (_ && _) eqn:H; b2p; lia. }
    by rewrite (proj2 (Z.eqb_neq (to_lower c') 120)), andb_false_r.
Qed.

(** ** Claims *)

(** C5: an f32 decimal literal [sign? digits . digits e exponent] is converted to the
    correctly rounded binary32: infinity exactly from the overflow bound on, otherwise
    no binary32 is closer to the written number and a tie goes to the even encoding. *)
Theorem decimal_literal_nearest s ip fp E e :
  Forall (is_digit_of 10) ip → Forall (is_digit_of 10) fp →
  js_number (to_lower <$> E) = NInt e → 0 < digits_value 10 (ip ++ fp) →
  ∃ R, watFloat (sign_text s ++ ip ++ 46 :: fp ++ 101 :: E) true = Ok R ∧
    correctly_rounded 24 8 (is_negative s)
      (decimal_ratio (digits_value 10 (ip ++ fp)) (e - zlen fp)).1
      (decimal_ratio (digits_value 10 (ip ++ fp)) (e - zlen fp)).2 R.
Proof.
  intros Hi Hf HE Hpos. eexists. split.
  - rewrite watFloat_decimal by done. by apply watDecimalF32_numeral.
  - rewrite decimal_f32_ieee by done. apply ieee_bits_rounded; try done; by apply decimal_ratio_pos.
Qed.

(** The literal [-16777217.0e0], halfway between two binary32 numbers. *)
Lemma decimal_literal_nearest_witness :
  ∃ R, watFloat (sign_text (Some true) ++ [49; 54; 55; 55; 55; 50; 49; 55] ++ 46 :: [48] ++ 101 :: [48]) true = Ok R ∧
    correctly_rounded 24 8 (is_negative (Some true))
      (decimal_ratio (digits_value 10 ([49; 54; 55; 55; 55; 50; 49; 55] ++ [48])) (0 - zlen [48])).1
      (decimal_ratio (digits_value 10 ([49; 54; 55; 55; 55; 50; 49; 55] ++ [48])) (0 - zlen [48])).2 R.
Proof.
  apply (decimal_literal_nearest (Some true) [49; 54; 55; 55; 55; 50; 49; 55] [48] [48] 0).
  - repeat constructor; by eexists.
  - repeat constructor; by eexists.
  - by vm_compute.
  - by vm_compute.
Defined.

(** C14: a hexadecimal literal [sign? 0x digits . digits p exponent] is converted to the
    correctly rounded binary32 or binary64, in the same sense. *)
Theorem hex_literal_nearest s (asF32 : bool) ip fp E e :
  Forall (is_digit_of 16) ip → Forall (is_digit_of 16) fp →
  js_number (to_lower <$> E) = NInt e → 0 < digits_value 16 (ip ++ fp) →
  ∃ R, watFloat (sign_text s ++ 48 :: 120 :: ip ++ 46 :: fp ++ 112 :: E) asF32 = Ok R ∧
    correctly_rounded (if asF32 then 24 else 53) (if asF32 then 8 else 11) (is_negative s)
      (hex_ratio (digits_value 16 (ip ++ fp)) (e - zlen fp * 4)).1
      (hex_ratio (digits_value 16 (ip ++ fp)) (e - zlen fp * 4)).2 R.
Proof.
  intros Hi Hf HE Hpos. eexists. split.
  - rewrite watFloat_hex. by apply watHexFloat_numeral.
  - rewrite hex_float_ieee by done. set (h := hex_ratio _ _).
    assert (0 < h.1 ∧ 0 < h.2) as [H1 H2].
    { subst h. simpl. set (g := digits_value _ _) in *. set (r := e - _).
      pose proof (pow2_pos (Z.max 0 r)). pose proof (pow2_pos (Z.max 0 (- r))). nia. }
    destruct asF32; by apply ieee_bits_rounded.
Qed.

(** The literal [0x1.8p-1074], halfway between the two smallest subnormal doubles. *)
Lemma hex_literal_nearest_witness :
  ∃ R, watFloat (sign_text None ++ 48 :: 120 :: [49] ++ 46 :: [56] ++ 112 :: [45; 49; 48; 55; 52]) false = Ok R ∧
    correctly_rounded 53 11 (is_negative None)
      (hex_ratio (digits_value 16 ([49] ++ [56])) (-1074 - zlen [56] * 4)).1
      (hex_ratio (digits_value 16 ([49] ++ [56])) (-1074 - zlen [56] * 4)).2 R.
Proof.
  apply (hex_literal_nearest None false [49] [56] [45; 49; 48; 55; 52] (-1074)).
  - repeat constructor; by eexists.
  - repeat constructor; by eexists.
  - by vm_compute.
  - by vm_compute.
Defined.

(** The two BigInt rounding helpers compute the integer nearest to their exact
    quotient, ties to even: [roundRatioEven] of a ratio, [roundShiftEven] of a right
    shift, which for a non-positive amount is the exact left shift. *)
Theorem rounding_helpers_nearest numerator denominator value shift :
  0 ≤ numerator → 0 < denominator → 0 < shift →
  nearest_even numerator denominator (roundRatioEven numerator denominator) ∧
  nearest_even value (2 ^ shift) (roundShiftEven value shift) ∧
  roundShiftEven value (- shift) = value * 2 ^ shift.
Proof.
  intros Hn Hd Hs. rewrite roundRatioEven_half_even, roundShiftEven_half_even, roundShiftEven_neg by lia.
  rewrite Z.opp_involutive. split; [by apply half_even_spec|split; [|done]].
  apply half_even_spec, pow2_pos. lia.
Qed.

Lemma rounding_helpers_nearest_witness :
  nearest_even 5 2 (roundRatioEven 5 2) ∧ nearest_even (-3) (2 ^ 1) (roundShiftEven (-3) 1) ∧
  roundShiftEven (-3) (- 1) = -3 * 2 ^ 1.
Proof. apply (rounding_helpers_nearest 5 2 (-3) 1); lia. Defined.
