(* ===== verification/GlfData.v ===== *)
(** * The terminal font tables (src/html-rt/src/terminal/glf.js)

    The glyph table [lookup] (213 entries: [None] for a glyph without outline,
    else the start and length of its run in the index buffer) and the character
    maps [cmap.subtables], as the generated file has them.  The index and point
    buffers are not copied; only the length of the index buffer matters here. *)

From stdpp Require Import base numbers list.
From Stdlib Require Import ZArith.

#[local] Open Scope Z_scope.

(** ** Glyph runs *)


Definition lookup_0 : list (option (Z * Z)) :=
  [Some (0, 24); None; None; None; Some (24, 507); Some (531, 378);
   Some (909, 1059); Some (1968, 1035); Some (3003, 1479); Some (4482, 1488); Some (5970, 231); Some (6201, 759);
   Some (6960, 771); Some (7731, 891); Some (8622, 477); Some (9099, 414); Some (9513, 117); Some (9630, 183);
   Some (9813, 879); Some (10692, 1041); Some (11733, 582); Some (12315, 855); Some (13170, 876); Some (14046, 894);
   Some (14940, 1029); Some (15969, 894); Some (16863, 618); Some (17481, 1026); Some (18507, 915); Some (19422, 366);
   Some (19788, 579); Some (20367, 789); Some (21156, 234); Some (21390, 789); Some (22179, 687); Some (22866, 1410);
   Some (24276, 1023); Some (25299, 1074); Some (26373, 924)].

Definition lookup_1 : list (option (Z * Z)) :=
  [Some (27297, 1113); Some (28410, 732); Some (29142, 657); Some (29799, 1020); Some (30819, 1077); Some (31896, 657);
   Some (32553, 717); Some (33270, 1332); Some (34602, 645); Some (35247, 1611); Some (36858, 1362); Some (38220, 1110);
   Some (39330, 843); Some (40173, 1428); Some (41601, 1236); Some (42837, 981); Some (43818, 636); Some (44454, 1116);
   Some (45570, 1032); Some (46602, 1575); Some (48177, 1413); Some (49590, 939); Some (50529, 711); Some (51240, 831);
   Some (52071, 981); Some (53052, 693); Some (53745, 471); Some (54216, 117); Some (54333, 270); Some (54603, 666);
   Some (55269, 1125); Some (56394, 786); Some (57180, 1098); Some (58278, 645); Some (58923, 747); Some (59670, 1014);
   Some (60684, 1026)].

Definition lookup_2 : list (option (Z * Z)) :=
  [Some (61710, 549); Some (62259, 672); Some (62931, 1035); Some (63966, 615); Some (64581, 1260); Some (65841, 951);
   Some (66792, 867); Some (67659, 1152); Some (68811, 1002); Some (69813, 684); Some (70497, 576); Some (71073, 648);
   Some (71721, 828); Some (72549, 780); Some (73329, 1134); Some (74463, 912); Some (75375, 1110); Some (76485, 501);
   Some (76986, 963); Some (77949, 702); Some (78651, 936); Some (79587, 729); Some (80316, 507); Some (80823, 1095);
   Some (81918, 963); Some (82881, 1002); Some (83883, 1020); Some (84903, 678); Some (85581, 1113); Some (86694, 234);
   Some (86928, 1911); Some (88839, 645); Some (89484, 1191); Some (90675, 231); Some (90906, 117); Some (91023, 2151);
   Some (93174, 117)].

Definition lookup_3 : list (option (Z * Z)) :=
  [Some (93291, 465); Some (93756, 570); Some (94326, 531); Some (94857, 447); Some (95304, 189); Some (95493, 1080);
   Some (96573, 1455); Some (98028, 90); Some (98118, 219); Some (98337, 390); Some (98727, 462); Some (99189, 1020);
   Some (100209, 1701); Some (101910, 1560); Some (103470, 1623); Some (105093, 768); Some (105861, 1281); Some (107142, 1251);
   Some (108393, 1380); Some (109773, 1395); Some (111168, 1257); Some (112425, 1452); Some (113877, 1296); Some (115173, 1128);
   Some (116301, 990); Some (117291, 978); Some (118269, 1092); Some (119361, 963); Some (120324, 915); Some (121239, 903);
   Some (122142, 1017); Some (123159, 888); Some (124047, 1155); Some (125202, 1734); Some (126936, 1368); Some (128304, 1356);
   Some (129660, 1467)].

Definition lookup_4 : list (option (Z * Z)) :=
  [Some (131127, 1482); Some (132609, 1344); Some (133953, 993); Some (134946, 1506); Some (136452, 1374); Some (137826, 1344);
   Some (139170, 1473); Some (140643, 1350); Some (141993, 1155); Some (143148, 1029); Some (144177, 1170); Some (145347, 936);
   Some (146283, 882); Some (147165, 1005); Some (148170, 1050); Some (149220, 912); Some (150132, 1125); Some (151257, 897);
   Some (152154, 972); Some (153126, 915); Some (154041, 861); Some (154902, 999); Some (155901, 891); Some (156792, 702);
   Some (157494, 663); Some (158157, 786); Some (158943, 678); Some (159621, 1299); Some (160920, 1299); Some (162219, 1137);
   Some (163356, 1083); Some (164439, 1221); Some (165660, 1251); Some (166911, 1101); Some (168012, 483); Some (168495, 1020);
   Some (169515, 1098)].

Definition lookup_5 : list (option (Z * Z)) :=
  [Some (170613, 1059); Some (171672, 1182); Some (172854, 1062); Some (173916, 1293); Some (175209, 1185); Some (176394, 1200);
   Some (177594, 744); Some (178338, 696); Some (179034, 621); Some (179655, 18); Some (179673, 936); Some (180609, 564);
   Some (181173, 531); Some (181704, 456); Some (182160, 441); Some (182601, 927); Some (183528, 906); Some (184434, 537);
   Some (184971, 456); Some (185427, 948); Some (186375, 18); Some (186393, 18); Some (186411, 2301); Some (188712, 18);
   Some (188730, 639); None].

Definition glf_lookup : list (option (Z * Z)) :=
  lookup_0 ++ lookup_1 ++ lookup_2 ++ lookup_3 ++ lookup_4 ++ lookup_5.

(** Number of entries of [idx]. *)
Definition idx_length : Z := 189369.

(** ** Character maps *)

Record cmap_table : Type := mkCmap {
  format : Z; startCode : list Z; endCode : list Z; idDelta : list Z; idRangeOffset : list Z;
  glyphIdArray : list Z; firstCode : Z; entryCount : Z }.

Definition cmap_0_startCode : list Z :=
  [32; 160; 161; 8800; 8804; 9472; 9474; 9484; 9488; 9492; 9496; 9500;
   9508; 9516; 9524; 9532; 9600; 9618; 9620; 9830; 65535].

Definition cmap_0_endCode : list Z :=
  [126; 160; 255; 8800; 8805; 9472; 9474; 9484; 9488; 9492; 9496; 9500;
   9508; 9516; 9524; 9532; 9601; 9618; 9620; 9830; 65535].

Definition cmap_0_idDelta : list Z :=
  [(-29); 52; (-63); (-8607); (-8610); (-9276); (-9277); (-9286); (-9289); (-9292); (-9295); (-9298);
   (-9305); (-9312); (-9319); (-9326); (-9393); (-9409); (-9410); (-9619); 1].

Definition cmap_0_idRangeOffset : list Z :=
  [0; 0; 0; 0; 0; 0; 0; 0; 0; 0; 0; 0;
   0; 0; 0; 0; 0; 0; 0; 0; 0].

Definition cmap_2_startCode : list Z :=
  [32; 160; 161; 8800; 8804; 9472; 9474; 9484; 9488; 9492; 9496; 9500;
   9508; 9516; 9524; 9532; 9600; 9618; 9620; 9830; 65535].

Definition cmap_2_endCode : list Z :=
  [126; 160; 255; 8800; 8805; 9472; 9474; 9484; 9488; 9492; 9496; 9500;
   9508; 9516; 9524; 9532; 9601; 9618; 9620; 9830; 65535].

Definition cmap_2_idDelta : list Z :=
  [(-29); 52; (-63); (-8607); (-8610); (-9276); (-9277); (-9286); (-9289); (-9292); (-9295); (-9298);
   (-9305); (-9312); (-9319); (-9326); (-9393); (-9409); (-9410); (-9619); 1].

Definition cmap_2_idRangeOffset : list Z :=
  [0; 0; 0; 0; 0; 0; 0; 0; 0; 0; 0; 0;
   0; 0; 0; 0; 0; 0; 0; 0; 0].

(** Table 1 has format 0, whose [glyphIndexArray] the renderer does not read. *)
Definition cmap_subtables : list cmap_table :=
  [mkCmap 4 cmap_0_startCode cmap_0_endCode cmap_0_idDelta cmap_0_idRangeOffset [] 0 0;
   mkCmap 0 [] [] [] [] [] 0 0;
   mkCmap 4 cmap_2_startCode cmap_2_endCode cmap_2_idDelta cmap_2_idRangeOffset [] 0 0].
