(* ===== verification/Renderer.v ===== *)
(** * The terminal renderer (src/html-rt/src/terminal/renderer.js)

    The renderer reads the terminal model and produces, for WebGL, an instance
    array of backgrounds and underlines and a list of glyph draw calls, or, for
    the 2D canvas, a list of rectangles and texts.  Both are modelled as the
    data handed to the graphics API; the WebGL calls are in [RenderGL], the vertex
    shaders in [RenderPixels].  Lengths in device pixels are integers computed from
    doubles, which are exact dyadic numbers rounded after each operation. *)

From stdpp Require Import base numbers list strings gmap.
From Stdlib Require Import ZArith Lia Ascii.
From S2P Require Import Prelude JsNum TermModel GlfData.

#[local] Open Scope Z_scope.
#[local] Open Scope waste_scope.

Definition FONT_ASCENT : Z := 1638.
Definition FONT_DESCENT : Z := -409.
Definition FONT_ADVANCE : Z := 851.
Definition FONT_LINE : Z := FONT_ASCENT - FONT_DESCENT.

(** ** Double arithmetic *)

Definition num_ratio (v : num) : option (Z * Z) :=
  match v with NInt z => Some (z, 1) | NFrac m k => Some (m, 2 ^ Zpos k) | NNonFinite => None end.

Definition num_lift (f : Z → Z → Z → Z → num) (u v : num) : num :=
  match num_ratio u, num_ratio v with Some (a, b), Some (c, d) => f a b c d | _, _ => NNonFinite end.

Definition num_sub : num → num → num := num_lift (λ a b c d, round_double (a * d - c * b) (b * d)).
Definition num_mul : num → num → num := num_lift (λ a b c d, round_double (a * c) (b * d)).
Definition num_div : num → num → num := num_lift (λ a b c d,
  if c =? 0 then NNonFinite else round_double (a * d * Z.sgn c) (b * Z.abs c)).

Definition num_pos (v : num) : bool := match num_ratio v with Some (a, _) => 0 <? a | None => false end.

Inductive render_fault : Type :=
| NotFinite          (* a size overflowed the doubles *)
| RangeError         (* [TypedArray.set] past the end *)
| NoCell.            (* a cell index outside the model *)

(** [Math.floor] and [Math.round]. *)
Definition num_floor (v : num) : result render_fault Z :=
  of_option NotFinite ((λ '(a, b), a / b) <$> num_ratio v).
Definition num_round (v : num) : result render_fault Z :=
  of_option NotFinite ((λ '(a, b), (2 * a + b) / (2 * b)) <$> num_ratio v).

(** ** Character to glyph *)

Fixpoint segment_lookup (cmap : cmap_table) (code : Z) (i : nat) (fuel : nat) : option Z :=
  match fuel with
  | O => None
  | S fuel =>
    match startCode cmap !! i, endCode cmap !! i, idRangeOffset cmap !! i, idDelta cmap !! i with
    | Some lo, Some hi, Some offset, Some delta =>
      if (code <? lo) || (hi <? code) then segment_lookup cmap code (S i) fuel
      else if offset =? 0 then Some (Z.land (delta + code) 65535)
      else
        let index := Z.of_nat i + Z.shiftr offset 1 + (code - lo) in
        if index <? zlen (idRangeOffset cmap) then zlookup (idRangeOffset cmap) index
        else
          let glyphIndex := index - zlen (startCode cmap) in
          if glyphIndex <? zlen (glyphIdArray cmap) then zlookup (glyphIdArray cmap) glyphIndex else None
    | _, _, _, _ => None
    end
  end.

Definition lookupCmapSubtable (cmap : cmap_table) (code : Z) : option Z :=
  if format cmap =? 4 then segment_lookup cmap code 0 (length (startCode cmap))
  else if (format cmap =? 6) && (firstCode cmap <=? code) && (code <? firstCode cmap + entryCount cmap)
  then zlookup (glyphIdArray cmap) (code - firstCode cmap)
  else None.

Fixpoint lookupCmap (subtables : list cmap_table) (code : Z) : option Z :=
  match subtables with
  | [] => None
  | cmap :: rest =>
    match lookupCmapSubtable cmap code with Some g => Some g | None => lookupCmap rest code end
  end.

(** The font the page loads. *)
Record font : Type := mkFont { f_lookup : list (option (Z * Z)); f_subtables : list cmap_table }.
Definition glf : font := mkFont glf_lookup cmap_subtables.

(** The body of [glyphRange] on a cache miss. *)
Definition glyph_of (f : font) (code : Z) : option (Z * Z) :=
  let glyph := default 0 (lookupCmap (f_subtables f) code) in
  match mjoin (zlookup (f_lookup f) glyph) with
  | Some (start, len) => if len =? 0 then None else Some (start, len)
  | None => None
  end.

Abbreviation glyph_cache := (gmap Z (option (Z * Z))) (only parsing).

Definition glyphRange (f : font) (cache : glyph_cache) (code : Z) : option (Z * Z) * glyph_cache :=
  match cache !! code with
  | Some range => (range, cache)
  | None => let range := glyph_of f code in (range, <[code := range]> cache)
  end.

(** ** Colours *)

Definition hex_value (a : Ascii.ascii) : option Z :=
  let c := Z.of_N (Ascii.N_of_ascii a) in
  if (48 <=? c) && (c <=? 57) then Some (c - 48)
  else if (97 <=? c) && (c <=? 102) then Some (c - 87)
  else if (65 <=? c) && (c <=? 70) then Some (c - 55) else None.

(** [Number.parseInt(s, 16)] of a digit string: stops at the first other character;
    no digit at all is NaN, which the shifts read as 0. *)
Fixpoint parse_hex (acc : Z) (s : string) : Z :=
  match s with
  | EmptyString => acc
  | String a s' => match hex_value a with Some d => parse_hex (acc * 16 + d) s' | None => acc end
  end.

Definition slice1 (s : string) : string := match s with EmptyString => EmptyString | String _ s' => s' end.

(** The three channels; the code divides each by 255. *)
Definition color (value : string) : Z * Z * Z :=
  let number := parse_hex 0 (slice1 value) in
  (Z.land (Z.shiftr number 16) 255, Z.land (Z.shiftr number 8) 255, Z.land number 255).

(** ** Pictures *)

Inductive part : Type := Background | Underline.

Record draw : Type := mkDraw { d_range : Z * Z; d_color : Z * Z * Z; d_px : Z; d_py : Z }.

Record picture : Type := mkPicture {
  cellData : list (option (Z * Z * part)); colorData : list (option (Z * Z * Z)); draws : list draw }.

Record rect : Type := mkRect { r_x : Z; r_y : Z; r_fill : string; r_text : Z; r_ink : string; r_bold : bool }.

Inductive frame_out : Type := GL (p : picture) | Canvas2D (l : list rect).

Definition is_cursor (t : term) (cx cy : Z) : bool :=
  cursorVisible t && (cx =? x t) && (cy =? y t).

(** Whether the cell at index [i] is under the cursor. *)
Definition cursor_at (t : term) (i : Z) : bool := is_cursor t (i mod columns t) (i / columns t).

Definition paper (t : term) (i : Z) (c : cell) : string := if cursor_at t i then fg (look c) else bg (look c).
Definition ink (t : term) (i : Z) (c : cell) : string := if cursor_at t i then bg (look c) else fg (look c).

Definition array_set {A} (l : list (option A)) (i : Z) (v : A) : result render_fault (list (option A)) :=
  of_option RangeError (zinsert l i (Some v)).

Definition cell_get (t : term) (i : Z) : result render_fault cell :=
  of_option NoCell (zlookup (cells (active t)) i).

Definition underlines (t : term) : Z := zlen (filter (λ c, underline (look c) = true) (cells (active t))).

(** One round of the instance loop; [u] is the next underline slot. *)
Definition instance_step (t : term) (i : Z)
    (s : Z * list (option (Z * Z * part)) * list (option (Z * Z * Z))) :
    result render_fault (Z * list (option (Z * Z * part)) * list (option (Z * Z * Z))) :=
  let '(u, cd, cl) := s in
  let* c := cell_get t i in
  let cx := i mod columns t in let cy := i / columns t in
  let* cd := array_set cd i (cx, cy, Background) in
  let* cl := array_set cl i (color (paper t i c)) in
  if underline (look c) then
    let* cd := array_set cd u (cx, cy, Underline) in
    let* cl := array_set cl u (color (ink t i c)) in
    Ok (u + 1, cd, cl)
  else Ok (u, cd, cl).

Record layout : Type := mkLayout { l_w : Z; l_h : Z; l_offsetX : Z; l_baseline : Z; l_boldShift : Z }.

Definition glyph_layout (w h : Z) (ratio : num) : result render_fault layout :=
  let scale := num_div (NInt h) (NInt FONT_LINE) in
  let* offsetX := num_round (num_div (num_sub (NInt w) (num_mul (NInt FONT_ADVANCE) scale)) (NInt 2)) in
  let* baseline := num_round (num_mul (NInt FONT_ASCENT) scale) in
  let* shift := num_round ratio in
  Ok (mkLayout w h offsetX baseline (Z.max 1 shift)).

Definition glyph_passes (l : layout) (t : term) (i : Z) (c : cell) (range : Z * Z) : list draw :=
  (λ pass, mkDraw range (color (ink t i c))
     ((i mod columns t) * l_w l + l_offsetX l + pass * l_boldShift l)
     ((i / columns t) * l_h l + l_baseline l)) <$> (if bold (look c) then [0; 1] else [0]).

Definition glyph_step (f : font) (l : layout) (t : term) (i : Z) (s : list draw * glyph_cache) :
    result render_fault (list draw * glyph_cache) :=
  let '(out, cache) := s in
  let* c := cell_get t i in
  if code c =? 32 then Ok (out, cache)
  else
    let '(range, cache) := glyphRange f cache (code c) in
    match range with
    | None => Ok (out, cache)
    | Some range => Ok (out ++ glyph_passes l t i c range, cache)
    end.

Definition renderWebGL (f : font) (l : layout) (t : term) (cache : glyph_cache) :
    result render_fault (picture * glyph_cache) :=
  let n := zlen (cells (active t)) in
  let instances := n + underlines t in
  let blank {A} : list (option A) := replicate (Z.to_nat instances) None in
  let* '(_, cd, cl) := foldM (instance_step t) (seqZ 0 n) (n, blank, blank) in
  let* '(out, cache) := foldM (glyph_step f l t) (seqZ 0 n) ([], cache) in
  Ok (mkPicture cd cl out, cache).

Definition renderCanvas (w h : Z) (t : term) : list rect :=
  imap (λ i c, let i := Z.of_nat i in
    mkRect ((i mod columns t) * w) ((i / columns t) * h) (paper t i c) (code c) (ink t i c) (bold (look c)))
    (cells (active t)).

(** ** Size of the canvas *)

(** What [resize] reads of the container: client size and the four paddings. *)
Record box : Type := mkBox {
  clientWidth : Z; clientHeight : Z; paddingLeft : num; paddingRight : num; paddingTop : num; paddingBottom : num }.

Definition available (b : option box) : num :=
  match b with Some b => num_sub (num_sub (NInt (clientWidth b)) (paddingLeft b)) (paddingRight b) | None => NInt 0 end.
Definition availableHeight (b : option box) : num :=
  match b with Some b => num_sub (num_sub (NInt (clientHeight b)) (paddingTop b)) (paddingBottom b) | None => NInt 0 end.

(** Cell width and height in device pixels. *)
Definition cell_size (ratio : num) (b : option box) (cols rws : Z) : result render_fault (Z * Z) :=
  let cssWidth := if num_pos (available b) then available b else NInt (cols * 8) in
  let* widthCell := num_floor (num_div (num_mul cssWidth ratio) (NInt cols)) in
  let* heightCell :=
    if num_pos (availableHeight b) then
      num_floor (num_div (num_mul (num_div (num_mul (availableHeight b) ratio) (NInt rws)) (NInt FONT_ADVANCE))
                         (NInt FONT_LINE))
    else Ok widthCell in
  let cellWidth := Z.max 4 (Z.min widthCell heightCell) in
  let* h := num_round (num_div (NInt (cellWidth * FONT_LINE)) (NInt FONT_ADVANCE)) in
  Ok (cellWidth, Z.max 8 h).

(** ** The renderer object *)

Record renderer : Type := mkRenderer {
  r_cellWidth : Z; r_cellHeight : Z; r_ratio : num; dirty : bool; frame : bool;
  glyphRanges : glyph_cache; canvas_width : Z; canvas_height : Z;
  style_width : num; style_height : num; useWebGL : bool; frames : list frame_out }.

Definition set_dirty (d : bool) (r : renderer) : renderer :=
  mkRenderer (r_cellWidth r) (r_cellHeight r) (r_ratio r) d (frame r) (glyphRanges r)
    (canvas_width r) (canvas_height r) (style_width r) (style_height r) (useWebGL r) (frames r).
Definition set_frame (b : bool) (r : renderer) : renderer :=
  mkRenderer (r_cellWidth r) (r_cellHeight r) (r_ratio r) (dirty r) b (glyphRanges r)
    (canvas_width r) (canvas_height r) (style_width r) (style_height r) (useWebGL r) (frames r).
Definition emit (o : frame_out) (cache : glyph_cache) (r : renderer) : renderer :=
  mkRenderer (r_cellWidth r) (r_cellHeight r) (r_ratio r) (dirty r) (frame r) cache
    (canvas_width r) (canvas_height r) (style_width r) (style_height r) (useWebGL r) (frames r ++ [o]).

(** What one call of [renderWebGL] or [renderCanvas] shows for the model [t]. *)
Definition draw_frame (f : font) (t : term) (r : renderer) : result render_fault (frame_out * glyph_cache) :=
  if useWebGL r then
    let* l := glyph_layout (r_cellWidth r) (r_cellHeight r) (r_ratio r) in
    let* '(p, cache) := renderWebGL f l t (glyphRanges r) in
    Ok (GL p, cache)
  else Ok (Canvas2D (renderCanvas (r_cellWidth r) (r_cellHeight r) t), glyphRanges r).

Definition render (f : font) (t : term) (r : renderer) : result render_fault renderer :=
  if dirty r then
    let* '(o, cache) := draw_frame f t r in
    Ok (emit o cache (set_dirty false r))
  else Ok r.

(** [markDirty] with [requestAnimationFrame] present: the frame id is non-zero. *)
Definition markDirty (r : renderer) : renderer :=
  let r := set_dirty true r in if frame r then r else set_frame true r.

(** The animation-frame callback. *)
Definition frameCallback (f : font) (t : term) (r : renderer) : result render_fault renderer :=
  render f t (set_frame false r).

Definition resize_canvas (f : font) (ratio : num) (b : option box) (t : term) (r : renderer) :
    result render_fault renderer :=
  let* '(w, h) := cell_size ratio b (columns t) (rows t) in
  let width := w * columns t in
  let height := h * rows t in
  render f t (mkRenderer w h ratio true (frame r) (glyphRanges r) width height
    (num_div (NInt width) ratio) (num_div (NInt height) ratio) (useWebGL r) (frames r)).

(** [new TerminalRenderer]: fields, then [init], which ends in [resize]. *)
Definition new_renderer (f : font) (webgl : bool) (ratio : num) (b : option box) (t : term) :
    result render_fault renderer :=
  resize_canvas f ratio b t
    (mkRenderer 8 19 (NInt 1) true false ∅ 0 0 (NInt 0) (NInt 0) webgl []).

(** The sizes of the render test: the canvas fills a 640x600 or 800x600 page exactly. *)
Definition page_box (w h : Z) : option box := Some (mkBox w h (NInt 0) (NInt 0) (NInt 0) (NInt 0)).

Example render_test_sizes :
  cell_size (NInt 1) (page_box 640 600) 80 24 = Ok (8, 19) ∧
  cell_size (NInt 1) (page_box 800 600) 80 24 = Ok (10, 24) ∧
  cell_size (NInt 2) (page_box 640 600) 80 24 = Ok (16, 38).
Proof. by vm_compute. Qed.
