(* ===== verification/RendererTheorems.v ===== *)
(** * Theorems on the renderer

    The instance arrays and draw calls equal a direct description of the
    screen; the glyph cache is transparent; the shipped font maps every
    character to a drawable run; colours survive the round trip through their
    text form; no screen update is lost between animation frames. *)

From stdpp Require Import base numbers list strings gmap.
From Stdlib Require Import ZArith Lia Ascii.
From S2P Require Import Prelude JsNum TermModel TermCells TermSafety GlfData Renderer.

#[local] Open Scope Z_scope.
#[local] Open Scope waste_scope.

(** ** The glyph cache *)

Definition coherent (f : font) (cache : glyph_cache) : Prop :=
  ∀ c r, cache !! c = Some r → r = glyph_of f c.

Lemma glyphRange_spec f cache c :
  coherent f cache → ∃ cache', glyphRange f cache c = (glyph_of f c, cache') ∧ coherent f cache'.
Proof.
  intros Hc. unfold glyphRange. destruct (cache !! c) as [r|] eqn:He.
  - rewrite <- (Hc _ _ He). by eexists.
  - eexists. split; [done|]. intros c' r'. rewrite lookup_insert_Some. intros [[<- <-]|[_ H]]; [done|by apply Hc].
Qed.

(** ** Array filling *)

Lemma array_set_mid {A} (l1 l2 : list (option A)) o v i :
  i = zlen l1 → array_set (l1 ++ o :: l2) i v = Ok (l1 ++ Some v :: l2).
Proof.
  intros ->. unfold array_set, zinsert, zlen. rewrite length_app. simpl.
  rewrite (proj2 (Z.leb_le _ _)), (proj2 (Z.ltb_lt _ _)) by lia. simpl.
  by rewrite Nat2Z.id, insert_app_r_alt, Nat.sub_diag by lia.
Qed.

(** ** What a frame should show *)

Section picture.
Context (f : font) (l : layout) (t : term).

Abbreviation cs := (cells (active t)).

Definition cell_of (i : Z) : cell := default blankCell (zlookup cs i).
Definition underlined (i : Z) : Prop := underline (look (cell_of i)) = true.

#[export] Instance underlined_dec i : Decision (underlined i).
Proof. unfold underlined. apply _. Defined.

Definition at_cell (p : part) (i : Z) : option (Z * Z * part) := Some (i mod columns t, i / columns t, p).
Definition paper_color (i : Z) : option (Z * Z * Z) := Some (color (paper t i (cell_of i))).
Definition ink_color (i : Z) : option (Z * Z * Z) := Some (color (ink t i (cell_of i))).

Definition cell_draws (i : Z) : list draw :=
  if code (cell_of i) =? 32 then []
  else match glyph_of f (code (cell_of i)) with
       | Some range => glyph_passes l t i (cell_of i) range
       | None => []
       end.

Definition screen_indices : list Z := seqZ 0 (zlen cs).

(** One background per cell in order, then one underline per underlined cell in
    order; the glyph draws of the cells in order. *)
Definition picture_spec : picture :=
  mkPicture
    ((at_cell Background <$> screen_indices) ++ (at_cell Underline <$> filter underlined screen_indices))
    ((paper_color <$> screen_indices) ++ (ink_color <$> filter underlined screen_indices))
    (concat (cell_draws <$> screen_indices)).

End picture.

(** Both arrays after the first [k] rounds, for a background [g] and an underline [h]. *)
Definition filled {A} (t : term) (g h : Z → option A) (n u k : Z) : list (option A) :=
  (g <$> seqZ 0 k) ++ replicate (Z.to_nat (n - k)) None ++
  (h <$> filter (underlined t) (seqZ 0 k)) ++
  replicate (Z.to_nat (u - zlen (filter (underlined t) (seqZ 0 k)))) None.

Lemma zlen_seqZ a n : 0 ≤ n → zlen (seqZ a n) = n.
Proof. intros. unfold zlen. rewrite length_seqZ. lia. Qed.

Lemma zlen_fmap {A B} (g : A → B) (l : list A) : zlen (g <$> l) = zlen l.
Proof. unfold zlen. by rewrite length_fmap. Qed.

Lemma seqZ_0_snoc k : 0 ≤ k → seqZ 0 (k + 1) = seqZ 0 k ++ [k].
Proof. intros. rewrite seqZ_app by lia. done. Qed.

Definition count_underlined (t : term) (k : Z) : Z := zlen (filter (underlined t) (seqZ 0 k)).

Lemma count_le t k n : 0 ≤ k ≤ n → count_underlined t k ≤ count_underlined t n.
Proof.
  intros H. unfold count_underlined. replace n with (k + (n - k)) by lia.
  rewrite seqZ_app, filter_app by lia. unfold zlen. rewrite length_app. lia.
Qed.

Lemma count_snoc t k :
  0 ≤ k → count_underlined t (k + 1) = count_underlined t k + if decide (underlined t k) then 1 else 0.
Proof.
  intros. unfold count_underlined, zlen. rewrite seqZ_0_snoc, filter_app, length_app by lia. cbn.
  destruct (decide (underlined t k)); simpl; lia.
Qed.

Section fill.
Context {A : Type} (t : term) (g h : Z → option A) (n u : Z).

(** After the background of round [k], before its underline. *)
Definition half_filled (k : Z) : list (option A) :=
  (g <$> seqZ 0 (k + 1)) ++ replicate (Z.to_nat (n - (k + 1))) None ++
  (h <$> filter (underlined t) (seqZ 0 k)) ++ replicate (Z.to_nat (u - count_underlined t k)) None.

Lemma filled_background k v :
  0 ≤ k < n → g k = Some v → array_set (filled t g h n u k) k v = Ok (half_filled k).
Proof.
  intros Hk Hg. unfold filled, half_filled. rewrite seqZ_0_snoc, fmap_app by lia.
  replace (Z.to_nat (n - k)) with (S (Z.to_nat (n - (k + 1)))) by lia. cbn [replicate]. simpl.
  rewrite <- app_assoc. simpl. rewrite Hg. apply array_set_mid. by rewrite zlen_fmap, zlen_seqZ by lia.
Qed.

Lemma filled_skip k : 0 ≤ k → ¬ underlined t k → half_filled k = filled t g h n u (k + 1).
Proof.
  intros Hk Hu. unfold filled, half_filled. fold (count_underlined t (k + 1)).
  rewrite count_snoc by lia. rewrite decide_False by done. rewrite Z.add_0_r.
  rewrite (seqZ_0_snoc k), filter_app by lia. cbn. by rewrite decide_False, app_nil_r by done.
Qed.

Lemma filled_underline k v :
  0 ≤ k < n → underlined t k → count_underlined t k < u → h k = Some v →
  array_set (half_filled k) (n + count_underlined t k) v = Ok (filled t g h n u (k + 1)).
Proof.
  intros Hk Hu Hc Hh. unfold filled, half_filled. fold (count_underlined t (k + 1)).
  rewrite count_snoc by lia. rewrite decide_True by done.
  rewrite (seqZ_0_snoc k) at 3 by lia. rewrite filter_app. cbn. rewrite decide_True by done.
  rewrite fmap_app. simpl. rewrite Hh, <- (app_assoc (h <$> _)).
  replace (Z.to_nat (u - count_underlined t k)) with (S (Z.to_nat (u - (count_underlined t k + 1)))) by lia.
  cbn [replicate]. simpl. rewrite !(app_assoc (g <$> _)), !(app_assoc (_ ++ replicate _ _)).
  rewrite array_set_mid; [done|]. unfold zlen. rewrite !length_app, !length_fmap, length_replicate, length_seqZ.
  unfold count_underlined, zlen. lia.
Qed.
End fill.

(** ** The loops *)

Lemma foldM_seqZ {S} (step : Z → S → result render_fault S) (I : Z → S) n :
  0 ≤ n → (∀ k, 0 ≤ k < n → step k (I k) = Ok (I (k + 1))) → foldM step (seqZ 0 n) (I 0) = Ok (I n).
Proof.
  intros Hn Hs. destruct (Z_of_nat_complete n Hn) as [m ->]. clear Hn.
  induction m as [|m IH]; [done|].
  replace (Z.of_nat (Datatypes.S m)) with (Z.of_nat m + 1) by lia.
  rewrite seqZ_0_snoc, foldM_app, IH by (intros; try apply Hs; lia). simpl.
  rewrite Hs by lia. done.
Qed.

Lemma cell_get_ok t i : 0 ≤ i < zlen (cells (active t)) → cell_get t i = Ok (cell_of t i).
Proof.
  intros Hi. unfold cell_get, cell_of. by destruct (zlookup_in_range _ i Hi) as [c ->].
Qed.

Lemma count_all t : count_underlined t (zlen (cells (active t))) = underlines t.
Proof.
  unfold count_underlined, underlines, zlen.
  assert (∀ (l : list cell) (g : Z → cell) a, (∀ j c, l !! j = Some c → g (a + Z.of_nat j) = c) →
    length (filter (λ i, underline (look (g i)) = true) (seqZ a (Z.of_nat (length l)))) =
    length (filter (λ c, underline (look c) = true) l)) as H.
  { induction l as [|c l IH]; intros g a Hg; [done|].
    cbn [length]. rewrite seqZ_split, !filter_cons.
    assert (g a = c) as Ha by (rewrite <- (Hg 0%nat c eq_refl); f_equal; lia).
    assert (∀ j c', l !! j = Some c' → g (Z.succ a + Z.of_nat j) = c') as Hg'
      by (intros j c' Hj; rewrite <- (Hg (Datatypes.S j) c' Hj); f_equal; lia).
    do 2 case_decide; simpl; rewrite ?(IH g (Z.succ a) Hg'); congruence. }
  f_equal. rewrite <- (H (cells (active t)) (cell_of t) 0); [done|].
  intros j c Hj. unfold cell_of. rewrite Z.add_0_l, zlookup_nat. by rewrite Hj.
Qed.

Lemma instance_loop t :
  let n := zlen (cells (active t)) in
  let u := underlines t in
  foldM (instance_step t) (seqZ 0 n) (n, replicate (Z.to_nat (n + u)) None, replicate (Z.to_nat (n + u)) None) =
  Ok (n + u, filled t (at_cell t Background) (at_cell t Underline) n u n,
      filled t (paper_color t) (ink_color t) n u n).
Proof.
  intros n u.
  assert (0 ≤ n) as Hn by apply zlen_nonneg. assert (0 ≤ u) as Hu by apply zlen_nonneg.
  pose proof (foldM_seqZ (instance_step t) (λ k, (n + count_underlined t k,
    filled t (at_cell t Background) (at_cell t Underline) n u k, filled t (paper_color t) (ink_color t) n u k)) n Hn) as H. cbv beta in H.
  assert (count_underlined t n = u) as Hcu by apply count_all.
  assert (∀ A (g h : Z → option A), filled t g h n u 0 = replicate (Z.to_nat (n + u)) None) as H0.
  { intros A g h. unfold filled. simpl. unfold zlen. simpl. rewrite !Z.sub_0_r, <- replicate_add. f_equal. lia. }
  rewrite !H0 in H. change (count_underlined t 0) with 0 in H. rewrite Z.add_0_r in H.
  rewrite H; [by rewrite Hcu|].
  intros k Hk. unfold instance_step. rewrite cell_get_ok by done. cbn [rbind].
  rewrite (filled_background t (at_cell t Background) _ n u k) by done. cbn [rbind].
  rewrite (filled_background t (paper_color t) _ n u k) by done. cbn [rbind].
  assert (count_underlined t (k + 1) ≤ u) as Hc by (rewrite <- Hcu; apply count_le; lia).
  rewrite count_snoc in * by lia.
  destruct (underline (look (cell_of t k))) eqn:Hul.
  - rewrite decide_True in * by done.
    rewrite (filled_underline t (at_cell t Background)) by (done || lia). cbn [rbind].
    rewrite (filled_underline t (paper_color t)) by (done || lia). cbn [rbind]. do 3 f_equal. lia.
  - assert (¬ underlined t k) by (unfold underlined; congruence).
    rewrite decide_False by done. rewrite !filled_skip by (done || lia). by rewrite Z.add_0_r.
Qed.

Lemma filled_all {A} t (g h : Z → option A) :
  let n := zlen (cells (active t)) in
  filled t g h n (underlines t) n = (g <$> seqZ 0 n) ++ (h <$> filter (underlined t) (seqZ 0 n)).
Proof.
  intros n. unfold filled. fold (count_underlined t n). rewrite <- count_all. fold n.
  rewrite !Z.sub_diag. simpl. by rewrite app_nil_r.
Qed.

Lemma glyph_loop f l t js out cache :
  coherent f cache → Forall (λ i, 0 ≤ i < zlen (cells (active t))) js →
  ∃ cache', foldM (glyph_step f l t) js (out, cache) = Ok (out ++ concat (cell_draws f l t <$> js), cache') ∧
    coherent f cache'.
Proof.
  intros Hc HF. revert out cache Hc. induction HF as [|i js Hi _ IH]; intros out cache Hc.
  { exists cache. simpl. by rewrite app_nil_r. }
  cbn [foldM]. rewrite fmap_cons, concat_cons. unfold glyph_step at 1. rewrite cell_get_ok by done. cbn [rbind].
  assert (cell_draws f l t i = if code (cell_of t i) =? 32 then [] else
    match glyph_of f (code (cell_of t i)) with Some range => glyph_passes l t i (cell_of t i) range | None => [] end)
    as -> by done.
  destruct (code (cell_of t i) =? 32); [by apply IH|].
  destruct (glyphRange_spec f cache (code (cell_of t i)) Hc) as (cache1 & -> & Hc1).
  destruct (glyph_of f (code (cell_of t i))) as [range|]; [|by apply IH].
  cbn [rbind]. destruct (IH (out ++ glyph_passes l t i (cell_of t i) range) cache1 Hc1) as (cache2 & -> & Hc2).
  exists cache2. by rewrite <- app_assoc.
Qed.

Lemma renderWebGL_spec f l t cache :
  coherent f cache →
  ∃ cache', renderWebGL f l t cache = Ok (picture_spec f l t, cache') ∧ coherent f cache'.
Proof.
  intros Hc. unfold renderWebGL. pose proof (instance_loop t) as H. cbv zeta in H. rewrite H. cbn [rbind].
  destruct (glyph_loop f l t (seqZ 0 (zlen (cells (active t)))) [] cache Hc) as (cache' & -> & Hc').
  { apply Forall_forall. intros i Hi%elem_of_seqZ. lia. }
  exists cache'. cbn [rbind]. split; [|done]. rewrite !filled_all. done.
Qed.

(** ** The shipped font *)

Definition segments (cmap : cmap_table) : list (Z * Z) := zip (startCode cmap) (endCode cmap).

Definition in_segment (c : Z) (s : Z * Z) : bool := (s.1 <=? c) && (c <=? s.2).

Lemma segment_lookup_none cmap c fuel i :
  existsb (in_segment c) (drop i (segments cmap)) = false → segment_lookup cmap c i fuel = None.
Proof.
  revert i. induction fuel as [|fuel IH]; intros i H; [done|]. simpl.
  destruct (startCode cmap !! i) as [lo|] eqn:Hlo; [|done].
  destruct (endCode cmap !! i) as [hi|] eqn:Hhi; [|done].
  destruct (idRangeOffset cmap !! i); [|done]. destruct (idDelta cmap !! i); [|done].
  assert (segments cmap !! i = Some (lo, hi)) as Hs by (unfold segments; rewrite lookup_zip_with, Hlo, Hhi; done).
  rewrite (drop_S _ _ _ Hs) in H. cbn [existsb] in H. apply orb_false_iff in H as [H1 H2].
  unfold in_segment in H1. simpl in H1.
  assert ((c <? lo) || (hi <? c) = true) as ->; [|by apply IH].
  apply andb_false_iff in H1. apply orb_true_iff. rewrite !Z.ltb_lt, !Z.leb_gt in *. lia.
Qed.

(** Every character of the font's segments. *)
Definition mapped_codes (cmap : cmap_table) : list Z :=
  concat ((λ s : Z * Z, seqZ s.1 (s.2 - s.1 + 1)) <$> segments cmap).

Lemma in_segment_mapped cmap c : existsb (in_segment c) (segments cmap) = true → c ∈ mapped_codes cmap.
Proof.
  intros (s & Hs & Hc)%existsb_exists. unfold mapped_codes. rewrite list_elem_of_In.
  apply in_concat. exists (seqZ s.1 (s.2 - s.1 + 1)). unfold in_segment in Hc. b2p.
  rewrite <- !list_elem_of_In. split; [|apply elem_of_seqZ; lia].
  apply list_elem_of_fmap. exists s. split; [done|]. by apply list_elem_of_In.
Qed.

(** A run of whole triangles inside the index buffer. *)
Definition good_run (r : Z * Z) : bool :=
  (0 <=? r.1) && (0 <? r.2) && (r.1 + r.2 <=? idx_length) && (r.2 mod 3 =? 0).

Definition drawable (c : Z) : bool :=
  match glyph_of glf c with Some r => good_run r | None => (c =? 32) || (c =? 160) end.

Lemma mapped_drawable : forallb drawable (mapped_codes (nth 0 cmap_subtables (mkCmap 0 [] [] [] [] [] 0 0))) = true.
Proof. by vm_compute. Qed.

Lemma unmapped_glyph c :
  existsb (in_segment c) (zip cmap_0_startCode cmap_0_endCode) = false → glyph_of glf c = Some (0, 24).
Proof.
  intros H. unfold glyph_of. assert (lookupCmap (f_subtables glf) c = None) as ->; [|done].
  unfold glf, cmap_subtables. simpl f_subtables. unfold lookupCmap, lookupCmapSubtable.
  cbn [format]. change (4 =? 4) with true. change (0 =? 4) with false. change (0 =? 6) with false. cbv beta iota.
  rewrite segment_lookup_none by done. cbn [andb]. by rewrite segment_lookup_none.
Qed.

Lemma font_drawable c : drawable c = true.
Proof.
  destruct (existsb (in_segment c) (zip cmap_0_startCode cmap_0_endCode)) eqn:H.
  - assert (c ∈ mapped_codes (nth 0 cmap_subtables (mkCmap 0 [] [] [] [] [] 0 0))) as Hin by (by apply in_segment_mapped).
    pose proof mapped_drawable as Hd. rewrite forallb_forall in Hd. apply Hd, list_elem_of_In, Hin.
  - unfold drawable. by rewrite unmapped_glyph.
Qed.

(** ** Colours *)

Lemma hex_digit_value d :
  0 ≤ d < 16 → ∃ a, hex_digit d = String a EmptyString ∧ hex_value a = Some d.
Proof.
  intros Hd. assert (Forall (λ d, ∃ a, hex_digit d = String a EmptyString ∧ hex_value a = Some d) (seqZ 0 16)) as HF.
  { repeat (constructor; [eexists; split; reflexivity|]). constructor. }
  rewrite Forall_forall in HF. apply HF, elem_of_seqZ. lia.
Qed.

Lemma value_hex_digit a d : is_hex a = true → hex_value a = Some d → 0 ≤ d < 16 ∧ hex_digit d = String a EmptyString.
Proof.
  destruct a as [[] [] [] [] [] [] [] []]; intros H1 H2; try discriminate H1; vm_compute in H2; by simplify_eq.
Qed.

Lemma is_hex_value a : is_hex a = true → ∃ d, hex_value a = Some d.
Proof. unfold is_hex, hex_value. intros [->|H]%orb_true_iff; [by eexists|]. case_match; [by eexists|]. rewrite H. by eexists. Qed.

Lemma to_int32_num v : to_int32 (num_int32 v) = num_int32 v.
Proof.
  assert (∀ z, to_int32 (to_int32 z) = to_int32 z) as Hz by (intros; apply to_int32_id, to_int32_range).
  destruct v; simpl; rewrite ?Hz; done.
Qed.

Lemma parse_hex_byte acc v s :
  parse_hex acc (hex_byte v +:+ s) = parse_hex (acc * 256 + clamp (to_int32 v) 0 255) s.
Proof.
  unfold hex_byte. pose proof (clamp_range (to_int32 v) 0 255 ltac:(lia)) as Hb.
  set (b := clamp (to_int32 v) 0 255) in *.
  pose proof (Z.div_mod b 16 ltac:(lia)). pose proof (Z.mod_pos_bound b 16 ltac:(lia)).
  destruct (hex_digit_value (b / 16)) as (a1 & -> & H1); [split; [apply Z.div_pos|apply Z.div_lt_upper_bound]; lia|].
  destruct (hex_digit_value (b mod 16)) as (a2 & -> & H2); [lia|].
  simpl. rewrite H1, H2. f_equal. lia.
Qed.

Lemma channels r g b :
  0 ≤ r < 256 → 0 ≤ g < 256 → 0 ≤ b < 256 →
  let number := (r * 256 + g) * 256 + b in
  (Z.land (Z.shiftr number 16) 255, Z.land (Z.shiftr number 8) 255, Z.land number 255) = (r, g, b).
Proof.
  intros Hr Hg Hb number. change 255 with (Z.ones 8). rewrite !Z.land_ones, !Z.shiftr_div_pow2 by lia.
  change (2 ^ 16) with (256 * 256). change (2 ^ 8) with 256.
  assert (number / 256 = r * 256 + g) as H8 by (symmetry; apply (Z.div_unique _ _ _ b); unfold number; lia).
  rewrite <- Z.div_div, H8 by lia.
  assert ((r * 256 + g) / 256 = r) as -> by (symmetry; apply (Z.div_unique _ _ _ g); lia).
  assert ((r * 256 + g) mod 256 = g) as -> by (symmetry; apply (Z.mod_unique _ _ r); lia).
  assert (number mod 256 = b) as -> by (symmetry; apply (Z.mod_unique _ _ (r * 256 + g)); unfold number; lia).
  by rewrite Z.mod_small by lia.
Qed.

Lemma color_rgb r g b :
  color (rgb r g b) = (clamp (num_int32 r) 0 255, clamp (num_int32 g) 0 255, clamp (num_int32 b) 0 255).
Proof.
  unfold color.
  assert (slice1 (rgb r g b) = (hex_byte (num_int32 r) +:+ hex_byte (num_int32 g) +:+ hex_byte (num_int32 b))%string)
    as -> by done.
  rewrite !parse_hex_byte.
  assert (hex_byte (num_int32 b) = (hex_byte (num_int32 b) +:+ EmptyString)%string) as -> .
  { induction (hex_byte (num_int32 b)) as [|a s IH]; [done|]. exact (f_equal (String a) IH). }
  rewrite parse_hex_byte, !to_int32_num. cbn [parse_hex]. rewrite Z.mul_0_l, Z.add_0_l.
  apply channels; pose proof (clamp_range (num_int32 r) 0 255); pose proof (clamp_range (num_int32 g) 0 255);
    pose proof (clamp_range (num_int32 b) 0 255); lia.
Qed.

Lemma hex_byte_of a1 a2 d1 d2 :
  is_hex a1 = true → is_hex a2 = true → hex_value a1 = Some d1 → hex_value a2 = Some d2 →
  0 ≤ d1 * 16 + d2 < 256 ∧ hex_byte (d1 * 16 + d2) = String a1 (String a2 EmptyString).
Proof.
  intros H1 H2 H3 H4. destruct (value_hex_digit _ _ H1 H3) as [Hd1 E1]. destruct (value_hex_digit _ _ H2 H4) as [Hd2 E2].
  split; [lia|]. unfold hex_byte. rewrite to_int32_id, clamp_id by lia.
  rewrite Z.div_add_l, (Z.div_small d2), Z.add_0_r by lia.
  rewrite Z.add_comm, Z.mod_add, (Z.mod_small d2), E1, E2 by lia. done.
Qed.

Lemma rgb_color s :
  valid_color s = true →
  let '(r, g, b) := color s in
  0 ≤ r < 256 ∧ 0 ≤ g < 256 ∧ 0 ≤ b < 256 ∧ rgb (NInt r) (NInt g) (NInt b) = s.
Proof.
  destruct s as [|h s]; [done|]. destruct (decide (h = "#"%char)) as [->|Hne].
  2: { destruct h as [[] [] [] [] [] [] [] []]; try done; by destruct Hne. }
  intros H. simpl in H. apply andb_true_iff in H as [Hlen Hhex]. apply Nat.eqb_eq in Hlen.
  destruct s as [|a1 [|a2 [|a3 [|a4 [|a5 [|a6 [|a7 s]]]]]]]; try done.
  cbn [all_hex] in Hhex. b2p.
  destruct (is_hex_value a1) as [d1 E1]; [done|]. destruct (is_hex_value a2) as [d2 E2]; [done|].
  destruct (is_hex_value a3) as [d3 E3]; [done|]. destruct (is_hex_value a4) as [d4 E4]; [done|].
  destruct (is_hex_value a5) as [d5 E5]; [done|]. destruct (is_hex_value a6) as [d6 E6]; [done|].
  destruct (hex_byte_of a1 a2 d1 d2) as [R1 B1]; [done..|].
  destruct (hex_byte_of a3 a4 d3 d4) as [R2 B2]; [done..|].
  destruct (hex_byte_of a5 a6 d5 d6) as [R3 B3]; [done..|].
  assert (color (String "#"%char (String a1 (String a2 (String a3 (String a4 (String a5 (String a6 EmptyString))))))) =
    (d1 * 16 + d2, d3 * 16 + d4, d5 * 16 + d6)) as ->.
  { unfold color. cbn [slice1 parse_hex]. rewrite E1, E2, E3, E4, E5, E6.
    replace ((((((0 * 16 + d1) * 16 + d2) * 16 + d3) * 16 + d4) * 16 + d5) * 16 + d6)
      with (((d1 * 16 + d2) * 256 + (d3 * 16 + d4)) * 256 + (d5 * 16 + d6)) by lia.
    exact (channels _ _ _ R1 R2 R3). }
  do 3 (split; [done|]). unfold rgb, num_int32. rewrite !to_int32_id, B1, B2, B3 by lia. done.
Qed.

(** ** Frames *)

Inductive event : Type :=
| Mark                                        (* output arrived: [markDirty] *)
| Frame (t : term)                            (* the animation frame, if one was requested *)
| Resized (ratio : num) (b : option box) (t : term).

Definition run_event (f : font) (e : event) (r : renderer) : result render_fault renderer :=
  match e with
  | Mark => Ok (markDirty r)
  | Frame t => if frame r then frameCallback f t r else Ok r
  | Resized ratio b t => resize_canvas f ratio b t r
  end.

(** A stale screen has a frame coming. *)
Definition frame_ok (f : font) (r : renderer) : Prop :=
  (dirty r = true → frame r = true) ∧ coherent f (glyphRanges r).

Lemma draw_frame_coherent f t r o cache :
  coherent f (glyphRanges r) → draw_frame f t r = Ok (o, cache) → coherent f cache.
Proof.
  intros Hc. unfold draw_frame. destruct (useWebGL r); [|by intros; simplify_eq].
  destruct (glyph_layout _ _ _) as [l|]; [|done]. cbn [rbind].
  destruct (renderWebGL_spec f l t _ Hc) as (cache' & -> & Hc'). cbn [rbind]. by intros; simplify_eq.
Qed.

Lemma render_ok f t r r' :
  coherent f (glyphRanges r) → render f t r = Ok r' →
  dirty r' = false ∧ coherent f (glyphRanges r').
Proof.
  intros Hc. unfold render. destruct (dirty r) eqn:Hd; [|by intros; simplify_eq].
  destruct (draw_frame f t r) as [[o cache]|] eqn:Ho; [|done]. cbn [rbind]. intros [= <-]. split; [done|].
  exact (draw_frame_coherent f t r o cache Hc Ho).
Qed.

Lemma markDirty_keeps r :
  dirty (markDirty r) = true ∧ useWebGL (markDirty r) = useWebGL r ∧ r_cellWidth (markDirty r) = r_cellWidth r ∧
  r_cellHeight (markDirty r) = r_cellHeight r ∧ r_ratio (markDirty r) = r_ratio r.
Proof. unfold markDirty. cbn [frame set_dirty]. by destruct (frame r). Qed.

Lemma run_event_ok f e r r' : frame_ok f r → run_event f e r = Ok r' → frame_ok f r'.
Proof.
  intros [Hd Hc]. destruct e as [|t|ratio b t]; simpl.
  - intros [= <-]. unfold markDirty. cbn [frame set_dirty]. destruct (frame r) eqn:Hf; split; simpl; done.
  - destruct (frame r) eqn:Hf; [|intros [= <-]; split; [by rewrite Hf|done]]. intros H%render_ok; [|done].
    destruct H as [Hd' Hc']. split; [congruence|done].
  - unfold resize_canvas. destruct (cell_size _ _ _ _) as [[w h]|]; [|done]. cbn [rbind].
    intros H%render_ok; [|done]. destruct H as [Hd' Hc']. split; [congruence|done].
Qed.

Lemma new_renderer_ok f webgl ratio b t r : new_renderer f webgl ratio b t = Ok r → frame_ok f r.
Proof.
  unfold new_renderer, resize_canvas. destruct (cell_size _ _ _ _) as [[w h]|]; [|done]. cbn [rbind].
  intros H%render_ok; [|done]. destruct H as [Hd Hc]. split; [congruence|done].
Qed.

Lemma run_events_ok f es r r' : frame_ok f r → foldM (run_event f) es r = Ok r' → frame_ok f r'.
Proof.
  revert r. induction es as [|e es IH]; intros r Hr; simpl; [by intros [= <-]|].
  destruct (run_event f e r) as [r1|] eqn:He; [|done]. cbn [rbind]. apply IH. by eapply run_event_ok.
Qed.

(** ** Claims *)

(** One WebGL frame never writes past its typed arrays and hands over exactly one
    background instance per cell in screen order, then one underline instance per
    underlined cell, and the glyph draws of the non-blank cells in order, whatever the
    glyph cache holds from earlier frames; paper and ink are exchanged on the cursor's
    cell only. *)
Theorem webgl_frame_exact f l t cache :
  coherent f cache →
  ∃ cache', renderWebGL f l t cache = Ok (picture_spec f l t, cache') ∧ coherent f cache'.
Proof. apply renderWebGL_spec. Qed.

Lemma webgl_frame_exact_witness :
  ∃ cache', renderWebGL glf (mkLayout 8 19 0 15 1) (constructor 8 3) ∅ =
    Ok (picture_spec glf (mkLayout 8 19 0 15 1) (constructor 8 3), cache') ∧ coherent glf cache'.
Proof. apply webgl_frame_exact. intros c r. by rewrite lookup_empty. Defined.

(** With the shipped font every character except the two spaces (32 and 160) has a
    non-empty run of whole triangles inside the index buffer; unmapped characters use
    glyph 0. *)
Theorem font_covers_all_codes c :
  match glyph_of glf c with
  | Some (start, len) => 0 ≤ start ∧ 0 < len ∧ start + len ≤ idx_length ∧ len mod 3 = 0
  | None => c = 32 ∨ c = 160
  end ∧
  (existsb (in_segment c) (zip cmap_0_startCode cmap_0_endCode) = false → glyph_of glf c = glyph_of glf (-1)).
Proof.
  split; [|intros H; by rewrite unmapped_glyph].
  pose proof (font_drawable c) as H. unfold drawable in H. destruct (glyph_of glf c) as [[start len]|].
  - unfold good_run in H. simpl in H. b2p. lia.
  - b2p. lia.
Qed.

Lemma font_covers_all_codes_witness :
  match glyph_of glf 8364 with
  | Some (start, len) => 0 ≤ start ∧ 0 < len ∧ start + len ≤ idx_length ∧ len mod 3 = 0
  | None => 8364 = 32 ∨ 8364 = 160
  end ∧
  (existsb (in_segment 8364) (zip cmap_0_startCode cmap_0_endCode) = false → glyph_of glf 8364 = glyph_of glf (-1)).
Proof. apply font_covers_all_codes. Defined.

(** The colours the model stores and the channels the renderer decodes are in
    bijection: decoding [rgb] gives the clamped channels, and printing the decoded
    channels of any stored colour gives the colour back. *)
Theorem color_roundtrip r g b s :
  color (rgb r g b) = (clamp (num_int32 r) 0 255, clamp (num_int32 g) 0 255, clamp (num_int32 b) 0 255) ∧
  (valid_color s = true →
   let '(cr, cg, cb) := color s in rgb (NInt cr) (NInt cg) (NInt cb) = s).
Proof.
  split; [apply color_rgb|]. intros H%rgb_color. destruct (color s) as [[cr cg] cb]. tauto.
Qed.

Lemma color_roundtrip_witness :
  color (rgb (NInt 300) (NInt (-1)) (NFrac 17 1)) =
    (clamp (num_int32 (NInt 300)) 0 255, clamp (num_int32 (NInt (-1))) 0 255, clamp (num_int32 (NFrac 17 1)) 0 255) ∧
  (valid_color "#aa5500" = true →
   let '(cr, cg, cb) := color "#aa5500" in rgb (NInt cr) (NInt cg) (NInt cb) = "#aa5500"%string).
Proof. apply (color_roundtrip (NInt 300) (NInt (-1)) (NFrac 17 1) "#aa5500"). Defined.

(** No screen update is lost: after any sequence of output, animation frames and
    resizes of a WebGL renderer, a stale canvas has an animation frame requested, and when that frame
    comes it shows the model as it is then and leaves the canvas clean. *)
Theorem no_lost_repaint f ratio b t0 es r0 r t l :
  new_renderer f true ratio b t0 = Ok r0 → foldM (run_event f) es r0 = Ok r →
  dirty r = true → useWebGL r = true → glyph_layout (r_cellWidth r) (r_cellHeight r) (r_ratio r) = Ok l →
  frame r = true ∧
  ∃ r', run_event f (Frame t) r = Ok r' ∧ dirty r' = false ∧ frame r' = false ∧
    frames r' = frames r ++ [GL (picture_spec f l t)].
Proof.
  intros H0 Hes Hd Hw Hl. apply new_renderer_ok in H0. apply (run_events_ok _ _ _ _ H0) in Hes as [Hf Hc].
  split; [auto|]. simpl. rewrite Hf by done. unfold frameCallback, render. simpl. rewrite Hd.
  unfold draw_frame. simpl. rewrite Hw, Hl. cbn [rbind].
  destruct (renderWebGL_spec f l t _ Hc) as (cache' & -> & _). cbn [rbind]. by eexists.
Qed.

Lemma no_lost_repaint_witness :
  ∃ r0 r l, new_renderer glf true (NInt 1) (page_box 32 60) (constructor 4 2) = Ok r0 ∧
    foldM (run_event glf) [Mark; Mark] r0 = Ok r ∧ frame r = true ∧
    ∃ r', run_event glf (Frame (constructor 4 2)) r = Ok r' ∧ dirty r' = false ∧ frame r' = false ∧
      frames r' = frames r ++ [GL (picture_spec glf l (constructor 4 2))].
Proof.
  destruct (new_renderer glf true (NInt 1) (page_box 32 60) (constructor 4 2)) as [r0|] eqn:H0; [|by vm_compute in H0].
  assert (useWebGL r0 = true ∧ r_cellWidth r0 = 8 ∧ r_cellHeight r0 = 19 ∧ r_ratio r0 = NInt 1) as (Hw & Hcw & Hch & Hr).
  { vm_compute in H0. simplify_eq. done. }
  eexists r0, (markDirty (markDirty r0)), (mkLayout 8 19 0 15 1). split; [done|]. split; [done|].
  apply (no_lost_repaint glf (NInt 1) (page_box 32 60) (constructor 4 2) [Mark; Mark] r0 (markDirty (markDirty r0)) (constructor 4 2) (mkLayout 8 19 0 15 1) H0 eq_refl).
  - by destruct (markDirty_keeps (markDirty r0)).
  - destruct (markDirty_keeps (markDirty r0)) as (_ & -> & _). by destruct (markDirty_keeps r0) as (_ & -> & _).
  - destruct (markDirty_keeps (markDirty r0)) as (_ & _ & -> & -> & ->).
    destruct (markDirty_keeps r0) as (_ & _ & -> & -> & ->). rewrite Hcw, Hch, Hr. by vm_compute.
Defined.

(** The WebGL and the 2D canvas frontends agree: for every cell the rectangle the
    canvas fills has the colour and the grid position of the WebGL background
    instance of that cell. *)
Theorem backends_agree f l t cache w h (i : nat) r :
  coherent f cache → 0 < w → 0 < h → renderCanvas w h t !! i = Some r →
  ∃ p cache', renderWebGL f l t cache = Ok (p, cache') ∧
    colorData p !! i = Some (Some (color (r_fill r))) ∧
    cellData p !! i = Some (Some (r_x r / w, r_y r / h, Background)).
Proof.
  intros Hc Hw Hh Hr. destruct (renderWebGL_spec f l t cache Hc) as (cache' & Hok & _).
  exists (picture_spec f l t), cache'. split; [done|].
  unfold renderCanvas in Hr. rewrite list_lookup_imap in Hr.
  destruct (cells (active t) !! i) as [c|] eqn:Hcell; [|done]. simpl in Hr. injection Hr as <-. simpl.
  assert (screen_indices t !! i = Some (Z.of_nat i)) as Hidx.
  { unfold screen_indices. rewrite lookup_seqZ_lt; [f_equal; lia|]. apply lookup_lt_Some in Hcell. unfold zlen. lia. }
  assert (cell_of t (Z.of_nat i) = c) as Hce by (unfold cell_of; by rewrite zlookup_nat, Hcell).
  rewrite !lookup_app_l by (rewrite length_fmap; by eapply lookup_lt_Some).
  rewrite !list_lookup_fmap, Hidx. simpl. unfold paper_color, at_cell. rewrite Hce.
  by rewrite !Z.div_mul by lia.
Qed.

Lemma backends_agree_witness :
  ∃ r p cache', renderCanvas 8 19 (constructor 4 2) !! 5%nat = Some r ∧
    renderWebGL glf (mkLayout 8 19 0 15 1) (constructor 4 2) ∅ = Ok (p, cache') ∧
    colorData p !! 5%nat = Some (Some (color (r_fill r))) ∧
    cellData p !! 5%nat = Some (Some (r_x r / 8, r_y r / 19, Background)).
Proof.
  eexists (mkRect 8 19 _ 32 _ false).
  destruct (backends_agree glf (mkLayout 8 19 0 15 1) (constructor 4 2) ∅ 8 19 5
    (mkRect 8 19 (palette_at 0) 32 (palette_at 7) false)) as (p & cache' & H).
  - intros c r. by rewrite lookup_empty.
  - done.
  - done.
  - by vm_compute.
  - exists p, cache'. split; [by vm_compute|exact H].
Defined.
