(* ===== verification/RenderGL.v ===== *)
(** * The calls of the renderer to WebGL (src/html-rt/src/terminal/renderer.js)

    [initWebGL], [attribute] and [renderWebGL] as sequences of WebGL calls, and the part
    of the WebGL state machine these calls use: programs, vertex arrays, buffers,
    attributes and uniforms.  A draw reads what is bound when it is made ([drawn]).  Numbers handed
    over as 32-bit floats are exact rationals here. *)

From stdpp Require Import base numbers list strings gmap.
From Stdlib Require Import ZArith Lia QArith.
From S2P Require Import Prelude JsNum TermModel GlfData Renderer.

#[local] Open Scope Z_scope.
#[local] Open Scope waste_scope.
#[local] Arguments inject_Z x%_Z.

(** ** The WebGL state *)

Inductive program : Type := GlyphProgram | BackgroundProgram.
Inductive buffer : Type := PointBuffer | IndexBuffer | CornerBuffer | CellBuffer | ColorBuffer.
Inductive vertex_array : Type := DefaultArray | GlyphArray.
Inductive attribute_name : Type := aCoord | aCurve | aCorner | aCell | aColor.

#[export] Instance program_eq_dec : EqDecision program.
Proof. solve_decision. Defined.
#[export] Instance buffer_eq_dec : EqDecision buffer.
Proof. solve_decision. Defined.

(** The contents of a buffer: the font's data, the corners of a cell, or the instances of a frame. *)
Inductive gl_data : Type :=
| FontPoints | FontIndices
| Corners (l : list (Z * Z))
| Cells (l : list (option (Z * Z * part)))
| Colors (l : list (option (Z * Z * Z))).

(** How an attribute is read: from which buffer, components, stride, offset, divisor. *)
Record pointer : Type := mkPointer { p_buffer : option buffer; p_size : Z; p_stride : Z; p_offset : Z; p_divisor : Z }.

(** The scale and the origin of a glyph, in [uCell]. *)
Record matrix : Type := mkMatrix { m0 : Q; m5 : Q; m12 : Q; m13 : Q }.
Arguments mkMatrix (m0 m5 m12 m13)%_Q.

(** The state of a vertex array: its attributes (and if they are enabled), and its index buffer. *)
Record array_state : Type := mkArray { attributes : gmap Z (pointer * bool); elements : option buffer }.

Record gl_state : Type := mkGL {
  g_program : option program; g_array : vertex_array; g_array_buffer : option buffer;
  g_default : array_state; g_glyph : array_state; g_data : buffer → option gl_data;
  g_grid : option (Z * Z); g_color : option (Z * Z * Z); g_cell : option matrix; g_blend : bool }.

Inductive gl_call : Type :=
| UseProgram (p : program)
| BindVertexArray (a : vertex_array)
| BindArrayBuffer (b : buffer)
| BindElementBuffer (b : buffer)
| BufferArray (d : gl_data)
| BufferElements (d : gl_data)
| EnableAttribute (location : Z)
| AttributePointer (location size stride offset : Z)
| AttributeDivisor (location divisor : Z)
| UniformGrid (columns rows : Z)
| UniformColor (c : Z * Z * Z)
| UniformCell (m : matrix)
| Clear
| EnableBlend
| DrawInstanced (vertices instances : Z)
| DrawElements (len start : Z).

(** What a draw shows: the attributes it reads with their data, and its uniforms. *)
Inductive drawn : Type :=
| Instances (n : Z) (grid : option (Z * Z)) (corner cell colour : pointer * gl_data)
| Triangles (len start : Z) (colour : option (Z * Z * Z)) (m : option matrix) (coord curve index : pointer * gl_data) (blend : bool).

Inductive gl_error : Type := InvalidOperation.

Definition current_array (s : gl_state) : array_state :=
  match g_array s with DefaultArray => g_default s | GlyphArray => g_glyph s end.

Definition set_array (a : array_state) (s : gl_state) : gl_state :=
  match g_array s with
  | DefaultArray => mkGL (g_program s) (g_array s) (g_array_buffer s) a (g_glyph s) (g_data s) (g_grid s) (g_color s) (g_cell s) (g_blend s)
  | GlyphArray => mkGL (g_program s) (g_array s) (g_array_buffer s) (g_default s) a (g_data s) (g_grid s) (g_color s) (g_cell s) (g_blend s)
  end.

Definition put_data (b : buffer) (d : gl_data) (s : gl_state) : gl_state :=
  mkGL (g_program s) (g_array s) (g_array_buffer s) (g_default s) (g_glyph s)
    (λ b', if decide (b' = b) then Some d else g_data s b') (g_grid s) (g_color s) (g_cell s) (g_blend s).

Definition set_uniforms (grid : option (Z * Z)) (color : option (Z * Z * Z)) (m : option matrix) (s : gl_state) : gl_state :=
  mkGL (g_program s) (g_array s) (g_array_buffer s) (g_default s) (g_glyph s) (g_data s) grid color m (g_blend s).

Section gl.
(** [getAttribLocation]. *)
Context (location : attribute_name → Z).

(** An enabled attribute with the data it reads; attributes without a buffer make a draw invalid. *)
Definition fetch (s : gl_state) (a : attribute_name) : option (pointer * gl_data) :=
  '(p, enabled) ← attributes (current_array s) !! location a;
  b ← p_buffer p; d ← g_data s b;
  if (enabled : bool) then Some (p, d) else None.

(** Attributes start disabled and without a buffer. *)
Definition attribute_at (l : Z) (a : array_state) : pointer * bool := default (mkPointer None 4 0 0 0, false) (attributes a !! l).
Definition put_attribute (l : Z) (p : pointer * bool) (a : array_state) : array_state := mkArray (<[l := p]> (attributes a)) (elements a).

Definition exec (c : gl_call) (s : gl_state) : result gl_error (gl_state * list drawn) :=
  let invalid {A} : result gl_error A := Err InvalidOperation in
  let a := current_array s in
  match c with
  | UseProgram p =>
    Ok (mkGL (Some p) (g_array s) (g_array_buffer s) (g_default s) (g_glyph s) (g_data s) (g_grid s) (g_color s) (g_cell s) (g_blend s), [])
  | BindVertexArray v =>
    Ok (mkGL (g_program s) v (g_array_buffer s) (g_default s) (g_glyph s) (g_data s) (g_grid s) (g_color s) (g_cell s) (g_blend s), [])
  | BindArrayBuffer b =>
    Ok (mkGL (g_program s) (g_array s) (Some b) (g_default s) (g_glyph s) (g_data s) (g_grid s) (g_color s) (g_cell s) (g_blend s), [])
  | BindElementBuffer b => Ok (set_array (mkArray (attributes a) (Some b)) s, [])
  | BufferArray d => match g_array_buffer s with Some b => Ok (put_data b d s, []) | None => invalid end
  | BufferElements d => match elements a with Some b => Ok (put_data b d s, []) | None => invalid end
  | EnableAttribute l => Ok (set_array (put_attribute l ((attribute_at l a).1, true) a) s, [])
  | AttributePointer l size stride offset =>
    match g_array_buffer s with
    | None => invalid
    | Some b =>
      let '(p, enabled) := attribute_at l a in
      Ok (set_array (put_attribute l (mkPointer (Some b) size stride offset (p_divisor p), enabled) a) s, [])
    end
  | AttributeDivisor l d =>
    let '(p, enabled) := attribute_at l a in
    Ok (set_array (put_attribute l (mkPointer (p_buffer p) (p_size p) (p_stride p) (p_offset p) d, enabled) a) s, [])
  | UniformGrid c r =>
    match g_program s with Some BackgroundProgram => Ok (set_uniforms (Some (c, r)) (g_color s) (g_cell s) s, []) | _ => invalid end
  | UniformColor c =>
    match g_program s with Some GlyphProgram => Ok (set_uniforms (g_grid s) (Some c) (g_cell s) s, []) | _ => invalid end
  | UniformCell m =>
    match g_program s with Some GlyphProgram => Ok (set_uniforms (g_grid s) (g_color s) (Some m) s, []) | _ => invalid end
  | Clear => Ok (s, [])
  | EnableBlend =>
    Ok (mkGL (g_program s) (g_array s) (g_array_buffer s) (g_default s) (g_glyph s) (g_data s) (g_grid s) (g_color s) (g_cell s) true, [])
  | DrawInstanced _ n =>
    match g_program s, fetch s aCorner, fetch s aCell, fetch s aColor with
    | Some BackgroundProgram, Some corner, Some cell, Some colour => Ok (s, [Instances n (g_grid s) corner cell colour])
    | _, _, _, _ => invalid
    end
  | DrawElements len start =>
    match g_program s, fetch s aCoord, fetch s aCurve, elements a with
    | Some GlyphProgram, Some coord, Some curve, Some b =>
      match g_data s b with
      | Some d => Ok (s, [Triangles len start (g_color s) (g_cell s) coord curve (mkPointer (Some b) 1 0 start 0, d) (g_blend s)])
      | None => invalid
      end
    | _, _, _, _ => invalid
    end
  end.

Fixpoint run_gl (l : list gl_call) (s : gl_state) : result gl_error (gl_state * list drawn) :=
  match l with
  | [] => Ok (s, [])
  | c :: l' => let* '(s1, d1) := exec c s in let* '(s2, d2) := run_gl l' s1 in Ok (s2, d1 ++ d2)
  end.

(** ** The renderer's calls *)

(** A new context. *)
Definition new_gl : gl_state :=
  mkGL None DefaultArray None (mkArray ∅ None) (mkArray ∅ None) (λ _, None) None None None false.

(** The two triangles of a cell. *)
Definition corner_points : list (Z * Z) := [(0, 0); (1, 0); (0, 1); (0, 1); (1, 0); (1, 1)].

Definition initWebGL : list gl_call :=
  [BindVertexArray GlyphArray; BindArrayBuffer PointBuffer; BufferArray FontPoints;
   EnableAttribute (location aCoord); AttributePointer (location aCoord) 2 16 0;
   EnableAttribute (location aCurve); AttributePointer (location aCurve) 2 16 8;
   BindElementBuffer IndexBuffer; BufferElements FontIndices; BindVertexArray DefaultArray;
   BindArrayBuffer CornerBuffer; BufferArray (Corners corner_points); EnableBlend].

Definition attribute (b : buffer) (name : attribute_name) (size divisor : Z) (data : option gl_data) : list gl_call :=
  [BindArrayBuffer b] ++ match data with Some d => [BufferArray d] | None => [] end ++
  [EnableAttribute (location name); AttributePointer (location name) size 0 0; AttributeDivisor (location name) divisor].

(** [uCell] for a glyph at device pixel ([px], [py]). *)
Definition glyph_matrix (w h ch px py : Z) : matrix :=
  let scale := (inject_Z ch / inject_Z FONT_LINE)%Q in
  mkMatrix (2 * scale / inject_Z w) (2 * scale / inject_Z h) (-1 + 2 * inject_Z px / inject_Z w) (1 - 2 * inject_Z py / inject_Z h).

Definition pass_calls (w h ch : Z) (d : draw) : list gl_call :=
  [UniformCell (glyph_matrix w h ch (d_px d) (d_py d)); DrawElements (d_range d).2 ((d_range d).1 * 4)].

(** The calls of one cell of the glyph loop. *)
Definition glyph_calls (f : font) (l : layout) (w h : Z) (t : term) (i : Z) (s : list gl_call * glyph_cache) :
    result render_fault (list gl_call * glyph_cache) :=
  let '(out, cache) := s in
  let* c := cell_get t i in
  if code c =? 32 then Ok (out, cache)
  else
    let '(range, cache) := glyphRange f cache (code c) in
    match range with
    | None => Ok (out, cache)
    | Some range =>
      Ok (out ++ UniformColor (color (ink t i c)) :: (glyph_passes l t i c range ≫= pass_calls w h (l_h l)), cache)
    end.

Definition background_calls (t : term) (cd : list (option (Z * Z * part))) (cl : list (option (Z * Z * Z))) : list gl_call :=
  [Clear; UseProgram BackgroundProgram; UniformGrid (columns t) (rows t)] ++
  attribute CornerBuffer aCorner 2 0 None ++ attribute CellBuffer aCell 4 1 (Some (Cells cd)) ++
  attribute ColorBuffer aColor 4 1 (Some (Colors cl)) ++ [DrawInstanced 6 (zlen cd)].

(** The whole [renderWebGL], with the canvas size. *)
Definition frame_calls (f : font) (l : layout) (w h : Z) (t : term) (cache : glyph_cache) :
    result render_fault (list gl_call * glyph_cache) :=
  let n := zlen (cells (active t)) in
  let instances := n + underlines t in
  let blank {A} : list (option A) := replicate (Z.to_nat instances) None in
  let* '(_, cd, cl) := foldM (instance_step t) (seqZ 0 n) (n, blank, blank) in
  let* '(glyphs, cache) := foldM (glyph_calls f l w h t) (seqZ 0 n) ([], cache) in
  Ok (background_calls t cd cl ++ [UseProgram GlyphProgram; BindVertexArray GlyphArray] ++ glyphs ++ [BindVertexArray DefaultArray], cache).

(** A frame of a session: its layout, the size of the canvas and the model it shows. *)
Record frame_input : Type := mkFrameInput { fi_layout : layout; fi_width : Z; fi_height : Z; fi_term : term }.

(** The calls of the frames so far, then those of one more frame; the glyph cache is kept. *)
Definition session_step (f : font) (fr : frame_input) (s : list gl_call * glyph_cache) :
    result render_fault (list gl_call * glyph_cache) :=
  let* '(calls, cache) := frame_calls f (fi_layout fr) (fi_width fr) (fi_height fr) (fi_term fr) s.2 in
  Ok (s.1 ++ calls, cache).

(** A renderer's life: [initWebGL], then its frames. *)
Definition session_calls (f : font) (frs : list frame_input) : result render_fault (list gl_call * glyph_cache) :=
  foldM (session_step f) frs (initWebGL, ∅).
End gl.
