(* ===== verification/RenderGLTheorems.v ===== *)
(** * Theorems on the renderer's WebGL calls

    Every frame of a session runs without a WebGL error, reads the buffers it means
    to read and shows exactly the picture of the model. *)

From stdpp Require Import base numbers list strings gmap.
From Stdlib Require Import ZArith Lia QArith.
From S2P Require Import Prelude JsNum TermModel GlfData Renderer RendererTheorems RenderGL.

#[local] Open Scope Z_scope.
#[local] Open Scope waste_scope.

Section gl.
(** Attributes of one program have different locations. *)
Context (location : attribute_name → Z).
Definition locations_ok : Prop :=
  location aCoord ≠ location aCurve ∧ location aCorner ≠ location aCell ∧ location aCorner ≠ location aColor ∧
  location aCell ≠ location aColor.
Context (Hloc : locations_ok).
#[local] Abbreviation run := (run_gl location).

Lemma run_app l1 l2 s :
  run (l1 ++ l2) s = let* '(s1, d1) := run l1 s in let* '(s2, d2) := run l2 s1 in Ok (s2, d1 ++ d2).
Proof.
  revert s. induction l1 as [|c l1 IH]; intros s; cbn [app run_gl]; [cbn [rbind]; by destruct (run l2 s) as [[]|]|].
  destruct (exec location c s) as [[s1 d1]|]; [|done]. cbn [rbind]. rewrite IH. destruct (run l1 s1) as [[s2 d2]|]; [|done]. cbn [rbind].
  destruct (run l2 s2) as [[s3 d3]|]; [|done]. cbn [rbind]. by rewrite app_assoc.
Qed.

(** ** What [initWebGL] leaves in place *)

Definition coord_pointer : pointer := mkPointer (Some PointBuffer) 2 16 0 0.
Definition curve_pointer : pointer := mkPointer (Some PointBuffer) 2 16 8 0.

(** The glyph's vertex array and the constant buffers. *)
Record loaded (s : gl_state) : Prop := {
  ld_coord : attributes (g_glyph s) !! location aCoord = Some (coord_pointer, true);
  ld_curve : attributes (g_glyph s) !! location aCurve = Some (curve_pointer, true);
  ld_elements : elements (g_glyph s) = Some IndexBuffer;
  ld_points : g_data s PointBuffer = Some FontPoints;
  ld_indices : g_data s IndexBuffer = Some FontIndices;
  ld_blend : g_blend s = true;
  ld_corners : g_data s CornerBuffer = Some (Corners corner_points) }.

(** Between frames no vertex array is bound. *)
Definition ready (s : gl_state) : Prop := loaded s ∧ g_array s = DefaultArray.

Lemma init_ready : ∃ s, run (initWebGL location) new_gl = Ok (s, []) ∧ ready s.
Proof.
  destruct Hloc as (H1 & _). eexists. split.
  - unfold initWebGL, new_gl. cbn -[lookup insert]. unfold attribute_at, put_attribute. cbn -[lookup insert].
    rewrite ?lookup_insert_eq. cbn -[lookup insert]. rewrite ?lookup_insert_eq. cbn -[lookup insert]. reflexivity.
  - split; [|done]. constructor; try done; cbn -[lookup insert].
    + rewrite !(lookup_insert_ne _ (location aCurve)) by done. rewrite ?insert_insert_eq, ?lookup_insert_eq, ?lookup_empty. done.
    + rewrite ?lookup_insert_eq, ?(lookup_insert_ne _ (location aCoord)) by done. rewrite ?lookup_empty. done.
Qed.

(** ** The background *)

(** Setting up an attribute of the default vertex array. *)
Lemma attribute_run b name size divisor data s :
  loaded s → g_array s = DefaultArray → b = CornerBuffer ∨ b = CellBuffer ∨ b = ColorBuffer → (b = CornerBuffer → data = None) →
  ∃ s', run (attribute location b name size divisor data) s = Ok (s', []) ∧ loaded s' ∧ g_array s' = DefaultArray ∧
    g_program s' = g_program s ∧ g_grid s' = g_grid s ∧
    attributes (g_default s') !! location name = Some (mkPointer (Some b) size 0 0 divisor, true) ∧
    (∀ l, l ≠ location name → attributes (g_default s') !! l = attributes (g_default s) !! l) ∧
    g_data s' b = match data with Some d => Some d | None => g_data s b end ∧ (∀ b', b' ≠ b → g_data s' b' = g_data s b').
Proof.
  intros Hl Ha Hb Hd. unfold attribute. destruct s as [p a ab [attrs els] gly data0 grid col cell bl]. cbn in Ha. subst a.
  set (data1 := match data with Some d => λ b', if decide (b' = b) then Some d else data0 b' | None => data0 end).
  assert (data1 b = match data with Some d => Some d | None => data0 b end) as Hb1 by (unfold data1; destruct data; [by rewrite decide_True|done]).
  assert (∀ b', b' ≠ b → data1 b' = data0 b') as Hb2 by (intros b' Hne; unfold data1; destruct data; [by rewrite decide_False|done]).
  exists (mkGL p DefaultArray (Some b) (mkArray (<[location name := (mkPointer (Some b) size 0 0 divisor, true)]> attrs) els) gly data1 grid col cell bl).
  split.
  - unfold data1. destruct data; cbn -[lookup insert]; unfold attribute_at, put_attribute; cbn -[lookup insert];
      rewrite ?lookup_insert_eq; cbn -[lookup insert]; rewrite ?lookup_insert_eq; cbn -[lookup insert]; by rewrite ?insert_insert_eq.
  - split.
    + destruct Hl as [H1 H2 H3 H4 H5 H6 H7]. cbn in *. constructor; cbn; try done.
      * rewrite Hb2; [done|]. destruct Hb as [? | [? | ?]]; by subst.
      * rewrite Hb2; [done|]. destruct Hb as [? | [? | ?]]; by subst.
      * destruct (decide (CornerBuffer = b)) as [Heq|Hne]; [|by rewrite Hb2]. subst b. by rewrite Hb1, Hd.
    + cbn. do 3 (split; [done|]). split; [apply lookup_insert_eq|]. split; [|done]. intros l0 Hne. by apply lookup_insert_ne.
Qed.

Definition corner_pointer : pointer := mkPointer (Some CornerBuffer) 2 0 0 0.
Definition cell_pointer : pointer := mkPointer (Some CellBuffer) 4 0 0 1.
Definition color_pointer : pointer := mkPointer (Some ColorBuffer) 4 0 0 1.

(** The draw of the backgrounds and underlines. *)
Definition shown_instances (t : term) (cd : list (option (Z * Z * part))) (cl : list (option (Z * Z * Z))) : drawn :=
  Instances (zlen cd) (Some (columns t, rows t)) (corner_pointer, Corners corner_points) (cell_pointer, Cells cd)
    (color_pointer, Colors cl).

Lemma background_run t cd cl s :
  ready s → ∃ s', run (background_calls location t cd cl) s = Ok (s', [shown_instances t cd cl]) ∧ ready s'.
Proof.
  intros [Hl Ha]. destruct Hloc as (_ & H12 & H13 & H23). unfold background_calls. rewrite run_app.
  cbn [run_gl exec rbind]. set (s0 := set_uniforms _ _ _ _).
  assert (loaded s0) as Hl0 by (destruct Hl; by constructor).
  cbn [rbind g_program app]. rewrite run_app.
  destruct (attribute_run CornerBuffer aCorner 2 0 None s0 Hl0 Ha) as (s1 & -> & Hl1 & Ha1 & Hp1 & Hg1 & H1 & _ & D1 & _); [auto|done|].
  cbn [rbind]. rewrite run_app.
  destruct (attribute_run CellBuffer aCell 4 1 (Some (Cells cd)) s1 Hl1 Ha1) as (s2 & -> & Hl2 & Ha2 & Hp2 & Hg2 & H2 & K2 & D2 & E2); [auto|done|].
  cbn [rbind]. rewrite run_app.
  destruct (attribute_run ColorBuffer aColor 4 1 (Some (Colors cl)) s2 Hl2 Ha2) as (s3 & -> & Hl3 & Ha3 & Hp3 & Hg3 & H3 & K3 & D3 & E3); [auto|done|].
  cbn [rbind run_gl exec]. rewrite Hp3, Hp2, Hp1. unfold fetch, current_array. rewrite Ha3.
  rewrite H3, !K3, H2, K2, H1 by done. cbn [mbind option_bind p_buffer].
  rewrite D3, !E3, D2, E2 by done. rewrite (ld_corners _ Hl1). cbn [mbind option_bind p_buffer rbind].
  exists s3. rewrite Hg3, Hg2, Hg1. by split.
Qed.

(** ** The glyphs *)

(** While the glyphs are drawn. *)
Definition glyphing (s : gl_state) : Prop := loaded s ∧ g_array s = GlyphArray ∧ g_program s = Some GlyphProgram.

(** What the draw of a glyph shows. *)
Definition shown (w h ch : Z) (d : draw) : drawn :=
  Triangles (d_range d).2 ((d_range d).1 * 4) (Some (d_color d)) (Some (glyph_matrix w h ch (d_px d) (d_py d)))
    (coord_pointer, FontPoints) (curve_pointer, FontPoints) (mkPointer (Some IndexBuffer) 1 0 ((d_range d).1 * 4) 0, FontIndices) true.

Lemma pass_run w h ch d s :
  glyphing s → g_color s = Some (d_color d) →
  ∃ s', run (pass_calls w h ch d) s = Ok (s', [shown w h ch d]) ∧ glyphing s' ∧ g_color s' = g_color s.
Proof.
  intros (Hl & Ha & Hp) Hc. destruct s as [p a ab def gly data grid col cell bl]. cbn in Ha, Hp, Hc. subst a p col.
  destruct Hl as [H1 H2 H3 H4 H5 H6 H7]. cbn in H1, H2, H3, H4, H5, H6, H7. subst bl.
  exists (mkGL (Some GlyphProgram) GlyphArray ab def gly data grid (Some (d_color d)) (Some (glyph_matrix w h ch (d_px d) (d_py d))) true).
  unfold pass_calls. cbn [run_gl exec rbind g_program set_uniforms g_array g_array_buffer g_default g_glyph g_data g_grid g_color g_blend].
  unfold fetch, current_array. cbn [g_array g_glyph set_uniforms g_data]. rewrite H1, H2, H3. cbn [mbind option_bind p_buffer coord_pointer curve_pointer].
  rewrite H4, H5. cbn [mbind option_bind rbind app]. split; [done|]. split; [|done]. split; [by constructor|done].
Qed.

Lemma passes_run w h ch c ds s :
  glyphing s → g_color s = Some c → Forall (λ d, d_color d = c) ds →
  ∃ s', run (ds ≫= pass_calls w h ch) s = Ok (s', shown w h ch <$> ds) ∧ glyphing s'.
Proof.
  intros Hs Hc HF. revert s Hs Hc. induction HF as [|d ds Hd _ IH]; intros s Hs Hc; [by exists s|].
  rewrite bind_cons, run_app. destruct (pass_run w h ch d s Hs) as (s1 & -> & Hs1 & Hc1); [by rewrite Hc, Hd|].
  cbn [rbind]. destruct (IH s1 Hs1) as (s2 & -> & Hs2); [by rewrite Hc1|]. by exists s2.
Qed.

(** The calls of a cell, without the cache. *)
Definition cell_calls (f : font) (l : layout) (w h : Z) (t : term) (i : Z) : list gl_call :=
  if code (cell_of t i) =? 32 then []
  else match glyph_of f (code (cell_of t i)) with
       | Some range => UniformColor (color (ink t i (cell_of t i))) :: (glyph_passes l t i (cell_of t i) range ≫= pass_calls w h (l_h l))
       | None => []
       end.

Lemma cell_run f l w h t i s :
  glyphing s → ∃ s', run (cell_calls f l w h t i) s = Ok (s', shown w h (l_h l) <$> cell_draws f l t i) ∧ glyphing s'.
Proof.
  intros Hs. unfold cell_calls, cell_draws. destruct (code (cell_of t i) =? 32); [by exists s|].
  destruct (glyph_of f (code (cell_of t i))) as [range|]; [|by exists s].
  destruct Hs as (Hl & Ha & Hp). cbn [run_gl exec]. rewrite Hp. cbn [rbind].
  destruct (passes_run w h (l_h l) (color (ink t i (cell_of t i))) (glyph_passes l t i (cell_of t i) range)
    (set_uniforms (g_grid s) (Some (color (ink t i (cell_of t i)))) (g_cell s) s)) as (s2 & -> & Hs2).
  - split; [|done]. by destruct Hl; constructor.
  - done.
  - unfold glyph_passes. apply Forall_fmap. by apply Forall_true.
  - by exists s2.
Qed.

Lemma cells_run f l w h t js s :
  glyphing s →
  ∃ s', run (js ≫= cell_calls f l w h t) s = Ok (s', shown w h (l_h l) <$> concat (cell_draws f l t <$> js)) ∧ glyphing s'.
Proof.
  revert s. induction js as [|i js IH]; intros s Hs; [by exists s|].
  rewrite bind_cons, run_app. destruct (cell_run f l w h t i s Hs) as (s1 & -> & Hs1). cbn [rbind].
  destruct (IH s1 Hs1) as (s2 & -> & Hs2). exists s2. rewrite fmap_cons, concat_cons, fmap_app. by cbn [rbind].
Qed.

Lemma glyph_calls_loop f l w h t js out cache :
  coherent f cache → Forall (λ i, 0 ≤ i < zlen (cells (active t))) js →
  ∃ cache', foldM (glyph_calls f l w h t) js (out, cache) = Ok (out ++ (js ≫= cell_calls f l w h t), cache') ∧ coherent f cache'.
Proof.
  intros Hc HF. revert out cache Hc. induction HF as [|i js Hi _ IH]; intros out cache Hc.
  { exists cache. cbn. by rewrite app_nil_r. }
  cbn [foldM]. rewrite bind_cons. unfold glyph_calls at 1. rewrite cell_get_ok by done. cbn [rbind].
  unfold cell_calls at 1. destruct (code (cell_of t i) =? 32); [by apply IH|].
  destruct (glyphRange_spec f cache (code (cell_of t i)) Hc) as (cache1 & -> & Hc1).
  destruct (glyph_of f (code (cell_of t i))) as [range|]; [|by apply IH].
  cbn [rbind]. edestruct IH as (cache2 & -> & Hc2); [exact Hc1|]. exists cache2. by rewrite <- app_assoc.
Qed.

(** ** A frame *)

(** What a frame shows: its instances, then its glyphs. *)
Definition frame_shown (f : font) (fr : frame_input) : list drawn :=
  let p := picture_spec f (fi_layout fr) (fi_term fr) in
  shown_instances (fi_term fr) (cellData p) (colorData p) ::
  (shown (fi_width fr) (fi_height fr) (l_h (fi_layout fr)) <$> draws p).

Lemma frame_run f l w h t cache s :
  coherent f cache → ready s →
  ∃ calls cache' s', frame_calls location f l w h t cache = Ok (calls, cache') ∧ coherent f cache' ∧
    run calls s = Ok (s', frame_shown f (mkFrameInput l w h t)) ∧ ready s'.
Proof.
  intros Hc Hs. unfold frame_calls. pose proof (instance_loop t) as H. cbv zeta in H. rewrite H. cbn [rbind]. rewrite !filled_all.
  destruct (glyph_calls_loop f l w h t (seqZ 0 (zlen (cells (active t)))) [] cache Hc) as (cache' & -> & Hc').
  { apply Forall_forall. intros i Hi%elem_of_seqZ. lia. }
  cbn [rbind app]. 
  match goal with |- context [background_calls _ t ?x ?y] => set (cd := x); set (cl := y) end.
  destruct (background_run t cd cl s Hs) as (s1 & H1 & [Hl1 Ha1]).
  set (s2 := mkGL (Some GlyphProgram) GlyphArray (g_array_buffer s1) (g_default s1) (g_glyph s1) (g_data s1) (g_grid s1) (g_color s1) (g_cell s1) (g_blend s1)).
  destruct (cells_run f l w h t (seqZ 0 (zlen (cells (active t)))) s2) as (s3 & H3 & Hl3 & Ha3 & Hp3).
  { split; [|done]. by destruct Hl1; constructor. }
  eexists _, cache', _. split; [done|]. split; [done|]. rewrite run_app, H1. cbn [rbind app run_gl exec g_program g_array g_array_buffer g_default g_glyph g_data g_grid g_color g_cell g_blend].
  fold s2. rewrite run_app, H3. cbn [rbind run_gl exec].
  rewrite !app_nil_r. split; [done|]. split; [|done]. by destruct Hl3; constructor.
Qed.

Lemma session_run f frs calls cache s ds :
  coherent f cache → run calls new_gl = Ok (s, ds) → ready s →
  ∃ calls' cache' s', foldM (session_step location f) frs (calls, cache) = Ok (calls', cache') ∧
    run calls' new_gl = Ok (s', ds ++ (frs ≫= frame_shown f)) ∧ ready s'.
Proof.
  revert calls cache s ds. induction frs as [|[l w h t] frs IH]; intros calls cache s ds Hc Hr Hs.
  { exists calls, cache, s. cbn [foldM]. by rewrite app_nil_r. }
  cbn [foldM]. unfold session_step at 1. cbn [fi_layout fi_width fi_height fi_term fst snd].
  destruct (frame_run f l w h t cache s Hc Hs) as (calls1 & cache1 & s1 & -> & Hc1 & H1 & Hs1). cbn [rbind].
  destruct (IH (calls ++ calls1) cache1 s1 (ds ++ frame_shown f (mkFrameInput l w h t)) Hc1) as (calls2 & cache2 & s2 & -> & H2 & Hs2); [|done|].
  - by rewrite run_app, Hr; cbn [rbind]; rewrite H1.
  - exists calls2, cache2, s2. rewrite bind_cons, app_assoc. done.
Qed.

(** C20: In any session of the renderer (the calls of [initWebGL], then those of any
    number of frames, each with its own layout, canvas size and screen) no WebGL call is
    invalid; each frame is one instanced draw that reads exactly the backgrounds and
    underlines of its screen with the corners once per vertex and cells and colours once
    per instance, then one indexed draw for each glyph of its screen, with its own colour, place
    and run of the font's triangles, reading the font's buffers and never those of the
    background. *)
Theorem session_frames_exact f frs :
  ∃ calls cache s, session_calls location f frs = Ok (calls, cache) ∧ run calls new_gl = Ok (s, frs ≫= frame_shown f).
Proof.
  destruct init_ready as (s0 & H0 & Hs0).
  destruct (session_run f frs (initWebGL location) ∅ s0 []) as (calls & cache & s & ? & ? & _); [|done|done|by exists calls, cache, s].
  intros c r. by rewrite lookup_empty.
Qed.
End gl.

(** Locations that a driver may give. *)
Definition some_locations (a : attribute_name) : Z :=
  match a with aCoord => 0 | aCurve => 1 | aCorner => 0 | aCell => 1 | aColor => 2 end.

Lemma session_frames_exact_witness :
  let frs := [mkFrameInput (mkLayout 8 19 0 15 1) 64 57 (constructor 8 3); mkFrameInput (mkLayout 16 38 0 30 2) 128 114 (constructor 8 3)] in
  locations_ok some_locations ∧ (length (frs ≫= frame_shown glf) ≥ 2)%nat ∧
  ∃ calls cache s, session_calls some_locations glf frs = Ok (calls, cache) ∧
    run_gl some_locations calls new_gl = Ok (s, frs ≫= frame_shown glf).
Proof.
  assert (locations_ok some_locations) by done. split; [done|]. split; [rewrite !bind_cons, !length_app; cbn [frame_shown length]; lia|].
  by apply session_frames_exact.
Defined.
