(* ===== verification/RenderPixels.v ===== *)
(** * Where the renderer's draws land (shaders of src/html-rt/src/terminal/renderer.js)

    The vertex shaders and the viewport over exact rationals: the pixel of every corner
    of an instance and of every point of a glyph. *)

From stdpp Require Import base numbers list strings gmap.
From Stdlib Require Import ZArith Lia QArith.
From Stdlib Require Import Qfield.
From S2P Require Import Prelude JsNum TermModel GlfData Renderer RendererTheorems RenderGL.

#[local] Open Scope Z_scope.
#[local] Open Scope waste_scope.
#[local] Arguments inject_Z x%_Z.

Definition FONT_UNDERLINE_Y : Z := -255.
Definition FONT_UNDERLINE_THICKNESS : Z := 102.

(** ** The vertex shaders *)

(** Top and height of an underline, in cells of height [ch]. *)
Definition underlineTop : Q := inject_Z (FONT_ASCENT - FONT_UNDERLINE_Y) / inject_Z FONT_LINE.
(** The rounded thickness in pixels: [Math.round] halves up. *)
Definition underline_pixels (ch : Z) : Z := (2 * (FONT_UNDERLINE_THICKNESS * ch) + FONT_LINE) / (2 * FONT_LINE).
Definition underlineHeight (ch : Z) : Q :=
  let one := (1 / inject_Z ch)%Q in
  let rounded := (inject_Z (underline_pixels ch) / inject_Z ch)%Q in
  if Qle_bool rounded one then one else rounded.

(** [aCell.z] and [aCell.w]. *)
Definition part_box (ch : Z) (p : part) : Q * Q :=
  match p with Background => (0%Q, 1%Q) | Underline => (underlineTop, underlineHeight ch) end.

(** The background's vertex shader: [aCell], [aCorner] and [uGrid] to [gl_Position]. *)
Definition background_vertex (ch : Z) (grid : Z * Z) (cell : Z * Z * part) (corner : Z * Z) : Q * Q :=
  let '(x, y, p) := cell in
  let '(top, height) := part_box ch p in
  let px := ((inject_Z x + inject_Z corner.1) / inject_Z grid.1)%Q in
  let py := ((inject_Z y + top + inject_Z corner.2 * height) / inject_Z grid.2)%Q in
  (px * 2 - 1, 1 - py * 2)%Q.

(** The glyph's vertex shader: [uCell * vec4(aCoord, 0, 1)]. *)
Definition glyph_vertex (m : matrix) (point : Z * Z) : Q * Q :=
  (m0 m * inject_Z point.1 + m12 m, m5 m * inject_Z point.2 + m13 m)%Q.

(** The viewport [(0, 0, w, h)], with rows counted from the top. *)
Definition to_pixel (w h : Z) (v : Q * Q) : Q * Q := ((v.1 + 1) * inject_Z w / 2, (1 - v.2) * inject_Z h / 2)%Q.

(** ** Pixels *)

Definition at_pixel (v : Q * Q) (px py : Q) : Prop := (v.1 == px)%Q ∧ (v.2 == py)%Q.

Lemma inject_nonzero z : 0 < z → ¬ (inject_Z z == 0)%Q.
Proof. unfold Qeq. cbn. lia. Qed.

Lemma to_pixel_grid w h cols rws a b :
  0 < cols → 0 < rws → ∀ p q, at_pixel (to_pixel (w * cols) (h * rws) (a / inject_Z cols * 2 - 1, 1 - b / inject_Z rws * 2)%Q) p q ↔
    (a * inject_Z w == p ∧ b * inject_Z h == q)%Q.
Proof.
  intros Hc%inject_nonzero Hr%inject_nonzero p q. unfold at_pixel, to_pixel. cbn [fst snd]. rewrite !inject_Z_mult.
  assert ((a / inject_Z cols * 2 - 1 + 1) * (inject_Z w * inject_Z cols) / 2 == a * inject_Z w)%Q as -> by (field; done).
  assert ((1 - (1 - b / inject_Z rws * 2)) * (inject_Z h * inject_Z rws) / 2 == b * inject_Z h)%Q as -> by (field; done). done.
Qed.

Lemma underlineHeight_pixels ch :
  0 < ch → (underlineHeight ch * inject_Z ch == inject_Z (Z.max 1 (underline_pixels ch)))%Q.
Proof.
  intros Hch. pose proof (inject_nonzero ch Hch) as Hn. unfold underlineHeight.
  assert (0 < inject_Z ch)%Q as Hp by (unfold Qlt; cbn; lia).
  destruct (Qle_bool _ _) eqn:E.
  - apply Qle_bool_iff in E. apply (Qmult_le_compat_r _ _ (inject_Z ch)) in E; [|by apply Qlt_le_weak].
    assert (inject_Z (underline_pixels ch) / inject_Z ch * inject_Z ch == inject_Z (underline_pixels ch))%Q as E1 by (field; done).
    assert (1 / inject_Z ch * inject_Z ch == 1)%Q as E2 by (field; done). rewrite E1, E2 in E. rewrite E2.
    change 1%Q with (inject_Z 1) in E |- *. rewrite <- Zle_Qle in E. by rewrite Z.max_l.
  - assert (¬ (inject_Z (underline_pixels ch) / inject_Z ch <= 1 / inject_Z ch)%Q) as E'.
    { intros H%Qle_bool_iff. congruence. }
    apply Qnot_le_lt in E'. apply (Qmult_lt_compat_r _ _ (inject_Z ch)) in E'; [|done].
    assert (inject_Z (underline_pixels ch) / inject_Z ch * inject_Z ch == inject_Z (underline_pixels ch))%Q as E1 by (field; done).
    assert (1 / inject_Z ch * inject_Z ch == 1)%Q as E2 by (field; done). rewrite E1, E2 in E'. rewrite E1.
    change 1%Q with (inject_Z 1) in E'. rewrite <- Zlt_Qlt in E'. rewrite Z.max_r by lia. done.
Qed.



(** ** The em box *)

(** An underline ends inside its cell exactly from a cell height of 14 pixels on; a lower
    cell's underline covers part of the row below. *)
Lemma underline_inside ch :
  0 < ch → (underlineTop * inject_Z ch + inject_Z (Z.max 1 (underline_pixels ch)) <= inject_Z ch)%Q ↔ 14 ≤ ch.
Proof.
  intros Hch. assert (underlineTop * inject_Z ch + inject_Z (Z.max 1 (underline_pixels ch)) ==
    inject_Z (1893 * ch + 2047 * Z.max 1 (underline_pixels ch)) / inject_Z 2047)%Q as ->.
  { unfold underlineTop. rewrite inject_Z_plus, !inject_Z_mult. change (FONT_ASCENT - FONT_UNDERLINE_Y) with 1893.
    change FONT_LINE with 2047. field. }
  assert (inject_Z ch == inject_Z (2047 * ch) / inject_Z 2047)%Q as -> by (rewrite inject_Z_mult; field).
  unfold Qle, Qdiv, Qmult, Qinv, inject_Z. cbn [Qnum Qden]. unfold underline_pixels.
  change FONT_UNDERLINE_THICKNESS with 102. change FONT_LINE with 2047.
  pose proof (Z.div_mod (2 * (102 * ch) + 2047) (2 * 2047)) as Hd. pose proof (Z.mod_pos_bound (2 * (102 * ch) + 2047) (2 * 2047)) as Hm.
  lia.
Qed.

(** The cell height [resize] takes for a cell width. *)
Definition cell_height (cw : Z) : result render_fault Z :=
  let* h := num_round (num_div (NInt (cw * FONT_LINE)) (NInt FONT_ADVANCE)) in Ok (Z.max 8 h).

Definition em_box_fits (cw : Z) : bool :=
  match cell_height cw with
  | Ok ch =>
    match glyph_layout cw ch (NInt 1) with
    | Ok l => (l_offsetX l =? 0) && (2 * Z.abs (FONT_LINE * l_baseline l - FONT_ASCENT * ch) <=? FONT_LINE) &&
              (2 * Z.abs (FONT_ADVANCE * ch - FONT_LINE * cw) <=? FONT_ADVANCE)
    | Err _ => false
    end
  | Err _ => false
  end.

Lemma em_boxes_fit : forallb em_box_fits (seqZ 4 1021) = true.
Proof. by vm_compute. Qed.

Lemma cell_size_height ratio b cols rws cw ch : cell_size ratio b cols rws = Ok (cw, ch) → 4 ≤ cw ∧ cell_height cw = Ok ch.
Proof.
  unfold cell_size, cell_height. destruct (num_floor _) as [wc|]; [|done]. cbn [rbind].
  destruct (if num_pos _ then _ else _) as [hc|]; [|done]. cbn [rbind].
  destruct (num_round _) as [h|] eqn:E; [|done]. cbn [rbind]. intros [= <- <-]. rewrite E. split; [lia|done].
Qed.

Lemma glyph_layout_ratio cw ch ratio l :
  glyph_layout cw ch ratio = Ok l →
  ∃ l1, glyph_layout cw ch (NInt 1) = Ok l1 ∧ l_offsetX l1 = l_offsetX l ∧ l_baseline l1 = l_baseline l.
Proof.
  unfold glyph_layout. destruct (num_round (num_div (num_sub _ _) _)) as [o|]; [|done]. cbn [rbind].
  destruct (num_round (num_mul _ _)) as [bl|]; [|done]. cbn [rbind]. destruct (num_round ratio); [|done]. cbn [rbind].
  intros [= <-]. by eexists.
Qed.

(** C31: For every cell size [resize] can choose up to 1024 pixels of width, whatever the
    container and the pixel ratio, the em box of a glyph lies on its cell: it starts at
    the cell's left edge (the centring offset is always 0), its top is within half a
    pixel of the cell's top, and its advance is within a quarter of a pixel of the cell's width. *)
Theorem em_box_on_cell ratio b cols rws cw ch l :
  cell_size ratio b cols rws = Ok (cw, ch) → cw ≤ 1024 → glyph_layout cw ch ratio = Ok l →
  l_offsetX l = 0 ∧
  (- (1 # 2) <= inject_Z (l_baseline l) - inject_Z FONT_ASCENT * (inject_Z ch / inject_Z FONT_LINE) <= 1 # 2)%Q ∧
  (- (1 # 4) <= inject_Z FONT_ADVANCE * (inject_Z ch / inject_Z FONT_LINE) - inject_Z cw <= 1 # 4)%Q.
Proof.
  intros [Hcw Hch]%cell_size_height Hle (l1 & Hl & Ho & Hb)%glyph_layout_ratio.
  pose proof em_boxes_fit as HF. rewrite forallb_forall in HF. specialize (HF cw).
  rewrite <- list_elem_of_In, elem_of_seqZ in HF. specialize (HF ltac:(lia)). unfold em_box_fits in HF. rewrite Hch, Hl in HF.
  apply andb_prop in HF as [[H1%Z.eqb_eq H2%Z.leb_le]%andb_prop H3%Z.leb_le].
  rewrite Ho in H1. rewrite Hb in H2. split; [done|].
  revert H2 H3. change FONT_LINE with 2047. change FONT_ASCENT with 1638. change FONT_ADVANCE with 851. intros H2 H3.
  unfold Qle, Qminus, Qplus, Qopp, Qdiv, Qmult, Qinv, inject_Z. cbn [Qnum Qden]. lia.
Qed.

Lemma em_box_on_cell_witness :
  cell_size (NInt 2) (page_box 640 600) 80 24 = Ok (16, 38) ∧ glyph_layout 16 38 (NInt 2) = Ok (mkLayout 16 38 0 30 2) ∧
  l_offsetX (mkLayout 16 38 0 30 2) = 0.
Proof.
  split; [by vm_compute|]. split; [by vm_compute|].
  refine (proj1 (em_box_on_cell (NInt 2) (page_box 640 600) 80 24 16 38 _ _ _ _)); [by vm_compute|done|by vm_compute].
Defined.
