(* ===== verification/Worker.v ===== *)
(** * The engine worker (src/html-rt/src/worker.js)

    The worker owns one C engine (a WebAssembly instance) and one event loop:
    messages from the page, timers, and the pump loop of [run] that resumes the
    engine.  The engine is a parameter: a function from the history of its calls
    to the value of the next one, to the bytes a read of its memory sees, and to
    the imports it calls meanwhile ([posix_write], [strtod], [strtof]).  Everything
    below holds for every such engine, whatever it does with the values of the
    imports.  All exports that the code tests with [?.] are present.

    One [TextDecoder] serves the streamed output and every other text the worker
    reads from the engine; the model keeps its state ([dec]).  Decoded texts are
    lists of code points.

    Each handler is a computation in a state monad whose exceptions keep the
    state, as in JavaScript. *)

From stdpp Require Import base numbers list strings.
From Stdlib Require Import ZArith Lia.
From S2P Require Import Prelude JsNum TermModel Utf8 WatFloat.

#[local] Open Scope Z_scope.

(** ** Engine calls *)

Inductive call : Type :=
| Alloc (n : Z) | Free (p : Z) | Store (p : Z) (bytes : list Z)
| EnqueueInput (p n : Z) | ResizeTerminal (columns rows : Z)
| RaisePid (signal pid : Z) | RaisePgid (signal pgid : Z)
| AdvanceClock (low high : Z) | SetRealtime (low high : Z) | SetMonotonic (low high : Z)
| HostIoKind | HostIoPathPtr | HostIoPathLen | HostIoDataPtr | HostIoDataLen | HostIoVerbose
| HostIoComplete | HostIoCancel | ProvideUpload (p n : Z) | SuiteReply (p n : Z) | RenderReply (p n : Z)
| RequestCancel | WaitKind | WaitTimeout | ProcessId | Resume
| StartShell | RunScript (p n : Z)
| EnableTerminal | EnableTestSuite | EnableRenderTest
| StageInventory (p n : Z) | StageVfsFile (index p n : Z) | VfsReady
| StageBuildMtime (low high nsec : Z) | StageExecutable (p n : Z)
| StageMtime (low high nsec : Z) | StagePath (p n kind mode size : Z)
| StageSymlink (p n target tn mode : Z) | StageFile (p n data dn mode : Z) | StageCwd (p n : Z)
| SetExecutionLimits (timeout cancel : Z) | SetPumpQuantum (ms : Z)
| SuiteLoad | SuitePrepare (index : Z) | SuiteSourceLength | SuiteExpectedFailure (index : Z)
| SuiteField (index offset : Z) | SuiteErrorPtr
| ResultsTotal | ResultsPassed | ResultsPtr | ResultNamePtr (i : Z) | ResultNameLen (i : Z)
| SetupTotal | SetupPassed | SetupComplete | SetupFailureCount | SetupFailurePtr (i : Z)
| EvidencePtr | EvidenceLen | ScriptCompleted | StopReason | GuestExited | GuestExitStatus.

#[export] Instance call_eq_dec : EqDecision call.
Proof. solve_decision. Defined.

(** An import the engine calls: [posix_write], or [strtod]/[strtof] with the bytes of a literal. *)
Inductive host_call : Type :=
| HostWrite (fd : Z) (bytes : list Z)
| HostFloat (bytes : list Z) (asF32 : bool).

(** The engine, as a function of the calls made so far (newest first). *)
Record engine : Type := mkEngine {
  answer : list call → call → Z;
  imports : list call → call → list host_call;    (* what it calls while it runs *)
  memory : list call → Z → Z → list Z;            (* [memory h p n]: [n] bytes at [p] *)
  cstring : list call → Z → list Z }.             (* bytes from [p] up to a NUL *)

(** ** Messages *)

(** A message field as the handlers test it: absent, a number, or anything else. *)
Inductive field : Type := Undefined | Num (v : num) | Other.

Inductive msg : Type :=
| MInput (bytes : list Z)
| MSignal (signal pid pgid : field)
| MResize (columns rows : field)
| MAdvanceClock (low high : field)
| MSetClock (realtimeLow realtimeHigh monotonicLow monotonicHigh : field)
| MSuiteResponse (id : Z) (bytes : list Z)
| MRenderResponse (id : Z) (bytes : list Z)
| MClipboardResponse (id : Z) (ok : bool)
| MUploadResponse (cancelled : bool) (bytes : list Z)
| MCancel
| MStop.

Inductive control : Type := CResize | CSignal | CAdvanceClock | CSetClock.

Inductive exn : Type :=
| TypeError                 (* a call through [exp] before the engine exists *)
| InputAllocation | VfsAllocation | VfsInvalid | VfsIncomplete | ClockRejected
| MtimeFailed | ExecutableFailed | PathFailed | SymlinkFailed | CwdFailed | FileFailed
| LimitsInvalid | PumpInvalid | ScriptAllocation | SuiteError | UnknownIdentity
| LiteralError.             (* a float import threw out of the engine *)

(** One test result: passed, function name, error text. *)
Abbreviation test_result := (bool * list Z * list Z)%type (only parsing).

Record setup_failure : Type := mkFailure { fl_line : Z; fl_status : Z; fl_phase : option Z; fl_error : list Z }.

Record done_report : Type := mkDone {
  dn_ok : bool; dn_total : Z; dn_passed : Z; dn_results : list test_result;
  dn_setup_total : Z; dn_setup_passed : Z; dn_setup_complete : bool; dn_failures : list setup_failure;
  dn_completed : bool; dn_mount_error : bool; dn_timedOut : bool; dn_cancelled : bool;
  dn_exited : bool; dn_exitStatus : Z }.

Inductive out : Type :=
| OControlError (c : control)
| OOutput (text : list Z)
| OSuiteCancel (id : Z)
| OSuiteRequest (id : Z) (request : list Z)
| ORenderRequest (id : Z)
| OClipboardRequest (id : Z) (bytes : list Z)
| ODownload (name bytes : list Z)     (* [name] is a text *)
| OUploadRequest (path : list Z)
| OStarted (pid waitKind : Z)
| OIoReady (pid waitKind : Z)
| OVfs (probe : bool) (paths : list (list Z))
| OSuiteList (tests : list (list (list Z) * bool))
| OEvidence (text : list Z)
| ODoneResults (results : list test_result)
| ODone (d : done_report)
| OFailed (e : exn).

(** ** State *)

Record signal_entry : Type := mkSignal { sg_signal : Z; sg_pid : Z; sg_pgid : Z }.
Record clocks : Type := mkClocks { ck_rl : Z; ck_rh : Z; ck_ml : Z; ck_mh : Z }.

(** Where the pump loop of [run] is: not started, about to test [yielded], in the
    pump's [setTimeout], in [waitForIO] with its poll time, past it, or ended. *)
Inductive pc : Type := PIdle | PTop | PPump | PWait (poll : Z) | PResumed (poll : Z) | PDone.

Record worker : Type := mkWorker {
  instantiated : bool; calls : list call;
  ioResolve : bool; ioPending : bool; terminated : bool; engineReady : bool;
  pendingResize : option (Z * Z); pendingInput : list (list Z); pendingInputBytes : Z;
  pendingSignals : list signal_entry; pendingClocks : option clocks;
  guestSuitePending : Z; guestSuiteSequence : Z; renderTestPending : Z; clipboardPending : Z;
  pendingOutput : list Z; dec : decoder;
  written : list Z;       (* everything descriptors 1 and 2 were given, for the specification only *)
  outbox : list out; yielded : Z;
  scriptPtr : option Z;   (* inside the [try] of [run]: the script to free *)
  at_pc : pc }.

Definition initial : worker :=
  mkWorker false [] false false false false None [] 0 [] None 0 0 0 0 [] new_decoder [] [] 0 None PIdle.

Definition set_instantiated (v : bool) (w : worker) : worker :=
  mkWorker v (calls w) (ioResolve w) (ioPending w) (terminated w) (engineReady w) (pendingResize w)
    (pendingInput w) (pendingInputBytes w) (pendingSignals w) (pendingClocks w)
    (guestSuitePending w) (guestSuiteSequence w) (renderTestPending w) (clipboardPending w)
    (pendingOutput w) (dec w) (written w) (outbox w) (yielded w) (scriptPtr w) (at_pc w).
Definition set_calls (v : list call) (w : worker) : worker :=
  mkWorker (instantiated w) v (ioResolve w) (ioPending w) (terminated w) (engineReady w)
    (pendingResize w) (pendingInput w) (pendingInputBytes w) (pendingSignals w) (pendingClocks w)
    (guestSuitePending w) (guestSuiteSequence w) (renderTestPending w) (clipboardPending w)
    (pendingOutput w) (dec w) (written w) (outbox w) (yielded w) (scriptPtr w) (at_pc w).
Definition set_ioResolve (v : bool) (w : worker) : worker :=
  mkWorker (instantiated w) (calls w) v (ioPending w) (terminated w) (engineReady w)
    (pendingResize w) (pendingInput w) (pendingInputBytes w) (pendingSignals w) (pendingClocks w)
    (guestSuitePending w) (guestSuiteSequence w) (renderTestPending w) (clipboardPending w)
    (pendingOutput w) (dec w) (written w) (outbox w) (yielded w) (scriptPtr w) (at_pc w).
Definition set_ioPending (v : bool) (w : worker) : worker :=
  mkWorker (instantiated w) (calls w) (ioResolve w) v (terminated w) (engineReady w)
    (pendingResize w) (pendingInput w) (pendingInputBytes w) (pendingSignals w) (pendingClocks w)
    (guestSuitePending w) (guestSuiteSequence w) (renderTestPending w) (clipboardPending w)
    (pendingOutput w) (dec w) (written w) (outbox w) (yielded w) (scriptPtr w) (at_pc w).
Definition set_terminated (v : bool) (w : worker) : worker :=
  mkWorker (instantiated w) (calls w) (ioResolve w) (ioPending w) v (engineReady w)
    (pendingResize w) (pendingInput w) (pendingInputBytes w) (pendingSignals w) (pendingClocks w)
    (guestSuitePending w) (guestSuiteSequence w) (renderTestPending w) (clipboardPending w)
    (pendingOutput w) (dec w) (written w) (outbox w) (yielded w) (scriptPtr w) (at_pc w).
Definition set_engineReady (v : bool) (w : worker) : worker :=
  mkWorker (instantiated w) (calls w) (ioResolve w) (ioPending w) (terminated w) v (pendingResize w)
    (pendingInput w) (pendingInputBytes w) (pendingSignals w) (pendingClocks w)
    (guestSuitePending w) (guestSuiteSequence w) (renderTestPending w) (clipboardPending w)
    (pendingOutput w) (dec w) (written w) (outbox w) (yielded w) (scriptPtr w) (at_pc w).
Definition set_pendingResize (v : option (Z * Z)) (w : worker) : worker :=
  mkWorker (instantiated w) (calls w) (ioResolve w) (ioPending w) (terminated w) (engineReady w) v
    (pendingInput w) (pendingInputBytes w) (pendingSignals w) (pendingClocks w)
    (guestSuitePending w) (guestSuiteSequence w) (renderTestPending w) (clipboardPending w)
    (pendingOutput w) (dec w) (written w) (outbox w) (yielded w) (scriptPtr w) (at_pc w).
Definition set_input (q : list (list Z)) (n : Z) (w : worker) : worker :=
  mkWorker (instantiated w) (calls w) (ioResolve w) (ioPending w) (terminated w) (engineReady w)
    (pendingResize w) q n (pendingSignals w) (pendingClocks w) (guestSuitePending w)
    (guestSuiteSequence w) (renderTestPending w) (clipboardPending w) (pendingOutput w) (dec w) (written w) (outbox w)
    (yielded w) (scriptPtr w) (at_pc w).
Definition set_pendingSignals (v : list signal_entry) (w : worker) : worker :=
  mkWorker (instantiated w) (calls w) (ioResolve w) (ioPending w) (terminated w) (engineReady w)
    (pendingResize w) (pendingInput w) (pendingInputBytes w) v (pendingClocks w)
    (guestSuitePending w) (guestSuiteSequence w) (renderTestPending w) (clipboardPending w)
    (pendingOutput w) (dec w) (written w) (outbox w) (yielded w) (scriptPtr w) (at_pc w).
Definition set_pendingClocks (v : option clocks) (w : worker) : worker :=
  mkWorker (instantiated w) (calls w) (ioResolve w) (ioPending w) (terminated w) (engineReady w)
    (pendingResize w) (pendingInput w) (pendingInputBytes w) (pendingSignals w) v
    (guestSuitePending w) (guestSuiteSequence w) (renderTestPending w) (clipboardPending w)
    (pendingOutput w) (dec w) (written w) (outbox w) (yielded w) (scriptPtr w) (at_pc w).
Definition set_guestSuite (v : Z) (w : worker) : worker :=
  mkWorker (instantiated w) (calls w) (ioResolve w) (ioPending w) (terminated w) (engineReady w)
    (pendingResize w) (pendingInput w) (pendingInputBytes w) (pendingSignals w) (pendingClocks w) v
    (guestSuiteSequence w) (renderTestPending w) (clipboardPending w) (pendingOutput w) (dec w) (written w) (outbox w)
    (yielded w) (scriptPtr w) (at_pc w).
Definition set_sequence (v : Z) (w : worker) : worker :=
  mkWorker (instantiated w) (calls w) (ioResolve w) (ioPending w) (terminated w) (engineReady w)
    (pendingResize w) (pendingInput w) (pendingInputBytes w) (pendingSignals w) (pendingClocks w)
    (guestSuitePending w) v (renderTestPending w) (clipboardPending w) (pendingOutput w) (dec w) (written w) (outbox w)
    (yielded w) (scriptPtr w) (at_pc w).
Definition set_renderTest (v : Z) (w : worker) : worker :=
  mkWorker (instantiated w) (calls w) (ioResolve w) (ioPending w) (terminated w) (engineReady w)
    (pendingResize w) (pendingInput w) (pendingInputBytes w) (pendingSignals w) (pendingClocks w)
    (guestSuitePending w) (guestSuiteSequence w) v (clipboardPending w) (pendingOutput w) (dec w) (written w) (outbox w)
    (yielded w) (scriptPtr w) (at_pc w).
Definition set_clipboard (v : Z) (w : worker) : worker :=
  mkWorker (instantiated w) (calls w) (ioResolve w) (ioPending w) (terminated w) (engineReady w)
    (pendingResize w) (pendingInput w) (pendingInputBytes w) (pendingSignals w) (pendingClocks w)
    (guestSuitePending w) (guestSuiteSequence w) (renderTestPending w) v (pendingOutput w) (dec w) (written w)
    (outbox w) (yielded w) (scriptPtr w) (at_pc w).
Definition set_output (v : list Z) (d : decoder) (bytes : list Z) (w : worker) : worker :=
  mkWorker (instantiated w) (calls w) (ioResolve w) (ioPending w) (terminated w) (engineReady w)
    (pendingResize w) (pendingInput w) (pendingInputBytes w) (pendingSignals w) (pendingClocks w)
    (guestSuitePending w) (guestSuiteSequence w) (renderTestPending w) (clipboardPending w) v d bytes
    (outbox w) (yielded w) (scriptPtr w) (at_pc w).
Definition set_outbox (v : list out) (w : worker) : worker :=
  mkWorker (instantiated w) (calls w) (ioResolve w) (ioPending w) (terminated w) (engineReady w)
    (pendingResize w) (pendingInput w) (pendingInputBytes w) (pendingSignals w) (pendingClocks w)
    (guestSuitePending w) (guestSuiteSequence w) (renderTestPending w) (clipboardPending w)
    (pendingOutput w) (dec w) (written w) v (yielded w) (scriptPtr w) (at_pc w).
Definition set_yielded (v : Z) (w : worker) : worker :=
  mkWorker (instantiated w) (calls w) (ioResolve w) (ioPending w) (terminated w) (engineReady w)
    (pendingResize w) (pendingInput w) (pendingInputBytes w) (pendingSignals w) (pendingClocks w)
    (guestSuitePending w) (guestSuiteSequence w) (renderTestPending w) (clipboardPending w)
    (pendingOutput w) (dec w) (written w) (outbox w) v (scriptPtr w) (at_pc w).
Definition set_scriptPtr (v : option Z) (w : worker) : worker :=
  mkWorker (instantiated w) (calls w) (ioResolve w) (ioPending w) (terminated w) (engineReady w)
    (pendingResize w) (pendingInput w) (pendingInputBytes w) (pendingSignals w) (pendingClocks w)
    (guestSuitePending w) (guestSuiteSequence w) (renderTestPending w) (clipboardPending w)
    (pendingOutput w) (dec w) (written w) (outbox w) (yielded w) v (at_pc w).
Definition set_pc (v : pc) (w : worker) : worker :=
  mkWorker (instantiated w) (calls w) (ioResolve w) (ioPending w) (terminated w) (engineReady w)
    (pendingResize w) (pendingInput w) (pendingInputBytes w) (pendingSignals w) (pendingClocks w)
    (guestSuitePending w) (guestSuiteSequence w) (renderTestPending w) (clipboardPending w)
    (pendingOutput w) (dec w) (written w) (outbox w) (yielded w) (scriptPtr w) v.

(** ** The monad *)

Definition M (A : Type) : Type := worker → result exn A * worker.

#[export] Instance M_ret : MRet M := λ A a w, (Ok a, w).
#[export] Instance M_bind : MBind M := λ A B k m w,
  match m w with
  | (Ok a, w') => k a w'
  | (Err e, w') => (Err e, w')
  end.

Definition get {A} (f : worker → A) : M A := λ w, (Ok (f w), w).
Definition upd (f : worker → worker) : M unit := λ w, (Ok tt, f w).
Definition throw {A} (e : exn) : M A := λ w, (Err e, w).
Definition when (b : bool) (m : M unit) : M unit := if b then m else mret tt.
Definition post (o : out) : M unit := upd (λ w, set_outbox (outbox w ++ [o]) w).

Fixpoint mfor {A} (f : A → M unit) (l : list A) : M unit :=
  match l with [] => mret tt | a :: l' => f a;; mfor f l' end.

(** ** The start message *)

Record packaged : Type := mkPackaged {
  pf_path : list Z; pf_kind : Z; pf_mode : Z; pf_bytes : list Z; pf_target : list Z; pf_mtime : option (Z * Z) }.

Record limits : Type := mkLimits { lm_timeout : field; lm_cancel : field; lm_pump : field }.

Inductive suite_request : Type := SuiteListing | SuiteRun (name : list Z) | SuiteOther.

Record vfs_input : Type := mkVfs { inventory : list Z; vfs_files : list (Z * list Z) }.

Record config : Type := mkConfig {
  cfg_source : list Z; cfg_probe : option (list Z); cfg_packaged : list packaged;
  cfg_buildMtime : option (Z * Z); cfg_vfs : option vfs_input; cfg_vfsPaths : list (list Z);
  cfg_limits : option limits; cfg_suite : option suite_request; cfg_shell : bool;
  now_ms : Z;                   (* [Date.now()] *)
  setup_error_bytes : Z }.      (* WASTE_CONFIG.WAST_SETUP_ERROR_BYTES *)

Section worker.
Context (E : engine) (cfg : config).

(** [posix_write] decodes what descriptors 1 and 2 get, for the next [flushOutput]. *)
Definition posixWrite (fd : Z) (bytes : list Z) (w : worker) : worker :=
  if (fd =? 1) || (fd =? 2) then
    let '(text, d) := decode false true bytes (dec w) in set_output (pendingOutput w ++ text) d (written w ++ bytes) w
  else w.

(** [decoder.decode(bytes)], the shared decoder without [stream]. *)
Definition decode_text (bytes : list Z) : M (list Z) := λ w,
  let '(text, d) := decode false false bytes (dec w) in (Ok text, set_output (pendingOutput w) d (written w) w).

(** The text is converted by BigInt arithmetic, which throws on what is not a numeral. *)
Definition literal_throws (text : list Z) (asF32 : bool) : bool :=
  asF32 || starts_0x (to_lower <$> snd (strip_sign text)).

(** [strtod], [strtof]: the bits of the literal; [None] is NaN. *)
Definition hostFloat (bytes : list Z) (asF32 : bool) : M (option Z) :=
  text ← decode_text bytes;
  match watFloat text asF32 with
  | Ok bits => mret (Some bits)
  | Err _ => if literal_throws text asF32 then throw LiteralError else mret None
  end.

Definition run_import (h : host_call) : M unit :=
  match h with
  | HostWrite fd bytes => upd (posixWrite fd bytes)
  | HostFloat bytes asF32 => hostFloat bytes asF32;; mret tt
  end.

(** A call of an export: the imports it calls run in between, and one that throws ends the call. *)
Definition ask (c : call) : M Z :=
  up ← get instantiated;
  if (up : bool) then
    h ← get calls;
    upd (set_calls (c :: h));;
    mfor run_import (imports E h c);;
    mret (answer E h c)
  else throw TypeError.

Definition do_call (c : call) : M unit := ask c;; mret tt.

(** [new Uint8Array(engineMemory.buffer, p, n).slice()]. *)
Definition read (p n : Z) : M (list Z) := λ w, (Ok (memory E (calls w) p n), w).

(** ** Wake-ups *)

Definition wakeIO : M unit :=
  r ← get ioResolve;
  if (r : bool) then upd (set_ioResolve false) else upd (set_ioPending true).

Definition controlError (c : control) : M unit := post (OControlError c).

Definition waitForIO (pollMs : Z) : M unit :=
  p ← get ioPending;
  if (p : bool) then upd (set_ioPending false);; upd (set_pc (PResumed pollMs))
  else upd (set_ioResolve true);; upd (set_pc (PWait pollMs)).

Definition flushOutput : M unit :=
  o ← get pendingOutput;
  match o with
  | [] => mret tt
  | _ => post (OOutput o);; upd (λ w, set_output [] (dec w) (written w) w)
  end.

(** ** Input, resize and signals *)

Definition enqueueInput (bytes : list Z) : M unit :=
  g ← get guestSuitePending;
  let interrupt := negb (g =? 0) && bool_decide (3 ∈ bytes) in
  when interrupt (post (OSuiteCancel g));;
  let bytes := if interrupt then filter (λ v, v ≠ 3) bytes else bytes in
  match bytes with
  | [] => mret tt
  | _ =>
    ptr ← ask (Alloc (zlen bytes));
    if ptr =? 0 then throw InputAllocation
    else do_call (Store ptr bytes);; do_call (EnqueueInput ptr (zlen bytes));; wakeIO
  end.

Definition flush_signal (s : signal_entry) : M unit :=
  ret ← ask (if sg_pgid s =? 0 then RaisePid (sg_signal s) (sg_pid s) else RaisePgid (sg_signal s) (sg_pgid s));
  if (ret =? 0) || (negb (sg_pgid s =? 0) && (0 <? ret)) then wakeIO else controlError CSignal.

Definition flush_resize : M unit :=
  r ← get pendingResize;
  match r with
  | Some (c, rw) =>
    ret ← ask (ResizeTerminal c rw);
    (if ret =? 0 then wakeIO else controlError CResize);;
    upd (set_pendingResize None)
  | None => mret tt
  end.

Definition flushPendingEvents : M unit :=
  ready ← get engineReady;
  if negb ready then mret tt
  else
    flush_resize;;
    q ← get pendingInput;
    mfor enqueueInput q;;
    upd (set_input [] 0);;
    s ← get pendingSignals;
    mfor flush_signal s;;
    upd (set_pendingSignals []).

Definition pendingInputLimit : Z := 4096.  (* WASTE_CONFIG.TERMINAL_INPUT_CAPACITY *)
Definition pendingSignalLimit : Z := 16.

(** [Number.isInteger(v) && low <= v && v <= high]. *)
Definition int_field (low high : Z) (f : field) : option Z :=
  match f with Num (NInt z) => if (low <=? z) && (z <=? high) then Some z else None | _ => None end.

Definition or_zero (f : field) : field := match f with Undefined => Num (NInt 0) | _ => f end.

Definition on_input (bytes : list Z) : M unit :=
  ready ← get engineReady;
  if negb ready then
    n ← get pendingInputBytes;
    q ← get pendingInput;
    when (n + zlen bytes <=? pendingInputLimit) (upd (set_input (q ++ [bytes]) (n + zlen bytes)))
  else enqueueInput bytes.

Definition on_signal (signal pid pgid : field) : M unit :=
  match int_field 1 128 signal, int_field 0 2147483647 (or_zero pid), int_field 0 2147483647 (or_zero pgid) with
  | Some s, Some p, Some g =>
    if negb (p =? 0) && negb (g =? 0) then controlError CSignal
    else
      ready ← get engineReady;
      if negb ready then
        q ← get pendingSignals;
        if zlen q <? pendingSignalLimit then upd (set_pendingSignals (q ++ [mkSignal s p g]))
        else controlError CSignal
      else if negb (g =? 0) then
        ret ← ask (RaisePgid s g);
        if 0 <? ret then wakeIO else controlError CSignal
      else
        ret ← ask (RaisePid s p);
        if ret =? 0 then wakeIO else controlError CSignal
  | _, _, _ => controlError CSignal
  end.

Definition on_resize (columns rows : field) : M unit :=
  match int_field 1 65535 columns, int_field 1 65535 rows with
  | Some c, Some r =>
    ready ← get engineReady;
    if negb ready then upd (set_pendingResize (Some (c, r)))
    else
      ret ← ask (ResizeTerminal c r);
      if ret =? 0 then wakeIO else controlError CResize
  | _, _ => controlError CResize
  end.

Definition on_advance_clock (low high : field) : M unit :=
  ready ← get engineReady;
  match (if (ready : bool) then int_field 0 4294967295 low else None), int_field 0 4294967295 high with
  | Some l, Some h =>
    ret ← ask (AdvanceClock l h);
    if ret =? 0 then wakeIO else controlError CAdvanceClock
  | _, _ => controlError CAdvanceClock
  end.

Definition integer (f : field) : option Z := match f with Num (NInt z) => Some z | _ => None end.

Definition on_set_clock (rl rh ml mh : field) : M unit :=
  match integer rl, integer rh, integer ml, integer mh with
  | Some a, Some b, Some c, Some d =>
    upd (set_pendingClocks (Some (mkClocks (to_uint32 a) (to_uint32 b) (to_uint32 c) (to_uint32 d))))
  | _, _, _, _ => controlError CSetClock
  end.

(** ** Replies to host requests *)

(** Copy [bytes] into the engine, reply, release; a failed reply cancels the request. *)
Definition reply_with (bytes : list Z) (reply : Z → Z → call) : M unit :=
  ptr ← ask (Alloc (zlen bytes));
  if ptr =? 0 then do_call HostIoCancel
  else
    do_call (Store ptr bytes);;
    ret ← ask (reply ptr (zlen bytes));
    do_call (Free ptr);;
    when (negb (ret =? 0)) (do_call HostIoCancel).

Definition on_suite_response (id : Z) (bytes : list Z) : M unit :=
  ready ← get engineReady;
  g ← get guestSuitePending;
  if negb ready || negb (id =? g) then mret tt
  else
    kind ← ask HostIoKind;
    if negb (kind =? 3) then mret tt
    else upd (set_guestSuite 0);; reply_with bytes SuiteReply;; wakeIO.

Definition RENDER_TEST_REPLY_MAX_BYTES : Z := 65536.

Definition on_render_response (id : Z) (bytes : list Z) : M unit :=
  ready ← get engineReady;
  r ← get renderTestPending;
  if negb ready || (r =? 0) || negb (id =? r) then mret tt
  else
    kind ← ask HostIoKind;
    if negb (kind =? 4) then mret tt
    else
      upd (set_renderTest 0);;
      (if (zlen bytes <? 4) || (RENDER_TEST_REPLY_MAX_BYTES <? zlen bytes) then do_call HostIoCancel
       else reply_with bytes RenderReply);;
      wakeIO.

Definition on_clipboard_response (id : Z) (ok : bool) : M unit :=
  ready ← get engineReady;
  dead ← get terminated;
  c ← get clipboardPending;
  if negb ready || dead || (c =? 0) || negb (id =? c) then mret tt
  else
    kind ← ask HostIoKind;
    if negb (kind =? 5) then mret tt
    else
      upd (set_clipboard 0);;
      do_call (if ok then HostIoComplete else HostIoCancel);;
      wakeIO.

(** The buffer is released in a [finally]; a store into a fresh buffer does not throw. *)
Definition on_upload_response (cancelled : bool) (bytes : list Z) : M unit :=
  ready ← get engineReady;
  dead ← get terminated;
  if negb ready || dead then mret tt
  else
    kind ← ask HostIoKind;
    if negb (kind =? 1) then mret tt
    else
      (if cancelled then do_call HostIoCancel
       else
         ptr ← ask (Alloc (Z.max 1 (zlen bytes)));
         if ptr =? 0 then do_call HostIoCancel
         else
           do_call (Store ptr bytes);;
           ret ← ask (ProvideUpload ptr (zlen bytes));
           when (negb (ret =? 0)) (do_call HostIoCancel);;
           do_call (Free ptr));;
      wakeIO.

(** [if (ioResolve) { ioResolve(); ioResolve = null; }]. *)
Definition resolve_waiter : M unit :=
  r ← get ioResolve; when r (upd (set_ioResolve false)).

Definition drop_guest_suite : M unit :=
  g ← get guestSuitePending;
  when (negb (g =? 0)) (post (OSuiteCancel g));;
  upd (set_guestSuite 0).

Definition on_cancel : M unit :=
  upd (set_renderTest 0);; drop_guest_suite;; do_call RequestCancel;; resolve_waiter.

Definition on_stop : M unit :=
  upd (set_renderTest 0);; drop_guest_suite;; upd (set_terminated true);; resolve_waiter.

Definition onmessage (m : msg) : M unit :=
  match m with
  | MInput bytes => on_input bytes
  | MSignal s p g => on_signal s p g
  | MResize c r => on_resize c r
  | MAdvanceClock l h => on_advance_clock l h
  | MSetClock a b c d => on_set_clock a b c d
  | MSuiteResponse id bytes => on_suite_response id bytes
  | MRenderResponse id bytes => on_render_response id bytes
  | MClipboardResponse id ok => on_clipboard_response id ok
  | MUploadResponse c bytes => on_upload_response c bytes
  | MCancel => on_cancel
  | MStop => on_stop
  end.

(** ** Staging

    [run] first hands the packaged files to the engine.  A staging error ends the
    run with a [done] message. *)

Definition finally {A} (m : M A) (f : M unit) : M A := λ w,
  let '(r, w1) := m w in
  match f w1 with (Ok _, w2) => (r, w2) | (Err e, w2) => (Err e, w2) end.

Definition check (c : call) (e : exn) : M unit := ret ← ask c; if ret =? 0 then mret tt else throw e.

Definition submit (bytes : list Z) (c : Z → Z → call) : M unit :=
  ptr ← ask (Alloc (if zlen bytes =? 0 then 1 else zlen bytes));
  if ptr =? 0 then throw VfsAllocation
  else finally (do_call (Store ptr bytes);; check (c ptr (zlen bytes)) VfsInvalid) (do_call (Free ptr)).

Definition stageInstalledVfs (v : vfs_input) : M unit :=
  submit (inventory v) StageInventory;;
  mfor (λ f, submit f.2 (StageVfsFile f.1)) (vfs_files v);;
  check VfsReady VfsIncomplete.

(** Allocate a buffer and fill it. *)
Definition copy_in (bytes : list Z) (e : exn) : M Z :=
  ptr ← ask (Alloc (zlen bytes));
  if ptr =? 0 then throw e else do_call (Store ptr bytes);; mret ptr.

(** A count of seconds as the two words the engine takes. *)
Definition low_word (seconds : Z) : Z := to_uint32 seconds.
Definition high_word (seconds : Z) : Z := to_uint32 (seconds / 4294967296).

(** A file time: seconds and nanoseconds, or the time of the call. *)
Definition stageVfsMtime (mtime : option (Z * Z)) : M unit :=
  let '(seconds, nanoseconds) :=
    match mtime with Some t => t | None => (now_ms cfg / 1000, now_ms cfg mod 1000 * 1000000) end in
  check (StageMtime (low_word seconds) (high_word seconds) (to_uint32 nanoseconds)) MtimeFailed.

Definition stageVfsPath (path : list Z) (kind mode size : Z) (mtime : option (Z * Z)) : M unit :=
  pathPtr ← copy_in path PathFailed;
  staged ← ask (StagePath pathPtr (zlen path) kind mode (to_uint32 size));
  do_call (Free pathPtr);;
  if staged =? 0 then stageVfsMtime mtime else throw PathFailed.

(** Two allocations, both tested, then both stores. *)
Definition copy_in2 (a b : list Z) (e : exn) : M (Z * Z) :=
  p ← ask (Alloc (zlen a)); q ← ask (Alloc (zlen b));
  if (p =? 0) || (q =? 0) then throw e
  else do_call (Store p a);; do_call (Store q b);; mret (p, q).

Definition stageVfsSymlink (path target : list Z) (mode : Z) (mtime : option (Z * Z)) : M unit :=
  '(p, q) ← copy_in2 path target SymlinkFailed;
  staged ← ask (StageSymlink p (zlen path) q (zlen target) mode);
  do_call (Free p);; do_call (Free q);;
  if staged =? 0 then stageVfsMtime mtime else throw SymlinkFailed.

Definition stage_file (path bytes : list Z) (mode : Z) (mtime : option (Z * Z)) : M unit :=
  '(p, q) ← copy_in2 path bytes FileFailed;
  staged ← ask (StageFile p (zlen path) q (zlen bytes) mode);
  do_call (Free p);; do_call (Free q);;
  if staged =? 0 then stageVfsMtime mtime else throw FileFailed.

Definition stage_packaged (f : packaged) : M unit :=
  if pf_kind f =? 2 then stageVfsPath (pf_path f) 2 (pf_mode f) 0 (pf_mtime f)
  else if pf_kind f =? 3 then stageVfsSymlink (pf_path f) (pf_target f) (pf_mode f) (pf_mtime f)
  else stage_file (pf_path f) (pf_bytes f) (pf_mode f) (pf_mtime f).

Definition stage_dirs (l : list (string * Z)) : M unit :=
  mfor (λ d : string * Z, stageVfsPath (codes d.1) 2 d.2 0 None) l.

Definition no_suite : bool := match cfg_suite cfg with None => true | Some _ => false end.
Definition no_vfs : bool := match cfg_vfs cfg with None => true | Some _ => false end.

Definition stage_clocks : M unit :=
  k ← get pendingClocks;
  match k with
  | None => mret tt
  | Some c =>
    a ← ask (SetRealtime (ck_rl c) (ck_rh c));
    b ← (if a =? 0 then ask (SetMonotonic (ck_ml c) (ck_mh c)) else mret 1);
    upd (set_pendingClocks None);;
    if (a =? 0) && (b =? 0) then mret tt else throw ClockRejected
  end.

Definition stage_build_mtime : M unit :=
  match cfg_buildMtime cfg with
  | None => mret tt
  | Some (seconds, nsec) =>
    check (StageBuildMtime (low_word seconds) (high_word seconds) (to_uint32 nsec)) MtimeFailed
  end.

Definition stage_probe_executable : M unit :=
  match cfg_probe cfg with
  | None => mret tt
  | Some bytes =>
    p ← copy_in bytes ExecutableFailed;
    staged ← ask (StageExecutable p (zlen bytes));
    do_call (Free p);;
    if staged =? 0 then mret tt else throw ExecutableFailed
  end.

Definition stage_cwd : M unit :=
  let cwd := codes "/root" in
  p ← copy_in cwd CwdFailed;
  staged ← ask (StageCwd p (zlen cwd));
  do_call (Free p);;
  if staged =? 0 then mret tt else throw CwdFailed.

Definition probe_path : list Z := codes "/bin/waste-probe".

Definition stage_probe_file : M unit :=
  match cfg_probe cfg with
  | None => mret tt
  | Some bytes =>
    if existsb (λ f, bool_decide (pf_path f = probe_path)) (cfg_packaged cfg)
    then stageVfsPath probe_path 1 493 (zlen bytes) None
    else stage_file probe_path bytes 493 None
  end.

Definition EXECUTION_MAX_TIMEOUT_MS : Z := 3600000.
Definition EXECUTION_DEFAULT_PUMP_QUANTUM_MS : Z := 16.
Definition EXECUTION_MAX_PUMP_QUANTUM_MS : Z := 60000.

(** [value ?? default]. *)
Definition or_default (d : Z) (f : field) : field := match f with Undefined => Num (NInt d) | _ => f end.

Definition stage_limits : M unit :=
  match cfg_limits cfg with
  | None => mret tt
  | Some l =>
    match int_field 0 EXECUTION_MAX_TIMEOUT_MS (or_default 0 (lm_timeout l)),
          int_field 0 EXECUTION_MAX_TIMEOUT_MS (or_default 0 (lm_cancel l)) with
    | Some t, Some c => check (SetExecutionLimits t c) LimitsInvalid
    | _, _ => throw LimitsInvalid
    end
  end.

Definition stage_pump : M unit :=
  match int_field 0 EXECUTION_MAX_PUMP_QUANTUM_MS
          (or_default EXECUTION_DEFAULT_PUMP_QUANTUM_MS
            (match cfg_limits cfg with Some l => lm_pump l | None => Undefined end)) with
  | Some ms => check (SetPumpQuantum ms) PumpInvalid
  | None => throw PumpInvalid
  end.

Definition stage_all : M unit :=
  stage_clocks;;
  when no_suite
    (do_call EnableTerminal;; do_call EnableTestSuite;; do_call EnableRenderTest);;
  match cfg_vfs cfg with Some v => stageInstalledVfs v | None => mret tt end;;
  stage_build_mtime;;
  stage_probe_executable;;
  when no_vfs (stage_dirs [("/tmp", 511); ("/root", 493)]%string);;
  stage_cwd;;
  when no_vfs (stage_dirs [("/usr", 493); ("/usr/bin", 493); ("/usr/lib", 493); ("/lib", 493)]%string);;
  match cfg_packaged cfg with
  | [] => mret tt
  | files =>
    when no_vfs (stage_dirs [("/usr/share", 493); ("/usr/share/waste", 493); ("/usr/share/licenses", 493);
                             ("/usr/share/licenses/coreutils", 493)]%string);;
    mfor stage_packaged files
  end;;
  stage_probe_file;;
  stage_limits;;
  stage_pump.

(** ** The script *)

Fixpoint mmap {A B} (f : A → M B) (l : list A) : M (list B) :=
  match l with [] => mret [] | a :: l' => b ← f a; bs ← mmap f l'; mret (b :: bs) end.

Definition readString (p : Z) : M (list Z) := h ← get calls; decode_text (cstring E h p).

Definition load_test (index : Z) : M (list (list Z) * bool) :=
  fields ← mmap (λ offset, p ← ask (SuiteField index offset); readString p) (seqZ 0 6);
  x ← ask (SuiteExpectedFailure index);
  mret (fields, negb (x =? 0)).

Definition identity_of (t : list (list Z) * bool) : list Z := default [] (head t.1).

(** The script's address and length; [None] after a list request was answered. *)
Definition prepare_script : M (option (Z * Z)) :=
  match cfg_suite cfg with
  | Some req =>
    count ← ask SuiteLoad;
    if count <? 0 then e ← ask SuiteErrorPtr; readString e;; throw SuiteError
    else
      tests ← mmap load_test (seqZ 0 count);
      match req with
      | SuiteListing => post (OSuiteList tests);; mret None
      | SuiteOther => throw UnknownIdentity
      | SuiteRun name =>
        match list_find (λ t, identity_of t = name) tests with
        | None => throw UnknownIdentity
        | Some (index, _) =>
          p ← ask (SuitePrepare (Z.of_nat index));
          if p =? 0 then e ← ask SuiteErrorPtr; readString e;; throw SuiteError
          else n ← ask SuiteSourceLength; mret (Some (p, n))
        end
      end
  | None =>
    if cfg_shell cfg then mret (Some (0, 0))
    else p ← copy_in (cfg_source cfg) ScriptAllocation; mret (Some (p, zlen (cfg_source cfg)))
  end.

(** ** The report *)

Definition BROWSER_RESULT_BYTES : Z := 256.
Definition BROWSER_RESULT_ERROR_OFFSET : Z := 64.

(** One 256-byte record: a pass byte and, from offset 64, an error text; the name is elsewhere. *)
Definition read_result (resultsPtr i : Z) : M test_result :=
  let base := resultsPtr + i * BROWSER_RESULT_BYTES in
  nameStart ← ask (ResultNamePtr i);
  nameLen ← ask (ResultNameLen i);
  pass ← read base 1;
  name ← read nameStart nameLen;
  error ← read (base + BROWSER_RESULT_ERROR_OFFSET) (BROWSER_RESULT_BYTES - BROWSER_RESULT_ERROR_OFFSET);
  text ← decode_text (until_nul error);
  mret (negb (default 0 (head pass) =? 0), decode_once true name, text).

Definition phase_name (code : Z) : option Z := if (0 <=? code) && (code <=? 4) then Some code else None.

Definition read_failure (i : Z) : M setup_failure :=
  ptr ← ask (SetupFailurePtr i);
  head ← read ptr 12;
  bytes ← read (ptr + 12) (setup_error_bytes cfg);
  text ← decode_text (until_nul bytes);
  mret (mkFailure (default 0 (get_le32 head)) (to_int32 (default 0 (get_le32 (drop 4 head))))
          (phase_name (default 0 (get_le32 (drop 8 head)))) text).

Definition vfs_function : list Z := codes "(vfs)".

(** Leaving the [try] block of [run], once. *)
Definition leave : M unit :=
  p ← get scriptPtr;
  match p with Some p => upd (set_scriptPtr None);; do_call (Free p) | None => mret tt end.

(** The failure count is asked once; nothing runs the engine in between. *)
Definition finish : M unit :=
  flushOutput;;
  when no_suite (p ← ask EvidencePtr; n ← ask EvidenceLen; bytes ← read p n; text ← decode_text bytes; post (OEvidence text));;
  total ← ask ResultsTotal;
  passed ← ask ResultsPassed;
  resultsPtr ← ask ResultsPtr;
  results ← mmap (read_result resultsPtr) (seqZ 0 total);
  st ← ask SetupTotal;
  sp ← ask SetupPassed;
  sc ← ask SetupComplete;
  fc ← ask SetupFailureCount;
  failures ← mmap read_failure (seqZ 0 fc);
  done ← ask ScriptCompleted;
  let ok := (passed =? total) && negb (sc =? 0) && (sp =? st) && negb (done =? 0) in
  when (negb ok) (post (ODoneResults results));;
  stop1 ← ask StopReason;
  stop2 ← ask StopReason;
  exited ← ask GuestExited;
  status ← ask GuestExitStatus;
  post (ODone (mkDone ok total passed results st sp (negb (sc =? 0)) failures (negb (done =? 0))
    (match cfg_suite cfg with
     | Some _ => existsb (λ r : test_result, negb r.1.1 && bool_decide (r.1.2 = vfs_function)) results
     | None => false
     end)
    (stop1 =? 1) (stop2 =? 2) (negb (exited =? 0)) status));;
  leave;;
  upd (set_pc PDone).

(** ** The pump loop *)

Definition fresh_id : M Z :=
  s ← get guestSuiteSequence; upd (set_sequence (s + 1));; mret (s + 1).

Definition host_data : M (list Z) :=
  p ← ask HostIoDataPtr; n ← ask HostIoDataLen; read p n.

(** [EXEC_YIELD_HOST_IO]. *)
Definition host_io : M unit :=
  kind ← ask HostIoKind;
  do_call HostIoVerbose;;
  pathPtr ← ask HostIoPathPtr;
  pathLen ← ask HostIoPathLen;
  pathBytes ← read pathPtr pathLen;
  path ← decode_text pathBytes;
  if kind =? 3 then
    request ← host_data; id ← fresh_id; upd (set_guestSuite id);; post (OSuiteRequest id request)
  else if kind =? 4 then
    id ← fresh_id; upd (set_renderTest id);; post (ORenderRequest id)
  else if kind =? 5 then
    bytes ← host_data; id ← fresh_id; upd (set_clipboard id);; post (OClipboardRequest id bytes)
  else if kind =? 2 then
    bytes ← host_data; post (ODownload path bytes);; do_call HostIoComplete;; upd (set_ioPending true)
  else when (kind =? 1) (post (OUploadRequest path)).

Definition io_ready : M unit :=
  pid ← ask ProcessId; k ← ask WaitKind; post (OIoReady pid k).

(** The body of [while (yielded)] up to its [await]. *)
Definition loop_top : M unit :=
  y ← get yielded;
  if (y : Z) =? 0 then finish
  else
    k ← ask WaitKind;
    if k =? 6 then upd (set_pc PPump)
    else
      when (k =? 5) host_io;;
      timeout ← (if (k =? 1) || (k =? 2) then ask WaitTimeout else mret 0);
      waitForIO timeout.

(** After the pump's [setTimeout]. *)
Definition pump_tick : M unit :=
  dead ← get terminated;
  if (dead : bool) then finish
  else
    y ← ask Resume;
    upd (set_yielded y);; flushOutput;;
    (if y =? 0 then mret tt else k ← ask WaitKind; when (negb (k =? 6)) io_ready);;
    upd (set_pc PTop).

Definition host_request_pending (w : worker) : bool :=
  negb (guestSuitePending w =? 0) || negb (renderTestPending w =? 0) || negb (clipboardPending w =? 0).

(** After [await waitForIO(...)]. *)
Definition wait_over (poll : Z) : M unit :=
  pending ← get host_request_pending;
  dead ← get terminated;
  if (pending : bool) && negb dead then waitForIO poll
  else if (dead : bool) then finish
  else
    y ← ask Resume;
    upd (set_yielded y);; flushOutput;;
    when (negb (y =? 0)) io_ready;;
    upd (set_pc PTop).

(** A resolved waiter continues the loop once the handler has returned. *)
Definition settle (w : worker) : worker :=
  match at_pc w with
  | PWait poll => if ioResolve w then w else set_pc (PResumed poll) w
  | _ => w
  end.

(** ** Events

    The loop runs until its next [await] before any other event is handled, so
    messages and timers are only delivered while it sleeps. *)

Inductive event : Type :=
| EMsg (m : msg)
| EPollTimer       (* the timer of [waitForIO] *)
| ELimitTimer      (* [wakeLimit] *)
| EPumpTimer       (* the pump's [setTimeout(resolve, 0)] *)
| ERun             (* the loop itself, between two awaits *)
| EStart.          (* the [start] message, once the engine is instantiated *)

(** From [exp = instance.exports] to the first test of [while (yielded)]. *)
Definition start_run : M unit :=
  upd (set_instantiated true);;
  stage_all;;
  script ← prepare_script;
  match script with
  | None => upd (set_pc PDone)
  | Some (p, n) =>
    upd (set_scriptPtr (Some p));;
    y ← ask (if cfg_shell cfg then StartShell else RunScript p n);
    upd (set_yielded y);; flushOutput;;
    when no_suite (post (OVfs (match cfg_probe cfg with Some _ => true | None => false end)
      (cfg_vfsPaths cfg ++ (pf_path <$> cfg_packaged cfg))));;
    upd (set_engineReady true);; flushPendingEvents;;
    pid ← ask ProcessId; k ← ask WaitKind; post (OStarted pid k);;
    upd (set_pc PTop)
  end.

(** A rejected [run] reports the error, or the one its [finally] threw, and is over. *)
Definition rejected (e : exn) : M unit := λ w,
  let '(freed, w1) := leave w in
  (post (OFailed (match freed with Ok _ => e | Err e' => e' end));; upd (set_pc PDone)) w1.

Definition run_part (m : M unit) (w : worker) : worker :=
  match m w with
  | (Ok _, w') => w'
  | (Err e, w') => (rejected e w').2
  end.

Definition asleep (w : worker) : bool :=
  match at_pc w with PTop | PResumed _ => false | _ => true end.

Definition handle (e : event) (w : worker) : option worker :=
  match e with
  | EMsg m => if asleep w then Some (settle (onmessage m w).2) else None
  | EPollTimer =>
    match at_pc w with
    | PWait poll => if poll =? 0 then None else Some (settle (set_ioResolve false w))
    | _ => None
    end
  | ELimitTimer =>
    match at_pc w with PPump | PWait _ => Some (settle (wakeIO w).2) | _ => None end
  | EPumpTimer => match at_pc w with PPump => Some (run_part pump_tick w) | _ => None end
  | ERun =>
    match at_pc w with
    | PTop => Some (run_part loop_top w)
    | PResumed poll => Some (run_part (wait_over poll) w)
    | _ => None
    end
  | EStart => match at_pc w with PIdle => Some (run_part start_run w) | _ => None end
  end.

Inductive reachable : worker → Prop :=
| reach_init : reachable initial
| reach_step w e w' : reachable w → handle e w = Some w' → reachable w'.

End worker.
