(* ===== verification/WorkerSafety.v ===== *)
(** * Invariants of the worker

    [keeps I m]: the computation [m] preserves [I] whether it returns or throws.
    The rules below reduce an invariant of the whole worker to its primitive
    state updates and engine calls. *)

From stdpp Require Import base numbers list strings.
From Stdlib Require Import ZArith Lia.
From S2P Require Import Prelude JsNum TermModel Utf8 WatFloat Worker.

#[local] Open Scope Z_scope.

(** ** Preservation *)

Definition keeps {A} (I : worker → Prop) (m : M A) : Prop := ∀ w, I w → I (m w).2.

Section keeps.
Context (I : worker → Prop).

Lemma keeps_ret {A} (a : A) : keeps I (mret a).
Proof. by intros w. Qed.

Lemma keeps_get {A} (f : worker → A) : keeps I (get f).
Proof. by intros w. Qed.

Lemma keeps_throw {A} e : keeps I (throw (A:=A) e).
Proof. by intros w. Qed.

Lemma keeps_upd f : (∀ w, I w → I (f w)) → keeps I (upd f).
Proof. intros H w. apply H. Qed.

Lemma keeps_bind {A B} (m : M A) (k : A → M B) : keeps I m → (∀ a, keeps I (k a)) → keeps I (m ≫= k).
Proof.
  intros Hm Hk w Hw. unfold mbind, M_bind. specialize (Hm w Hw).
  destruct (m w) as [[a|e] w']; simpl in *; [by apply Hk|done].
Qed.

Lemma keeps_seq {A} (m : M unit) (k : M A) : keeps I m → keeps I k → keeps I (m;; k).
Proof. intros Hm Hk. by apply keeps_bind. Qed.

Lemma keeps_when b m : keeps I m → keeps I (when b m).
Proof. intros H. destruct b; [done|apply keeps_ret]. Qed.

Lemma keeps_mfor {A} (f : A → M unit) l : (∀ a, keeps I (f a)) → keeps I (mfor f l).
Proof.
  intros H. induction l as [|a l IH]; simpl; [apply keeps_ret|]. by apply keeps_bind.
Qed.

Lemma keeps_mmap {A B} (f : A → M B) l : (∀ a, keeps I (f a)) → keeps I (mmap f l).
Proof.
  intros H. induction l as [|a l IH]; simpl; [apply keeps_ret|].
  apply keeps_bind; [done|]. intros b. apply keeps_bind; [done|]. intros bs. apply keeps_ret.
Qed.

Lemma keeps_finally {A} (m : M A) f : keeps I m → keeps I f → keeps I (finally m f).
Proof.
  intros Hm Hf w Hw. unfold finally. specialize (Hm w Hw). destruct (m w) as [r w1]. simpl in *.
  specialize (Hf w1 Hm). by destruct (f w1) as [[]].
Qed.

Lemma keeps_rejected E e :
  keeps I (leave E) → (∀ e', keeps I (post (OFailed e'))) → keeps I (upd (set_pc PDone)) → keeps I (rejected E e).
Proof.
  intros Hl Hp Hd w Hw. unfold rejected. specialize (Hl w Hw). destruct (leave E w) as [freed w1].
  by apply keeps_seq.
Qed.

Lemma keeps_read E p n : keeps I (read E p n).
Proof. by intros w. Qed.

(** What the decoder does to the state: the pending output and the decoder change together. *)
Lemma keeps_decode_text bytes :
  (∀ w o d b, I w → I (set_output o d b w)) → keeps I (decode_text bytes).
Proof. intros H w Hw. unfold decode_text. destruct (decode _ _ _ _). by apply H. Qed.

Lemma keeps_run_import h : (∀ w o d b, I w → I (set_output o d b w)) → keeps I (run_import h).
Proof.
  intros H. destruct h as [fd bytes|bytes asF32]; simpl.
  - apply keeps_upd. intros w Hw. unfold posixWrite. destruct (_ || _); [|done]. destruct (decode _ _ _ _). by apply H.
  - unfold hostFloat. apply keeps_bind; [|intros; apply keeps_ret].
    apply keeps_bind; [by apply keeps_decode_text|]. intros text.
    destruct (watFloat text asF32); [apply keeps_ret|]. destruct (literal_throws text asF32); [apply keeps_throw|apply keeps_ret].
Qed.
End keeps.

Create HintDb keeps.
#[export] Hint Resolve keeps_ret keeps_get keeps_throw keeps_read : keeps.

(** Walk through a computation; leaves primitive updates and calls. *)
Ltac keeps_step :=
  match goal with
  | |- keeps _ (_ ≫= _) => apply keeps_bind; [|intros ?]
  | |- keeps _ (when _ _) => apply keeps_when
  | |- keeps _ (mfor _ _) => apply keeps_mfor; intros ?
  | |- keeps _ (mmap _ _) => apply keeps_mmap; intros ?
  | |- keeps _ (finally _ _) => apply keeps_finally
  | |- keeps _ (if ?b then _ else _) => destruct b
  | |- keeps _ (ask _ (if ?b then _ else _)) => destruct b
  | |- keeps _ (match ?x with _ => _ end) => destruct x
  | |- keeps _ (do_call _ _) => unfold do_call
  | |- keeps _ (readString _ _) => unfold readString
  end.
Ltac keeps_walk := repeat (first [solve [eauto with keeps] | keeps_step]).

(** ** Engine calls *)

Definition is_write (h : host_call) : bool := match h with HostWrite _ _ => true | _ => false end.

(** The calls that run guest code or parse scripts. *)
Definition runs (c : call) : bool :=
  match c with Resume | StartShell | RunScript _ _ | SuiteLoad | SuitePrepare _ => true | _ => false end.

(** What the engine promises about its other calls: no literal is converted there. *)
Class Quiet (E : engine) : Prop :=
  quiet h c : runs c = false → Forall (λ i, is_write i = true) (imports E h c).

Lemma set_output_twice o d b o' d' b' w : set_output o' d' b' (set_output o d b w) = set_output o' d' b' w.
Proof. done. Qed.

Lemma set_output_same w : set_output (pendingOutput w) (dec w) (written w) w = w.
Proof. by destruct w. Qed.

(** The imports change the pending output and the decoder only. *)
Lemma imports_state l w : ∃ o d b, (mfor run_import l w).2 = set_output o d b w.
Proof.
  revert w. assert (∀ w, keeps (λ v, ∃ o d b, v = set_output o d b w) (mfor run_import l)) as H.
  { intros w. apply keeps_mfor. intros h. apply keeps_run_import. intros v o d b (o' & d' & b' & ->). eauto. }
  intros w. apply H. exists (pendingOutput w), (dec w), (written w). by rewrite set_output_same.
Qed.

Lemma writes_return l w : Forall (λ i, is_write i = true) l → (mfor run_import l w).1 = Ok tt.
Proof. intros H. revert w. induction H as [|[fd bytes|] l Hi _ IH]; intros w; [done|apply IH|done]. Qed.

Section engine.
Context (E : engine).

(** The state after a call: the imports it made have run. *)
Definition push (c : call) (w : worker) : worker :=
  let v := (mfor run_import (imports E (calls w) c) (set_calls (c :: calls w) w)).2 in
  set_output (pendingOutput v) (dec v) (written v) (set_calls (c :: calls w) w).

Lemma push_run c w : (mfor run_import (imports E (calls w) c) (set_calls (c :: calls w) w)).2 = push c w.
Proof.
  unfold push. destruct (imports_state (imports E (calls w) c) (set_calls (c :: calls w) w)) as (o & d & b & ->). done.
Qed.

Lemma ask_eq c w :
  ask E c w =
  if instantiated w
  then ((let* _ := (mfor run_import (imports E (calls w) c) (set_calls (c :: calls w) w)).1 in Ok (answer E (calls w) c))%waste,
        push c w)
  else (Err TypeError, w).
Proof.
  rewrite <- push_run. unfold ask, mbind, M_bind, get, upd. simpl. destruct (instantiated w); [|done]. simpl.
  by destruct (mfor run_import _ _) as [[[]|e] w'].
Qed.

Lemma ask_state c w : (ask E c w).2 = if instantiated w then push c w else w.
Proof. rewrite ask_eq. by destruct (instantiated w). Qed.

Lemma keeps_ask (I : worker → Prop) c :
  (∀ w o d b, I w → instantiated w = true → I (set_output o d b (set_calls (c :: calls w) w))) →
  keeps I (ask E c).
Proof.
  intros H w Hw. rewrite ask_state. destruct (instantiated w) eqn:Hi; [by apply H|done].
Qed.
End engine.

(** A fact about the value read, if the invariant gives it. *)
Lemma keeps_get_fact {A B} (I : worker → Prop) (P : A → Prop) (f : worker → A) (k : A → M B) :
  (∀ w, I w → P (f w)) → (∀ a, P a → keeps I (k a)) → keeps I (get f ≫= k).
Proof. intros HP Hk w Hw. apply Hk; [by apply HP|done]. Qed.

(** ** Queues and arguments *)

Definition valid_signal (s : Z) (p : Z) : Prop := 1 ≤ s ≤ 128 ∧ 0 ≤ p ≤ 2147483647.
Definition valid_size (c r : Z) : Prop := 1 ≤ c ≤ 65535 ∧ 1 ≤ r ≤ 65535.
Definition is_word (z : Z) : Prop := 0 ≤ z < 2 ^ 32.

(** What the worker promises about the arguments of its engine calls. *)
Definition valid_call (c : call) : Prop :=
  match c with
  | RaisePid s p => valid_signal s p
  | RaisePgid s g => valid_signal s g ∧ g ≠ 0
  | ResizeTerminal c r => valid_size c r
  | AdvanceClock l h | SetRealtime l h | SetMonotonic l h => is_word l ∧ is_word h
  | StageMtime l h n | StageBuildMtime l h n => is_word l ∧ is_word h ∧ is_word n
  | SetExecutionLimits t k => 0 ≤ t ≤ EXECUTION_MAX_TIMEOUT_MS ∧ 0 ≤ k ≤ EXECUTION_MAX_TIMEOUT_MS
  | SetPumpQuantum ms => 0 ≤ ms ≤ EXECUTION_MAX_PUMP_QUANTUM_MS
  | RenderReply _ n => 4 ≤ n ≤ RENDER_TEST_REPLY_MAX_BYTES
  | _ => True
  end.

Definition valid_entry (s : signal_entry) : Prop :=
  valid_signal (sg_signal s) (sg_pid s) ∧ valid_signal (sg_signal s) (sg_pgid s) ∧ (sg_pid s = 0 ∨ sg_pgid s = 0).

Definition valid_clocks (c : clocks) : Prop :=
  is_word (ck_rl c) ∧ is_word (ck_rh c) ∧ is_word (ck_ml c) ∧ is_word (ck_mh c).

Record queues_ok (w : worker) : Prop := {
  q_bytes : pendingInputBytes w = zlen (concat (pendingInput w));
  q_limit : pendingInputBytes w ≤ pendingInputLimit;
  q_signals : zlen (pendingSignals w) ≤ pendingSignalLimit;
  q_entries : Forall valid_entry (pendingSignals w);
  q_resize : ∀ c r, pendingResize w = Some (c, r) → valid_size c r;
  q_clocks : ∀ c, pendingClocks w = Some c → valid_clocks c;
  q_calls : Forall valid_call (calls w) }.

Lemma int_field_range low high f z : int_field low high f = Some z → low ≤ z ≤ high.
Proof.
  unfold int_field. destruct f as [|[z'| |]|]; try done. destruct (_ && _) eqn:H; [|done]. b2p. intros [= <-]. lia.
Qed.

Lemma to_uint32_word z : is_word (to_uint32 z).
Proof. apply to_uint32_range. Qed.

Section queues.
Context (E : engine) (cfg : config).

Lemma queues_ask c : valid_call c → keeps queues_ok (ask E c).
Proof.
  intros Hc. apply keeps_ask. intros w o d b [] _. constructor; try done. by constructor.
Qed.

Lemma queues_upd (f : worker → worker) :
  (∀ w, (pendingInputBytes (f w), pendingInput (f w), pendingSignals (f w), pendingResize (f w), pendingClocks (f w), calls (f w)) =
        (pendingInputBytes w, pendingInput w, pendingSignals w, pendingResize w, pendingClocks w, calls w)) →
  keeps queues_ok (upd f).
Proof.
  intros Hf. apply keeps_upd. intros w []. specialize (Hf w). injection Hf as H1 H2 H3 H4 H5 H6.
  constructor; rewrite ?H1, ?H2, ?H3, ?H4, ?H5, ?H6; done.
Qed.
End queues.

#[export] Hint Extern 1 (keeps queues_ok (ask _ _)) => apply queues_ask; exact Logic.I : keeps.
#[export] Hint Extern 1 (keeps queues_ok (post _)) => apply queues_upd; reflexivity : keeps.
#[export] Hint Extern 1 (keeps queues_ok (upd _)) => apply queues_upd; reflexivity : keeps.
#[export] Hint Extern 1 (keeps queues_ok (decode_text _)) => apply keeps_decode_text; intros ? ? ? ? []; by constructor : keeps.
#[export] Hint Extern 1 (keeps queues_ok (controlError _)) => apply queues_upd; reflexivity : keeps.

Section queues_run.
Context (E : engine) (cfg : config).

Lemma queues_wakeIO : keeps queues_ok wakeIO.
Proof. unfold wakeIO. keeps_walk. Qed.
Hint Resolve queues_wakeIO : keeps.

Lemma queues_waitForIO poll : keeps queues_ok (waitForIO poll).
Proof. unfold waitForIO. keeps_walk. Qed.

Lemma queues_flushOutput : keeps queues_ok flushOutput.
Proof. unfold flushOutput. keeps_walk. Qed.
Hint Resolve queues_waitForIO queues_flushOutput : keeps.

Lemma queues_enqueueInput bytes : keeps queues_ok (enqueueInput E bytes).
Proof. unfold enqueueInput. keeps_walk. Qed.
Hint Resolve queues_enqueueInput : keeps.

Lemma queues_flush_signal s : valid_entry s → keeps queues_ok (flush_signal E s).
Proof.
  intros (Hp & Hg & _). unfold flush_signal. apply keeps_bind; [|intros ret; keeps_walk].
  apply queues_ask. destruct (Z.eqb_spec (sg_pgid s) 0); simpl; [done|]. by split.
Qed.

Lemma queues_flush_resize : keeps queues_ok (flush_resize E).
Proof.
  unfold flush_resize. apply (keeps_get_fact _ (λ r, ∀ c rw, r = Some (c, rw) → valid_size c rw)).
  { intros w Hw. apply Hw. }
  intros [[c rw]|] Hr; [|keeps_walk].
  apply keeps_bind; [apply queues_ask, Hr; done|]. intros ret. apply keeps_bind; [keeps_walk|]. intros _.
  apply keeps_upd. intros w []. by constructor.
Qed.

Lemma queues_flush : keeps queues_ok (flushPendingEvents E).
Proof.
  unfold flushPendingEvents. apply keeps_bind; [keeps_walk|]. intros ready. destruct (negb ready); [keeps_walk|].
  apply keeps_seq; [apply queues_flush_resize|].
  apply keeps_bind; [keeps_walk|]. intros q.
  apply keeps_seq; [keeps_walk|].
  apply keeps_seq; [apply keeps_upd; intros w []; by constructor|].
  apply (keeps_get_fact _ (Forall valid_entry)); [intros w Hw; apply Hw|]. intros s Hs.
  apply keeps_seq.
  - induction Hs as [|e s He _ IH]; simpl; [keeps_walk|].
    apply keeps_seq; [by apply queues_flush_signal|done].
  - apply keeps_upd. intros w []. by constructor.
Qed.
Hint Resolve queues_flush : keeps.

Lemma queues_on_input bytes : keeps queues_ok (on_input E bytes).
Proof.
  unfold on_input. apply keeps_bind; [keeps_walk|]. intros ready. destruct (negb ready); [|keeps_walk].
  intros w [Hb Hl]. unfold mbind, M_bind, get. simpl. unfold when.
  case (Z.leb_spec (pendingInputBytes w + zlen bytes) pendingInputLimit); intros Hle; [|by constructor].
  constructor; simpl; try done.
  rewrite concat_app. unfold zlen in *. rewrite length_app. simpl. rewrite app_nil_r. lia.
Qed.

Lemma queues_on_signal s p g : keeps queues_ok (on_signal E s p g).
Proof.
  unfold on_signal. destruct (int_field 1 128 s) as [s'|] eqn:Hs; [|keeps_walk].
  destruct (int_field 0 2147483647 (or_zero p)) as [p'|] eqn:Hp; [|keeps_walk].
  destruct (int_field 0 2147483647 (or_zero g)) as [g'|] eqn:Hg; [|keeps_walk].
  apply int_field_range in Hs, Hp, Hg. destruct (negb (p' =? 0) && negb (g' =? 0)) eqn:Hx; [keeps_walk|].
  assert (p' = 0 ∨ g' = 0) as Hpg by (destruct (Z.eqb_spec p' 0), (Z.eqb_spec g' 0); auto; done).
  apply keeps_bind; [keeps_walk|]. intros ready. destruct (negb ready).
  - intros w Hw. unfold mbind, M_bind, get. simpl.
    case (Z.ltb_spec (zlen (pendingSignals w)) pendingSignalLimit); intros Hlt; destruct Hw; constructor; simpl; try done.
    + unfold zlen in *. rewrite length_app. simpl. lia.
    + apply Forall_app. split; [done|]. constructor; [unfold valid_entry, valid_signal; simpl; lia|constructor].
  - case (Z.eqb_spec g' 0); intros Hg0; simpl; apply keeps_bind; try (intros; keeps_walk); apply queues_ask; unfold valid_call, valid_signal; lia.
Qed.

Lemma queues_on_resize c r : keeps queues_ok (on_resize E c r).
Proof.
  unfold on_resize. destruct (int_field 1 65535 c) as [c'|] eqn:Hc; [|keeps_walk].
  destruct (int_field 1 65535 r) as [r'|] eqn:Hr; [|keeps_walk]. apply int_field_range in Hc, Hr.
  apply keeps_bind; [keeps_walk|]. intros ready. destruct (negb ready).
  - apply keeps_upd. intros w []. constructor; try done. simpl. intros ? ? [= <- <-]. by split.
  - apply keeps_bind; [apply queues_ask; by split|]. intros ret. keeps_walk.
Qed.

Lemma queues_on_advance_clock l h : keeps queues_ok (on_advance_clock E l h).
Proof.
  unfold on_advance_clock. apply keeps_bind; [keeps_walk|]. intros [|]; [|keeps_walk].
  destruct (int_field 0 4294967295 l) as [l'|] eqn:Hl; [|keeps_walk].
  destruct (int_field 0 4294967295 h) as [h'|] eqn:Hh; [|keeps_walk]. apply int_field_range in Hl, Hh.
  apply keeps_bind; [apply queues_ask|intros ret; keeps_walk]. unfold valid_call, is_word. lia.
Qed.

Lemma queues_on_set_clock a b c d : keeps queues_ok (on_set_clock a b c d).
Proof.
  unfold on_set_clock. destruct (integer a) as [a'|], (integer b) as [b'|], (integer c) as [c'|], (integer d) as [d'|];
    try keeps_walk.
  apply keeps_upd. intros w []. constructor; try done. simpl. intros ? [= <-].
  repeat split; apply to_uint32_word.
Qed.

Lemma queues_reply bytes reply :
  (∀ p, valid_call (reply p (zlen bytes))) → keeps queues_ok (reply_with E bytes reply).
Proof.
  intros Hr. unfold reply_with. apply keeps_bind; [keeps_walk|]. intros ptr. destruct (ptr =? 0); [keeps_walk|].
  apply keeps_seq; [keeps_walk|]. apply keeps_bind; [by apply queues_ask|]. intros ret. keeps_walk.
Qed.

Lemma queues_onmessage m : keeps queues_ok (onmessage E m).
Proof.
  destruct m; simpl.
  - apply queues_on_input.
  - apply queues_on_signal.
  - apply queues_on_resize.
  - apply queues_on_advance_clock.
  - apply queues_on_set_clock.
  - unfold on_suite_response. assert (keeps queues_ok (reply_with E bytes SuiteReply)) by (by apply queues_reply).
    keeps_walk.
  - unfold on_render_response. do 2 (apply keeps_bind; [keeps_walk|intros ?]).
    destruct (_ || _ || _); [keeps_walk|]. apply keeps_bind; [keeps_walk|]. intros kind.
    destruct (negb (kind =? 4)); [keeps_walk|]. apply keeps_seq; [keeps_walk|].
    apply keeps_seq; [|keeps_walk]. destruct (_ || _) eqn:Hl; [keeps_walk|]. b2p.
    apply queues_reply. intros p. unfold valid_call. lia.
  - unfold on_clipboard_response. keeps_walk.
  - unfold on_upload_response. keeps_walk.
  - unfold on_cancel, drop_guest_suite, resolve_waiter. keeps_walk.
  - unfold on_stop, drop_guest_suite, resolve_waiter. keeps_walk.
Qed.

(** *** The loop and the staging *)

Lemma queues_stageVfsMtime t : keeps queues_ok (stageVfsMtime E cfg t).
Proof.
  unfold stageVfsMtime, check.
  destruct t as [[s n]|]; (apply keeps_bind; [apply queues_ask; repeat split; apply to_uint32_word|intros; keeps_walk]).
Qed.
Hint Resolve queues_stageVfsMtime : keeps.

Lemma queues_check c e : valid_call c → keeps queues_ok (check E c e).
Proof. intros Hc. unfold check. apply keeps_bind; [by apply queues_ask|]. intros. keeps_walk. Qed.

Lemma queues_stageVfsPath path kind mode size t : keeps queues_ok (stageVfsPath E cfg path kind mode size t).
Proof. unfold stageVfsPath, copy_in. keeps_walk. Qed.
Lemma queues_stageVfsSymlink path target mode t : keeps queues_ok (stageVfsSymlink E cfg path target mode t).
Proof. unfold stageVfsSymlink, copy_in2. keeps_walk. Qed.
Lemma queues_stage_file path bytes mode t : keeps queues_ok (stage_file E cfg path bytes mode t).
Proof. unfold stage_file, copy_in2. keeps_walk. Qed.
Hint Resolve queues_stageVfsPath queues_stageVfsSymlink queues_stage_file : keeps.

Lemma queues_stage_packaged f : keeps queues_ok (stage_packaged E cfg f).
Proof. unfold stage_packaged. keeps_walk. Qed.
Lemma queues_stage_dirs l : keeps queues_ok (stage_dirs E cfg l).
Proof. unfold stage_dirs. keeps_walk. Qed.
Hint Resolve queues_stage_packaged queues_stage_dirs : keeps.

Lemma queues_stageInstalledVfs v : keeps queues_ok (stageInstalledVfs E v).
Proof. unfold stageInstalledVfs, submit, check. keeps_walk. Qed.
Hint Resolve queues_stageInstalledVfs : keeps.

Lemma queues_stage_clocks : keeps queues_ok (stage_clocks E).
Proof.
  unfold stage_clocks. apply (keeps_get_fact _ (λ k, ∀ c, k = Some c → valid_clocks c)); [intros w Hw; apply Hw|].
  intros [c|] Hc; [|keeps_walk]. destruct (Hc c eq_refl) as (H1 & H2 & H3 & H4).
  apply keeps_bind; [apply queues_ask; by split|]. intros a.
  apply keeps_bind; [destruct (a =? 0); [apply queues_ask; by split|keeps_walk]|]. intros b.
  apply keeps_seq; [|keeps_walk]. apply keeps_upd. intros w []. by constructor.
Qed.

Lemma queues_stage_limits : keeps queues_ok (stage_limits E cfg).
Proof.
  unfold stage_limits. destruct (cfg_limits cfg) as [l|]; [|keeps_walk].
  destruct (int_field _ _ (or_default 0 (lm_timeout l))) as [t|] eqn:Ht; [|keeps_walk].
  destruct (int_field _ _ (or_default 0 (lm_cancel l))) as [k|] eqn:Hk; [|keeps_walk].
  apply int_field_range in Ht, Hk. by apply queues_check.
Qed.

Lemma queues_stage_pump : keeps queues_ok (stage_pump E cfg).
Proof.
  unfold stage_pump. destruct (int_field _ _ _) as [ms|] eqn:Hms; [|keeps_walk].
  apply int_field_range in Hms. by apply queues_check.
Qed.
Hint Resolve queues_stage_clocks queues_stage_limits queues_stage_pump : keeps.

Lemma queues_stage_build_mtime : keeps queues_ok (stage_build_mtime E cfg).
Proof.
  unfold stage_build_mtime. destruct (cfg_buildMtime cfg) as [[s n]|]; [|keeps_walk].
  apply queues_check. repeat split; apply to_uint32_word.
Qed.
Hint Resolve queues_stage_build_mtime : keeps.

Lemma queues_stage_all : keeps queues_ok (stage_all E cfg).
Proof. unfold stage_all, stage_probe_executable, stage_cwd, stage_probe_file, copy_in. keeps_walk. Qed.

Lemma queues_prepare_script : keeps queues_ok (prepare_script E cfg).
Proof. unfold prepare_script, load_test, copy_in. keeps_walk. Qed.

Lemma queues_leave : keeps queues_ok (leave E).
Proof. unfold leave. keeps_walk. Qed.
Hint Resolve queues_leave : keeps.

Lemma queues_finish : keeps queues_ok (finish E cfg).
Proof. unfold finish, read_result, read_failure. keeps_walk. Qed.
Hint Resolve queues_stage_all queues_prepare_script queues_finish : keeps.

Lemma queues_loop_top : keeps queues_ok (loop_top E cfg).
Proof. unfold loop_top, host_io, host_data, fresh_id. keeps_walk. Qed.
Lemma queues_pump_tick : keeps queues_ok (pump_tick E cfg).
Proof. unfold pump_tick, io_ready. keeps_walk. Qed.
Lemma queues_wait_over poll : keeps queues_ok (wait_over E cfg poll).
Proof. unfold wait_over, io_ready. keeps_walk. Qed.
Lemma queues_start_run : keeps queues_ok (start_run E cfg).
Proof. unfold start_run. keeps_walk. Qed.

Lemma queues_run_part m w : keeps queues_ok m → queues_ok w → queues_ok (run_part E m w).
Proof.
  intros Hm Hw. unfold run_part. specialize (Hm w Hw). destruct (m w) as [[]w']; [done|].
  revert w' Hm. change (keeps queues_ok (rejected E e)). apply keeps_rejected; keeps_walk.
Qed.

Lemma queues_settle w : queues_ok w → queues_ok (settle w).
Proof. intros []. unfold settle. destruct (at_pc w); try done. destruct (ioResolve w); done. Qed.

Lemma queues_handle e w w' : queues_ok w → handle E cfg e w = Some w' → queues_ok w'.
Proof.
  intros Hw. destruct e; simpl.
  - destruct (asleep w); [|done]. intros [= <-]. by apply queues_settle, queues_onmessage.
  - destruct (at_pc w); try done. destruct (poll =? 0); [done|]. intros [= <-]. apply queues_settle. by destruct Hw.
  - destruct (at_pc w); try done; intros [= <-]; by apply queues_settle, queues_wakeIO.
  - destruct (at_pc w); try done. intros [= <-]. apply queues_run_part; [apply queues_pump_tick|done].
  - destruct (at_pc w); try done; intros [= <-]; apply queues_run_part;
      auto using queues_loop_top, queues_wait_over.
  - destruct (at_pc w); try done. intros [= <-]. apply queues_run_part; [apply queues_start_run|done].
Qed.

Lemma reachable_queues w : reachable E cfg w → queues_ok w.
Proof.
  induction 1 as [|w e w' _ IH Hh]; [|by eapply queues_handle].
  by constructor; simpl; try done; constructor.
Qed.
End queues_run.
