(* ===== verification/WorkerLoop.v ===== *)
(** * The worker's loop: sleeping, waking and output

    Invariants that do not depend on the arguments of engine calls are closed
    under a few primitives; [closed_onmessage] and the lemmas on the loop lift
    them to every handler. *)

From stdpp Require Import base numbers list strings.
From Stdlib Require Import ZArith Lia.
From S2P Require Import Prelude JsNum TermModel Utf8 WatFloat Worker WorkerSafety.

#[local] Open Scope Z_scope.

Section closed.
Context (E : engine) (cfg : config) (I : worker → Prop).

(** What message handlers do to the state. *)
Record closed : Prop := {
  cl_ask c : keeps I (ask E c);
  cl_post o : (∀ bytes, o ≠ OOutput bytes) → keeps I (post o);
  cl_wake : keeps I wakeIO;
  cl_resolve : keeps I resolve_waiter;
  cl_resize v : keeps I (upd (set_pendingResize v));
  cl_input q n : keeps I (upd (set_input q n));
  cl_signals v : keeps I (upd (set_pendingSignals v));
  cl_clocks v : keeps I (upd (set_pendingClocks v));
  cl_suite v : keeps I (upd (set_guestSuite v));
  cl_render v : keeps I (upd (set_renderTest v));
  cl_clipboard v : keeps I (upd (set_clipboard v));
  cl_terminated : keeps I (upd (set_terminated true)) }.

(** What the loop does besides: everything but going to sleep. *)
Record closed_loop : Prop := {
  cl_flush : keeps I flushOutput;
  cl_decode bytes : keeps I (decode_text bytes);
  cl_pending : keeps I (upd (set_ioPending true));
  cl_instantiated : keeps I (upd (set_instantiated true));
  cl_ready : keeps I (upd (set_engineReady true));
  cl_yielded v : keeps I (upd (set_yielded v));
  cl_script v : keeps I (upd (set_scriptPtr v));
  cl_sequence v : keeps I (upd (set_sequence v));
  cl_pc p : (∀ poll, p ≠ PWait poll) → keeps I (upd (set_pc p)) }.

Context (HC : closed).
Hint Extern 1 (keeps I _) => first [apply (cl_ask HC) | apply (cl_wake HC) | apply (cl_resolve HC)
  | apply (cl_resize HC) | apply (cl_input HC) | apply (cl_signals HC) | apply (cl_clocks HC)
  | apply (cl_suite HC) | apply (cl_render HC) | apply (cl_clipboard HC) | apply (cl_terminated HC)] : keeps.
Hint Extern 1 (keeps I (post _)) => apply (cl_post HC); discriminate : keeps.
Hint Extern 1 (keeps I (controlError _)) => apply (cl_post HC); discriminate : keeps.

Lemma closed_enqueueInput bytes : keeps I (enqueueInput E bytes).
Proof. unfold enqueueInput. keeps_walk. Qed.
Hint Resolve closed_enqueueInput : keeps.

Lemma closed_flushPendingEvents : keeps I (flushPendingEvents E).
Proof. unfold flushPendingEvents, flush_resize, flush_signal. keeps_walk. Qed.
Hint Resolve closed_flushPendingEvents : keeps.

Lemma closed_reply bytes reply : keeps I (reply_with E bytes reply).
Proof. unfold reply_with. keeps_walk. Qed.
Hint Resolve closed_reply : keeps.

Lemma closed_onmessage m : keeps I (onmessage E m).
Proof.
  destruct m; simpl; unfold on_input, on_signal, on_resize, on_advance_clock, on_set_clock, on_suite_response,
    on_render_response, on_clipboard_response, on_upload_response, on_cancel, on_stop, drop_guest_suite; keeps_walk.
Qed.

Context (HL : closed_loop).
Hint Extern 1 (keeps I _) => first [apply (cl_flush HL) | apply (cl_decode HL) | apply (cl_pending HL) | apply (cl_instantiated HL)
  | apply (cl_ready HL) | apply (cl_yielded HL) | apply (cl_script HL) | apply (cl_sequence HL)] : keeps.
Hint Extern 1 (keeps I (upd (set_pc _))) => apply (cl_pc HL); discriminate : keeps.

Lemma closed_stageVfsMtime t : keeps I (stageVfsMtime E cfg t).
Proof. unfold stageVfsMtime, check. keeps_walk. Qed.
Hint Resolve closed_stageVfsMtime : keeps.

Lemma closed_stageVfsPath path kind mode size t : keeps I (stageVfsPath E cfg path kind mode size t).
Proof. unfold stageVfsPath, copy_in. keeps_walk. Qed.
Lemma closed_stage_file path bytes mode t : keeps I (stage_file E cfg path bytes mode t).
Proof. unfold stage_file, copy_in2. keeps_walk. Qed.
Hint Resolve closed_stageVfsPath closed_stage_file : keeps.

Lemma closed_stage_all : keeps I (stage_all E cfg).
Proof.
  unfold stage_all, stage_clocks, stageInstalledVfs, submit, stage_build_mtime, stage_probe_executable, stage_dirs,
    stage_cwd, stage_packaged, stageVfsSymlink, stage_probe_file, stage_limits, stage_pump, check, copy_in, copy_in2.
  keeps_walk.
Qed.

Lemma closed_prepare_script : keeps I (prepare_script E cfg).
Proof. unfold prepare_script, load_test, copy_in. keeps_walk. Qed.

Lemma closed_leave : keeps I (leave E).
Proof. unfold leave. keeps_walk. Qed.
Hint Resolve closed_leave : keeps.

Lemma closed_finish : keeps I (finish E cfg).
Proof. unfold finish, read_result, read_failure. keeps_walk. Qed.
Hint Resolve closed_stage_all closed_prepare_script closed_finish : keeps.

Lemma closed_host_io : keeps I (host_io E).
Proof. unfold host_io, host_data, fresh_id. keeps_walk. Qed.
Hint Resolve closed_host_io : keeps.

Lemma closed_io_ready : keeps I (io_ready E).
Proof. unfold io_ready. keeps_walk. Qed.
Hint Resolve closed_io_ready : keeps.

Lemma closed_start_run : keeps I (start_run E cfg).
Proof. unfold start_run. keeps_walk. Qed.

Lemma closed_pump_tick : keeps I (pump_tick E cfg).
Proof. unfold pump_tick. keeps_walk. Qed.

Lemma closed_failed e : keeps I (rejected E e).
Proof. apply keeps_rejected; keeps_walk. Qed.

(** *** Going to sleep *)

(** From [I], [m] returns in [Q] or throws in [I]. *)
Definition ends {A} (Q : worker → Prop) (m : M A) : Prop :=
  ∀ w, I w → match m w with (Ok _, w') => Q w' | (Err _, w') => I w' end.

Context (Q : worker → Prop) (HQ : ∀ w, I w → Q w) (Hwait : ∀ poll, ends Q (waitForIO poll)).

Lemma ends_keeps {A} (m : M A) : keeps I m → ends Q m.
Proof. intros H w Hw. specialize (H w Hw). destruct (m w) as [[]]; [by apply HQ|done]. Qed.

Lemma ends_bind {A B} (m : M A) (k : A → M B) : keeps I m → (∀ a, ends Q (k a)) → ends Q (m ≫= k).
Proof.
  intros Hm Hk w Hw. unfold mbind, M_bind. specialize (Hm w Hw).
  destruct (m w) as [[a|e] w']; simpl in *; [by apply Hk|done].
Qed.

Lemma loop_top_ends : ends Q (loop_top E cfg).
Proof.
  unfold loop_top. apply ends_bind; [keeps_walk|]. intros y. destruct (y =? 0); [apply ends_keeps; keeps_walk|].
  apply ends_bind; [keeps_walk|]. intros k. destruct (k =? 6); [apply ends_keeps; keeps_walk|].
  apply ends_bind; [keeps_walk|]. intros _. apply ends_bind; [keeps_walk|]. intros t. apply Hwait.
Qed.

Lemma wait_over_ends poll : ends Q (wait_over E cfg poll).
Proof.
  unfold wait_over. apply ends_bind; [keeps_walk|]. intros pending. apply ends_bind; [keeps_walk|]. intros dead.
  destruct (pending && negb dead); [apply Hwait|]. apply ends_keeps. keeps_walk.
Qed.
End closed.

(** An invariant of every step that every event preserves. *)
Section closed_events.
Context (E : engine) (cfg : config) (I : worker → Prop) (HC : closed E I) (HL : closed_loop I)
        (Hwait : ∀ poll, keeps I (waitForIO poll)) (Hres : ∀ w, I w → I (set_ioResolve false w)).

Lemma closed_settle w : I w → I (settle w).
Proof.
  intros Hw. unfold settle. destruct (at_pc w); try done. destruct (ioResolve w); [done|].
  apply (cl_pc _ HL (PResumed poll)); [discriminate|done].
Qed.

Lemma closed_run_part m w : I w → ends I I m → I (run_part E m w).
Proof.
  intros Hw Hm. unfold run_part. specialize (Hm w Hw). destruct (m w) as [[]w']; [done|].
  exact (closed_failed E _ HC HL e w' Hm).
Qed.

Lemma closed_handle e w w' : I w → handle E cfg e w = Some w' → I w'.
Proof.
  intros Hs. assert (∀ A (m : M A), keeps I m → ends I I m) as Hk by (intros A m; by apply ends_keeps). destruct e; simpl.
  - destruct (asleep w); [|done]. intros [= <-]. by apply closed_settle, closed_onmessage.
  - destruct (at_pc w); try done. destruct (poll =? 0); [done|]. intros [= <-]. by apply closed_settle, Hres.
  - destruct (at_pc w); try done; intros [= <-]; by apply closed_settle, (cl_wake E _ HC).
  - destruct (at_pc w); try done. intros [= <-]. by apply closed_run_part, Hk, closed_pump_tick.
  - destruct (at_pc w); try done; intros [= <-]; (apply closed_run_part; [done|]);
      [apply loop_top_ends|apply wait_over_ends]; auto.
  - destruct (at_pc w); try done. intros [= <-]. by apply closed_run_part, Hk, closed_start_run.
Qed.
End closed_events.

(** ** Sleeping *)

Definition is_wait (p : pc) : bool := match p with PWait _ => true | _ => false end.

(** The loop waits exactly when a resolver is installed, and never with a wake-up pending. *)
Definition sleep_ok (w : worker) : Prop :=
  (ioResolve w = true → is_wait (at_pc w) = true ∧ ioPending w = false) ∧
  (is_wait (at_pc w) = true → ioResolve w = true).

Definition awake (w : worker) : Prop := ioResolve w = false ∧ is_wait (at_pc w) = false.

Definition in_handler (p : pc) (w : worker) : Prop :=
  at_pc w = p ∧ (ioResolve w = true → is_wait p = true ∧ ioPending w = false).

(** Updates and calls that touch none of the three fields. *)
Ltac frame_fields :=
  first [apply keeps_upd; by intros w [] | apply keeps_ask; by intros w o d b [] ? | apply keeps_decode_text; by intros w o d b []].

Section sleep.
Context (E : engine) (cfg : config).

Lemma closed_awake : closed E awake.
Proof.
  split; intros; try frame_fields.
  - intros w [H1 H2]. unfold wakeIO, mbind, M_bind, get. simpl. rewrite H1. by split.
  - intros w [H1 H2]. unfold resolve_waiter, mbind, M_bind, get. simpl. rewrite H1. by split.
Qed.

Lemma closed_loop_awake : closed_loop awake.
Proof.
  split; intros; try frame_fields.
  - intros w [H1 H2]. unfold flushOutput, mbind, M_bind, get. simpl. by destruct (pendingOutput w).
  - apply keeps_upd. intros w [H1 H2]. split; [done|]. destruct p; try done. naive_solver.
Qed.

Lemma closed_in_handler p : closed E (in_handler p).
Proof.
  split; intros; try frame_fields.
  - intros w [H1 H2]. unfold wakeIO, mbind, M_bind, get. simpl. destruct (ioResolve w) eqn:Hr; split; simpl; try done.
    by rewrite Hr.
  - intros w [H1 H2]. unfold resolve_waiter, mbind, M_bind, get. simpl. destruct (ioResolve w) eqn:Hr; split; simpl; try done.
    by rewrite Hr.
Qed.

Lemma awake_sleep_ok w : awake w → sleep_ok w.
Proof. intros [H1 H2]. split; rewrite H1, ?H2; done. Qed.

Lemma sleep_ok_awake w : sleep_ok w → is_wait (at_pc w) = false → awake w.
Proof.
  intros [H1 H2] Hw. split; [|done]. destruct (ioResolve w); [|done].
  destruct H1 as [H1 _]; [done|]. congruence.
Qed.

Lemma waitForIO_sleep_ok poll : ends awake sleep_ok (waitForIO poll).
Proof.
  intros w [H1 H2]. unfold waitForIO, mbind, M_bind, get. simpl. destruct (ioPending w) eqn:Hp; simpl.
  - split; simpl; [congruence|done].
  - split; simpl; done.
Qed.

Lemma settle_sleep_ok w : in_handler (at_pc w) w → sleep_ok (settle w).
Proof.
  intros [_ H]. unfold settle. destruct (at_pc w) eqn:Hp; try (split; rewrite ?Hp; [exact H|done]).
  destruct (ioResolve w) eqn:Hr; split; simpl; rewrite ?Hp, ?Hr; try done.
Qed.

Lemma run_part_sleep_ok m w : awake w → ends awake sleep_ok m → sleep_ok (run_part E m w).
Proof.
  intros Hw Hm. unfold run_part. specialize (Hm w Hw). destruct (m w) as [[]w']; [done|].
  apply awake_sleep_ok. exact (closed_failed E awake closed_awake closed_loop_awake e w' Hm).
Qed.

Lemma sleep_ok_handler w : sleep_ok w → in_handler (at_pc w) w.
Proof. intros [H _]. by split. Qed.

Lemma settle_handler p w : in_handler p w → sleep_ok (settle w).
Proof. intros Hw. apply settle_sleep_ok. destruct Hw as [<- Hw]. by split. Qed.

Lemma sleep_handle e w w' : sleep_ok w → handle E cfg e w = Some w' → sleep_ok w'.
Proof.
  intros Hs. pose proof (sleep_ok_handler w Hs) as Hh. pose proof (sleep_ok_awake w Hs) as Ha.
  destruct e; simpl.
  - destruct (asleep w); [|done]. intros [= <-].
    exact (settle_handler _ _ (closed_onmessage E _ (closed_in_handler _) m w Hh)).
  - destruct (at_pc w) eqn:Hp; try done. destruct (poll =? 0); [done|]. intros [= <-].
    apply (settle_handler (PWait poll)). by split.
  - destruct (at_pc w) eqn:Hp; try done; intros [= <-];
      exact (settle_handler _ _ (cl_wake E _ (closed_in_handler _) w Hh)).
  - destruct (at_pc w) eqn:Hp; try done. intros [= <-]. apply run_part_sleep_ok; [by apply Ha|].
    apply ends_keeps; [apply awake_sleep_ok|]. apply closed_pump_tick; [apply closed_awake|apply closed_loop_awake].
  - destruct (at_pc w) eqn:Hp; try done; intros [= <-]; (apply run_part_sleep_ok; [by apply Ha|]).
    + apply loop_top_ends; [apply closed_awake|apply closed_loop_awake|apply awake_sleep_ok|apply waitForIO_sleep_ok].
    + apply wait_over_ends; [apply closed_awake|apply closed_loop_awake|apply awake_sleep_ok|apply waitForIO_sleep_ok].
  - destruct (at_pc w) eqn:Hp; try done. intros [= <-]. apply run_part_sleep_ok; [by apply Ha|].
    apply ends_keeps; [apply awake_sleep_ok|]. apply closed_start_run; [apply closed_awake|apply closed_loop_awake].
Qed.

Lemma reachable_sleep w : reachable E cfg w → sleep_ok w.
Proof. induction 1 as [|w e w' _ IH Hh]; [by split|by eapply sleep_handle]. Qed.
End sleep.

(** ** Output *)

Fixpoint outputs (l : list out) : list Z :=
  match l with [] => [] | OOutput b :: l' => b ++ outputs l' | _ :: l' => outputs l' end.

Lemma outputs_app l1 l2 : outputs (l1 ++ l2) = outputs l1 ++ outputs l2.
Proof. induction l1 as [|o l1 IH]; [done|]. destruct o; simpl; rewrite IH; [done| |done..]. by rewrite app_assoc. Qed.

(** A piece of the output, decoded from the start of a stream. *)
Definition stream_text (bytes : list Z) : list Z := (decode false true bytes new_decoder).1.

(** The output is cut where another text was decoded: whole pieces, then the current one. *)
Definition out_pieces (w : worker) (pieces : list (list Z)) (current : list Z) : Prop :=
  concat pieces ++ current = written w ∧
  outputs (outbox w) ++ pendingOutput w = (pieces ≫= stream_text) ++ stream_text current ∧
  (d_doNotFlush (dec w) = false ∧ current = [] ∨ dec w = (decode false true current new_decoder).2).

Definition out_ok (w : worker) : Prop := ∃ pieces current, out_pieces w pieces current.

Lemma decode_fresh ib stream bytes d :
  d_doNotFlush d = false → decode ib stream bytes d = decode ib stream bytes new_decoder.
Proof. intros H. unfold decode. by rewrite H. Qed.

Lemma decode_flag ib stream bytes d : d_doNotFlush (decode ib stream bytes d).2 = stream.
Proof. unfold decode. destruct (utf8_run _ _), (serialize _ _ _). done. Qed.

Lemma out_post o w : (∀ text, o ≠ OOutput text) → out_ok w → out_ok (set_outbox (outbox w ++ [o]) w).
Proof.
  intros Ho (ps & cur & H1 & H2 & H3). exists ps, cur. split; [done|]. split; [|done]. simpl.
  rewrite outputs_app. destruct o; simpl; rewrite ?app_nil_r; try done. by destruct (Ho text).
Qed.

Lemma out_write fd bytes w : out_ok w → out_ok (posixWrite fd bytes w).
Proof.
  intros (ps & cur & H1 & H2 & H3). unfold posixWrite. destruct (_ || _); [|by exists ps, cur].
  pose proof (decode_app false cur bytes new_decoder) as Happ.
  destruct (decode false true bytes (dec w)) as [text d] eqn:Hd.
  exists ps, (cur ++ bytes). split; [simpl; by rewrite app_assoc, H1|]. simpl.
  rewrite app_assoc, H2, <- app_assoc. unfold stream_text. destruct H3 as [[Hf ->]|H3].
  - rewrite decode_fresh in Hd by done. simpl. rewrite Hd. by auto.
  - rewrite H3 in Hd. destruct (decode false true cur new_decoder) as [t1 d1]. simpl in *.
    rewrite Hd in Happ. rewrite Happ. by auto.
Qed.

Lemma out_decode_text bytes : keeps out_ok (decode_text bytes).
Proof.
  intros w (ps & cur & H1 & H2 & H3). unfold decode_text.
  pose proof (decode_flag false false bytes (dec w)) as Hf. destruct (decode false false bytes (dec w)) as [text d].
  exists (ps ++ [cur]), []. split; [|split; [|by left]]; simpl.
  - rewrite concat_app. simpl. by rewrite !app_nil_r.
  - rewrite H2, bind_app. simpl. by rewrite !app_nil_r.
Qed.

Lemma out_run_import h : keeps out_ok (run_import h).
Proof.
  destruct h as [fd bytes|bytes asF32]; simpl; [apply keeps_upd, out_write|].
  unfold hostFloat. pose proof out_decode_text. keeps_walk.
Qed.

Section output.
Context (E : engine) (cfg : config).

Lemma closed_out : closed E out_ok.
Proof.
  split; intros; try (apply keeps_upd; by intros w).
  - intros w Hw. rewrite ask_state. destruct (instantiated w); [|done]. rewrite <- push_run.
    apply (keeps_mfor out_ok run_import); [apply out_run_import|]. exact Hw.
  - apply keeps_upd. intros w Hw. by apply out_post.
  - intros w Hw. unfold wakeIO, mbind, M_bind, get. simpl. by destruct (ioResolve w).
  - intros w Hw. unfold resolve_waiter, mbind, M_bind, get. simpl. by destruct (ioResolve w).
Qed.

Lemma closed_loop_out : closed_loop out_ok.
Proof.
  split; intros; try (apply keeps_upd; by intros w); [|apply out_decode_text].
  intros w (ps & cur & H1 & H2 & H3). unfold flushOutput, mbind, M_bind, get. simpl.
  destruct (pendingOutput w) as [|b l] eqn:Hp; [exists ps, cur; split; [done|]; split; [simpl; by rewrite Hp|done]|].
  exists ps, cur. split; [done|]. split; [|done]. simpl. rewrite outputs_app. simpl. rewrite !app_nil_r.
  by rewrite <- H2.
Qed.

Lemma out_waitForIO poll : keeps out_ok (waitForIO poll).
Proof. intros w Hw. unfold waitForIO, mbind, M_bind, get. simpl. by destruct (ioPending w). Qed.

Lemma out_handle e w w' : out_ok w → handle E cfg e w = Some w' → out_ok w'.
Proof. apply closed_handle; [apply closed_out|apply closed_loop_out|apply out_waitForIO|done]. Qed.

Lemma reachable_out w : reachable E cfg w → out_ok w.
Proof. induction 1 as [|w e w' _ IH Hh]; [exists [], []; split; [done|split; [done|by left]]|by eapply out_handle]. Qed.
End output.
