(* ===== verification/WorkerTheorems.v ===== *)
(** * Theorems on the worker

    Claims about the event loop of worker.js for an arbitrary engine: bounds on
    queues and call arguments, wake-ups, output order, replay of early events,
    single replies, staging, and two places where the code departs from its own
    conventions. *)

From stdpp Require Import base numbers list strings.
From Stdlib Require Import ZArith Lia.
From S2P Require Import Prelude JsNum TermModel Utf8 WatFloat Worker WorkerSafety WorkerLoop.

#[local] Open Scope Z_scope.

(** ** Running calls forward *)

Section quiet_calls.
Context (E : engine) {HQ : Quiet E}.

(** A call that runs no guest code returns. *)
Lemma ask_run c : runs c = false → ∀ w, instantiated w = true → ask E c w = (Ok (answer E (calls w) c), push E c w).
Proof.
  intros Hc w Hi. rewrite ask_eq, Hi. by rewrite writes_return by (by apply quiet).
Qed.

Lemma do_call_run c : runs c = false → ∀ w, instantiated w = true → do_call E c w = (Ok tt, push E c w).
Proof. intros Hc w H. unfold do_call, mbind, M_bind. by rewrite ask_run. Qed.
End quiet_calls.

(** Any other call returns or throws, in the same state. *)
Lemma ask_bind E {A} c (k : Z → M A) w :
  instantiated w = true →
  (∃ e, (ask E c ≫= k) w = (Err e, push E c w)) ∨ (ask E c ≫= k) w = k (answer E (calls w) c) (push E c w).
Proof.
  intros Hi. unfold mbind, M_bind. rewrite ask_eq, Hi. destruct (mfor _ _ _).1 as [[]|e]; simpl; eauto.
Qed.

Lemma bind_run {A B} (m : M A) (k : A → M B) w a w' : m w = (Ok a, w') → (m ≫= k) w = k a w'.
Proof. intros H. unfold mbind, M_bind. by rewrite H. Qed.

(** A fake engine for the witnesses: it allocates at 64, always waits for input, writes nothing. *)
Definition fake : engine := mkEngine (λ _ c, match c with Alloc _ => 64 | WaitKind | Resume | StartShell => 1 | _ => 0 end)
  (λ _ _, []) (λ _ _ _, []) (λ _ _, []).

#[export] Instance fake_quiet : Quiet fake.
Proof. intros h c _. constructor. Qed.

Definition fake_config : config := mkConfig [] None [] None None [] None None true 0 192.

(** ** Delivered input and signals *)

(** The chunks handed to the engine, oldest first. *)
Fixpoint inputs_of (h : list call) : list (list Z) :=
  match h with
  | [] => []
  | EnqueueInput _ _ :: (Store _ b :: _) as h' => inputs_of h' ++ [b]
  | _ :: h' => inputs_of h'
  end.

(** The signals raised, oldest first. *)
Fixpoint signals_of (h : list call) : list signal_entry :=
  match h with
  | [] => []
  | RaisePid s p :: h' => signals_of h' ++ [mkSignal s p 0]
  | RaisePgid s g :: h' => signals_of h' ++ [mkSignal s 0 g]
  | _ :: h' => signals_of h'
  end.

Lemma inputs_of_other c h : (∀ p n, c ≠ EnqueueInput p n) → inputs_of (c :: h) = inputs_of h.
Proof. intros H. destruct c; try done. by destruct (H p n). Qed.

Definition chunk (b : list Z) : list (list Z) := match b with [] => [] | _ => [b] end.

(** The fields the replay does not touch. *)
Definition same_queues (w w' : worker) : Prop :=
  instantiated w' = instantiated w ∧ guestSuitePending w' = guestSuitePending w ∧
  pendingInput w' = pendingInput w ∧ pendingSignals w' = pendingSignals w.

Section replay.
Context (E : engine) {HQ : Quiet E} (Halloc : ∀ h n, answer E h (Alloc n) ≠ 0).

Lemma wakeIO_run w : ∃ w', wakeIO w = (Ok tt, w') ∧ calls w' = calls w ∧ same_queues w w' ∧ pendingResize w' = pendingResize w.
Proof. unfold wakeIO, mbind, M_bind, get. simpl. destruct (ioResolve w); by eexists. Qed.

(** Nothing in [bytes] interrupts a batch. *)
Definition passes (w : worker) (bytes : list Z) : Prop := guestSuitePending w = 0 ∨ 3 ∉ bytes.

Lemma passes_app w a b : passes w (a ++ b) → passes w a ∧ passes w b.
Proof. unfold passes. rewrite not_elem_of_app. tauto. Qed.

Lemma enqueueInput_run bytes w :
  instantiated w = true → passes w bytes →
  ∃ w', enqueueInput E bytes w = (Ok tt, w') ∧ same_queues w w' ∧
    inputs_of (calls w') = inputs_of (calls w) ++ chunk bytes ∧
    signals_of (calls w') = signals_of (calls w).
Proof.
  intros Hi Hg. unfold enqueueInput.
  rewrite (bind_run _ _ w (guestSuitePending w) w) by done.
  assert (negb (guestSuitePending w =? 0) && bool_decide (3 ∈ bytes) = false) as ->.
  { destruct Hg as [-> |Hg]; [done|]. by rewrite (bool_decide_eq_false_2 _ Hg), andb_false_r. }
  rewrite (bind_run _ _ w tt w) by done.
  destruct bytes as [|b bytes]; [exists w; by rewrite app_nil_r|].
  set (l := b :: bytes). rewrite (bind_run _ _ _ _ _ (ask_run E (Alloc (zlen l)) eq_refl w Hi)).
  rewrite (proj2 (Z.eqb_neq _ 0)) by apply Halloc. set (ptr := answer E _ _).
  rewrite (bind_run _ _ _ _ _ (do_call_run E (Store ptr l) eq_refl (push E _ w) Hi)).
  rewrite (bind_run _ _ _ _ _ (do_call_run E (EnqueueInput ptr (zlen l)) eq_refl (push E _ (push E _ w)) Hi)).
  destruct (wakeIO_run (push E (EnqueueInput ptr (zlen l)) (push E (Store ptr l) (push E (Alloc (zlen l)) w))))
    as (w' & Hw & Hc & Hs & _).
  exists w'. split; [done|]. split; [done|]. by rewrite Hc.
Qed.

Lemma enqueue_all_run q w :
  instantiated w = true → passes w (concat q) →
  ∃ w', mfor (enqueueInput E) q w = (Ok tt, w') ∧ same_queues w w' ∧
    inputs_of (calls w') = inputs_of (calls w) ++ filter (λ b, b ≠ []) q ∧ signals_of (calls w') = signals_of (calls w).
Proof.
  revert w. induction q as [|b q IH]; intros w Hi Hg; [exists w; by rewrite app_nil_r|]. simpl in *.
  apply passes_app in Hg as [Hb Hg]. destruct (enqueueInput_run b w Hi Hb) as (w1 & H1 & (Ei & Eg & Eq & Es) & Hin & Hsg).
  rewrite (bind_run _ _ _ _ _ H1).
  destruct (IH w1) as (w2 & H2 & (Ei2 & Eg2 & Eq2 & Es2) & Hin2 & Hsg2); [congruence|unfold passes in *; by rewrite Eg|].
  exists w2. split; [done|]. split; [repeat split; congruence|].
  rewrite Hin2, Hin, Hsg2, Hsg, <- app_assoc. split; [|done]. f_equal.
  by destruct b.
Qed.

Lemma post_run o w : post o w = (Ok tt, set_outbox (outbox w ++ [o]) w).
Proof. done. Qed.

Lemma flush_signal_run s w :
  instantiated w = true → sg_pid s = 0 ∨ sg_pgid s = 0 →
  ∃ w', flush_signal E s w = (Ok tt, w') ∧ same_queues w w' ∧ inputs_of (calls w') = inputs_of (calls w) ∧
    signals_of (calls w') = signals_of (calls w) ++ [s].
Proof.
  intros Hi Hx. unfold flush_signal.
  set (c := if sg_pgid s =? 0 then RaisePid (sg_signal s) (sg_pid s) else RaisePgid (sg_signal s) (sg_pgid s)).
  assert (runs c = false) as Hruns by (unfold c; by destruct (sg_pgid s =? 0)).
  rewrite (bind_run _ _ _ _ _ (ask_run E c Hruns w Hi)).
  assert (signals_of (c :: calls w) = signals_of (calls w) ++ [s]) as Hs.
  { unfold c. destruct s as [sg p g]. simpl in *. destruct (Z.eqb_spec g 0) as [->|Hg]; simpl; [done|].
    by destruct Hx as [->|]. }
  assert (inputs_of (c :: calls w) = inputs_of (calls w)) as Hin by (unfold c; by destruct (sg_pgid s =? 0)).
  destruct (_ || _).
  - destruct (wakeIO_run (push E c w)) as (w' & Hw & Hc & Hq & _). exists w'. rewrite Hc.
    split; [done|]. split; [exact Hq|]. by split.
  - eexists. split; [done|]. split; [done|]. by split.
Qed.

Lemma flush_signals_run q w :
  instantiated w = true → Forall (λ s, sg_pid s = 0 ∨ sg_pgid s = 0) q →
  ∃ w', mfor (flush_signal E) q w = (Ok tt, w') ∧ same_queues w w' ∧ inputs_of (calls w') = inputs_of (calls w) ∧
    signals_of (calls w') = signals_of (calls w) ++ q.
Proof.
  intros Hi HF. revert w Hi. induction HF as [|s q Hs _ IH]; intros w Hi; [exists w; by rewrite app_nil_r|]. simpl.
  destruct (flush_signal_run s w Hi Hs) as (w1 & H1 & (Ei & Eg & Eq & Es) & Hin & Hsg).
  rewrite (bind_run _ _ _ _ _ H1).
  destruct (IH w1) as (w2 & H2 & (Ei2 & Eg2 & Eq2 & Es2) & Hin2 & Hsg2); [congruence|].
  exists w2. split; [done|]. split; [repeat split; congruence|]. rewrite Hin2, Hin, Hsg2, Hsg, <- app_assoc. done.
Qed.

Lemma flush_resize_run w :
  instantiated w = true →
  ∃ w', flush_resize E w = (Ok tt, w') ∧ same_queues w w' ∧ pendingResize w' = None ∧
    inputs_of (calls w') = inputs_of (calls w) ∧ signals_of (calls w') = signals_of (calls w).
Proof.
  intros Hi. unfold flush_resize. rewrite (bind_run _ _ w (pendingResize w) w) by done.
  destruct (pendingResize w) as [[c r]|] eqn:Hr; [|by exists w].
  rewrite (bind_run _ _ _ _ _ (ask_run E (ResizeTerminal c r) eq_refl w Hi)).
  destruct (answer E (calls w) (ResizeTerminal c r) =? 0).
  - destruct (wakeIO_run (push E (ResizeTerminal c r) w)) as (w' & Hw & Hc & Hq & _).
    rewrite (bind_run _ _ _ _ _ Hw). eexists. split; [done|]. simpl. rewrite Hc. split; [exact Hq|]. done.
  - by eexists.
Qed.

Lemma flush_run w :
  engineReady w = true → instantiated w = true → passes w (concat (pendingInput w)) →
  Forall (λ s, sg_pid s = 0 ∨ sg_pgid s = 0) (pendingSignals w) →
  ∃ w', flushPendingEvents E w = (Ok tt, w') ∧
    pendingInput w' = [] ∧ pendingInputBytes w' = 0 ∧ pendingSignals w' = [] ∧
    inputs_of (calls w') = inputs_of (calls w) ++ filter (λ b, b ≠ []) (pendingInput w) ∧
    signals_of (calls w') = signals_of (calls w) ++ pendingSignals w.
Proof.
  intros Hr Hi Hg HF. unfold flushPendingEvents.
  rewrite (bind_run _ _ w (engineReady w) w) by done. rewrite Hr. simpl.
  destruct (flush_resize_run w Hi) as (w1 & H1 & (Ei & Eg & Eq & Es) & _ & Hin1 & Hsg1).
  rewrite (bind_run _ _ _ _ _ H1). rewrite (bind_run _ _ w1 (pendingInput w1) w1) by done.
  destruct (enqueue_all_run (pendingInput w1) w1) as (w2 & H2 & (Ei2 & Eg2 & Eq2 & Es2) & Hin2 & Hsg2);
    [congruence|unfold passes in *; by rewrite Eg, Eq|].
  rewrite (bind_run _ _ _ _ _ H2). set (w3 := set_input [] 0 w2). rewrite (bind_run _ _ w2 tt w3) by done.
  rewrite (bind_run _ _ w3 (pendingSignals w3) w3) by done.
  assert (pendingSignals w3 = pendingSignals w) as Hps by (simpl; congruence). rewrite Hps.
  destruct (flush_signals_run (pendingSignals w) w3) as (w4 & H4 & (Ei4 & Eg4 & Eq4 & Es4) & Hin4 & Hsg4);
    [simpl; congruence|done|].
  assert (pendingInputBytes w4 = 0) as Hb.
  { assert (keeps (λ w, pendingInputBytes w = 0) (mfor (flush_signal E) (pendingSignals w))) as Hk.
    { unfold flush_signal, wakeIO, controlError, post. repeat keeps_step; eauto with keeps;
        try (apply keeps_upd; done); try (apply keeps_ask; done). }
    specialize (Hk w3 eq_refl). by rewrite H4 in Hk. }
  rewrite (bind_run _ _ _ _ _ H4). eexists. split; [done|]. simpl.
  rewrite Hin4, Hsg4, Eq4, Hb. simpl. rewrite Hin2, Hsg2, Hin1, Hsg1, Eq. done.
Qed.
End replay.

(** ** The call history only grows *)

Definition extends (h : list call) (w : worker) : Prop := ∃ l, calls w = l ++ h.

Section grow.
Context (E : engine) (cfg : config) (h : list call).

Lemma closed_extends : closed E (extends h).
Proof.
  split; intros; try (apply keeps_upd; by intros w).
  - apply keeps_ask. intros w o d b [l Hl] _. exists (c :: l). simpl. by rewrite Hl.
  - intros w Hw. unfold wakeIO, mbind, M_bind, get. simpl. by destruct (ioResolve w).
  - intros w Hw. unfold resolve_waiter, mbind, M_bind, get. simpl. by destruct (ioResolve w).
Qed.

Lemma closed_loop_extends : closed_loop (extends h).
Proof.
  split; intros; try (apply keeps_upd; by intros w); try (apply keeps_decode_text; by intros w).
  intros w Hw. unfold flushOutput, mbind, M_bind, get. simpl. by destruct (pendingOutput w).
Qed.
End grow.

Lemma wait_over_resumes E cfg poll w :
  instantiated w = true → host_request_pending w = false → terminated w = false →
  extends (Resume :: calls w) (run_part E (wait_over E cfg poll) w).
Proof.
  intros Hi Hreq Hterm. pose proof (closed_extends E (Resume :: calls w)) as HC.
  pose proof (closed_loop_extends (Resume :: calls w)) as HL.
  assert (extends (Resume :: calls w) (push E Resume w)) as Hbase by (by exists []).
  set (rest := λ y, upd (set_yielded y);; flushOutput;; when (negb (y =? 0)) (io_ready E);; upd (set_pc PTop)).
  assert (wait_over E cfg poll w = (ask E Resume ≫= rest) w) as Hw.
  { unfold wait_over. by rewrite (bind_run _ _ w (host_request_pending w) w), (bind_run _ _ w (terminated w) w), Hreq, Hterm. }
  unfold run_part. rewrite Hw. clear Hw.
  assert (∀ y, keeps (extends (Resume :: calls w)) (rest y)) as Hk.
  { intros y. apply keeps_seq; [apply (cl_yielded _ HL)|]. apply keeps_seq; [apply (cl_flush _ HL)|].
    apply keeps_seq; [apply keeps_when, (closed_io_ready E _ HC)|]. by apply (cl_pc _ HL). }
  clearbody rest. unfold mbind at 1, M_bind at 1. rewrite ask_eq, Hi.
  destruct (mfor _ _ _).1 as [[]|e]; simpl.
  - specialize (Hk (answer E (calls w) Resume) _ Hbase). destruct (rest _ _) as [[]w2]; [done|].
    exact (closed_failed E _ HC HL e w2 Hk).
  - exact (closed_failed E _ HC HL e _ Hbase).
Qed.

(** An input message in a sleeping, ready worker. *)
(** The engine is up, no batch is pending and there is memory for the bytes. *)
Definition accepts (E : engine) (w : worker) (bytes : list Z) : Prop :=
  instantiated w = true ∧ engineReady w = true ∧ guestSuitePending w = 0 ∧ bytes ≠ [] ∧
  answer E (calls w) (Alloc (zlen bytes)) ≠ 0.

(** The state after the input calls. *)
Definition enqueued (E : engine) (w : worker) (bytes : list Z) : worker :=
  let ptr := answer E (calls w) (Alloc (zlen bytes)) in
  push E (EnqueueInput ptr (zlen bytes)) (push E (Store ptr bytes) (push E (Alloc (zlen bytes)) w)).

Lemma input_message_run E `{Quiet E} w bytes :
  accepts E w bytes → onmessage E (MInput bytes) w = wakeIO (enqueued E w bytes).
Proof.
  intros (Hi & Hready & Hg & Hb & Hptr). simpl. unfold on_input, enqueued.
  rewrite (bind_run _ _ w (engineReady w) w) by done. rewrite Hready. simpl.
  unfold enqueueInput. rewrite (bind_run _ _ w (guestSuitePending w) w) by done. rewrite Hg. simpl.
  rewrite (bind_run _ _ w tt w) by done. destruct bytes as [|b bytes]; [done|].
  rewrite (bind_run _ _ _ _ _ (ask_run E (Alloc (zlen (b :: bytes))) eq_refl w Hi)).
  rewrite (proj2 (Z.eqb_neq _ 0)) by done. set (ptr := answer E (calls w) _).
  rewrite (bind_run _ _ _ _ _ (do_call_run E (Store ptr (b :: bytes)) eq_refl (push E _ w) Hi)).
  by rewrite (bind_run _ _ _ _ _ (do_call_run E (EnqueueInput ptr (zlen (b :: bytes))) eq_refl (push E _ (push E _ w)) Hi)).
Qed.

(** A pending wake-up keeps the loop from sleeping. *)
Section pending.
Context (E : engine) (cfg : config).

Definition will_wake (w : worker) : Prop := ioPending w = true ∧ awake w.

Lemma closed_will_wake : closed E will_wake.
Proof.
  split; intros; try (apply keeps_upd; by intros w (? & ? & ?)); try (apply keeps_ask; by intros w o d b (? & ? & ?) ?).
  - intros w (H1 & H2 & H3). unfold wakeIO, mbind, M_bind, get. simpl. rewrite H2. by split.
  - intros w (H1 & H2 & H3). unfold resolve_waiter, mbind, M_bind, get. simpl. rewrite H2. by split.
Qed.

Lemma closed_loop_will_wake : closed_loop will_wake.
Proof.
  split; intros; try (apply keeps_upd; by intros w (? & ? & ?)); try (apply keeps_decode_text; by intros w o d b (? & ? & ?)).
  - intros w (H1 & H2 & H3). unfold flushOutput, mbind, M_bind, get. simpl. by destruct (pendingOutput w).
  - apply keeps_upd. intros w (H1 & H2 & H3). split; [done|]. split; [done|]. destruct p; try done. naive_solver.
Qed.

Definition not_waiting (w : worker) : Prop := is_wait (at_pc w) = false.

Lemma will_wake_not_waiting w : will_wake w → not_waiting w.
Proof. by intros (_ & _ & ?). Qed.

Lemma waitForIO_will_wake poll : ends will_wake not_waiting (waitForIO poll).
Proof. intros w (H1 & H2 & H3). unfold waitForIO, mbind, M_bind, get. simpl. by rewrite H1. Qed.

Lemma pending_not_waiting w w' :
  reachable E cfg w → ioPending w = true → handle E cfg ERun w = Some w' → not_waiting w'.
Proof.
  intros Hreach Hp Hh. simpl in Hh. pose proof (reachable_sleep E cfg w Hreach) as Hs.
  assert (is_wait (at_pc w) = false → will_wake w) as Hw by (intros Hn; split; [done|by apply sleep_ok_awake]).
  assert (∀ m, will_wake w → ends will_wake not_waiting m → not_waiting (run_part E m w)) as Hrun.
  { intros m Hw0 Hm. unfold run_part. specialize (Hm w Hw0). destruct (m w) as [[]w1]; [done|].
    apply will_wake_not_waiting. exact (closed_failed E will_wake closed_will_wake closed_loop_will_wake e w1 Hm). }
  destruct (at_pc w) eqn:Hpc; try done; injection Hh as <-; (apply Hrun; [by apply Hw|]).
  - apply loop_top_ends; [apply closed_will_wake|apply closed_loop_will_wake|apply will_wake_not_waiting|apply waitForIO_will_wake].
  - apply wait_over_ends; [apply closed_will_wake|apply closed_loop_will_wake|apply will_wake_not_waiting|apply waitForIO_will_wake].
Qed.
End pending.

(** ** Claims *)

(** C6: In every state the worker can reach, whatever the engine answers and whatever
    messages and timers arrive, at most 4096 bytes of input and 16 signals are queued, and
    every call made so far had valid arguments: signals 1 to 128 to a pid or a non-zero
    group, sizes 1 to 65535, 32-bit clock words, limits in range, render replies of 4 to
    65536 bytes. *)
Theorem worker_calls_valid E cfg w :
  reachable E cfg w →
  pendingInputBytes w = zlen (concat (pendingInput w)) ∧ zlen (concat (pendingInput w)) ≤ 4096 ∧
  zlen (pendingSignals w) ≤ 16 ∧ Forall valid_call (calls w).
Proof. intros H%reachable_queues. destruct H as [Hb Hl ? ? ? ? ?]. rewrite <- Hb. done. Qed.

Definition started : worker := run_part fake (start_run fake fake_config) initial.

Lemma reachable_started : reachable fake fake_config started.
Proof. apply (reach_step fake fake_config initial EStart started); [constructor|vm_compute; reflexivity]. Qed.

Lemma worker_calls_valid_witness :
  pendingInputBytes started = zlen (concat (pendingInput started)) ∧ zlen (concat (pendingInput started)) ≤ 4096 ∧
  zlen (pendingSignals started) ≤ 16 ∧ Forall valid_call (calls started).
Proof. exact (worker_calls_valid fake fake_config started reachable_started). Defined.


(** ASCII bytes stream through the decoder unchanged. *)
Lemma stream_ascii bytes : Forall (λ b, 0 ≤ b ≤ 127) bytes → stream_text bytes = bytes.
Proof.
  intros H. unfold stream_text, decode. simpl. rewrite utf8_run_ascii, replace_some by done.
  unfold serialize. simpl. destruct H as [|b l Hb _]; [done|]. simpl in *.
  by rewrite (proj2 (Z.eqb_neq b 65279)) by lia.
Qed.

Lemma stream_text_ascii pieces :
  Forall (λ b, 0 ≤ b ≤ 127) (concat pieces) → pieces ≫= stream_text = concat pieces.
Proof.
  induction pieces as [|p pieces IH]; [done|]. intros [H1 H2]%Forall_app.
  change (stream_text p ++ (pieces ≫= stream_text) = p ++ concat pieces). by rewrite stream_ascii, IH.
Qed.

Definition waiting : worker := run_part fake (loop_top fake fake_config) started.

Lemma reachable_waiting : reachable fake fake_config waiting.
Proof. apply (reach_step fake fake_config started ERun waiting); [apply reachable_started|vm_compute; reflexivity]. Qed.


(** Standard output is neither lost, repeated nor reordered, and split characters
    are put together: in every reachable state the output messages posted so far, followed
    by the text not yet flushed, are the UTF-8 decoding of the bytes the engine wrote
    to descriptors 1 and 2, cut only where the worker decoded another text
    from the engine in between; bytes of ASCII characters arrive one for one. *)
Theorem output_in_order E cfg w :
  reachable E cfg w →
  ∃ pieces, concat pieces = written w ∧ outputs (outbox w) ++ pendingOutput w = pieces ≫= stream_text ∧
    (Forall (λ b, 0 ≤ b ≤ 127) (written w) → outputs (outbox w) ++ pendingOutput w = written w).
Proof.
  intros H. destruct (reachable_out E cfg w H) as (ps & cur & H1 & H2 & _). exists (ps ++ [cur]).
  assert (concat (ps ++ [cur]) = written w) as Hc by (rewrite concat_app; simpl; by rewrite app_nil_r).
  assert (outputs (outbox w) ++ pendingOutput w = (ps ++ [cur]) ≫= stream_text) as Ho
    by (rewrite bind_app; simpl; by rewrite app_nil_r).
  split; [done|]. split; [done|]. rewrite Ho, <- Hc. apply stream_text_ascii.
Qed.

Lemma output_in_order_witness :
  ∃ pieces, concat pieces = written waiting ∧ outputs (outbox waiting) ++ pendingOutput waiting = pieces ≫= stream_text ∧
    (Forall (λ b, 0 ≤ b ≤ 127) (written waiting) → outputs (outbox waiting) ++ pendingOutput waiting = written waiting).
Proof. exact (output_in_order fake fake_config waiting reachable_waiting). Defined.

(** Input and signals that arrive before the engine is ready are replayed when it is, each
    exactly once and in order of arrival, and the queues are then empty. *)
Theorem early_events_replayed E `{Quiet E} w :
  queues_ok w → engineReady w = true → instantiated w = true → guestSuitePending w = 0 →
  (∀ h n, answer E h (Alloc n) ≠ 0) →
  ∃ w', flushPendingEvents E w = (Ok tt, w') ∧
    pendingInput w' = [] ∧ pendingInputBytes w' = 0 ∧ pendingSignals w' = [] ∧
    inputs_of (calls w') = inputs_of (calls w) ++ filter (λ b, b ≠ []) (pendingInput w) ∧
    signals_of (calls w') = signals_of (calls w) ++ pendingSignals w.
Proof.
  intros Hq Hr Hi Hg Ha. apply flush_run; try done; [by left|].
  eapply Forall_impl; [apply (q_entries _ Hq)|]. by intros s (_ & _ & Hx).
Qed.

Definition early : worker :=
  set_engineReady true (set_instantiated true (set_pendingSignals [mkSignal 2 0 7; mkSignal 15 3 0]
    (set_input [[97]; []; [98; 99]] 3 initial))).

Lemma early_events_replayed_witness :
  ∃ w', flushPendingEvents fake early = (Ok tt, w') ∧
    pendingInput w' = [] ∧ pendingInputBytes w' = 0 ∧ pendingSignals w' = [] ∧
    inputs_of (calls w') = inputs_of (calls early) ++ filter (λ b, b ≠ []) (pendingInput early) ∧
    signals_of (calls w') = signals_of (calls early) ++ pendingSignals early.
Proof.
  apply (early_events_replayed fake early); try done.
  constructor; simpl; try done.
  repeat (apply Forall_cons; split); try done; unfold valid_entry, valid_signal; simpl; lia.
Defined.

(** ** Replies *)

Definition reply_id (m : msg) : option Z :=
  match m with
  | MSuiteResponse id _ | MRenderResponse id _ | MClipboardResponse id _ => Some id
  | _ => None
  end.

(** The pending request a reply message answers. *)
Definition pending_of (m : msg) (w : worker) : Z :=
  match m with
  | MSuiteResponse _ _ => guestSuitePending w
  | MRenderResponse _ _ => renderTestPending w
  | MClipboardResponse _ _ => clipboardPending w
  | _ => 0
  end.

Lemma stale_reply_run E m id w :
  reply_id m = Some id → id ≠ pending_of m w → onmessage E m w = (Ok tt, w).
Proof.
  intros Hid Hne. assert ((id =? pending_of m w) = false) as He by (by apply Z.eqb_neq).
  destruct m; simpl in *; simplify_eq; unfold on_suite_response, on_render_response, on_clipboard_response,
    mbind, M_bind, get; simpl; rewrite He; simpl; by rewrite !orb_true_r.
Qed.

(** The three pending requests stay as they are. *)
Definition requests (g r c : Z) (w : worker) : Prop :=
  guestSuitePending w = g ∧ renderTestPending w = r ∧ clipboardPending w = c.

Section requests.
Context (E : engine) (g r c : Z).

Lemma requests_ask k : keeps (requests g r c) (ask E k).
Proof. apply keeps_ask. by intros w o d b H _. Qed.

Lemma requests_wakeIO : keeps (requests g r c) wakeIO.
Proof. intros w H. unfold wakeIO, mbind, M_bind, get. simpl. by destruct (ioResolve w). Qed.

Lemma requests_reply bytes k : keeps (requests g r c) (reply_with E bytes k).
Proof. unfold reply_with. repeat keeps_step; eauto using requests_ask with keeps. Qed.
End requests.

(** A reply either clears its request or made at most the kind query. *)
Lemma reply_clears E m id w :
  reply_id m = Some id →
  pending_of m (onmessage E m w).2 = 0 ∨
  calls (onmessage E m w).2 = calls w ∨ calls (onmessage E m w).2 = HostIoKind :: calls w.
Proof.
  intros Hid. destruct (instantiated w) eqn:Hi.
  2: { destruct m; simpl in *; simplify_eq; unfold on_suite_response, on_render_response, on_clipboard_response,
         mbind, M_bind, get; simpl; (destruct (_ || _); [by right; left|]);
         right; left; by rewrite ask_eq, Hi. }
  destruct m; simpl in *; simplify_eq; unfold on_suite_response, on_render_response, on_clipboard_response;
    repeat (rewrite (bind_run (get _) _ w _ w eq_refl)); (destruct (_ || _); [by right; left|]);
    match goal with |- context [(ask E HostIoKind ≫= ?k) w] =>
      destruct (ask_bind E HostIoKind k w Hi) as [[e ->]| ->]; [by right; right|] end;
    (destruct (negb _); [by right; right|left]).
  - set (w1 := set_guestSuite 0 (push E HostIoKind w)).
    assert (keeps (requests 0 (renderTestPending w) (clipboardPending w)) (reply_with E bytes SuiteReply;; wakeIO)) as Hk
      by (apply keeps_seq; [apply requests_reply|apply requests_wakeIO]).
    by destruct (Hk w1) as [H _].
  - set (w1 := set_renderTest 0 (push E HostIoKind w)).
    assert (keeps (requests (guestSuitePending w) 0 (clipboardPending w))
      ((if (zlen bytes <? 4) || (RENDER_TEST_REPLY_MAX_BYTES <? zlen bytes) then do_call E HostIoCancel
        else reply_with E bytes RenderReply);; wakeIO)) as Hk.
    { repeat keeps_step; eauto using requests_reply, requests_wakeIO, requests_ask with keeps. }
    by destruct (Hk w1) as (_ & H & _).
  - set (w1 := set_clipboard 0 (push E HostIoKind w)).
    assert (keeps (requests (guestSuitePending w) (renderTestPending w) 0)
      (do_call E (if ok then HostIoComplete else HostIoCancel);; wakeIO)) as Hk.
    { repeat keeps_step; eauto using requests_wakeIO, requests_ask with keeps. }
    by destruct (Hk w1) as (_ & _ & H).
Qed.

(** A host request is answered at most once: a reply whose id is not the pending one
    changes nothing at all, and a reply that acts on the engine clears the request, so that
    no later reply with that id acts again. *)
Theorem reply_at_most_once E m m' id w :
  reply_id m = Some id → reply_id m' = Some id → id ≠ 0 → (∀ v, pending_of m' v = pending_of m v) →
  (id ≠ pending_of m w → onmessage E m w = (Ok tt, w)) ∧
  (onmessage E m' (onmessage E m w).2 = (Ok tt, (onmessage E m w).2) ∨
   calls (onmessage E m w).2 = calls w ∨ calls (onmessage E m w).2 = HostIoKind :: calls w).
Proof.
  intros Hm Hm' Hid Heq. split; [by apply stale_reply_run|].
  destruct (reply_clears E m id w Hm) as [H|H]; [|by right].
  left. apply (stale_reply_run E m' id); [done|]. rewrite Heq. congruence.
Qed.

Lemma reply_at_most_once_witness :
  (3 ≠ pending_of (MClipboardResponse 3 true) waiting →
   onmessage fake (MClipboardResponse 3 true) waiting = (Ok tt, waiting)) ∧
  (onmessage fake (MClipboardResponse 3 false) (onmessage fake (MClipboardResponse 3 true) waiting).2 =
     (Ok tt, (onmessage fake (MClipboardResponse 3 true) waiting).2) ∨
   calls (onmessage fake (MClipboardResponse 3 true) waiting).2 = calls waiting ∨
   calls (onmessage fake (MClipboardResponse 3 true) waiting).2 = HostIoKind :: calls waiting).
Proof.
  exact (reply_at_most_once fake (MClipboardResponse 3 true) (MClipboardResponse 3 false) 3 waiting eq_refl eq_refl
    ltac:(lia) (λ v, eq_refl)).
Defined.

(** A cancel message does not end a clipboard request: if the guest waits for the
    clipboard, the loop goes back to sleep after the cancel and does not resume the
    engine, unlike a pending suite or render request, which the cancel clears. *)
Theorem cancel_keeps_clipboard_wait E `{Quiet E} cfg w poll :
  reachable E cfg w → at_pc w = PWait poll → instantiated w = true → terminated w = false →
  clipboardPending w ≠ 0 →
  ∃ w1 w2, handle E cfg (EMsg MCancel) w = Some w1 ∧ handle E cfg ERun w1 = Some w2 ∧
    guestSuitePending w1 = 0 ∧ renderTestPending w1 = 0 ∧
    at_pc w2 = PWait poll ∧ calls w2 = RequestCancel :: calls w.
Proof.
  intros Hreach Hpc Hi Hterm Hclip. destruct (reachable_sleep E cfg w Hreach) as [Hs1 Hs2].
  assert (ioResolve w = true) as Hr by (apply Hs2; by rewrite Hpc). destruct (Hs1 Hr) as [_ Hp].
  assert (∃ v, onmessage E MCancel w = (Ok tt, v) ∧ guestSuitePending v = 0 ∧ renderTestPending v = 0 ∧
    ioResolve v = false ∧ ioPending v = false ∧ at_pc v = PWait poll ∧ terminated v = false ∧
    clipboardPending v = clipboardPending w ∧ calls v = RequestCancel :: calls w)
    as (v & Hv & Hg & Hrt & Hvr & Hvp & Hvpc & Hvt & Hvc & Hcalls).
  { assert (∀ v, instantiated v = true → ioResolve v = true →
      (do_call E RequestCancel;; resolve_waiter) v = (Ok tt, set_ioResolve false (push E RequestCancel v))) as Hcancel.
    { intros v Hvi Hvr. rewrite (bind_run _ _ _ _ _ (do_call_run E RequestCancel eq_refl v Hvi)).
      unfold resolve_waiter, mbind, M_bind, get. simpl. by rewrite Hvr. }
    simpl. unfold on_cancel. rewrite (bind_run _ _ w tt (set_renderTest 0 w)) by done.
    assert (∃ l, drop_guest_suite (set_renderTest 0 w) =
      (Ok tt, set_guestSuite 0 (set_outbox (outbox w ++ l) (set_renderTest 0 w)))) as [l Hdrop].
    { unfold drop_guest_suite, mbind, M_bind, get, when, post, upd. simpl.
      destruct (negb (guestSuitePending w =? 0)); [by eexists [_]|]. exists []. by rewrite app_nil_r. }
    rewrite (bind_run _ _ _ _ _ Hdrop), Hcancel by done. eexists. split; [reflexivity|]. done. }
  exists (set_pc (PResumed poll) v), (set_pc (PWait poll) (set_ioResolve true (set_pc (PResumed poll) v))).
  split; [|split; [|done]].
  - unfold handle, asleep. rewrite Hpc, Hv. simpl. unfold settle. by rewrite Hvpc, Hvr.
  - simpl. f_equal. unfold run_part, wait_over, waitForIO, host_request_pending, mbind, M_bind, get. simpl.
    rewrite Hg, Hrt, Hvc, Hvt, (proj2 (Z.eqb_neq _ 0) Hclip). simpl. by rewrite Hvp.
Qed.

(** An engine that asks for the clipboard. *)
Definition clip_engine : engine :=
  mkEngine (λ _ c, match c with Alloc _ => 64 | WaitKind | HostIoKind => 5 | Resume | StartShell => 1 | _ => 0 end)
    (λ _ _, []) (λ _ _ _, []) (λ _ _, []).
#[export] Instance clip_quiet : Quiet clip_engine.
Proof. intros h c _. constructor. Qed.
Definition clip_waiting : worker :=
  run_part clip_engine (loop_top clip_engine fake_config) (run_part clip_engine (start_run clip_engine fake_config) initial).

Lemma reachable_clip_waiting : reachable clip_engine fake_config clip_waiting.
Proof.
  set (w0 := run_part clip_engine (start_run clip_engine fake_config) initial).
  apply (reach_step clip_engine fake_config w0 ERun clip_waiting); [|vm_compute; reflexivity].
  apply (reach_step clip_engine fake_config initial EStart w0); [constructor|vm_compute; reflexivity].
Qed.

Lemma cancel_keeps_clipboard_wait_witness :
  ∃ w1 w2, handle clip_engine fake_config (EMsg MCancel) clip_waiting = Some w1 ∧
    handle clip_engine fake_config ERun w1 = Some w2 ∧ guestSuitePending w1 = 0 ∧ renderTestPending w1 = 0 ∧
    at_pc w2 = PWait 0 ∧ calls w2 = RequestCancel :: calls clip_waiting.
Proof.
  apply (cancel_keeps_clipboard_wait clip_engine fake_config clip_waiting 0 reachable_clip_waiting); by vm_compute.
Defined.

(** A signal for an empty process group (the engine delivers it to 0 members) is reported
    as a control error when the engine is ready, but counts as delivered when it was
    queued before that. *)
Theorem queued_group_signal_differs E `{Quiet E} s g w :
  1 ≤ s ≤ 128 → 1 ≤ g ≤ 2147483647 → instantiated w = true → engineReady w = true →
  answer E (calls w) (RaisePgid s g) = 0 →
  (∃ w', onmessage E (MSignal (Num (NInt s)) Undefined (Num (NInt g))) w = (Ok tt, w') ∧
     outbox w' = outbox w ++ [OControlError CSignal]) ∧
  (∃ w', flush_signal E (mkSignal s 0 g) w = (Ok tt, w') ∧ outbox w' = outbox w).
Proof.
  intros Hs Hg Hi Hr Ha.
  assert (int_field 1 128 (Num (NInt s)) = Some s) as Hf1
    by (simpl; by rewrite (proj2 (Z.leb_le 1 s)), (proj2 (Z.leb_le s 128)) by lia).
  assert (int_field 0 2147483647 (Num (NInt g)) = Some g) as Hf2
    by (simpl; by rewrite (proj2 (Z.leb_le 0 g)), (proj2 (Z.leb_le g 2147483647)) by lia).
  assert ((g =? 0) = false) as Hg0 by (apply Z.eqb_neq; lia). split.
  - simpl onmessage. unfold on_signal, or_zero. rewrite Hf1, Hf2.
    change (int_field 0 2147483647 (Num (NInt 0))) with (Some 0). cbv beta iota. rewrite Hg0. simpl.
    rewrite (bind_run _ _ w (engineReady w) w), Hr by done. simpl.
    rewrite (bind_run _ _ _ _ _ (ask_run E (RaisePgid s g) eq_refl w Hi)), Ha. simpl. by eexists.
  - unfold flush_signal. simpl. rewrite Hg0. rewrite (bind_run _ _ _ _ _ (ask_run E (RaisePgid s g) eq_refl w Hi)), Ha. simpl.
    unfold wakeIO, mbind, M_bind, get. simpl. destruct (ioResolve w); by eexists.
Qed.

Lemma queued_group_signal_differs_witness :
  (∃ w', onmessage fake (MSignal (Num (NInt 2)) Undefined (Num (NInt 9))) waiting = (Ok tt, w') ∧
     outbox w' = outbox waiting ++ [OControlError CSignal]) ∧
  (∃ w', flush_signal fake (mkSignal 2 0 9) waiting = (Ok tt, w') ∧ outbox w' = outbox waiting).
Proof. apply (queued_group_signal_differs fake 2 9 waiting); by vm_compute. Defined.

(** ** Staging *)

(** Buffers allocated and not freed. *)
Fixpoint live (E : engine) (h : list call) : Z :=
  match h with
  | [] => 0
  | Alloc n :: h' => live E h' + (if answer E h' (Alloc n) =? 0 then 0 else 1)
  | Free _ :: h' => live E h' - 1
  | _ :: h' => live E h'
  end.

(** What was staged, oldest first: the inventory or a file by its index. *)
Fixpoint staged_of (h : list call) : list (option Z) :=
  match h with
  | [] => []
  | StageInventory _ _ :: h' => staged_of h' ++ [None]
  | StageVfsFile i _ _ :: h' => staged_of h' ++ [Some i]
  | _ :: h' => staged_of h'
  end.

Definition item_call (i : option Z) (p n : Z) : call :=
  match i with None => StageInventory p n | Some i => StageVfsFile i p n end.

Lemma submit_run E `{Quiet E} i bytes w :
  instantiated w = true →
  ∃ r w', submit E bytes (item_call i) w = (r, w') ∧ instantiated w' = true ∧ live E (calls w') = live E (calls w) ∧
    (r = Ok tt → staged_of (calls w') = staged_of (calls w) ++ [i]).
Proof.
  intros Hi. unfold submit. set (n := if zlen bytes =? 0 then 1 else zlen bytes).
  rewrite (bind_run _ _ _ _ _ (ask_run E (Alloc n) eq_refl w Hi)). set (ptr := answer E (calls w) (Alloc n)).
  destruct (Z.eqb_spec ptr 0) as [Hp|Hp].
  { exists (Err VfsAllocation), (push E (Alloc n) w). repeat split; [done| |done]. simpl. fold ptr. rewrite Hp. simpl. lia. }
  unfold finally.
  rewrite (bind_run _ _ _ _ _ (do_call_run E (Store ptr bytes) eq_refl (push E (Alloc n) w) Hi)).
  unfold check. set (c := item_call i ptr (zlen bytes)). set (w2 := push E (Store ptr bytes) (push E (Alloc n) w)).
  assert (runs c = false) as Hruns by (unfold c; by destruct i).
  rewrite (bind_run _ _ _ _ _ (ask_run E c Hruns w2 Hi)).
  assert (live E (Free ptr :: c :: calls w2) = live E (calls w)) as Hl.
  { unfold c, w2. destruct i; simpl; fold ptr; rewrite (proj2 (Z.eqb_neq ptr 0) Hp); lia. }
  assert (staged_of (Free ptr :: c :: calls w2) = staged_of (calls w) ++ [i]) as Hs by (unfold c, w2; by destruct i).
  destruct (answer E (calls w2) c =? 0).
  - cbn [mret M_ret]. rewrite do_call_run by done. by exists (Ok tt), (push E (Free ptr) (push E c w2)).
  - unfold throw. rewrite do_call_run by done. by exists (Err VfsInvalid), (push E (Free ptr) (push E c w2)).
Qed.

Lemma submit_all_run E `{Quiet E} files w :
  instantiated w = true →
  ∃ r w', mfor (λ f : Z * list Z, submit E f.2 (StageVfsFile f.1)) files w = (r, w') ∧ instantiated w' = true ∧
    live E (calls w') = live E (calls w) ∧
    (r = Ok tt → staged_of (calls w') = staged_of (calls w) ++ (Some <$> files.*1)).
Proof.
  revert w. induction files as [|[i b] files IH]; intros w Hi.
  { exists (Ok tt), w. split; [done|]. split; [done|]. split; [done|]. intros _. by rewrite app_nil_r. }
  cbn [mfor]. destruct (submit_run E (Some i) b w Hi) as (r & w1 & H1 & Hi1 & Hl1 & Hs1).
  change (submit E (i, b).2 (StageVfsFile (i, b).1)) with (submit E b (item_call (Some i))).
  destruct r as [[]|e].
  - rewrite (bind_run _ _ _ _ _ H1). destruct (IH w1 Hi1) as (r & w2 & H2 & Hi2 & Hl2 & Hs2).
    exists r, w2. split; [done|]. split; [done|]. split; [congruence|]. intros Hr.
    rewrite (Hs2 Hr), (Hs1 eq_refl), <- app_assoc. done.
  - exists (Err e), w1. split; [|by split]. unfold mbind, M_bind. by rewrite H1.
Qed.

(** Staging the installed file system leaks no engine memory: on every outcome, success or
    any failure, as many buffers are freed as were allocated; and a successful staging has
    handed over the inventory and then every file once, in order. *)
Theorem vfs_staging_balanced E `{Quiet E} v w :
  instantiated w = true →
  ∃ r w', stageInstalledVfs E v w = (r, w') ∧ live E (calls w') = live E (calls w) ∧
    (r = Ok tt → staged_of (calls w') = staged_of (calls w) ++ None :: (Some <$> (vfs_files v).*1)).
Proof.
  intros Hi. unfold stageInstalledVfs.
  destruct (submit_run E None (inventory v) w Hi) as (r & w1 & H1 & Hi1 & Hl1 & Hs1).
  change (submit E (inventory v) StageInventory) with (submit E (inventory v) (item_call None)).
  destruct r as [[]|e]; [|exists (Err e), w1; unfold mbind, M_bind; by rewrite H1].
  rewrite (bind_run _ _ _ _ _ H1). destruct (submit_all_run E (vfs_files v) w1 Hi1) as (r & w2 & H2 & Hi2 & Hl2 & Hs2).
  destruct r as [[]|e].
  2: { exists (Err e), w2. unfold mbind, M_bind. rewrite H2. split; [done|]. split; [congruence|done]. }
  rewrite (bind_run _ _ _ _ _ H2). unfold check. rewrite (bind_run _ _ _ _ _ (ask_run E VfsReady eq_refl w2 Hi2)).
  exists (if answer E (calls w2) VfsReady =? 0 then Ok tt else Err VfsIncomplete), (push E VfsReady w2).
  split; [by destruct (_ =? 0)|]. split; [simpl; congruence|]. intros _.
  simpl. rewrite (Hs2 eq_refl), (Hs1 eq_refl), <- app_assoc. done.
Qed.

Lemma vfs_staging_balanced_witness :
  ∃ r w', stageInstalledVfs fake (mkVfs [1] [(0, [2; 3]); (1, [])]) waiting = (r, w') ∧
    live fake (calls w') = live fake (calls waiting) ∧
    (r = Ok tt → staged_of (calls w') = staged_of (calls waiting) ++ None :: (Some <$> [(0, [2; 3]); (1, [])].*1)).
Proof. apply (vfs_staging_balanced fake (mkVfs [1] [(0, [2; 3]); (1, [])]) waiting). by vm_compute. Defined.

(** A file time survives the split into two 32-bit words, for every number of seconds
    below 2^64. *)
Theorem mtime_words_roundtrip seconds :
  0 ≤ seconds < 2 ^ 64 → high_word seconds * 2 ^ 32 + low_word seconds = seconds ∧
  is_word (low_word seconds) ∧ is_word (high_word seconds).
Proof.
  intros H. unfold high_word, low_word. split; [|split; apply to_uint32_word].
  unfold to_uint32. pose proof (Z.div_mod seconds 4294967296). change (2 ^ 32) with 4294967296.
  rewrite (Z.mod_small (seconds / _)); [lia|]. split; [apply Z.div_pos; lia|apply Z.div_lt_upper_bound; lia].
Qed.

Lemma mtime_words_roundtrip_witness :
  high_word 4294967297 * 2 ^ 32 + low_word 4294967297 = 4294967297 ∧
  is_word (low_word 4294967297) ∧ is_word (high_word 4294967297).
Proof. apply mtime_words_roundtrip. lia. Defined.

(** ** One decoder for output and literals *)

(** The decoder is inside a character: the output so far ended with part of one. *)
Definition inside (d : decoder) : Prop := d_doNotFlush d = true ∧ u_need (d_state d) ≠ 0%nat ∧ 128 ≤ u_lower (d_state d).

Lemma decode_inside bytes d :
  inside d → bytes ≠ [] → Forall (λ b, 0 ≤ b ≤ 127) bytes → (decode false false bytes d).1 = 65533 :: bytes.
Proof.
  intros (Hf & Hn & Hl) Hb Ha. destruct bytes as [|b bytes]; [done|].
  pose proof (utf8_run_ascii _ Ha) as Hrun. apply Forall_cons in Ha as [Hb0 Ha].
  assert (utf8_byte b (d_state d) = (utf8_init, [None; Some b])) as Hstep.
  { unfold utf8_byte. destruct (u_need (d_state d)); [done|]. rewrite (proj2 (Z.leb_gt (u_lower (d_state d)) b)) by lia.
    simpl. unfold utf8_lead. by rewrite (proj2 (Z.leb_le b 127)) by lia. }
  unfold decode. rewrite Hf. cbn [utf8_run]. rewrite Hstep, (utf8_run_ascii bytes Ha). simpl.
  rewrite app_nil_r.
  change (replace_errors (None :: Some b :: (Some <$> bytes))) with (65533 :: b :: replace_errors (Some <$> bytes)).
  rewrite replace_some. unfold serialize. simpl. by destruct (d_bomSeen d).
Qed.

Lemma big_int_bad base l : base ≤ 16 → big_int base (65533 :: l) = Err SyntaxError.
Proof. intros Hb. unfold big_int. simpl. unfold digit_value. simpl. by rewrite (proj2 (Z.ltb_ge 99 base)) by lia. Qed.

Lemma cut_bad c l s e : c ≠ 65533 → cut c (65533 :: l) = Some (s, e) → ∃ s', s = 65533 :: s'.
Proof.
  intros Hc. cbn [cut]. rewrite (proj2 (Z.eqb_neq 65533 c)) by done. destruct (cut c l) as [[a b]|]; [|done].
  intros [= <- <-]. eauto.
Qed.

Lemma significand_bad l : ∃ l', (significand_digits (65533 :: l)).1 = 65533 :: l'.
Proof.
  unfold significand_digits. destruct (cut 46 (65533 :: l)) as [[ip fp]|] eqn:Hc; [|by eexists].
  apply cut_bad in Hc as [ip' ->]; [|done]. by eexists.
Qed.

Lemma exponent_part_bad l :
  ∃ s e, (match cut 101 (65533 :: l) with Some (s, e) => (s, Some e) | None => (65533 :: l, None) end) = (65533 :: s, e).
Proof. destruct (cut 101 _) as [[s e]|] eqn:Hc; [|eauto]. apply cut_bad in Hc as [s' ->]; [eauto|done]. Qed.

Lemma watDecimalF32_bad l : watDecimalF32 (65533 :: l) = Err SyntaxError.
Proof.
  unfold watDecimalF32. change (strip_sign (to_lower <$> 65533 :: l)) with (false, 65533 :: (to_lower <$> l)). cbv iota beta.
  destruct (exponent_part_bad (to_lower <$> l)) as (s & e & ->).
  destruct (significand_bad s) as [d Hd]. destruct (significand_digits (65533 :: s)) as [digits n]. simpl in Hd. subst digits.
  by rewrite big_int_bad.
Qed.

Lemma number_f64_bad l : ∃ e, number_f64 (65533 :: l) = Err e.
Proof.
  unfold number_f64. change (strip_sign (to_lower <$> 65533 :: l)) with (false, 65533 :: (to_lower <$> l)). cbv iota beta.
  destruct (exponent_part_bad (to_lower <$> l)) as (s & e & ->).
  destruct (match e with Some e => exponent_value e | None => Ok 0 end) as [v|]; [|by eexists]. cbn [rbind].
  destruct (significand_bad s) as [d Hd]. destruct (significand_digits (65533 :: s)) as [digits n]. simpl in Hd. subst digits.
  rewrite big_int_bad by done. by eexists.
Qed.

Lemma watFloat_bad l asF32 : ∃ e, watFloat (65533 :: l) asF32 = Err e.
Proof.
  unfold watFloat. change (snd (strip_sign (65533 :: l))) with (65533 :: l). cbv zeta.
  assert (starts_0x (to_lower <$> 65533 :: l) = false) as -> by (by destruct l).
  destruct asF32; [rewrite watDecimalF32_bad; by eexists|apply number_f64_bad].
Qed.

(** The worker's one decoder serves both the streamed output and the literals the
    engine has converted.  While the output ends inside a multi-byte character, a
    literal is read with U+FFFD in front: a single-precision one makes [strtof] throw out of
    the engine and a double-precision one becomes NaN, whatever the literal; with
    the decoder between characters the literal is converted as it stands. *)
Theorem literal_after_split_output w bytes asF32 :
  bytes ≠ [] → Forall (λ b, 0 ≤ b ≤ 127) bytes →
  (inside (dec w) → (hostFloat bytes asF32 w).1 = if asF32 then Err LiteralError else Ok None) ∧
  (between (dec w) → ∀ bits, watFloat bytes asF32 = Ok bits → (hostFloat bytes asF32 w).1 = Ok (Some bits)).
Proof.
  intros Hb Ha. unfold hostFloat, mbind, M_bind, decode_text. split.
  - intros Hin. pose proof (decode_inside bytes (dec w) Hin Hb Ha) as Hd.
    destruct (decode false false bytes (dec w)) as [text d]. simpl in Hd. subst text.
    destruct (watFloat_bad bytes asF32) as [e ->].
    assert (literal_throws (65533 :: bytes) asF32 = asF32) as ->; [|by destruct asF32].
    unfold literal_throws. simpl strip_sign. simpl snd.
    assert (starts_0x (to_lower <$> 65533 :: bytes) = false) as -> by (by destruct bytes). by rewrite orb_false_r.
  - intros (Hs & Hf & Hbom) bits Hbits. unfold decode. rewrite Hf, Hs, Hbom, utf8_run_ascii by done. simpl.
    rewrite app_nil_r, replace_some. by rewrite Hbits.
Qed.

(** The output "€" arrives in two writes, and "1.5" is converted between them. *)
Definition split_euro : worker := posixWrite 1 [226; 130] initial.

Lemma literal_after_split_output_witness :
  inside (dec split_euro) ∧ (hostFloat (codes "1.5") true split_euro).1 = Err LiteralError ∧
  (hostFloat (codes "1.5") true initial).1 = Ok (Some 1069547520).
Proof.
  assert (inside (dec split_euro)) as Hin by (vm_compute; repeat split; discriminate).
  split; [exact Hin|]. split; [|by vm_compute].
  apply (literal_after_split_output split_euro (codes "1.5") true); [done| |exact Hin].
  repeat constructor; vm_compute; discriminate.
Defined.

(** An engine whose guest waits for an upload until it is provided or cancelled. *)
Definition upload_engine : engine :=
  mkEngine (λ _ c, match c with Alloc _ => 64 | WaitKind => 5 | HostIoKind | Resume | StartShell => 1 | _ => 0 end)
    (λ _ _, []) (λ _ _ _, []) (λ _ _, []).

Definition upload_run (l : list event) : option worker :=
  foldl (λ ow e, w ← ow; handle upload_engine fake_config e w) (Some initial) l.

(** Unlike the other host requests an upload sets no pending flag: a key pressed while the file
    picker is open resumes the engine, which still waits, and the worker asks for the same upload again. *)
Example upload_request_repeated :
  (λ w, omap (λ o, match o with OUploadRequest path => Some path | _ => None end) (outbox w)) <$>
    upload_run [EStart; ERun; EMsg (MInput [97]); ERun; ERun] = Some [[]; []].
Proof. by vm_compute. Qed.
