(* ===== verification/WorkerInput.v ===== *)
(** * Input through the worker

    What the engine has been given, with what still waits for the engine: the
    worker neither invents, repeats nor reorders a byte, and with an engine that
    grants its buffers it loses none. *)

From stdpp Require Import base numbers list strings.
From Stdlib Require Import ZArith Lia.
From S2P Require Import Prelude JsNum TermModel Utf8 WatFloat Worker WorkerSafety WorkerLoop WorkerTheorems.

#[local] Open Scope Z_scope.

(** The bytes handed to the engine, then those kept until it is ready. *)
Definition account (w : worker) : list Z :=
  concat (inputs_of (calls w)) ++ if engineReady w then [] else concat (pendingInput w).

(** The account and the phase stay as they are. *)
Definition holds (X : list Z) (r : bool) (w : worker) : Prop := account w = X ∧ engineReady w = r.

Section account.
Context (E : engine) (cfg : config) (X : list Z) (r : bool).

Lemma holds_ask c : (∀ p n, c ≠ EnqueueInput p n) → keeps (holds X r) (ask E c).
Proof. intros Hc. apply keeps_ask. intros w o d b [H1 H2] _. split; [|done]. unfold account in *. cbn [calls set_output set_calls engineReady pendingInput]. by rewrite inputs_of_other. Qed.

Lemma holds_upd (f : worker → worker) :
  (∀ w, (calls (f w), engineReady (f w), pendingInput (f w)) = (calls w, engineReady w, pendingInput w)) →
  keeps (holds X r) (upd f).
Proof.
  intros Hf. apply keeps_upd. intros w [H1 H2]. specialize (Hf w). injection Hf as Hc Hr Hp.
  unfold holds, account. by rewrite Hc, Hr, Hp.
Qed.

Hint Extern 1 (keeps (holds _ _) (ask _ _)) => apply holds_ask; discriminate : keeps.
Hint Extern 1 (keeps (holds _ _) (post _)) => apply holds_upd; reflexivity : keeps.
Hint Extern 1 (keeps (holds _ _) (upd _)) => apply holds_upd; reflexivity : keeps.
Hint Extern 1 (keeps (holds _ _) (controlError _)) => apply holds_upd; reflexivity : keeps.
Hint Extern 1 (keeps (holds _ _) (decode_text _)) => apply keeps_decode_text; intros ? ? ? ? []; by constructor : keeps.

Lemma holds_wakeIO : keeps (holds X r) wakeIO.
Proof. unfold wakeIO. keeps_walk. Qed.
Hint Resolve holds_wakeIO : keeps.

Lemma holds_reply bytes reply :
  (∀ p n q m, reply p n ≠ EnqueueInput q m) → keeps (holds X r) (reply_with E bytes reply).
Proof.
  intros Hr. unfold reply_with. apply keeps_bind; [keeps_walk|]. intros ptr. destruct (ptr =? 0); [keeps_walk|].
  apply keeps_seq; [keeps_walk|]. apply keeps_bind; [by apply holds_ask|]. intros ret. keeps_walk.
Qed.
Hint Extern 1 (keeps (holds _ _) (reply_with _ _ _)) => apply holds_reply; discriminate : keeps.

(** Every message but input. *)
Lemma holds_onmessage m : (∀ bytes, m ≠ MInput bytes) → keeps (holds X r) (onmessage E m).
Proof.
  intros Hm. destruct m; simpl; [by destruct (Hm bytes)|..];
    unfold on_signal, on_resize, on_advance_clock, on_set_clock, on_suite_response, on_render_response,
      on_clipboard_response, on_upload_response, on_cancel, on_stop, drop_guest_suite, resolve_waiter; keeps_walk.
Qed.

Lemma holds_stageVfsMtime t : keeps (holds X r) (stageVfsMtime E cfg t).
Proof. unfold stageVfsMtime, check. keeps_walk. Qed.
Hint Resolve holds_stageVfsMtime : keeps.

Lemma holds_stageVfsPath path kind mode size t : keeps (holds X r) (stageVfsPath E cfg path kind mode size t).
Proof. unfold stageVfsPath, copy_in. keeps_walk. Qed.
Lemma holds_stage_file path bytes mode t : keeps (holds X r) (stage_file E cfg path bytes mode t).
Proof. unfold stage_file, copy_in2. keeps_walk. Qed.
Hint Resolve holds_stageVfsPath holds_stage_file : keeps.

Lemma holds_stage_all : keeps (holds X r) (stage_all E cfg).
Proof.
  unfold stage_all, stage_clocks, stageInstalledVfs, submit, stage_build_mtime, stage_probe_executable, stage_dirs,
    stage_cwd, stage_packaged, stageVfsSymlink, stage_probe_file, stage_limits, stage_pump, check, copy_in, copy_in2.
  keeps_walk.
Qed.

Lemma holds_prepare_script : keeps (holds X r) (prepare_script E cfg).
Proof. unfold prepare_script, load_test, copy_in. keeps_walk. Qed.

Lemma holds_flushOutput : keeps (holds X r) flushOutput.
Proof. unfold flushOutput. keeps_walk. Qed.

Lemma holds_leave : keeps (holds X r) (leave E).
Proof. unfold leave. keeps_walk. Qed.
Hint Resolve holds_stage_all holds_prepare_script holds_flushOutput holds_leave : keeps.

Lemma holds_finish : keeps (holds X r) (finish E cfg).
Proof. unfold finish, read_result, read_failure. keeps_walk. Qed.
Hint Resolve holds_finish : keeps.

Lemma holds_loop_top : keeps (holds X r) (loop_top E cfg).
Proof. unfold loop_top, host_io, host_data, fresh_id, waitForIO. keeps_walk. Qed.
Lemma holds_pump_tick : keeps (holds X r) (pump_tick E cfg).
Proof. unfold pump_tick, io_ready. keeps_walk. Qed.
Lemma holds_wait_over poll : keeps (holds X r) (wait_over E cfg poll).
Proof. unfold wait_over, io_ready, waitForIO. keeps_walk. Qed.

Lemma holds_failed e : keeps (holds X r) (rejected E e).
Proof. apply keeps_rejected; keeps_walk. Qed.

Lemma holds_flush_resize : keeps (holds X r) (flush_resize E).
Proof. unfold flush_resize. keeps_walk. Qed.

Lemma holds_flush_signal s : keeps (holds X r) (flush_signal E s).
Proof. unfold flush_signal. keeps_walk. Qed.
End account.

#[export] Hint Resolve holds_wakeIO holds_stage_all holds_prepare_script holds_flushOutput holds_leave holds_finish
  holds_flush_resize holds_flush_signal : keeps.
#[export] Hint Extern 1 (keeps (holds _ _) (ask _ _)) => apply holds_ask; discriminate : keeps.
#[export] Hint Extern 1 (keeps (holds _ _) (post _)) => apply holds_upd; reflexivity : keeps.
#[export] Hint Extern 1 (keeps (holds _ _) (upd _)) => apply holds_upd; reflexivity : keeps.

(** ** Handing input over *)

(** From a ready state the engine gets, on top of what it had, the bytes [P] accepts. *)
Definition feeds {A} (P : list Z → Prop) (m : M A) : Prop :=
  ∀ w, engineReady w = true → ∃ b, P b ∧ holds (account w ++ b) true (m w).2.

Lemma feeds_keeps {A} (P : list Z → Prop) (m : M A) : P [] → (∀ X, keeps (holds X true) m) → feeds P m.
Proof. intros HP Hm w Hw. exists []. split; [done|]. rewrite app_nil_r. by apply Hm. Qed.

Section feed.
Context (E : engine).

(** The engine sees a stored buffer when it is told of it. *)
Lemma account_enqueue p bytes n w :
  engineReady w = true → account (push E (EnqueueInput p n) (push E (Store p bytes) w)) = account w ++ bytes.
Proof.
  intros Hr. unfold account. cbn [calls push set_output set_calls engineReady]. rewrite Hr. cbn [inputs_of].
  rewrite concat_app, !app_nil_r. simpl. by rewrite app_nil_r.
Qed.

Lemma do_call_bind {A} c (k : M A) w :
  instantiated w = true →
  (∃ e, (do_call E c;; k) w = (Err e, push E c w)) ∨ (do_call E c;; k) w = k (push E c w).
Proof.
  intros Hi. unfold do_call, mbind, M_bind. rewrite ask_eq, Hi. destruct (mfor _ _ _).1 as [[]|e]; simpl; eauto.
Qed.

(** A buffer in the engine's memory: stored, announced, and the loop woken. *)
Lemma offer_feeds ptr l w :
  engineReady w = true → instantiated w = true →
  ∃ b, b `sublist_of` l ∧
    holds (account w ++ b) true ((do_call E (Store ptr l);; do_call E (EnqueueInput ptr (zlen l));; wakeIO) w).2.
Proof.
  intros Hr Hi. destruct (do_call_bind (Store ptr l) (do_call E (EnqueueInput ptr (zlen l));; wakeIO) w Hi) as [[e ->]| ->].
  { exists []. split; [apply sublist_nil_l|]. split; [|done]. unfold account. simpl. by rewrite Hr, !app_nil_r. }
  exists l. split; [done|].
  destruct (do_call_bind (EnqueueInput ptr (zlen l)) wakeIO (push E (Store ptr l) w) Hi) as [[e ->]| ->];
    [|apply holds_wakeIO]; (split; [by apply account_enqueue|done]).
Qed.

Lemma enqueue_feeds bytes : feeds (λ b, b `sublist_of` bytes) (enqueueInput E bytes).
Proof.
  intros w Hr. unfold enqueueInput. rewrite (bind_run _ _ w (guestSuitePending w) w) by done.
  set (it := negb (guestSuitePending w =? 0) && bool_decide (3 ∈ bytes)).
  set (w0 := (when it (post (OSuiteCancel (guestSuitePending w))) w).2).
  rewrite (bind_run _ _ w tt w0) by (unfold w0; by destruct it).
  assert (account w0 = account w ∧ engineReady w0 = true) as [Ha Hr0] by (unfold w0; by destruct it).
  set (l := if it then filter (λ v, v ≠ 3) bytes else bytes). rewrite <- Ha.
  assert (l `sublist_of` bytes) as Hl by (unfold l; destruct it; [apply sublist_filter|done]). clearbody it w0 l. clear Ha Hr w.
  assert (∀ v, holds (account w0) true v → ∃ b, b `sublist_of` bytes ∧ holds (account w0 ++ b) true v) as Hnone.
  { intros v Hv. exists []. split; [apply sublist_nil_l|]. by rewrite app_nil_r. }
  destruct l as [|b0 l']; [by apply Hnone|]. set (l := b0 :: l') in *. clearbody l. clear b0 l'.
  destruct (instantiated w0) eqn:Hi; [|apply Hnone; unfold mbind, M_bind; by rewrite ask_eq, Hi].
  destruct (ask_bind E (Alloc (zlen l)) (λ ptr, if ptr =? 0 then throw InputAllocation
    else do_call E (Store ptr l);; do_call E (EnqueueInput ptr (zlen l));; wakeIO) w0 Hi) as [[e ->]| ->].
  { apply Hnone. split; [|done]. unfold account. simpl. by rewrite Hr0. }
  destruct (_ =? 0); [apply Hnone; by split|].
  destruct (offer_feeds (answer E (calls w0) (Alloc (zlen l))) l (push E (Alloc (zlen l)) w0) Hr0 Hi) as (b & Hb & H).
  exists b. split; [by trans l|exact H].
Qed.

Lemma enqueue_all_feeds q : feeds (λ b, b `sublist_of` concat q) (mfor (enqueueInput E) q).
Proof.
  induction q as [|b q IH]; simpl; [apply feeds_keeps; [done|]; intros X; apply keeps_ret|].
  intros w Hr. destruct (enqueue_feeds b w Hr) as (b1 & H1 & Ha1 & Hr1). unfold mbind, M_bind.
  destruct (enqueueInput E b w) as [[[]|e] w1]; simpl in *.
  - destruct (IH w1 Hr1) as (b2 & H2 & Ha2 & Hr2). exists (b1 ++ b2). split; [by apply sublist_app|].
    split; [|done]. by rewrite Ha2, Ha1, app_assoc.
  - exists b1. split; [by apply sublist_inserts_r|done].
Qed.

(** The queued input is replayed at most once, in order. *)
Lemma flush_feeds w :
  engineReady w = true →
  ∃ b, b `sublist_of` concat (pendingInput w) ∧ holds (account w ++ b) true (flushPendingEvents E w).2.
Proof.
  intros Hr. unfold flushPendingEvents. rewrite (bind_run _ _ w (engineReady w) w) by done. rewrite Hr. simpl.
  assert (holds (account w) true (flush_resize E w).2) as [Ha1 Hr1] by (by apply holds_flush_resize).
  assert (pendingInput (flush_resize E w).2 = pendingInput w) as Hq.
  { assert (keeps (λ v, pendingInput v = pendingInput w) (flush_resize E)) as Hk; [|by apply Hk].
    unfold flush_resize, wakeIO, controlError, post. repeat keeps_step; eauto with keeps;
      try (apply keeps_upd; done); try (apply keeps_ask; done). }
  unfold mbind at 1, M_bind at 1. destruct (flush_resize E w) as [[[]|e] w1]; simpl in *.
  2:{ exists []. split; [apply sublist_nil_l|]. by rewrite app_nil_r. }
  rewrite (bind_run _ _ w1 (pendingInput w1) w1) by done. rewrite Hq.
  destruct (enqueue_all_feeds (pendingInput w) w1 Hr1) as (b & Hb & Ha2 & Hr2). exists b. split; [done|].
  rewrite <- Ha1. unfold mbind, M_bind at 1. destruct (mfor (enqueueInput E) (pendingInput w) w1) as [[[]|e] w2]; simpl in *; [|done].
  revert w2 Ha2 Hr2. set (X := account w1 ++ b). clearbody X. intros w2 Ha2 Hr2.
  assert (keeps (holds X true) (upd (set_input [] 0);; s ← get pendingSignals; mfor (flush_signal E) s;; upd (set_pendingSignals []))) as Hk.
  { apply keeps_seq; [|keeps_walk]. apply keeps_upd. intros v [Hv1 Hv2]. unfold holds, account in *. simpl.
    by rewrite Hv2 in Hv1 |- *. }
  by apply (Hk w2).
Qed.
End feed.

(** ** Only [run] makes the engine ready *)

Definition begun (w : worker) : Prop := at_pc w ≠ PIdle.

(** Whatever [m] starts from, it returns in a state with [Q]. *)
Definition returns_in {A} (Q : worker → Prop) (m : M A) : Prop :=
  ∀ w, match m w with (Ok _, w') => Q w' | (Err _, _) => True end.

Lemma returns_bind {A B} Q (m : M A) (k : A → M B) : (∀ a, returns_in Q (k a)) → returns_in Q (m ≫= k).
Proof. intros Hk w. unfold mbind, M_bind. destruct (m w) as [[a|e] w']; [apply Hk|done]. Qed.

Lemma closed_at E p r : closed E (λ w, at_pc w = p ∧ engineReady w = r).
Proof.
  split; intros; try (apply keeps_upd; by intros w); [apply keeps_ask; by intros w|..];
    intros w Hw; unfold wakeIO, resolve_waiter, mbind, M_bind, get; simpl; by destruct (ioResolve w).
Qed.

Section begun.
Context (E : engine) (cfg : config).

Hint Extern 1 (keeps begun (ask _ _)) => apply keeps_ask; by intros w : keeps.
Hint Extern 1 (keeps begun (post _)) => apply keeps_upd; by intros w : keeps.
Hint Extern 1 (keeps begun (upd _)) => apply keeps_upd; by intros w : keeps.
Hint Extern 1 (keeps begun (decode_text _)) => apply keeps_decode_text; by intros w : keeps.

Lemma begun_finish : keeps begun (finish E cfg).
Proof. unfold finish, flushOutput, leave, read_result, read_failure. keeps_walk. Qed.
Hint Resolve begun_finish : keeps.

Lemma begun_loop_top : keeps begun (loop_top E cfg).
Proof. unfold loop_top, host_io, host_data, fresh_id, waitForIO. keeps_walk. Qed.
Lemma begun_pump_tick : keeps begun (pump_tick E cfg).
Proof. unfold pump_tick, flushOutput, io_ready. keeps_walk. Qed.
Lemma begun_wait_over poll : keeps begun (wait_over E cfg poll).
Proof. unfold wait_over, flushOutput, io_ready, waitForIO. keeps_walk. Qed.

Lemma begun_rejected e w : begun (rejected E e w).2.
Proof. unfold rejected. by destruct (leave E w). Qed.

Lemma begun_part m w : returns_in begun m → begun (run_part E m w).
Proof. intros Hm. unfold run_part. specialize (Hm w). destruct (m w) as [[]]; [done|apply begun_rejected]. Qed.

Lemma begun_part_keeps m w : keeps begun m → begun w → begun (run_part E m w).
Proof.
  intros Hm Hw. unfold run_part. specialize (Hm w Hw). destruct (m w) as [[]]; [done|apply begun_rejected].
Qed.

Lemma start_run_begun : returns_in begun (start_run E cfg).
Proof.
  unfold start_run. do 3 (apply returns_bind; intros ?). destruct a1 as [[p n]|]; [|done].
  repeat (apply returns_bind; intros ?). done.
Qed.

Lemma settle_begun w : begun w → begun (settle w).
Proof. unfold begun, settle. destruct (at_pc w) eqn:Hp; try done; rewrite ?Hp; try done. destruct (ioResolve w); simpl; congruence. Qed.

(** Before [run] has got to its loop the engine is not ready. *)
Definition unstarted_ok (w : worker) : Prop := at_pc w = PIdle → engineReady w = false.

Lemma unstarted_handle e w w' : unstarted_ok w → handle E cfg e w = Some w' → unstarted_ok w'.
Proof.
  intros Hw Hh. assert (at_pc w = PIdle ∨ begun w) as [Hp|Hp] by (unfold begun; destruct (at_pc w); auto).
  - destruct e; simpl in Hh; rewrite ?Hp in Hh; try done.
    + destruct (asleep w); [|done]. injection Hh as <-.
      destruct (closed_onmessage E _ (closed_at E PIdle false) m w) as [H1 H2]; [by split; [|apply Hw]|].
      unfold settle. rewrite H1. intros _. exact H2.
    + injection Hh as <-. intros Hn. exfalso. by apply (begun_part (start_run E cfg) w start_run_begun).
  - intros Hn. exfalso. revert Hn. change (begun w').
    destruct e; simpl in Hh.
    + destruct (asleep w); [|done]. injection Hh as <-. apply settle_begun.
      destruct (closed_onmessage E _ (closed_at E (at_pc w) (engineReady w)) m w) as [H1 H2]; [by auto|]. unfold begun in *. congruence.
    + destruct (at_pc w) eqn:Hq; try done. destruct (poll =? 0); [done|]. injection Hh as <-. apply settle_begun. unfold begun. simpl. congruence.
    + destruct (at_pc w) eqn:Hq; try done; injection Hh as <-; apply settle_begun; unfold begun, wakeIO, mbind, M_bind, get; simpl;
        destruct (ioResolve w); simpl; congruence.
    + destruct (at_pc w) eqn:Hq; try done. injection Hh as <-. apply begun_part_keeps; [apply begun_pump_tick|]. unfold begun. congruence.
    + destruct (at_pc w) eqn:Hq; try done; injection Hh as <-; apply begun_part_keeps; auto using begun_loop_top, begun_wait_over;
        unfold begun; congruence.
    + exfalso. destruct (at_pc w) eqn:Hq; done.
Qed.

Lemma reachable_unstarted w : reachable E cfg w → unstarted_ok w.
Proof. induction 1 as [|w e w' _ IH Hh]; [done|by eapply unstarted_handle]. Qed.
End begun.

(** ** Every event *)

(** The input an event brings. *)
Definition typed (e : event) : list Z := match e with EMsg (MInput bytes) => bytes | _ => [] end.

Section account_run.
Context (E : engine) (cfg : config).

Lemma settle_account w : account (settle w) = account w.
Proof. unfold settle. destruct (at_pc w); try done. by destruct (ioResolve w). Qed.

Lemma part_account m w X r : keeps (holds X r) m → holds X r w → account (run_part E m w) = X.
Proof.
  intros Hm Hw. unfold run_part. specialize (Hm w Hw). destruct (m w) as [[]w']; [apply Hm|].
  apply (holds_failed E X r e w' Hm).
Qed.

Lemma on_input_account bytes w : account (on_input E bytes w).2 `sublist_of` account w ++ bytes.
Proof.
  unfold on_input. rewrite (bind_run _ _ w (engineReady w) w) by done. destruct (engineReady w) eqn:Hr; simpl.
  - destruct (enqueue_feeds E bytes w Hr) as (b & Hb & -> & _). by apply sublist_app.
  - rewrite (bind_run _ _ w (pendingInputBytes w) w), (bind_run _ _ w (pendingInput w) w) by done.
    unfold when. destruct (_ <=? _); [|by apply sublist_inserts_r].
    unfold account. simpl. rewrite Hr, concat_app. simpl. by rewrite app_nil_r, app_assoc.
Qed.

Lemma rejected_account e w : account (rejected E e w).2 = account w.
Proof. by apply (holds_failed E (account w) (engineReady w) e w). Qed.

(** From [I], [m] ends in [Q] whether it returns or throws. *)
Definition leads {A} (I Q : worker → Prop) (m : M A) : Prop := ∀ w, I w → Q (m w).2.

Lemma leads_bind {A B} (I Q : worker → Prop) (m : M A) (k : A → M B) :
  (∀ w, I w → Q w) → keeps I m → (∀ a, leads I Q (k a)) → leads I Q (m ≫= k).
Proof.
  intros HIQ Hm Hk w Hw. unfold mbind, M_bind. specialize (Hm w Hw).
  destruct (m w) as [[a|e] w']; simpl in *; [by apply Hk|by apply HIQ].
Qed.

(** Making the engine ready hands over the queue. *)
Lemma ready_account X (k : M unit) :
  (∀ Y, keeps (holds Y true) k) →
  leads (holds X false) (λ w, account w `sublist_of` X) (upd (set_engineReady true);; flushPendingEvents E;; k).
Proof.
  intros Hk w [Ha Hr]. set (w1 := set_engineReady true w). rewrite (bind_run _ _ w tt w1) by done.
  assert (account w1 = concat (inputs_of (calls w))) as Ha1 by (unfold account; simpl; by rewrite app_nil_r).
  destruct (flush_feeds E w1 eq_refl) as (b & Hb & Hf). rewrite Ha1 in Hf.
  assert (concat (inputs_of (calls w)) ++ b `sublist_of` X) as Hsub.
  { rewrite <- Ha. unfold account. rewrite Hr. by apply sublist_app. }
  unfold mbind, M_bind. destruct (flushPendingEvents E w1) as [[[]|e] w2]; simpl in *.
  - destruct (Hk _ w2 Hf) as [-> _]. done.
  - destruct Hf as [-> _]. done.
Qed.

(** [run] up to its loop. *)
Lemma start_run_account w :
  engineReady w = false → account (run_part E (start_run E cfg) w) `sublist_of` account w.
Proof.
  intros Hr. assert (leads (holds (account w) false) (λ v, account v `sublist_of` account w) (start_run E cfg)) as Hl.
  { assert (∀ v, holds (account w) false v → account v `sublist_of` account w) as HQ by (by intros v [-> _]).
    unfold start_run. do 2 (apply leads_bind; [done|keeps_walk|intros _]).
    apply leads_bind; [done|keeps_walk|]. intros [[p n]|]; [|intros v [Hv _]; simpl; unfold account in *; simpl; by rewrite Hv].
    apply leads_bind; [done|keeps_walk|intros _]. apply leads_bind; [done|destruct (cfg_shell cfg); keeps_walk|intros y].
    apply leads_bind; [done|keeps_walk|intros _]. apply leads_bind; [done|keeps_walk|intros _].
    apply leads_bind; [done|keeps_walk|intros _]. apply ready_account. intros Y. keeps_walk. }
  specialize (Hl w (conj eq_refl Hr)). unfold run_part. destruct (start_run E cfg w) as [[]v]; [done|]. by rewrite rejected_account.
Qed.

(** What an event adds to the account is part of the input it brings. *)
Lemma handle_account e w w' :
  unstarted_ok w → handle E cfg e w = Some w' → account w' `sublist_of` account w ++ typed e.
Proof.
  intros Hu Hh. assert (∀ v, account v = account w → account v `sublist_of` account w ++ []) as Hsame by (intros v ->; by rewrite app_nil_r).
  assert (∀ m, (∀ X r, keeps (holds X r) m) → account (run_part E m w) `sublist_of` account w ++ []) as Hpart.
  { intros m Hm. apply Hsame. by apply (part_account m w (account w) (engineReady w)). }
  destruct e; simpl in Hh.
  - destruct (asleep w); [|done]. injection Hh as <-. rewrite settle_account.
    destruct m; try (apply Hsame; by apply (holds_onmessage E (account w) (engineReady w))). apply on_input_account.
  - destruct (at_pc w); try done. destruct (poll =? 0); [done|]. injection Hh as <-. rewrite settle_account. by apply Hsame.
  - destruct (at_pc w); try done; injection Hh as <-; rewrite settle_account; apply Hsame; by apply (holds_wakeIO (account w) (engineReady w)).
  - destruct (at_pc w); try done. injection Hh as <-. apply Hpart. intros. apply holds_pump_tick.
  - destruct (at_pc w); try done; injection Hh as <-; apply Hpart; intros; [apply holds_loop_top|apply holds_wait_over].
  - destruct (at_pc w) eqn:Hp; try done. injection Hh as <-. simpl. rewrite app_nil_r. by apply start_run_account, Hu.
Qed.
End account_run.

(** ** An engine that grants its buffers loses nothing *)

Class Grants (E : engine) : Prop := grants h n : answer E h (Alloc n) ≠ 0.

Lemma keeps_and {A} (I J : worker → Prop) (m : M A) : keeps I m → keeps J m → keeps (λ w, I w ∧ J w) m.
Proof. intros HI HJ w [H1 H2]. split; [by apply HI|by apply HJ]. Qed.

Lemma concat_chunk b : concat (chunk b) = b.
Proof. destruct b; simpl; by rewrite ?app_nil_r. Qed.

Lemma concat_nonempty (q : list (list Z)) : concat (filter (λ b, b ≠ []) q) = concat q.
Proof.
  induction q as [|b q IH]; [done|]. rewrite filter_cons. case_decide as Hb; simpl; [by rewrite IH|].
  by rewrite Hb, IH.
Qed.

Definition up (w : worker) : Prop := instantiated w = true.

Lemma closed_up E : closed E up.
Proof.
  split; intros; try (apply keeps_upd; by intros w); [apply keeps_ask; by intros w|..];
    intros w Hw; unfold wakeIO, resolve_waiter, mbind, M_bind, get; simpl; by destruct (ioResolve w).
Qed.

Lemma closed_loop_up : closed_loop up.
Proof.
  split; intros; try (apply keeps_upd; by intros w); [|by apply keeps_decode_text].
  intros w Hw. unfold flushOutput, mbind, M_bind, get. simpl. by destruct (pendingOutput w).
Qed.

Lemma start_run_up E cfg w : run_part E (start_run E cfg) w = run_part E (start_run E cfg) (set_instantiated true w).
Proof. reflexivity. Qed.

(** Once [run] is under way there is an engine. *)
Lemma reachable_up E cfg w : reachable E cfg w → begun w → up w.
Proof.
  induction 1 as [|w e w' Hr IH Hh]; [by destruct 1|].
  assert (at_pc w = PIdle ∨ begun w) as [Hp|Hp] by (unfold begun; destruct (at_pc w); auto).
  - destruct e; simpl in Hh; rewrite ?Hp in Hh; try done.
    + destruct (asleep w); [|done]. injection Hh as <-. intros Hn. exfalso. apply Hn.
      destruct (closed_onmessage E _ (closed_at E PIdle (engineReady w)) m w) as [H1 _]; [by split|].
      unfold settle. by rewrite !H1.
    + intros _. injection Hh as <-. rewrite start_run_up. apply (closed_run_part E up (closed_up E) closed_loop_up); [done|].
      apply ends_keeps; [done|]. apply (closed_start_run E cfg up (closed_up E) closed_loop_up).
  - intros _. apply (closed_handle E cfg up (closed_up E) closed_loop_up) with e w; auto.
    intros poll v Hv. unfold waitForIO, mbind, M_bind, get. simpl. by destruct (ioPending v).
Qed.

Section exact.
Context (E : engine) {HQ : Quiet E} {HG : Grants E} (cfg : config).

Lemma on_input_exact bytes w :
  (engineReady w = true → up w) → queues_ok w → 3 ∉ bytes → zlen (account w ++ bytes) ≤ pendingInputLimit →
  account (on_input E bytes w).2 = account w ++ bytes.
Proof.
  intros Hup Hq H3 Hlen. unfold on_input. rewrite (bind_run _ _ w (engineReady w) w) by done.
  destruct (engineReady w) eqn:Hr; simpl.
  - destruct (enqueue_feeds E bytes w Hr) as (b & _ & _ & Hr').
    destruct (enqueueInput_run E grants bytes w (Hup eq_refl) (or_intror H3)) as (w' & Hrun & _ & Hin & _).
    rewrite Hrun in Hr' |- *. simpl in *. unfold account. rewrite Hr, Hr', Hin, concat_app, concat_chunk. by rewrite !app_nil_r.
  - rewrite (bind_run _ _ w (pendingInputBytes w) w), (bind_run _ _ w (pendingInput w) w) by done.
    unfold when. rewrite zlen_app in Hlen. unfold account in Hlen at 1. rewrite Hr, zlen_app, <- (q_bytes _ Hq) in Hlen.
    pose proof (zlen_nonneg (concat (inputs_of (calls w)))). rewrite (proj2 (Z.leb_le _ _)) by lia.
    unfold account. simpl. rewrite Hr, concat_app. simpl. by rewrite app_nil_r, app_assoc.
Qed.

(** Before the loop: the account, the engine and the queues. *)
Definition staged (X : list Z) (w : worker) : Prop := holds X false w ∧ up w ∧ queues_ok w.

Lemma staged_keeps {A} X (m : M A) : keeps (holds X false) m → keeps up m → keeps queues_ok m → keeps (staged X) m.
Proof. intros H1 H2 H3 w (Hw1 & Hw2 & Hw3). split; [by apply H1|]. split; [by apply H2|by apply H3]. Qed.

Lemma ready_exact X (k : M unit) :
  3 ∉ X → (∀ Y, keeps (holds Y true) k) →
  leads (staged X) (λ w, account w = X) (upd (set_engineReady true);; flushPendingEvents E;; k).
Proof.
  intros H3 Hk w ([Ha Hr] & Hi & Hq). set (w1 := set_engineReady true w). rewrite (bind_run _ _ w tt w1) by done.
  assert (X = concat (inputs_of (calls w)) ++ concat (pendingInput w)) as HX by (rewrite <- Ha; unfold account; by rewrite Hr).
  destruct (flush_feeds E w1 eq_refl) as (b & _ & _ & Hr2).
  destruct (flush_run E grants w1 eq_refl Hi) as (w2 & H2 & _ & _ & _ & Hin & _).
  { right. rewrite HX, not_elem_of_app in H3. tauto. }
  { eapply Forall_impl; [apply (q_entries _ Hq)|]. by intros s (_ & _ & Hx). }
  rewrite (bind_run _ _ _ _ _ H2). rewrite H2 in Hr2. simpl in Hr2.
  assert (holds X true w2) as Hw2.
  { split; [|done]. unfold account. rewrite Hr2, Hin, concat_app, concat_nonempty, app_nil_r. by rewrite HX. }
  apply (Hk X w2 Hw2).
Qed.

Lemma start_run_exact w :
  engineReady w = false → queues_ok w → 3 ∉ account w → account (run_part E (start_run E cfg) w) = account w.
Proof.
  intros Hr Hq H3.
  assert (leads (staged (account w)) (λ v, account v = account w) (start_run E cfg)) as Hl.
  { assert (∀ v, staged (account w) v → account v = account w) as HQ' by (by intros v [[-> _] _]).
    pose proof (closed_up E) as HC. pose proof closed_loop_up as HL.
    pose proof (closed_stage_all E cfg up HC) as Hstage. pose proof (closed_prepare_script E cfg up HC HL) as Hprep.
    pose proof (queues_stage_all E cfg). pose proof (queues_prepare_script E cfg). pose proof queues_flushOutput.
    pose proof (cl_ask E up HC). pose proof (cl_flush up HL).
    assert (∀ f, (∀ v, instantiated (f v) = instantiated v) → keeps up (upd f)) as Hupd
      by (intros f Hf; apply keeps_upd; intros v Hv; unfold up; by rewrite Hf).
    assert (∀ A B (m : M A) (k : A → M B), keeps (holds (account w) false) m → keeps up m → keeps queues_ok m →
      (∀ a, leads (staged (account w)) (λ v, account v = account w) (k a)) →
      leads (staged (account w)) (λ v, account v = account w) (m ≫= k)) as Hbind
      by (intros; apply leads_bind; auto; by apply staged_keeps).
    unfold start_run. apply Hbind; [keeps_walk|apply (cl_instantiated up HL)|keeps_walk|intros _].
    apply Hbind; [keeps_walk..|intros _]. apply Hbind; [keeps_walk..|].
    intros [[p n]|]; [|intros v [[Hv _] _]; simpl; unfold account in *; simpl; by rewrite Hv].
    apply Hbind; [keeps_walk|by apply Hupd|keeps_walk|intros _]. apply Hbind; [destruct (cfg_shell cfg); keeps_walk..|intros y].
    apply Hbind; [keeps_walk|by apply Hupd|keeps_walk|intros _]. apply Hbind; [keeps_walk..|intros _].
    apply Hbind; [keeps_walk|unfold when; destruct (no_suite cfg); [by apply Hupd|apply keeps_ret]|keeps_walk|intros _].
    apply ready_exact; [done|]. intros Y. keeps_walk. }
  rewrite start_run_up. specialize (Hl (set_instantiated true w)).
  assert (staged (account w) (set_instantiated true w)) as Hst by (split; [by split|]; split; [done|by destruct Hq]).
  specialize (Hl Hst). unfold run_part. destruct (start_run E cfg _) as [[]v]; [done|]. by rewrite rejected_account.
Qed.

(** Every event hands over or keeps exactly the input it brings. *)
Lemma handle_exact e w w' :
  reachable E cfg w → 3 ∉ account w ++ typed e → zlen (account w ++ typed e) ≤ pendingInputLimit →
  handle E cfg e w = Some w' → account w' = account w ++ typed e.
Proof.
  intros Hw H3 Hlen Hh. pose proof (reachable_unstarted E cfg w Hw) as Hu. pose proof (reachable_queues E cfg w Hw) as Hq.
  assert (∀ v, account v = account w → account v = account w ++ []) as Hsame by (intros v ->; by rewrite app_nil_r).
  assert (∀ m, (∀ X r, keeps (holds X r) m) → account (run_part E m w) = account w ++ []) as Hpart.
  { intros m Hm. apply Hsame. by apply (part_account E m w (account w) (engineReady w)). }
  apply not_elem_of_app in H3 as [H3 H3'].
  destruct e; simpl in Hh.
  - destruct (asleep w); [|done]. injection Hh as <-. rewrite settle_account.
    destruct m; try (apply Hsame; by apply (holds_onmessage E (account w) (engineReady w))). apply on_input_exact; try done.
    intros Hr. apply (reachable_up E cfg w Hw). intros Hp. by rewrite (Hu Hp) in Hr.
  - destruct (at_pc w); try done. destruct (poll =? 0); [done|]. injection Hh as <-. rewrite settle_account. by apply Hsame.
  - destruct (at_pc w); try done; injection Hh as <-; rewrite settle_account; apply Hsame; by apply (holds_wakeIO (account w) (engineReady w)).
  - destruct (at_pc w); try done. injection Hh as <-. apply Hpart. intros. apply holds_pump_tick.
  - destruct (at_pc w); try done; injection Hh as <-; apply Hpart; intros; [apply holds_loop_top|apply holds_wait_over].
  - destruct (at_pc w) eqn:Hp; try done. injection Hh as <-. simpl. rewrite app_nil_r. by apply start_run_exact; [apply Hu|..].
Qed.
End exact.
