(* ===== verification/WorkerIds.v ===== *)
(** * Request numbers of the worker

    Batches, render tests and clipboard requests share one counter: the numbers
    in the messages a worker posts are positive and strictly increasing, and a
    batch is only cancelled under a number that was given out. *)

From stdpp Require Import base numbers list strings.
From Stdlib Require Import ZArith Lia.
From S2P Require Import Prelude JsNum TermModel Utf8 WatFloat Worker WorkerSafety WorkerLoop.

#[local] Open Scope Z_scope.

(** The number of a request message. *)
Definition request_id (o : out) : option Z :=
  match o with OSuiteRequest id _ | ORenderRequest id | OClipboardRequest id _ => Some id | _ => None end.

Definition request_ids (l : list out) : list Z := omap request_id l.

(** Strictly increasing, from above [low] up to [high]. *)
Fixpoint increasing (low high : Z) (l : list Z) : Prop :=
  match l with [] => low ≤ high | x :: l' => low < x ∧ increasing x high l' end.

Lemma increasing_snoc low high l x : increasing low high l → high < x → increasing low x (l ++ [x]).
Proof.
  revert low. induction l as [|y l IH]; intros low; simpl; [intros; lia|]. intros [Hy Hl] Hx. split; [done|]. by apply IH.
Qed.

Lemma increasing_range low high l x : increasing low high l → x ∈ l → low < x ≤ high.
Proof.
  revert low. induction l as [|y l IH]; intros low; simpl; [by intros _ ?%elem_of_nil|].
  intros [Hy Hl] [-> |Hx]%elem_of_cons; [|pose proof (IH y Hl Hx); lia].
  assert (∀ l a, increasing a high l → a ≤ high) as Hle; [|pose proof (Hle l y Hl); lia].
  clear. intros l. induction l as [|z l IH]; intros a; simpl; [done|]. intros [H1 H2%IH]. lia.
Qed.

Lemma increasing_NoDup low high l : increasing low high l → NoDup l.
Proof.
  revert low. induction l as [|y l IH]; intros low; simpl; [constructor|]. intros [Hy Hl].
  constructor; [|by eapply IH]. intros Hin. pose proof (increasing_range y high l y Hl Hin). lia.
Qed.

(** The numbers given out, with a batch and its cancels among them. *)
Record ids_ok (w : worker) : Prop := {
  id_order : increasing 0 (guestSuiteSequence w) (request_ids (outbox w));
  id_pending : 0 ≤ guestSuitePending w ≤ guestSuiteSequence w;
  id_cancels : ∀ id, OSuiteCancel id ∈ outbox w → 0 < id ≤ guestSuiteSequence w }.

Section ids.
Context (E : engine) (cfg : config).

Lemma ids_upd (f : worker → worker) :
  (∀ w, (outbox (f w), guestSuitePending (f w), guestSuiteSequence (f w)) = (outbox w, guestSuitePending w, guestSuiteSequence w)) →
  keeps ids_ok (upd f).
Proof.
  intros Hf. apply keeps_upd. intros w []. specialize (Hf w). injection Hf as H1 H2 H3.
  constructor; rewrite ?H1, ?H2, ?H3; done.
Qed.

Lemma request_ids_app l1 l2 : request_ids (l1 ++ l2) = request_ids l1 ++ request_ids l2.
Proof. apply omap_app. Qed.

Lemma ids_post o : request_id o = None → (∀ id, o ≠ OSuiteCancel id) → keeps ids_ok (post o).
Proof.
  intros Ho Hc. apply keeps_upd. intros w [H1 H2 H3]. constructor; simpl; [|done|].
  - rewrite request_ids_app. unfold request_ids at 2. simpl. by rewrite Ho, app_nil_r.
  - intros id [Hid|Hid%list_elem_of_singleton]%elem_of_app; [by apply H3|]. by destruct (Hc id).
Qed.

Lemma ids_ask c : keeps ids_ok (ask E c).
Proof. apply keeps_ask. intros w o d b [] _. by constructor. Qed.

Lemma ids_decode bytes : keeps ids_ok (decode_text bytes).
Proof. apply keeps_decode_text. intros w o d b []. by constructor. Qed.

Hint Resolve ids_ask ids_decode : keeps.
Hint Extern 1 (keeps ids_ok (post _)) => apply ids_post; [done|discriminate] : keeps.
Hint Extern 1 (keeps ids_ok (controlError _)) => apply ids_post; [done|discriminate] : keeps.
Hint Extern 1 (keeps ids_ok (upd _)) => apply ids_upd; reflexivity : keeps.

Lemma ids_wakeIO : keeps ids_ok wakeIO.
Proof. unfold wakeIO. keeps_walk. Qed.
Lemma ids_waitForIO poll : keeps ids_ok (waitForIO poll).
Proof. unfold waitForIO. keeps_walk. Qed.
Lemma ids_flushOutput : keeps ids_ok flushOutput.
Proof. unfold flushOutput. keeps_walk. Qed.
Hint Resolve ids_wakeIO ids_waitForIO ids_flushOutput : keeps.

(** A batch is cancelled under its own number. *)
Lemma ids_cancel w : ids_ok w → guestSuitePending w ≠ 0 → ids_ok (set_outbox (outbox w ++ [OSuiteCancel (guestSuitePending w)]) w).
Proof.
  intros [H1 H2 H3] Hg. constructor; simpl; [|done|].
  - rewrite request_ids_app. unfold request_ids at 2. simpl. by rewrite app_nil_r.
  - intros id [Hid|Hid%list_elem_of_singleton]%elem_of_app; [by apply H3|]. injection Hid as ->. lia.
Qed.

Lemma ids_close : keeps ids_ok (upd (set_guestSuite 0)).
Proof. apply keeps_upd. intros w []. constructor; simpl; try done. lia. Qed.
Hint Resolve ids_close : keeps.

Lemma ids_drop : keeps ids_ok drop_guest_suite.
Proof.
  unfold drop_guest_suite. intros w Hw. unfold mbind, M_bind, get, when. simpl.
  destruct (Z.eqb_spec (guestSuitePending w) 0) as [Hg|Hg]; apply ids_close; [done|by apply ids_cancel].
Qed.

Lemma ids_enqueueInput bytes : keeps ids_ok (enqueueInput E bytes).
Proof.
  intros w Hw. unfold enqueueInput. unfold mbind at 1, M_bind at 1, get. simpl.
  set (it := negb _ && _). set (l := if it then _ else _).
  assert (keeps ids_ok (match l with
    | [] => mret tt
    | _ => ptr ← ask E (Alloc (zlen l)); if ptr =? 0 then throw InputAllocation
           else do_call E (Store ptr l);; do_call E (EnqueueInput ptr (zlen l));; wakeIO end)) as Hk by (clearbody l; keeps_walk).
  unfold mbind at 1, M_bind at 1, when. destruct it eqn:Hit; simpl; apply Hk; [|done].
  apply ids_cancel; [done|]. unfold it in Hit. intros Hz. by rewrite Hz in Hit.
Qed.
Hint Resolve ids_drop ids_enqueueInput : keeps.

Lemma ids_flush : keeps ids_ok (flushPendingEvents E).
Proof. unfold flushPendingEvents, flush_resize, flush_signal. keeps_walk. Qed.

Lemma ids_reply bytes reply : keeps ids_ok (reply_with E bytes reply).
Proof. unfold reply_with. keeps_walk. Qed.
Hint Resolve ids_flush ids_reply : keeps.

Lemma ids_onmessage m : keeps ids_ok (onmessage E m).
Proof.
  destruct m; simpl; unfold on_input, on_signal, on_resize, on_advance_clock, on_set_clock, on_suite_response,
    on_render_response, on_clipboard_response, on_upload_response, on_cancel, on_stop, resolve_waiter; keeps_walk.
Qed.

(** A request takes the next number. *)
Lemma ids_issue (f : Z → worker → worker) (o : Z → out) :
  (∀ id w, outbox (f id w) = outbox w ∧ guestSuiteSequence (f id w) = guestSuiteSequence w ∧
     guestSuitePending (f id w) ∈ [guestSuitePending w; id]) →
  (∀ id, request_id (o id) = Some id) → keeps ids_ok (id ← fresh_id; upd (f id);; post (o id)).
Proof.
  intros Hf Ho w [H1 H2 H3]. set (id := guestSuiteSequence w + 1). set (w1 := f id (set_sequence id w)).
  change (ids_ok (set_outbox (outbox w1 ++ [o id]) w1)).
  destruct (Hf id (set_sequence id w)) as (Hb & Hs & Hp). fold w1 in Hb, Hs, Hp. simpl in Hb, Hs, Hp.
  constructor; simpl; rewrite ?Hb, ?Hs.
  - rewrite request_ids_app. unfold request_ids at 2. simpl. rewrite Ho. apply (increasing_snoc 0 (guestSuiteSequence w)); [done|].
    unfold id. lia.
  - rewrite !elem_of_cons in Hp. unfold id in *. destruct Hp as [-> |[-> |[]%elem_of_nil]]; lia.
  - intros i [Hi|Hi%list_elem_of_singleton]%elem_of_app; [pose proof (H3 i Hi); unfold id; lia|].
    pose proof (Ho id) as Hx. by rewrite <- Hi in Hx.
Qed.

Lemma ids_host_io : keeps ids_ok (host_io E).
Proof.
  unfold host_io, host_data.
  assert (∀ request, keeps ids_ok (id ← fresh_id; upd (set_guestSuite id);; post (OSuiteRequest id request)))
    by (intros; apply ids_issue; [intros; split; [done|split; [done|rewrite !elem_of_cons; auto]]|done]).
  assert (keeps ids_ok (id ← fresh_id; upd (set_renderTest id);; post (ORenderRequest id)))
    by (intros; apply ids_issue; [intros; split; [done|split; [done|rewrite !elem_of_cons; auto]]|done]).
  assert (∀ bytes, keeps ids_ok (id ← fresh_id; upd (set_clipboard id);; post (OClipboardRequest id bytes)))
    by (intros; apply ids_issue; [intros; split; [done|split; [done|rewrite !elem_of_cons; auto]]|done]).
  keeps_walk.
Qed.
Hint Resolve ids_host_io : keeps.

Lemma ids_stageVfsMtime t : keeps ids_ok (stageVfsMtime E cfg t).
Proof. unfold stageVfsMtime, check. keeps_walk. Qed.
Hint Resolve ids_stageVfsMtime : keeps.

Lemma ids_stageVfsPath path kind mode size t : keeps ids_ok (stageVfsPath E cfg path kind mode size t).
Proof. unfold stageVfsPath, copy_in. keeps_walk. Qed.
Lemma ids_stage_file path bytes mode t : keeps ids_ok (stage_file E cfg path bytes mode t).
Proof. unfold stage_file, copy_in2. keeps_walk. Qed.
Hint Resolve ids_stageVfsPath ids_stage_file : keeps.

Lemma ids_stage_all : keeps ids_ok (stage_all E cfg).
Proof.
  unfold stage_all, stage_clocks, stageInstalledVfs, submit, stage_build_mtime, stage_probe_executable, stage_dirs,
    stage_cwd, stage_packaged, stageVfsSymlink, stage_probe_file, stage_limits, stage_pump, check, copy_in, copy_in2.
  keeps_walk.
Qed.

Lemma ids_prepare_script : keeps ids_ok (prepare_script E cfg).
Proof. unfold prepare_script, load_test, copy_in. keeps_walk. Qed.

Lemma ids_leave : keeps ids_ok (leave E).
Proof. unfold leave. keeps_walk. Qed.
Hint Resolve ids_stage_all ids_prepare_script ids_leave : keeps.

Lemma ids_finish : keeps ids_ok (finish E cfg).
Proof. unfold finish, read_result, read_failure. keeps_walk. Qed.
Lemma ids_io_ready : keeps ids_ok (io_ready E).
Proof. unfold io_ready. keeps_walk. Qed.
Hint Resolve ids_finish ids_io_ready : keeps.

Lemma ids_run_part m w : keeps ids_ok m → ids_ok w → ids_ok (run_part E m w).
Proof.
  intros Hm Hw. unfold run_part. specialize (Hm w Hw). destruct (m w) as [[]w']; [done|].
  revert w' Hm. change (keeps ids_ok (rejected E e)). apply keeps_rejected; keeps_walk.
Qed.

Lemma ids_settle w : ids_ok w → ids_ok (settle w).
Proof. intros []. unfold settle. destruct (at_pc w); try done. destruct (ioResolve w); done. Qed.

Lemma ids_handle e w w' : ids_ok w → handle E cfg e w = Some w' → ids_ok w'.
Proof.
  intros Hw. destruct e; simpl.
  - destruct (asleep w); [|done]. intros [= <-]. by apply ids_settle, ids_onmessage.
  - destruct (at_pc w); try done. destruct (poll =? 0); [done|]. intros [= <-]. apply ids_settle. by destruct Hw.
  - destruct (at_pc w); try done; intros [= <-]; by apply ids_settle, ids_wakeIO.
  - destruct (at_pc w); try done. intros [= <-]. apply ids_run_part; [|done]. unfold pump_tick. keeps_walk.
  - destruct (at_pc w); try done; intros [= <-]; (apply ids_run_part; [|done]); unfold loop_top, wait_over; keeps_walk.
  - destruct (at_pc w); try done. intros [= <-]. apply ids_run_part; [|done]. unfold start_run. keeps_walk.
Qed.

Lemma reachable_ids w : reachable E cfg w → ids_ok w.
Proof.
  induction 1 as [|w e w' _ IH Hh]; [|by eapply ids_handle]. constructor; simpl; [done|done|by intros id ?%elem_of_nil].
Qed.
End ids.
