(* ===== verification/NativeFixture.v ===== *)
(** * The browser-native test fixture (src/html-rt/src/worker.js: runBrowserNative)

    A test module that is not run by the C engine gets a small set of POSIX-like
    imports.  Open files are shared objects: [dup] and [pipe] put one object
    under two descriptors, so the model keeps a heap of objects and maps
    descriptors to references.  The module's functions themselves are a
    parameter of the step loop. *)

From stdpp Require Import base numbers list gmap strings.
From Stdlib Require Import ZArith Lia.
From S2P Require Import Prelude JsNum TermModel TermCells.

#[local] Open Scope Z_scope.
#[local] Open Scope waste_scope.

(** ** Typed arrays *)

Inductive native_fault : Type :=
| ArrayRange                     (* [RangeError] of a typed array *)
| UnknownModule | ExportNotFound.

(** [slice] and [subarray]: indices relative to the end when negative, clamped. *)
Definition array_slice (l : list Z) (from to : Z) : list Z :=
  let a := rel_index (zlen l) from in
  let b := rel_index (zlen l) to in
  take (Z.to_nat (b - a)) (drop (Z.to_nat a) l).

(** [dst.set(src, at)]. *)
Definition array_set (dst src : list Z) (at_ : Z) : result native_fault (list Z) :=
  if (0 <=? at_) && (at_ + zlen src <=? zlen dst)
  then Ok (take (Z.to_nat at_) dst ++ src ++ drop (Z.to_nat (at_ + zlen src)) dst)
  else Err ArrayRange.

(** [new Uint8Array(n)] filled with [l]. *)
Definition grown (n : Z) (l : list Z) : result native_fault (list Z) :=
  if n <? 0 then Err ArrayRange else array_set (replicate (Z.to_nat n) 0) l 0.

(** ** State *)

Record file_object : Type := mkObject { o_data : list Z; o_offset : Z; o_pipe : bool }.
Record child : Type := mkChild { ch_number : Z; ch_waits : Z; ch_signal : Z }.

Record native : Type := mkNative {
  nextFd : Z; nextPid : Z; forkNumber : Z;
  descriptors : gmap Z nat; objects : list file_object; children : gmap Z child;
  mem : list Z }.

Definition native_start (memory : list Z) : native := mkNative 3 2 0 ∅ [] ∅ memory.

Definition set_mem (m : list Z) (s : native) : native :=
  mkNative (nextFd s) (nextPid s) (forkNumber s) (descriptors s) (objects s) (children s) m.
Definition set_object (r : nat) (o : file_object) (s : native) : native :=
  mkNative (nextFd s) (nextPid s) (forkNumber s) (descriptors s) (<[r := o]> (objects s)) (children s) (mem s).
Definition set_child (pid : Z) (c : child) (s : native) : native :=
  mkNative (nextFd s) (nextPid s) (forkNumber s) (descriptors s) (objects s) (<[pid := c]> (children s)) (mem s).

(** A new object on the heap. *)
Definition new_object (o : file_object) (s : native) : nat * native :=
  (length (objects s),
   mkNative (nextFd s) (nextPid s) (forkNumber s) (descriptors s) (objects s ++ [o]) (children s) (mem s)).

Definition allocFd (r : nat) (s : native) : Z * native :=
  (nextFd s,
   mkNative (nextFd s + 1) (nextPid s) (forkNumber s) (<[nextFd s := r]> (descriptors s)) (objects s) (children s) (mem s)).

(** The object under a descriptor. *)
Definition object_of (s : native) (fd : Z) : option (nat * file_object) :=
  r ← descriptors s !! fd; o ← objects s !! r; Some (r, o).

(** [setInt32(ptr, value, true)]. *)
Definition writeI32 (ptr value : Z) (s : native) : result native_fault native :=
  let* m := array_set (mem s) (le32 (to_uint32 value)) ptr in Ok (set_mem m s).

(** ** The imports *)

Abbreviation call := (result native_fault (Z * native)) (only parsing).

Definition open (s : native) : call :=
  let '(r, s1) := new_object (mkObject [] 0 false) s in Ok (allocFd r s1).

Definition close (fd : Z) (s : native) : call :=
  Ok (0, mkNative (nextFd s) (nextPid s) (forkNumber s) (delete fd (descriptors s)) (objects s) (children s) (mem s)).

Definition write (fd ptr count : Z) (s : native) : call :=
  match object_of s fd with
  | None => Ok (-1, s)
  | Some (r, d) =>
    let input := array_slice (mem s) ptr (ptr + count) in
    if o_pipe d then
      let* g := grown (zlen (o_data d) + count) (o_data d) in
      let* g := array_set g input (zlen (o_data d)) in
      Ok (count, set_object r (mkObject g (o_offset d) true) s)
    else
      let needed := o_offset d + count in
      let* data := if zlen (o_data d) <? needed then grown needed (o_data d) else Ok (o_data d) in
      let* data := array_set data input (o_offset d) in
      Ok (count, set_object r (mkObject data (o_offset d + count) (o_pipe d)) s)
  end.

Definition read (fd ptr count : Z) (s : native) : call :=
  match object_of s fd with
  | None => Ok (-1, s)
  | Some (r, d) =>
    let n := Z.min count (zlen (o_data d) - o_offset d) in
    let* m := array_set (mem s) (array_slice (o_data d) (o_offset d) (o_offset d + n)) ptr in
    Ok (n, set_object r (mkObject (o_data d) (o_offset d + n) (o_pipe d)) (set_mem m s))
  end.

Definition lseek (fd offset whence : Z) (s : native) : call :=
  match object_of s fd with
  | None => Ok (-1, s)
  | Some (r, d) =>
    let offset := if whence =? 0 then offset else if whence =? 1 then o_offset d + offset else zlen (o_data d) + offset in
    Ok (offset, set_object r (mkObject (o_data d) offset (o_pipe d)) s)
  end.

Definition pipe (ptr : Z) (s : native) : call :=
  let '(r, s1) := new_object (mkObject [] 0 true) s in
  let '(readFd, s2) := allocFd r s1 in
  let '(writeFd, s3) := allocFd r s2 in
  let* s4 := writeI32 ptr readFd s3 in
  let* s5 := writeI32 (ptr + 4) writeFd s4 in
  Ok (0, s5).

Definition dup (fd : Z) (s : native) : call :=
  match descriptors s !! fd with Some r => Ok (allocFd r s) | None => Ok (-1, s) end.

Definition fork (s : native) : call :=
  let number := forkNumber s + 1 in
  Ok (nextPid s,
      mkNative (nextFd s) (nextPid s + 1) number (descriptors s) (objects s)
        (<[nextPid s := mkChild number 0 0]> (children s)) (mem s)).

Definition kill (pid signal : Z) (s : native) : call :=
  match children s !! pid with
  | Some c => if signal =? 18 then Ok (0, s) else Ok (0, set_child pid (mkChild (ch_number c) (ch_waits c) signal) s)
  | None => Ok (0, s)
  end.

Definition killpg (pid signal : Z) (s : native) : call :=
  match children s !! pid with
  | Some c => Ok (0, set_child pid (mkChild (ch_number c) (ch_waits c) signal) s)
  | None => Ok (0, s)
  end.

Definition wait_status (c : child) (options : Z) : Z :=
  if negb (Z.land options 2 =? 0) then Z.lor (Z.shiftl 19 8) 127
  else if negb (ch_signal c =? 0) then ch_signal c
  else Z.shiftl (if ch_number c =? 1 then 7 else if ch_number c =? 2 then 3 else 0) 8.

Definition waitpid (pid statusPtr options : Z) (s : native) : call :=
  match children s !! pid with
  | None => Ok (-1, s)
  | Some c =>
    let c1 := mkChild (ch_number c) (ch_waits c + 1) (ch_signal c) in
    let* s1 := writeI32 statusPtr (wait_status c1 options) (set_child pid c1 s) in
    Ok (pid, s1)
  end.

(** ** The step loop *)

Inductive wasm_value : Type := I32 (z : Z) | I64 (z : Z).

#[export] Instance wasm_value_eq_dec : EqDecision wasm_value.
Proof. solve_decision. Defined.

Record native_step : Type := mkStep {
  st_module : option string; st_func : string; st_args : list wasm_value; st_expect : list wasm_value }.

Record step_result : Type := mkStepResult { sr_func : string; sr_pass : bool }.

(** A call of an exported function: a value, or an exception of the module. *)
Inductive outcome : Type := Returned (v : option wasm_value) | Threw.

Definition step_pass (expect : list wasm_value) (actual : option wasm_value) : bool :=
  match expect with
  | [] => true
  | [v] => bool_decide (actual = Some v)
  | _ => false
  end.

Section steps.
(** The instances by name, the last one, their exports, and the effect of calling one. *)
Context (instance : Type) (named : string → option instance) (current : option instance)
        (exported : instance → string → bool)
        (invoke : instance → string → list wasm_value → native → outcome * native).

Fixpoint run_steps (steps : list native_step) (s : native) : result native_fault (list step_result * native) :=
  match steps with
  | [] => Ok ([], s)
  | st :: rest =>
    let* i := of_option UnknownModule (match st_module st with Some m => named m | None => current end) in
    if negb (exported i (st_func st)) then Err ExportNotFound
    else
      let '(o, s1) := invoke i (st_func st) (st_args st) s in
      let r := mkStepResult (st_func st) (match o with Returned v => step_pass (st_expect st) v | Threw => false end) in
      let* '(rs, s2) := run_steps rest s1 in
      Ok (r :: rs, s2)
  end.
End steps.

(** The [done] message: all steps passed. *)
Definition native_done (results : list step_result) : bool * Z * Z :=
  let passed := zlen (filter (λ r, sr_pass r = true) results) in
  (passed =? zlen results, zlen results, passed).
