(* ===== verification/NativeTheorems.v ===== *)
(** * Theorems on the browser-native fixture *)

From stdpp Require Import base numbers list gmap strings.
From Stdlib Require Import ZArith Lia.
From S2P Require Import Prelude JsNum TermModel TermCells NativeFixture.

#[local] Open Scope Z_scope.
#[local] Open Scope waste_scope.

(** ** Array windows *)

(** The [n] bytes at [p]. *)
Definition window (l : list Z) (p n : Z) : list Z := take (Z.to_nat n) (drop (Z.to_nat p) l).

Lemma array_slice_window l p n :
  0 ≤ p → 0 ≤ n → p + n ≤ zlen l → array_slice l p (p + n) = window l p n.
Proof.
  intros Hp Hn Hl. unfold array_slice, rel_index.
  rewrite (proj2 (Z.ltb_ge p 0)), (proj2 (Z.ltb_ge (p + n) 0)) by lia.
  rewrite !Z.min_l by lia. unfold window. f_equal. lia.
Qed.

Lemma zlen_window l p n : 0 ≤ p → 0 ≤ n → p + n ≤ zlen l → zlen (window l p n) = n.
Proof. intros. unfold window, zlen in *. rewrite length_take, length_drop. lia. Qed.

Lemma array_set_window dst src at_ :
  0 ≤ at_ → at_ + zlen src ≤ zlen dst →
  ∃ out, array_set dst src at_ = Ok out ∧ zlen out = zlen dst ∧ window out at_ (zlen src) = src ∧
    take (Z.to_nat at_) out = take (Z.to_nat at_) dst.
Proof.
  intros Ha Hl. unfold array_set. rewrite (proj2 (Z.leb_le 0 at_)), (proj2 (Z.leb_le _ _)) by lia. simpl.
  eexists. split; [done|]. unfold zlen, window in *.
  rewrite !length_app, length_take, length_drop. split; [lia|].
  assert (length (take (Z.to_nat at_) dst) = Z.to_nat at_) as Ht by (rewrite length_take; lia).
  split.
  - rewrite drop_app_length' by done. rewrite Nat2Z.id. by apply take_app_length.
  - by rewrite take_app_length'.
Qed.

(** [new Uint8Array(n)] with the old bytes in front. *)
Lemma grown_spec n l :
  zlen l ≤ n → ∃ g, grown n l = Ok g ∧ zlen g = n ∧ take (length l) g = l.
Proof.
  intros Hn. pose proof (zlen_nonneg l). unfold grown. rewrite (proj2 (Z.ltb_ge n 0)) by lia.
  destruct (array_set_window (replicate (Z.to_nat n) 0) l 0) as (g & Hg & Hl & Hw & _).
  { lia. } { unfold zlen at 2. rewrite length_replicate. lia. }
  exists g. split; [done|]. unfold zlen in Hl at 2. rewrite length_replicate in Hl.
  split; [lia|]. unfold window in Hw. simpl in Hw. unfold zlen in Hw. by rewrite Nat2Z.id in Hw.
Qed.

(** ** Objects *)

Lemma object_of_set s fd fd' r o o' :
  object_of s fd = Some (r, o) → descriptors s !! fd' = descriptors s !! fd →
  object_of (set_object r o' s) fd' = Some (r, o').
Proof.
  unfold object_of. intros H Hd. simpl. rewrite Hd. destruct (descriptors s !! fd) as [r'|]; [|done]. simpl in *.
  destruct (objects s !! r') as [o1|] eqn:Ho; [|done]. simpl in H. simplify_eq.
  rewrite list_lookup_insert_eq by (by eapply lookup_lt_Some). done.
Qed.

Lemma object_of_same s fd fd' : descriptors s !! fd' = descriptors s !! fd → object_of s fd' = object_of s fd.
Proof. unfold object_of. by intros ->. Qed.

(** ** Writing and reading a file *)

Lemma write_file_run s fd r data off p n :
  object_of s fd = Some (r, mkObject data off false) → 0 ≤ off → 0 ≤ p → 0 ≤ n → p + n ≤ zlen (mem s) →
  ∃ data', write fd p n s = Ok (n, set_object r (mkObject data' (off + n) false) s) ∧
    off + n ≤ zlen data' ∧ window data' off n = window (mem s) p n.
Proof.
  intros Ho Hoff Hp Hn Hm. unfold write. rewrite Ho. cbn [o_pipe o_offset o_data].
  rewrite array_slice_window by done. pose proof (zlen_window (mem s) p n Hp Hn Hm) as Hw.
  assert (∃ d1, (if zlen data <? off + n then grown (off + n) data else Ok data) = Ok d1 ∧ off + n ≤ zlen d1) as (d1 & -> & Hd1).
  { case (Z.ltb_spec (zlen data) (off + n)); intros Hlt; [|by exists data].
    destruct (grown_spec (off + n) data) as (g & Hg & Hl & _); [lia|]. exists g. split; [done|lia]. }
  cbn [rbind]. destruct (array_set_window d1 (window (mem s) p n) off) as (out & -> & Hl & Hwin & _); [done|lia|].
  cbn [rbind]. exists out. rewrite Hw in Hwin. split; [done|]. split; [lia|done].
Qed.

Lemma read_run s fd r data off pipe q n :
  object_of s fd = Some (r, mkObject data off pipe) → 0 ≤ off ≤ zlen data → 0 ≤ q → 0 ≤ n →
  let k := Z.min n (zlen data - off) in
  q + k ≤ zlen (mem s) →
  ∃ m, read fd q n s = Ok (k, set_object r (mkObject data (off + k) pipe) (set_mem m s)) ∧
    zlen m = zlen (mem s) ∧ window m q k = window data off k.
Proof.
  intros Ho Hoff Hq Hn k Hm. unfold read. rewrite Ho. cbn [o_pipe o_offset o_data]. fold k.
  rewrite array_slice_window by lia. pose proof (zlen_window data off k ltac:(lia) ltac:(lia) ltac:(lia)) as Hw.
  destruct (array_set_window (mem s) (window data off k) q) as (m & -> & Hl & Hwin & _); [done|lia|].
  cbn [rbind]. exists m. by rewrite Hw in Hwin.
Qed.

(** Bytes written to a file of the fixture come back: after [lseek] to the start of what was
    written, a read through the same descriptor or any descriptor that shares the open
    file (after [dup]) returns the same number of bytes and puts the same bytes in memory. *)
Theorem native_file_roundtrip s fd fd' r data off p q n :
  object_of s fd = Some (r, mkObject data off false) → descriptors s !! fd' = descriptors s !! fd →
  0 ≤ off → 0 ≤ p → 0 ≤ q → 0 ≤ n → p + n ≤ zlen (mem s) → q + n ≤ zlen (mem s) →
  ∃ s1 s2 s3, write fd p n s = Ok (n, s1) ∧ lseek fd off 0 s1 = Ok (off, s2) ∧
    read fd' q n s2 = Ok (n, s3) ∧ window (mem s3) q n = window (mem s) p n.
Proof.
  intros Ho Hd Hoff Hp Hq Hn Hpm Hqm.
  destruct (write_file_run s fd r data off p n Ho Hoff Hp Hn Hpm) as (data' & Hw & Hlen & Hwin).
  set (s1 := set_object r (mkObject data' (off + n) false) s) in *.
  assert (object_of s1 fd = Some (r, mkObject data' (off + n) false)) as Ho1 by (by eapply object_of_set).
  set (s2 := set_object r (mkObject data' off false) s1).
  assert (object_of s2 fd' = Some (r, mkObject data' off false)) as Ho2 by (eapply object_of_set; [exact Ho1|done]).
  assert (Z.min n (zlen data' - off) = n) as Hk by lia.
  destruct (read_run s2 fd' r data' off false q n Ho2) as (m & Hr & Hlm & Hwm);
    [lia|done|done|rewrite Hk; done|]. rewrite Hk in Hr, Hwm.
  exists s1, s2, (set_object r (mkObject data' (off + n) false) (set_mem m s2)).
  split; [done|]. split; [by unfold lseek; rewrite Ho1|]. split; [done|]. simpl. by rewrite Hwm.
Qed.

Definition fixture_file : native :=
  mkNative 5 2 0 {[3 := 0%nat; 4 := 0%nat]} [mkObject [] 0 false] ∅ [1; 2; 3; 0; 0; 0].

Lemma native_file_roundtrip_witness :
  ∃ s1 s2 s3, write 3 0 3 fixture_file = Ok (3, s1) ∧ lseek 3 0 0 s1 = Ok (0, s2) ∧
    read 4 3 3 s2 = Ok (3, s3) ∧ window (mem s3) 3 3 = window (mem fixture_file) 0 3.
Proof. apply (native_file_roundtrip fixture_file 3 4 0 [] 0 0 3 3); by vm_compute. Defined.

(** ** Pipes *)

(** The bytes written and not yet read. *)
Definition unread (o : file_object) : list Z := drop (Z.to_nat (o_offset o)) (o_data o).

(** A pipe of the fixture is a FIFO shared by its two ends: a write through one descriptor
    appends the bytes to the unread ones, and a read through the other takes a prefix of
    them, as many as asked for or as there are, in order. *)
Theorem pipe_is_fifo s rfd wfd r o p n q k :
  object_of s wfd = Some (r, o) → descriptors s !! rfd = descriptors s !! wfd →
  o_pipe o = true → 0 ≤ o_offset o ≤ zlen (o_data o) → 0 ≤ p → 0 ≤ n → p + n ≤ zlen (mem s) →
  0 ≤ q → 0 ≤ k → q + k ≤ zlen (mem s) →
  ∃ s1 o1 s2 o2, write wfd p n s = Ok (n, s1) ∧ object_of s1 rfd = Some (r, o1) ∧
    unread o1 = unread o ++ window (mem s) p n ∧
    let got := Z.min k (zlen (unread o1)) in
    read rfd q k s1 = Ok (got, s2) ∧ object_of s2 wfd = Some (r, o2) ∧
    window (mem s2) q got ++ unread o2 = unread o1.
Proof.
  intros Ho Hd Hpipe Hoff Hp Hn Hpm Hq Hk Hqm. destruct o as [data off pp]. simpl in *. subst pp.
  pose proof (zlen_window (mem s) p n Hp Hn Hpm) as Hwl.
  destruct (grown_spec (zlen data + n) data) as (g & Hg & Hgl & Hgt); [lia|].
  destruct (array_set_window g (window (mem s) p n) (zlen data)) as (g' & Hg' & Hgl' & Hwin & Htake);
    [apply zlen_nonneg|lia|].
  assert (g' = data ++ window (mem s) p n) as ->.
  { rewrite Hwl in Hwin. unfold window in Hwin at 1. unfold zlen in *. rewrite Nat2Z.id in *.
    rewrite <- (take_drop (length data) g'), Htake, Hgt. f_equal.
    rewrite <- Hwin. symmetry. apply take_ge. rewrite length_drop. lia. }
  set (o1 := mkObject (data ++ window (mem s) p n) off true).
  exists (set_object r o1 s), o1.
  assert (object_of (set_object r o1 s) rfd = Some (r, o1)) as Ho1 by (by eapply object_of_set).
  assert (unread o1 = drop (Z.to_nat off) data ++ window (mem s) p n) as Hun.
  { unfold unread. simpl. apply drop_app_le. unfold zlen in *. lia. }
  assert (zlen (unread o1) = zlen (o_data o1) - off) as Hul.
  { unfold unread. simpl. unfold zlen in *. rewrite length_drop, length_app. lia. }
  assert (0 ≤ zlen (unread o1)) by apply zlen_nonneg.
  destruct (read_run (set_object r o1 s) rfd r (o_data o1) off true q k Ho1) as (m & Hr & Hlm & Hwm); [lia|done|done|simpl; lia|].
  rewrite <- Hul in Hr, Hwm. set (got := Z.min k (zlen (unread o1))) in *.
  set (o2 := mkObject (o_data o1) (off + got) true) in *.
  exists (set_object r o2 (set_mem m (set_object r o1 s))), o2.
  split. { unfold write. rewrite Ho. cbn [o_pipe o_data o_offset]. rewrite array_slice_window by done.
           rewrite Hg. cbn [rbind]. rewrite Hg'. done. }
  split; [done|]. split; [done|]. cbv zeta. fold got. split; [exact Hr|]. split.
  - eapply (object_of_set (set_mem m (set_object r o1 s)) rfd); [exact Ho1|]. simpl. by rewrite Hd.
  - simpl. rewrite Hwm. unfold unread, window. cbn [o2 o_offset o_data].
    replace (Z.to_nat (off + got)) with (Z.to_nat off + Z.to_nat got)%nat by lia.
    rewrite <- drop_drop. apply take_drop.
Qed.

Definition fixture_pipe : native :=
  mkNative 5 2 0 {[3 := 0%nat; 4 := 0%nat]} [mkObject [9] 0 true] ∅ [1; 2; 3; 0; 0; 0].

Lemma pipe_is_fifo_witness :
  ∃ s1 o1 s2 o2, write 4 0 3 fixture_pipe = Ok (3, s1) ∧ object_of s1 3 = Some (0%nat, o1) ∧
    unread o1 = unread (mkObject [9] 0 true) ++ window (mem fixture_pipe) 0 3 ∧
    let got := Z.min 2 (zlen (unread o1)) in
    read 3 4 2 s1 = Ok (got, s2) ∧ object_of s2 4 = Some (0%nat, o2) ∧
    window (mem s2) 4 got ++ unread o2 = unread o1.
Proof. apply (pipe_is_fifo fixture_pipe 3 4 0 (mkObject [9] 0 true) 0 3 4 2); by vm_compute. Defined.

(** A read at an offset past the end of a file reports a negative count and moves the offset
    back to the end, instead of returning 0. *)
Theorem read_past_end_negative s fd r data off q n :
  object_of s fd = Some (r, mkObject data off false) → zlen data < off → 0 ≤ n → 0 ≤ q ≤ zlen (mem s) →
  ∃ s', read fd q n s = Ok (zlen data - off, s') ∧ zlen data - off < 0 ∧
    object_of s' fd = Some (r, mkObject data (zlen data) false).
Proof.
  intros Ho Hoff Hn Hq. unfold read. rewrite Ho. cbn [o_pipe o_offset o_data].
  pose proof (zlen_nonneg data). rewrite Z.min_r by lia. replace (off + (zlen data - off)) with (zlen data) by lia.
  assert (array_slice data off (zlen data) = []) as ->.
  { unfold array_slice, rel_index. rewrite (proj2 (Z.ltb_ge off 0)), (proj2 (Z.ltb_ge (zlen data) 0)) by lia.
    rewrite (Z.min_r off), Z.min_id, Z.sub_diag by lia. done. }
  destruct (array_set_window (mem s) [] q) as (m & -> & _); [lia|unfold zlen at 1; simpl; lia|]. cbn [rbind].
  eexists. split; [done|]. split; [lia|]. by eapply (object_of_set (set_mem m s) fd).
Qed.

Lemma read_past_end_negative_witness :
  ∃ s', read 3 0 4 (mkNative 4 2 0 {[3 := 0%nat]} [mkObject [7] 5 false] ∅ [0; 0; 0; 0]) = Ok (zlen [7] - 5, s') ∧
    zlen [7] - 5 < 0 ∧ object_of s' 3 = Some (0%nat, mkObject [7] (zlen [7]) false).
Proof. apply (read_past_end_negative _ 3 0 [7] 5 0 4); by vm_compute. Defined.

(** ** Descriptors *)

(** Descriptors in use are below the next one and name existing objects; pids likewise. *)
Definition native_ok (s : native) : Prop :=
  map_Forall (λ fd r, 3 ≤ fd < nextFd s ∧ (r < length (objects s))%nat) (descriptors s) ∧
  map_Forall (λ pid c, 2 ≤ pid < nextPid s ∧ 1 ≤ ch_number c ≤ forkNumber s) (children s) ∧
  3 ≤ nextFd s ∧ 2 ≤ nextPid s ∧ 0 ≤ forkNumber s.

Inductive native_op : Type :=
| NOpen | NClose (fd : Z) | NWrite (fd p n : Z) | NRead (fd p n : Z) | NLseek (fd offset whence : Z)
| NPipe (p : Z) | NDup (fd : Z) | NFork | NKill (pid signal : Z) | NKillpg (pid signal : Z)
| NWaitpid (pid p options : Z).

Definition native_run (o : native_op) (s : native) : result native_fault (Z * native) :=
  match o with
  | NOpen => open s
  | NClose fd => close fd s
  | NWrite fd p n => write fd p n s
  | NRead fd p n => read fd p n s
  | NLseek fd off wh => lseek fd off wh s
  | NPipe p => pipe p s
  | NDup fd => dup fd s
  | NFork => fork s
  | NKill pid sg => kill pid sg s
  | NKillpg pid sg => killpg pid sg s
  | NWaitpid pid p opts => waitpid pid p opts s
  end.

Lemma native_ok_set_object r o s : native_ok s → native_ok (set_object r o s).
Proof. intros (H1 & H2 & H3). split; [|done]. intros fd r' Hr. simpl. rewrite length_insert. by apply H1. Qed.

Lemma native_ok_set_mem m s : native_ok s → native_ok (set_mem m s).
Proof. done. Qed.

Lemma native_ok_writeI32 p v s s' : native_ok s → writeI32 p v s = Ok s' → native_ok s' ∧ nextFd s' = nextFd s.
Proof. intros Hs. unfold writeI32. destruct (array_set _ _ _); [|done]. simpl. by intros [= <-]. Qed.

Lemma native_ok_new_object o s :
  native_ok s → native_ok (new_object o s).2 ∧ ((new_object o s).1 < length (objects (new_object o s).2))%nat.
Proof.
  intros (H1 & H2 & H3). split.
  - split; [|done]. intros fd r Hr. simpl in *. rewrite length_app. simpl. specialize (H1 fd r Hr). simpl in H1. lia.
  - simpl. rewrite length_app. simpl. lia.
Qed.

Lemma native_ok_allocFd r s : native_ok s → (r < length (objects s))%nat → native_ok (allocFd r s).2.
Proof.
  intros (H1 & H2 & H3 & H4) Hr. split; [|by split; [|split; [simpl; lia|]]].
  simpl. apply map_Forall_insert_2; [simpl; lia|]. intros fd r' Hr'. specialize (H1 fd r' Hr'). simpl in *. lia.
Qed.

Lemma native_ok_set_child pid c s :
  native_ok s → 2 ≤ pid < nextPid s → 1 ≤ ch_number c ≤ forkNumber s → native_ok (set_child pid c s).
Proof. intros (H1 & H2 & H3) Hp Hc. split; [done|]. split; [|done]. simpl. by apply map_Forall_insert_2. Qed.

Lemma native_ok_child s pid c : native_ok s → children s !! pid = Some c → 2 ≤ pid < nextPid s ∧ 1 ≤ ch_number c ≤ forkNumber s.
Proof. intros (_ & H & _). apply H. Qed.

Lemma native_ok_write fd p n s v s' :
  native_ok s → write fd p n s = Ok (v, s') → native_ok s' ∧ nextFd s ≤ nextFd s' ∧ nextPid s ≤ nextPid s'.
Proof.
  intros Hs. unfold write. destruct (object_of s fd) as [[r d]|]; [|intros [= <- <-]; split; [done|lia]].
    destruct (o_pipe d).
    + destruct (grown _ _); [|done]. simpl. destruct (array_set _ _ _); [|done]. simpl. intros [= <- <-].
      split; [by apply native_ok_set_object|simpl; lia].
    + destruct (if _ <? _ then _ else _); [|done]. simpl. destruct (array_set _ _ _); [|done]. simpl. intros [= <- <-].
      split; [by apply native_ok_set_object|simpl; lia].
Qed.

Lemma native_ok_pipe p s v s' :
  native_ok s → pipe p s = Ok (v, s') → native_ok s' ∧ nextFd s ≤ nextFd s' ∧ nextPid s ≤ nextPid s'.
Proof.
  intros Hs. unfold pipe. destruct (native_ok_new_object (mkObject [] 0 true) s Hs) as [H1 H2].
    destruct (new_object _ s) as [r s1] eqn:Hn. injection Hn as <- <-. cbn [fst snd] in *. simpl in H2.
    pose proof (native_ok_allocFd _ _ H1 H2) as H3. pose proof (native_ok_allocFd _ _ H3 H2) as H4. cbn [allocFd snd] in H3, H4.
    cbn [allocFd]. destruct (writeI32 _ _ _) as [s4|] eqn:Hw1; [|done]. cbn [rbind].
    destruct (writeI32 (p + 4) _ _) as [s5|] eqn:Hw2; [|done]. cbn [rbind]. intros [= <- <-].
    assert (nextPid s5 = nextPid s) as Hpid.
    { unfold writeI32 in *. destruct (array_set _ _ _); [|done]. simpl in Hw1. simplify_eq.
      destruct (array_set _ _ _); [|done]. simpl in Hw2. by simplify_eq. }
    apply native_ok_writeI32 in Hw1 as [H5 E5]; [|done]. apply native_ok_writeI32 in Hw2 as [H6 E6]; [|done].
    split; [done|]. simpl in E5. lia.
Qed.

(** The fixture's tables stay consistent under every import, on every argument: descriptors
    and pids handed out are fresh, live descriptors name existing objects, and no
    import reuses or clobbers a live descriptor. *)
Theorem native_tables_consistent o s v s' :
  native_ok s → native_run o s = Ok (v, s') → native_ok s' ∧ nextFd s ≤ nextFd s' ∧ nextPid s ≤ nextPid s'.
Proof.
  intros Hs. destruct o; simpl.
  - unfold open. destruct (native_ok_new_object (mkObject [] 0 false) s Hs) as [H1 H2].
    destruct (new_object _ s) as [r s1] eqn:Hn. simpl in *. intros [= <- <-]. injection Hn as <- <-.
    split; [by apply (native_ok_allocFd _ _ H1)|simpl; lia].
  - intros [= <- <-]. destruct Hs as (H1 & H2 & H3). split; [|simpl; lia]. split; [|done].
    simpl. by apply map_Forall_delete.
  - by apply native_ok_write.
  - unfold read. destruct (object_of s fd) as [[r d]|]; [|intros [= <- <-]; split; [done|lia]].
    destruct (array_set _ _ _); [|done]. simpl. intros [= <- <-]. split; [by apply native_ok_set_object|simpl; lia].
  - unfold lseek. destruct (object_of s fd) as [[r d]|]; intros [= <- <-]; (split; [|simpl; lia]); [by apply native_ok_set_object|done].
  - by apply native_ok_pipe.
  - unfold dup. destruct (descriptors s !! fd) as [r|] eqn:Hr; intros [= <- <-]; [|split; [done|lia]].
    split; [|simpl; lia]. apply (native_ok_allocFd r s Hs). destruct Hs as [H1 _]. by apply (H1 fd r Hr).
  - unfold fork. intros [= <- <-]. destruct Hs as (H1 & H2 & H3 & H4 & H5). split; [|simpl; lia].
    split; [done|]. split; [|simpl; lia]. simpl. apply map_Forall_insert_2; [simpl; lia|].
    intros pid c Hc. specialize (H2 pid c Hc). simpl in *. lia.
  - unfold kill. destruct (children s !! pid) as [c|] eqn:Hc; [|intros [= <- <-]; split; [done|lia]].
    destruct (signal =? 18); intros [= <- <-]; (split; [|simpl; lia]); [done|].
    destruct (native_ok_child _ _ _ Hs Hc). by apply native_ok_set_child.
  - unfold killpg. destruct (children s !! pid) as [c|] eqn:Hc; intros [= <- <-]; (split; [|simpl; lia]); [|done].
    destruct (native_ok_child _ _ _ Hs Hc). by apply native_ok_set_child.
  - unfold waitpid. destruct (children s !! pid) as [c|] eqn:Hc; [|intros [= <- <-]; split; [done|lia]].
    destruct (native_ok_child _ _ _ Hs Hc). unfold writeI32. destruct (array_set _ _ _); [|done]. simpl. intros [= <- <-].
    split; [|simpl; lia]. apply native_ok_set_mem. by apply native_ok_set_child.
Qed.

Lemma native_tables_consistent_witness :
  ∃ s', native_run (NDup 3) fixture_file = Ok (5, s') ∧
    native_ok s' ∧ nextFd fixture_file ≤ nextFd s' ∧ nextPid fixture_file ≤ nextPid s'.
Proof.
  destruct (native_run (NDup 3) fixture_file) as [[v s']|] eqn:Hr; [|by vm_compute in Hr].
  assert (v = 5) as -> by (vm_compute in Hr; by simplify_eq). exists s'. split; [done|].
  apply (native_tables_consistent (NDup 3) fixture_file 5 s'); [|done].
  apply (bool_decide_unpack _). vm_compute. exact I.
Defined.
