(* ===== verification/TestSuite.v ===== *)
(** * The installed test controller (src/html-rt/src/test-suite.js)

    [WasteTestSuite] lists the tests of the mounted manifest, selects some,
    runs each in a worker of its own with a bounded number of jobs, and answers
    batch requests of the guest.  Texts are strings (UTF-16 units).  JSON is
    a parameter; the workers answer through events. *)

From stdpp Require Import base numbers list strings gmap pretty.
From Stdlib Require Import ZArith Lia.
From S2P Require Import Prelude JsNum TermModel Utf8.

#[local] Open Scope Z_scope.
#[local] Open Scope waste_scope.

Abbreviation text := (list Z) (only parsing).

(** WASTE_CONFIG *)
Definition SUITE_GUEST_REPLY_MAX_BYTES : Z := 16777216.
Definition SUITE_GUEST_REQUEST_MAX_BYTES : Z := 4096.
Definition SUITE_GUEST_MAX_ARGS : Z := 64.
Definition SUITE_GUEST_DEFAULT_JOBS : Z := 2.
Definition SUITE_BROWSER_MAX_JOBS : Z := 8.
Definition EXECUTION_MAX_TIMEOUT_MS : Z := 3600000.
Definition SUITE_TIMEOUT_CORE_MS : Z := 15000.
Definition SUITE_TIMEOUT_HEAVY_MS : Z := 10000.
Definition SUITE_TIMEOUT_DEFAULT_MS : Z := 5000.
Definition SUITE_OUTPUT_MAX_BYTES : Z := 16777216.

Inductive suite_error : Type :=
| UnknownSelection | NoTests | UnknownIdentity (id : list Z) | ReplyTooLarge
| InvalidRequest | UndecodableRequest | Unterminated | InvalidArguments | InvalidDeadline | InvalidTimeoutGroup
| UnknownOption | InvalidJobs | UnknownTimeoutGroup | AlreadyRunning | InvalidRun.

(** ** Tests and their selection *)

Record test : Type := mkTest {
  identity : text; group : text; path : text; file : text; mode : text; skipReason : text;
  unsupported : bool; expectedFailure : bool }.

(** [identity.split("/").pop()]. *)
Definition last_segment (t : text) : text := default [] (last (split_on 47 t)).

Definition fileMatch (t : test) (name : text) : bool :=
  bool_decide (name ∈ [identity t; path t; file t; last_segment (identity t)]).
Definition groupMatch (t : test) (name : text) : bool := bool_decide (group t = name).

Record selection : Type := mkSelection {
  groups : list text; files : list text; excludeGroups : list text; excludeFiles : list text }.

Definition wanted (s : selection) (t : test) : bool :=
  (bool_decide (groups s = [] ∧ files s = []) || existsb (groupMatch t) (groups s) || existsb (fileMatch t) (files s)) &&
  negb (existsb (groupMatch t) (excludeGroups s)) && negb (existsb (fileMatch t) (excludeFiles s)).

(** Every name must match some test. *)
Definition names_known (tests : list test) (match_ : test → text → bool) (names : list text) : bool :=
  forallb (λ name, existsb (λ t, match_ t name) tests) names.

Definition select (tests : list test) (s : selection) : result suite_error (list test) :=
  if names_known tests groupMatch (groups s) && names_known tests groupMatch (excludeGroups s) &&
     names_known tests fileMatch (files s) && names_known tests fileMatch (excludeFiles s)
  then
    match filter (λ t, wanted s t = true) tests with
    | [] => Err NoTests
    | selected => Ok selected
    end
  else Err UnknownSelection.

(** ** The catalogue *)

Definition is_space (c : Z) : bool := is_js_space c.

(** One line of the expected-failure file: the text before [#], trimmed. *)
Definition line_identity (line : text) : text := js_trim (default [] (head (split_on 35 line))).

Fixpoint expected_set (tests : list test) (lines : list text) (acc : list text) : result suite_error (list text) :=
  match lines with
  | [] => Ok acc
  | line :: rest =>
    let id := line_identity line in
    if bool_decide (id = []) then expected_set tests rest acc
    else if bool_decide (id ∈ acc) || negb (existsb (λ t, bool_decide (identity t = id)) tests) then Err (UnknownIdentity id)
    else expected_set tests rest (acc ++ [id])
  end.

Definition browser_native_mode : text := codes "browser-native".

(** [native]: the identities with a browser-native execution spec. *)
Definition catalogue_entry (native expected : list text) (t : test) : test :=
  let runs_native := bool_decide (identity t ∈ native) && bool_decide (mode t = browser_native_mode) && negb (unsupported t) in
  mkTest (identity t) (group t) (path t) (file t) (mode t) (if runs_native then [] else skipReason t)
    (unsupported t) (expectedFailure t || bool_decide (identity t ∈ expected)).

Definition catalogue (native : list text) (lines : list text) (tests : list test) : result suite_error (list test) :=
  let* expected := expected_set tests lines [] in
  Ok (catalogue_entry native expected <$> tests).

(** ** Batch replies *)

Definition guestReply (code : Z) (out json : list Z) : result suite_error (list Z) :=
  if SUITE_GUEST_REPLY_MAX_BYTES <? 16 + zlen out + zlen json then Err ReplyTooLarge
  else Ok (le32 1 ++ le32 (to_uint32 code) ++ le32 (zlen out) ++ le32 (zlen json) ++ out ++ json).

(** What the guest reads back: version, code, output, report. *)
Definition parse_reply (bytes : list Z) : option (Z * Z * list Z * list Z) :=
  version ← get_le32 bytes;
  code ← get_le32 (drop 4 bytes);
  n ← get_le32 (drop 8 bytes);
  m ← get_le32 (drop 12 bytes);
  let body := drop 16 bytes in
  if zlen body =? n + m then Some (version, code, take (Z.to_nat n) body, drop (Z.to_nat n) body) else None.

(** ** Batch requests *)

Record options : Type := mkOptions {
  jobs : Z; timeoutMs : option Z; timeoutGroups : list (text * Z); sel : selection; want_list : bool; want_json : bool }.

Definition default_options : options := mkOptions SUITE_GUEST_DEFAULT_JOBS None [] (mkSelection [] [] [] []) false false.

Definition set_jobs (n : Z) (o : options) : options :=
  mkOptions n (timeoutMs o) (timeoutGroups o) (sel o) (want_list o) (want_json o).
Definition set_timeout (n : Z) (o : options) : options :=
  mkOptions (jobs o) (Some n) (timeoutGroups o) (sel o) (want_list o) (want_json o).
(** Assigning a property: a later value for the same group replaces the earlier one. *)
Definition set_timeout_group (g : text) (n : Z) (o : options) : options :=
  mkOptions (jobs o) (timeoutMs o) ((g, n) :: filter (λ x, x.1 ≠ g) (timeoutGroups o)) (sel o) (want_list o) (want_json o).
Definition set_sel (s : selection) (o : options) : options :=
  mkOptions (jobs o) (timeoutMs o) (timeoutGroups o) s (want_list o) (want_json o).
Definition set_list (o : options) : options :=
  mkOptions (jobs o) (timeoutMs o) (timeoutGroups o) (sel o) true (want_json o).
Definition set_json (o : options) : options :=
  mkOptions (jobs o) (timeoutMs o) (timeoutGroups o) (sel o) (want_list o) true.

(** [/^[0-9]+$/] and [Number]. *)
Definition ms (t : text) : result suite_error Z :=
  match t with
  | [] => Err InvalidDeadline
  | _ =>
    if forallb is_digit t then
      match js_number t with
      | NInt n => if (1 <=? n) && (n <=? EXECUTION_MAX_TIMEOUT_MS) then Ok n else Err InvalidDeadline
      | _ => Err InvalidDeadline
      end
    else Err InvalidDeadline
  end.

(** [arg.startsWith(prefix)], with the rest. *)
Fixpoint strip_prefix (p l : text) : option text :=
  match p, l with
  | [], _ => Some l
  | a :: p', b :: l' => if a =? b then strip_prefix p' l' else None
  | _ :: _, [] => None
  end.

(** The parts around the last colon. *)
Definition cut_last_colon (t : text) : option (text * text) :=
  match split_on 58 (rev t) with
  | tail_rev :: _ :: _ =>
    let n := (length t - length tail_rev - 1)%nat in Some (take n t, rev tail_rev)
  | _ => None
  end.

Definition parse_arg (arg : text) (o : options) : result suite_error options :=
  let s := sel o in
  if bool_decide (arg = codes "--list") then Ok (set_list o)
  else if bool_decide (arg = codes "--json") then Ok (set_json o)
  else match strip_prefix (codes "--group=") arg with
  | Some v => Ok (set_sel (mkSelection (groups s ++ [v]) (files s) (excludeGroups s) (excludeFiles s)) o)
  | None => match strip_prefix (codes "--exclude=") arg with
  | Some v => Ok (set_sel (mkSelection (groups s) (files s) (excludeGroups s) (excludeFiles s ++ [v])) o)
  | None => match strip_prefix (codes "--exclude-group=") arg with
  | Some v => Ok (set_sel (mkSelection (groups s) (files s) (excludeGroups s ++ [v]) (excludeFiles s)) o)
  | None => match strip_prefix (codes "--jobs=") arg with
  | Some v => let* n := ms v in Ok (set_jobs n o)
  | None => match strip_prefix (codes "--timeout-ms=") arg with
  | Some v => let* n := ms v in Ok (set_timeout n o)
  | None => match strip_prefix (codes "--timeout-group=") arg with
  | Some v =>
    match cut_last_colon v with
    | Some (g, t) => if bool_decide (g = []) then Err InvalidTimeoutGroup else let* n := ms t in Ok (set_timeout_group g n o)
    | None => Err InvalidTimeoutGroup
    end
  | None =>
    if bool_decide (head arg = Some 45) then Err UnknownOption
    else Ok (set_sel (mkSelection (groups s) (files s ++ [arg]) (excludeGroups s) (excludeFiles s)) o)
  end end end end end end.

(** [new TextDecoder("utf-8", {fatal: true, ignoreBOM: true}).decode(bytes)], as a string. *)
Definition decode_args (bytes : list Z) : option text := units <$> decode_fatal true bytes.

(** The arguments of a request, after its version word. *)
Definition request_args (bytes : list Z) : result suite_error (list text) :=
  if (zlen bytes <? 4) || (SUITE_GUEST_REQUEST_MAX_BYTES <? zlen bytes) || negb (bool_decide (get_le32 bytes = Some 1))
  then Err InvalidRequest
  else
    let* strings := of_option UndecodableRequest (decode_args (drop 4 bytes)) in
    let* args :=
      match strings with
      | [] => Ok []
      | _ => if bool_decide (last strings = Some 0) then Ok (split_on 0 (removelast strings)) else Err Unterminated
      end in
    if (SUITE_GUEST_MAX_ARGS <? zlen args) || existsb (λ a, bool_decide (a = [])) args
    then Err InvalidArguments else Ok args.

Definition parse_request (bytes : list Z) : result suite_error options :=
  let* args := request_args bytes in
  let* o := foldM parse_arg args default_options in
  if SUITE_BROWSER_MAX_JOBS <? jobs o then Err InvalidJobs else Ok o.

(** ** One worker request *)

(** What a worker reports, with the fields [run] tests; [None] is a missing or ill-typed field. *)
Record setup_report : Type := mkSetup { su_complete : bool; su_total : option Z; su_passed : option Z; su_failures : option Z }.
Record response : Type := mkResponse {
  rs_cancelled : bool; rs_timedOut : bool; rs_error : bool;
  rs_results : option (list bool); rs_ok : option bool; rs_total : option Z; rs_passed : Z;
  rs_setup : option setup_report; rs_completed : option bool; rs_tests : option (list test) }.

Definition plain_response (cancelled timedOut error : bool) : response :=
  mkResponse cancelled timedOut error None None None 0 None None None.

(** What a request sees: its worker exists (and took the start message or not), could not be
    created, its messages, its crash, and the timer. *)
Inductive request_event : Type :=
| WorkerCreated (posted : bool)
| CreateFailed
| WorkerOutput (length : Z)
| WorkerReport (r : response)      (* [suite-list] or [done] *)
| WorkerTransfer                    (* an interactive host transfer *)
| WorkerCrashed
| RequestTimer.

Inductive settlement : Type := Resolved (r : response) | Rejected.

(** [creating]: the worker's creation is scheduled and not over; [listening]: its handlers are set. *)
Record request_state : Type := mkRequest {
  finished : bool; creating : bool; has_worker : bool; listening : bool; terminations : Z; in_active : bool;
  output_length : Z; settled : list settlement }.

Definition complete (s : settlement) (q : request_state) : request_state :=
  if finished q then q
  else mkRequest true (creating q) (has_worker q) (listening q) (terminations q + (if has_worker q then 1 else 0)) false
         (output_length q) (settled q ++ [s]).

Definition cancel_request (q : request_state) : request_state := complete (Resolved (plain_response true false false)) q.
Definition fail_request (q : request_state) : request_state := complete (Resolved (plain_response false false true)) q.

(** A request made after a cancel settles at once and creates no worker. *)
Definition request_start (was_cancelled : bool) : request_state :=
  if was_cancelled then cancel_request (mkRequest false false false false 0 true 0 [])
  else mkRequest false true false false 0 true 0 [].

Definition worker_created (posted : bool) (q : request_state) : request_state :=
  if finished q then mkRequest true false true false (terminations q + 1) (in_active q) (output_length q) (settled q)
  else
    let q1 := mkRequest false false true true (terminations q) (in_active q) (output_length q) (settled q) in
    if posted then q1 else complete Rejected q1.

Definition worker_output (n : Z) (q : request_state) : request_state :=
  let q1 := mkRequest (finished q) (creating q) (has_worker q) (listening q) (terminations q) (in_active q)
              (output_length q + n) (settled q) in
  if SUITE_OUTPUT_MAX_BYTES <? output_length q1 then fail_request q1 else q1.

Definition request_step (e : request_event) (q : request_state) : request_state :=
  match e with
  | WorkerCreated posted => if creating q then worker_created posted q else q
  | CreateFailed =>
    if creating q then
      complete Rejected (mkRequest (finished q) false (has_worker q) (listening q) (terminations q) (in_active q)
                           (output_length q) (settled q))
    else q
  | WorkerOutput n => if listening q then worker_output n q else q
  | WorkerReport r => if listening q then complete (Resolved r) q else q
  | WorkerTransfer | WorkerCrashed => if listening q then fail_request q else q
  | RequestTimer => complete (Resolved (plain_response false true false)) q
  end.

(** What [run] gets from a settled request: a rejection is caught as an error. *)
Definition answer (s : settlement) : response :=
  match s with Resolved r => r | Rejected => plain_response false false true end.

(** ** Classification *)

Inductive status : Type := PASS | FAIL | XFAIL | XPASS | SKIP | TIMEOUT | CANCELLED.

#[export] Instance status_eq_dec : EqDecision status.
Proof. solve_decision. Defined.

(** The assertion report is consistent: counts add up and [ok] says what they say. *)
Definition report_ok (r : response) : option bool :=
  match rs_results r, rs_ok r, rs_total r, rs_setup r, rs_completed r with
  | Some results, Some ok, Some total, Some setup, Some completed =>
    match su_total setup, su_passed setup, su_failures setup with
    | Some st, Some sp, Some sf =>
      if (total =? zlen results) && (rs_passed r =? zlen (filter (λ b, b = true) results)) &&
         su_complete setup && (0 <=? sp) && (sp <=? st) && (sf =? st - sp) &&
         eqb ok ((rs_passed r =? total) && completed && (sp =? st))
      then Some ok else None
    | _, _, _ => None
    end
  | _, _, _, _, _ => None
  end.

Definition classify (t : test) (r : response) : status :=
  if rs_cancelled r then CANCELLED
  else if rs_timedOut r then TIMEOUT
  else if rs_error r then FAIL
  else match report_ok r with
       | None => FAIL
       | Some ok => if ok then (if expectedFailure t then XPASS else PASS) else (if expectedFailure t then XFAIL else FAIL)
       end.

(** ** Deadlines *)

Definition heavy_groups : list text :=
  [codes "wasm-spec/core/simd"; codes "wasm-spec/core/bulk-memory"; codes "wasm-spec/core/memory64"].

Definition budget (o : options) (t : test) : Z :=
  match snd <$> list_find (λ x, x.1 = group t) (timeoutGroups o) with
  | Some (_, n) => n
  | None =>
    match timeoutMs o with
    | Some n => n
    | None =>
      if bool_decide (group t = codes "wasm-spec/core") then SUITE_TIMEOUT_CORE_MS
      else if bool_decide (group t ∈ heavy_groups) then SUITE_TIMEOUT_HEAVY_MS else SUITE_TIMEOUT_DEFAULT_MS
    end
  end.

(** ** The job pool *)

(** A [consume] loop: between tests, waiting for the request of one test, or over. *)
Inductive job : Type := Ready | Busy (index : nat) (q : request_state) | Over.

Record pool : Type := mkPool {
  next : nat; records : list (option status); workers : list job; cancelled : bool;
  requested : list nat }.   (* indices whose request was made, newest first *)

Definition pool_start (tests : list test) (o : options) : pool :=
  mkPool 0 (replicate (length tests) None) (replicate (Z.to_nat (Z.min (jobs o) (zlen tests))) Ready) false [].

(** One turn of a [consume] loop, an event of the request a job waits for, or [cancel()]. A turn takes
    the next test up to its [await], or records an answer; the code runs the turn after an answer
    without a pause, so the model has every order of the code and some more. *)
Inductive pool_event : Type := Turn (j : nat) | Request (j : nat) (e : request_event) | Cancel.

Definition set_job (j : nat) (w : job) (p : pool) : pool :=
  mkPool (next p) (records p) (<[j := w]> (workers p)) (cancelled p) (requested p).
Definition put_record (i : nat) (s : status) (p : pool) : pool :=
  mkPool (next p) (<[i := Some s]> (records p)) (workers p) (cancelled p) (requested p).
Definition take_index (p : pool) : pool :=
  mkPool (S (next p)) (records p) (workers p) (cancelled p) (requested p).

Definition consume_next (tests : list test) (j : nat) (p : pool) : pool :=
  match tests !! next p with
  | None => set_job j Over p
  | Some t =>
    if negb (bool_decide (skipReason t = [])) then put_record (next p) SKIP (take_index p)
    else if cancelled p then put_record (next p) CANCELLED (take_index p)
    else
      mkPool (S (next p)) (records p) (<[j := Busy (next p) (request_start (cancelled p))]> (workers p)) (cancelled p)
        (next p :: requested p)
  end.

Definition cancel_job (w : job) : job :=
  match w with Busy i q => Busy i (if in_active q then cancel_request q else q) | _ => w end.

Definition pool_step (tests : list test) (e : pool_event) (p : pool) : pool :=
  match e with
  | Turn j =>
    match workers p !! j with
    | Some Ready => consume_next tests j p
    | Some (Busy i q) =>
      match tests !! i, settled q with
      | Some t, s :: _ => set_job j Ready (put_record i (classify t (answer s)) p)
      | _, _ => p
      end
    | _ => p
    end
  | Request j e' =>
    match workers p !! j with
    | Some (Busy i q) => set_job j (Busy i (request_step e' q)) p
    | _ => p
    end
  | Cancel => mkPool (next p) (records p) (cancel_job <$> workers p) true (requested p)
  end.

Definition pool_over (p : pool) : Prop := Forall (λ w, w = Over) (workers p).

(** ** The summary *)

Record summary : Type := mkSummary { n_pass : Z; n_fail : Z; n_xfail : Z; n_xpass : Z; n_skip : Z }.

Definition count_status (s : status) (sm : summary) : summary :=
  match s with
  | PASS => mkSummary (n_pass sm + 1) (n_fail sm) (n_xfail sm) (n_xpass sm) (n_skip sm)
  | XFAIL => mkSummary (n_pass sm) (n_fail sm) (n_xfail sm + 1) (n_xpass sm) (n_skip sm)
  | XPASS => mkSummary (n_pass sm) (n_fail sm) (n_xfail sm) (n_xpass sm + 1) (n_skip sm)
  | SKIP => mkSummary (n_pass sm) (n_fail sm) (n_xfail sm) (n_xpass sm) (n_skip sm + 1)
  | FAIL | TIMEOUT | CANCELLED => mkSummary (n_pass sm) (n_fail sm + 1) (n_xfail sm) (n_xpass sm) (n_skip sm)
  end.

Definition summarise (l : list status) : summary := foldl (λ sm s, count_status s sm) (mkSummary 0 0 0 0 0) l.

Definition exitCode (was_cancelled : bool) (sm : summary) : Z :=
  if was_cancelled then 130 else if negb (n_fail sm =? 0) || negb (n_xpass sm =? 0) then 1 else 0.

(** The arguments [run] accepts. *)
Definition run_options_ok (o : options) (tests : list test) : result suite_error unit :=
  let valid n := (0 <? n) && (n <=? EXECUTION_MAX_TIMEOUT_MS) in
  if negb ((1 <=? jobs o) && (jobs o <=? SUITE_BROWSER_MAX_JOBS)) ||
     negb (match timeoutMs o with Some n => valid n | None => true end) ||
     negb (forallb (λ x, valid x.2) (timeoutGroups o))
  then Err InvalidRun
  else if existsb (λ x, negb (existsb (λ t, groupMatch t x.1) tests)) (timeoutGroups o) then Err UnknownTimeoutGroup
  else Ok tt.

(** ** The guest's batch command *)

(** A test with its outcome, as [run] reports it. *)
Record test_record : Type := mkRecord { rec_test : test; rec_status : status }.

(** The report objects that go through [JSON.stringify]. *)
Inductive report : Type :=
| ListReport (tests : list test) (count expectedFailures skip : Z)
| RunReport (sm : summary) (tests : list test_record) (code : Z)
| CancelledReport.

Definition report_code (r : report) : Z :=
  match r with ListReport _ _ _ _ => 0 | RunReport _ _ code => code | CancelledReport => 130 end.

Definition status_text (s : status) : text :=
  match s with
  | PASS => codes "PASS" | FAIL => codes "FAIL" | XFAIL => codes "XFAIL" | XPASS => codes "XPASS" | SKIP => codes "SKIP"
  | TIMEOUT => codes "TIMEOUT" | CANCELLED => codes "CANCELLED"
  end.

Definition skipped (t : test) : bool := negb (bool_decide (skipReason t = [])).

Definition list_line (t : test) : text :=
  (if skipped t then codes "SKIP " else if expectedFailure t then codes "XFAIL? " else codes "PASS? ") ++
  identity t ++ (if skipped t then codes ": " ++ skipReason t else []) ++ [10].

Definition list_report (l : list test) : report :=
  ListReport l (zlen l) (zlen (filter (λ t, expectedFailure t = true) l)) (zlen (filter (λ t, skipped t = true) l)).

(** A number inside a template string. *)
Definition num_text (n : Z) : text := codes (pretty n).

Definition suite_line (s : summary) : text :=
  codes "Suite: " ++ num_text (n_pass s) ++ codes " PASS, " ++ num_text (n_fail s) ++ codes " FAIL, " ++
  num_text (n_xfail s) ++ codes " XFAIL, " ++ num_text (n_xpass s) ++ codes " XPASS, " ++ num_text (n_skip s) ++
  codes " SKIP" ++ [10].

Definition run_output (s : summary) (l : list test_record) : text :=
  concat ((λ r, status_text (rec_status r) ++ [32] ++ identity (rec_test r) ++ [10]) <$> l) ++ suite_line s.

(** The report [run] returns for its records. *)
Definition run_report (l : list test_record) (was_cancelled : bool) : report :=
  let sm := summarise (rec_status <$> l) in RunReport sm l (exitCode was_cancelled sm).

(** What a command can throw: an error of this file, or one of the platform with its message. *)
Inductive thrown : Type := Own (e : suite_error) | CancelledBefore | Foreign (message : text).

Definition own {A} (r : result suite_error A) : result thrown A :=
  match r with Ok a => Ok a | Err e => Err (Own e) end.

Section command.
(** The message of the decoder's error, and [JSON.stringify]. *)
Context (decode_error : text) (stringify : report → text).

Definition message (e : thrown) : text :=
  match e with
  | Own UnknownSelection => codes "Unknown test selection"
  | Own NoTests => codes "No requested browser tests found"
  | Own (UnknownIdentity id) => codes "Unknown or duplicate expected-failure identity: " ++ id
  | Own ReplyTooLarge => codes "Batch response exceeds configured limit"
  | Own InvalidRequest => codes "Invalid batch request"
  | Own UndecodableRequest => decode_error
  | Own Unterminated => codes "Unterminated batch arguments"
  | Own InvalidArguments => codes "Invalid batch arguments"
  | Own InvalidDeadline => codes "Invalid execution deadline"
  | Own InvalidTimeoutGroup => codes "Invalid timeout group"
  | Own UnknownOption => codes "Unknown batch option"
  | Own InvalidJobs => codes "Invalid jobs"
  | Own UnknownTimeoutGroup => codes "Unknown timeout group"
  | Own AlreadyRunning => codes "A batch is already running"
  | Own InvalidRun => codes "Invalid jobs or execution deadline"
  | CancelledBefore => codes "Batch cancelled before enumeration"
  | Foreign m => m
  end.

Definition reply (code : Z) (output : text) (r : option report) : result thrown (list Z) :=
  own (guestReply code (text_encode output) (match r with Some r => text_encode (stringify r ++ [10]) | None => [] end)).

(** The outcomes of what the command awaits, and the cancel flag after the enumeration and at the end. *)
Record awaited : Type := mkAwaited {
  aw_busy : bool;                               (* a batch is running or pending *)
  aw_list : result text (list test);            (* [this.list(pending)] *)
  aw_cancelled_list : bool;
  aw_run : result text (list test_record * bool);   (* [this.run(options)]: its records, and if it was cancelled *)
  aw_cancelled : bool }.

Definition foreign {A} (r : result text A) : result thrown A :=
  match r with Ok a => Ok a | Err m => Err (Foreign m) end.

(** The body of the [try]. *)
Definition command_body (bytes : list Z) (a : awaited) : result thrown (list Z) :=
  if aw_busy a then Err (Own AlreadyRunning)
  else
    let* o := own (parse_request bytes) in
    let* catalogue := foreign (aw_list a) in
    if aw_cancelled_list a then Err CancelledBefore
    else
      let* selected := own (select catalogue (sel o)) in
      if existsb (λ x, negb (existsb (λ t, groupMatch t x.1) catalogue)) (timeoutGroups o) then Err (Own UnknownTimeoutGroup)
      else
        let* '(r, output) :=
          (if want_list o then Ok (list_report selected, concat (list_line <$> selected))
           else
             let* '(l, c) := foreign (aw_run a) in
             Ok (run_report l c, run_output (summarise (rec_status <$> l)) l)) in
        reply (report_code r) (if want_json o then stringify r ++ [10] else output) (Some r).

Definition guestCommand (bytes : list Z) (a : awaited) : result thrown (list Z) :=
  match command_body bytes a with
  | Ok reply => Ok reply
  | Err e =>
    if negb (aw_busy a) && aw_cancelled a then reply 130 (codes "waste-test: cancelled before enumeration" ++ [10]) (Some CancelledReport)
    else reply 2 (codes "waste-test: " ++ message e ++ [10]) None
  end.
End command.
