(* ===== verification/TestSuiteTheorems.v ===== *)
(** * Theorems on the test controller *)

From stdpp Require Import base numbers list strings gmap.
From Stdlib Require Import ZArith Lia.
From S2P Require Import Prelude JsNum TermModel Utf8 TestSuite.

#[local] Open Scope Z_scope.
#[local] Open Scope waste_scope.

(** ** Replies *)

(** A reply read back by its header; only an oversized one is refused. *)
Lemma guest_reply_spec code out json :
  match guestReply code out json with
  | Ok bytes => zlen bytes ≤ SUITE_GUEST_REPLY_MAX_BYTES ∧ parse_reply bytes = Some (1, to_uint32 code, out, json)
  | Err e => e = ReplyTooLarge ∧ SUITE_GUEST_REPLY_MAX_BYTES < 16 + zlen out + zlen json
  end.
Proof.
  unfold guestReply. case (Z.ltb_spec SUITE_GUEST_REPLY_MAX_BYTES (16 + zlen out + zlen json)); intros Hl; [done|].
  pose proof (zlen_nonneg out). pose proof (zlen_nonneg json). pose proof (to_uint32_range code).
  unfold SUITE_GUEST_REPLY_MAX_BYTES in Hl.
  assert (∀ z, length (le32 z) = 4%nat) as H4 by done.
  split; [unfold zlen in *; rewrite !length_app, !H4; unfold SUITE_GUEST_REPLY_MAX_BYTES; lia|].
  unfold parse_reply.
  set (c := to_uint32 code) in *. set (r2 := le32 (zlen json) ++ out ++ json). set (r1 := le32 (zlen out) ++ r2).
  change (drop 4 (le32 1 ++ le32 c ++ r1)) with (le32 c ++ r1).
  change (drop 8 (le32 1 ++ le32 c ++ r1)) with (le32 (zlen out) ++ r2).
  change (drop 12 (le32 1 ++ le32 c ++ r1)) with (le32 (zlen json) ++ out ++ json).
  change (drop 16 (le32 1 ++ le32 c ++ r1)) with (out ++ json).
  rewrite !get_le32_le32 by lia. cbn [mbind option_bind].
  assert (zlen (out ++ json) = zlen out + zlen json) as -> by (unfold zlen; rewrite length_app; lia).
  rewrite Z.eqb_refl. unfold zlen. rewrite Nat2Z.id. by rewrite take_app_length, drop_app_length.
Qed.

(** ** Selection *)

Lemma existsb_elem {A} (f : A → bool) l : existsb f l = true ↔ ∃ a, a ∈ l ∧ f a = true.
Proof. rewrite existsb_exists. by setoid_rewrite list_elem_of_In. Qed.

Lemma existsb_not {A} (f : A → bool) l : existsb f l = false ↔ ∀ a, a ∈ l → f a = false.
Proof.
  rewrite <- not_true_iff_false, existsb_elem. split.
  - intros H a Ha. apply not_true_iff_false. intros Hf. apply H. eauto.
  - intros H (a & Ha & Hf). specialize (H a Ha). congruence.
Qed.

Lemma groupMatch_elem t l : existsb (groupMatch t) l = true ↔ group t ∈ l.
Proof.
  rewrite existsb_elem. unfold groupMatch. split.
  - intros (n & Hn & H). apply bool_decide_eq_true in H. by subst.
  - intros H. exists (group t). split; [done|]. by apply bool_decide_eq_true.
Qed.

(** What a test must satisfy to be selected. *)
Definition selected (s : selection) (t : test) : Prop :=
  ((groups s = [] ∧ files s = []) ∨ (group t ∈ groups s) ∨ (∃ n, n ∈ files s ∧ fileMatch t n = true)) ∧
  (group t ∉ excludeGroups s) ∧ (∀ n, n ∈ excludeFiles s → fileMatch t n = false).

Lemma wanted_selected s t : wanted s t = true ↔ selected s t.
Proof.
  unfold wanted, selected.
  rewrite !andb_true_iff, !orb_true_iff, !negb_true_iff, bool_decide_eq_true.
  rewrite <- (not_true_iff_false (existsb (groupMatch t) (excludeGroups s))), !groupMatch_elem.
  rewrite existsb_elem, existsb_not. tauto.
Qed.

Lemma names_known_false tests m names :
  names_known tests m names = false → ∃ n, n ∈ names ∧ ∀ t, t ∈ tests → m t n = false.
Proof.
  unfold names_known. induction names as [|n names IH]; [done|]. simpl. intros [H|H]%andb_false_iff.
  - exists n. split; [by left|]. by apply existsb_not.
  - destruct (IH H) as (n' & Hn & Ht). exists n'. split; [by right|done].
Qed.

(** A selection is exactly the tests that match an included group or file (all, if none
    is named) and no excluded one, in catalogue order and never empty; it fails only when a
    name matches no test or nothing is left. *)
Theorem select_exact tests s :
  match select tests s with
  | Ok l => l ≠ [] ∧ l `sublist_of` tests ∧ ∀ t, t ∈ l ↔ t ∈ tests ∧ selected s t
  | Err e =>
      (e = UnknownSelection ∧ ∃ n,
         (n ∈ groups s ++ excludeGroups s ∧ ∀ t, t ∈ tests → groupMatch t n = false) ∨
         (n ∈ files s ++ excludeFiles s ∧ ∀ t, t ∈ tests → fileMatch t n = false)) ∨
      (e = NoTests ∧ ∀ t, t ∈ tests → (selected s t → False))
  end.
Proof.
  unfold select.
  destruct (names_known tests groupMatch (groups s)) eqn:H1; simpl.
  2: { destruct (names_known_false _ _ _ H1) as (n & Hn & Ht). left. split; [done|]. exists n. left. set_solver. }
  destruct (names_known tests groupMatch (excludeGroups s)) eqn:H2; simpl.
  2: { destruct (names_known_false _ _ _ H2) as (n & Hn & Ht). left. split; [done|]. exists n. left. set_solver. }
  destruct (names_known tests fileMatch (files s)) eqn:H3; simpl.
  2: { destruct (names_known_false _ _ _ H3) as (n & Hn & Ht). left. split; [done|]. exists n. right. set_solver. }
  destruct (names_known tests fileMatch (excludeFiles s)) eqn:H4; simpl.
  2: { destruct (names_known_false _ _ _ H4) as (n & Hn & Ht). left. split; [done|]. exists n. right. set_solver. }
  destruct (filter (λ t, wanted s t = true) tests) as [|t l] eqn:Hf.
  - right. split; [done|]. intros t Ht Hs%wanted_selected.
    assert (t ∈ filter (λ t, wanted s t = true) tests) as Hin by (by apply list_elem_of_filter). rewrite Hf in Hin. set_solver.
  - rewrite <- Hf. split; [by rewrite Hf|]. split; [apply sublist_filter|].
    intros t'. rewrite list_elem_of_filter, wanted_selected. tauto.
Qed.

(** ** Requests *)

Lemma ms_range t n : ms t = Ok n → 1 ≤ n ≤ EXECUTION_MAX_TIMEOUT_MS.
Proof.
  unfold ms. destruct t; [done|]. destruct (forallb _ _); [|done]. destruct (js_number _); try done.
  destruct (_ && _) eqn:H; [|done]. b2p. intros [= <-]. lia.
Qed.

Definition limits_ok (o : options) : Prop :=
  1 ≤ jobs o ∧ (∀ n, timeoutMs o = Some n → 1 ≤ n ≤ EXECUTION_MAX_TIMEOUT_MS) ∧
  Forall (λ x : list Z * Z, 1 ≤ x.2 ≤ EXECUTION_MAX_TIMEOUT_MS) (timeoutGroups o).

Lemma limits_sel s o : limits_ok o → limits_ok (set_sel s o).
Proof. done. Qed.

Lemma parse_arg_limits arg o o' : limits_ok o → parse_arg arg o = Ok o' → limits_ok o'.
Proof.
  intros Ho. pose proof Ho as (Hj & Ht & Hg). unfold parse_arg.
  do 2 (case_bool_decide; [intros [= <-]; done|]).
  do 3 (destruct (strip_prefix _ arg); [intros [= <-]; by apply limits_sel|]).
  destruct (strip_prefix _ arg) as [v|].
  { destruct (ms v) as [n|] eqn:Hms; [|done]. intros [= <-]. apply ms_range in Hms. by split; [simpl; lia|]. }
  destruct (strip_prefix _ arg) as [v|].
  { destruct (ms v) as [n|] eqn:Hms; [|done]. intros [= <-]. apply ms_range in Hms. split; [done|]. split; [|done].
    simpl. by intros ? [= <-]. }
  destruct (strip_prefix _ arg) as [v|].
  { destruct (cut_last_colon v) as [[g t]|]; [|done]. case_bool_decide; [done|].
    destruct (ms t) as [n|] eqn:Hms; [|done]. intros [= <-]. apply ms_range in Hms. split; [done|]. split; [done|].
    simpl. constructor; [done|]. rewrite Forall_forall in *. intros x [_ Hx]%list_elem_of_filter. by apply Hg. }
  case_bool_decide; [done|]. intros [= <-]. by apply limits_sel.
Qed.

Lemma foldM_limits args o o' : limits_ok o → foldM parse_arg args o = Ok o' → limits_ok o'.
Proof.
  revert o. induction args as [|a args IH]; intros o Ho; simpl; [by intros [= <-]|].
  destruct (parse_arg a o) as [o1|] eqn:Ha; [|done]. simpl. apply IH. by eapply parse_arg_limits.
Qed.

(** Whatever bytes the guest sends, an accepted batch request has 1 to 8 jobs and every
    deadline in it between 1 ms and an hour; and the arguments are those between the NULs:
    at most 64, none empty, of a request of at most 4096 bytes. *)
Theorem accepted_request_bounded bytes o :
  parse_request bytes = Ok o →
  1 ≤ jobs o ≤ 8 ∧ (∀ n, timeoutMs o = Some n → 1 ≤ n ≤ 3600000) ∧
  Forall (λ x : list Z * Z, 1 ≤ x.2 ≤ 3600000) (timeoutGroups o) ∧
  4 ≤ zlen bytes ≤ 4096 ∧ ∃ args, request_args bytes = Ok args ∧ zlen args ≤ 64 ∧ Forall (λ a, a ≠ []) args.
Proof.
  unfold parse_request. destruct (request_args bytes) as [args|] eqn:Ha; [|done]. cbn [rbind].
  destruct (foldM parse_arg args default_options) as [o1|] eqn:Hf; [|done]. cbn [rbind].
  case (Z.ltb_spec SUITE_BROWSER_MAX_JOBS (jobs o1)); intros Hj; [done|]. intros [= <-].
  apply foldM_limits in Hf as (H1 & H2 & H3); [|split; [done|split; [done|constructor]]].
  unfold SUITE_BROWSER_MAX_JOBS in Hj. split; [lia|]. split; [done|]. split; [done|].
  unfold request_args in Ha. destruct (_ || _ || _) eqn:Hb; [done|].
  apply orb_false_iff in Hb as [[Hb1 Hb2]%orb_false_iff _]. unfold SUITE_GUEST_REQUEST_MAX_BYTES in *. b2p. split; [lia|].
  exists args. split; [done|]. destruct (of_option _ _) as [strings|]; [|done]. cbn [rbind] in Ha.
  destruct (match strings with [] => _ | _ => _ end) as [l|]; [|done]. cbn [rbind] in Ha.
  destruct (_ || _) eqn:Hc; [done|]. injection Ha as <-. apply orb_false_iff in Hc as [Hc1 Hc2].
  unfold SUITE_GUEST_MAX_ARGS in Hc1. b2p. split; [lia|].
  apply Forall_forall. intros a Ha. rewrite existsb_not in Hc2. specialize (Hc2 a Ha). by apply bool_decide_eq_false in Hc2.
Qed.

Definition sample_request : list Z := le32 1 ++ codes "--jobs=4" ++ [0] ++ codes "simd" ++ [0].

Lemma accepted_request_bounded_witness :
  ∃ o, parse_request sample_request = Ok o ∧ 1 ≤ jobs o ≤ 8 ∧ (∀ n, timeoutMs o = Some n → 1 ≤ n ≤ 3600000) ∧
  Forall (λ x : list Z * Z, 1 ≤ x.2 ≤ 3600000) (timeoutGroups o) ∧
  4 ≤ zlen sample_request ≤ 4096 ∧
  ∃ args, request_args sample_request = Ok args ∧ zlen args ≤ 64 ∧ Forall (λ a, a ≠ []) args.
Proof.
  destruct (parse_request sample_request) as [o|] eqn:Ho; [|by vm_compute in Ho].
  exists o. split; [done|]. by apply (accepted_request_bounded sample_request o).
Defined.

(** *** The wire format of a request *)

Definition request_bytes (args : list (list Z)) : list Z := le32 1 ++ encode_points (args ≫= (λ a, a ++ [0])).

Definition arg_ok (a : list Z) : Prop := (a ≠ []) ∧ (0 ∉ a) ∧ Forall scalar a.

Lemma units_nil a : units a = [] → a = [].
Proof. destruct a as [|c a]; [done|]. change (units (c :: a)) with (units1 c ++ units a). unfold units1. by destruct (65535 <? c). Qed.

Lemma units_zero a : Forall scalar a → 0 ∉ a → 0 ∉ units a.
Proof.
  intros Hs. induction Hs as [|c a Hc _ IH]; intros Hn; [by intros ?%elem_of_nil|]. apply not_elem_of_cons in Hn as [Hz Hn].
  change (units (c :: a)) with (units1 c ++ units a). rewrite elem_of_app. intros [H|H]; [|by apply IH].
  unfold units1 in H. destruct (Z.ltb_spec 65535 c); set_unfold; [|lia].
  destruct H as [H|[H|[]]]; Z.to_euclidean_division_equations; lia.
Qed.

Lemma units_join args : units (args ≫= (λ a, a ++ [0])) = ((units <$> args) ≫= (λ a, a ++ [0])).
Proof.
  induction args as [|a args IH]; [done|]. cbn [mbind list_bind fmap list_fmap]. rewrite !units_app. by rewrite IH.
Qed.

Lemma units_last_zero t : Forall scalar t → last (units t) = Some 0 → ∃ t0, t = t0 ++ [0].
Proof.
  intros Hs. destruct t as [|c t _] using rev_ind; [done|]. apply Forall_app in Hs as [_ Hc]. apply Forall_cons in Hc as [Hc _].
  rewrite units_app. change (units [c]) with (units1 c ++ []). rewrite app_nil_r. unfold units1.
  destruct (Z.ltb_spec 65535 c) as [Hbig|].
  - rewrite (app_assoc _ [_] [_] : units t ++ [_; _] = _), last_snoc. intros [= H]. Z.to_euclidean_division_equations. lia.
  - rewrite last_snoc. intros [= ->]. by exists t.
Qed.

(** The argument list of a NUL-terminated string. *)
Lemma args_of_join (ws : list (list Z)) :
  ws ≠ [] → Forall (λ w, 0 ∉ w) ws →
  last (ws ≫= (λ a, a ++ [0])) = Some 0 ∧ split_on 0 (removelast (ws ≫= (λ a, a ++ [0]))) = ws.
Proof.
  intros Hne Hw. destruct ws as [|w ws _] using rev_ind; [done|].
  rewrite bind_app. cbn [mbind list_bind]. rewrite app_nil_r, app_assoc. split; [by rewrite last_snoc|].
  rewrite removelast_last. by apply split_on_ended.
Qed.

Lemma get_le32_one bytes : Forall is_byte bytes → get_le32 bytes = Some 1 → bytes = le32 1 ++ drop 4 bytes.
Proof.
  intros Hb. destruct bytes as [|a [|b [|c [|d rest]]]]; try done. simpl. intros [= H].
  repeat (apply Forall_cons in Hb as [? Hb]). unfold is_byte in *.
  assert (a = 1 ∧ b = 0 ∧ c = 0 ∧ d = 0) as (-> & -> & -> & ->) by lia. done.
Qed.

Lemma args_accepted args :
  Forall arg_ok args → zlen args ≤ 64 →
  (SUITE_GUEST_MAX_ARGS <? zlen (units <$> args)) || existsb (λ a, bool_decide (a = [])) (units <$> args) = false.
Proof.
  intros Ha Hl. apply orb_false_iff. split.
  - unfold zlen in *. rewrite length_fmap. apply Z.ltb_ge. unfold SUITE_GUEST_MAX_ARGS. lia.
  - apply existsb_not. intros a Hin. apply bool_decide_eq_false. apply list_elem_of_fmap in Hin as (b & -> & Hb).
    rewrite Forall_forall in Ha. destruct (Ha b Hb) as [Hne _]. by intros ?%units_nil.
Qed.

(** The batch command takes exactly the well-formed requests: whatever bytes the guest sends, the
    argument list is accepted as [l] if and only if the bytes are the version word followed by the UTF-8 text of
    NUL-terminated arguments whose strings are [l], none of them empty, at most 64 of them, in at most 4096
    bytes. *)
Theorem request_args_exact bytes l :
  Forall is_byte bytes →
  request_args bytes = Ok l ↔
  ∃ args, bytes = request_bytes args ∧ l = units <$> args ∧ Forall arg_ok args ∧ zlen args ≤ 64 ∧ zlen bytes ≤ 4096.
Proof.
  intros Hb. unfold request_args, SUITE_GUEST_REQUEST_MAX_BYTES. split.
  - destruct (_ || _ || _) eqn:Hc; [done|]. apply orb_false_iff in Hc as [[Hlow Hhigh]%orb_false_iff H1].
    apply negb_false_iff, bool_decide_eq_true in H1. b2p. pose proof (get_le32_one bytes Hb H1) as Heq.
    unfold decode_args. destruct (decode_fatal true (drop 4 bytes)) as [t|] eqn:Ht; [|done]. cbn [fmap option_fmap option_map of_option rbind].
    apply utf8_fatal_exact in Ht as [Hd Hs]; [|by apply Forall_drop]. rewrite Hd in Heq.
    destruct (units t) as [|u us] eqn:Hu.
    { cbn [rbind]. intros [= <-]. apply units_nil in Hu as ->. exists []. by repeat split. }
    rewrite <- Hu. case_bool_decide as Hlast; [|done]. cbn [rbind].
    destruct (units_last_zero t Hs Hlast) as [t0 ->].
    pose proof (split_on_join 0 t0) as Hj. set (args := split_on 0 t0) in *. rewrite <- Hj, units_join in *.
    assert (Forall (λ a, (0 ∉ a) ∧ Forall scalar a) args) as Hargs.
    { apply Forall_and. split; [apply split_on_parts|]. apply Forall_forall. intros a Ha.
      rewrite Forall_forall in Hs |- *. intros c Hc. apply Hs. apply list_elem_of_bind. exists a. split; [|done].
      apply elem_of_app. by left. }
    destruct (args_of_join (units <$> args)) as [_ ->].
    { intros Hn%fmap_nil_inv. by apply (split_on_nonempty 0 t0). }
    { apply Forall_fmap. eapply Forall_impl; [exact Hargs|]. intros a [? ?]. by apply units_zero. }
    destruct (_ || _) eqn:Hc; [done|]. apply orb_false_iff in Hc as [Hc1 Hc2]. intros [= <-]. exists args.
    split; [done|]. split; [done|]. unfold SUITE_GUEST_MAX_ARGS, zlen in Hc1. rewrite length_fmap in Hc1. b2p.
    split; [|unfold zlen in *; lia]. rewrite existsb_not in Hc2. apply Forall_forall. intros a Ha.
    rewrite Forall_forall in Hargs. split; [|by apply Hargs]. intros ->. 
    specialize (Hc2 (units []) (list_elem_of_fmap_2 _ _ _ Ha)). by apply bool_decide_eq_false in Hc2.
  - intros (args & -> & -> & Hargs & Hl & Hlen). unfold request_bytes in *.
    assert (decode_args (encode_points (args ≫= (λ a, a ++ [0]))) = Some (units (args ≫= (λ a, a ++ [0])))) as Hdec.
    { unfold decode_args. rewrite decode_fatal_encode; [done|]. apply Forall_bind. eapply Forall_impl; [exact Hargs|].
      intros a (_ & _ & Ha). apply Forall_app. split; [done|]. apply Forall_singleton. unfold scalar. lia. }
    rewrite get_le32_le32, bool_decide_eq_true_2 by done. rewrite (proj2 (Z.ltb_ge _ _) Hlen).
    rewrite (proj2 (Z.ltb_ge _ _)) by (rewrite zlen_app; change (zlen (le32 1)) with 4; pose proof (zlen_nonneg (encode_points (args ≫= (λ a, a ++ [0])))); lia).
    cbn [orb negb]. change (drop 4 (le32 1 ++ ?x)) with x. rewrite Hdec. cbn [of_option rbind]. rewrite units_join.
    destruct args as [|a args]; [done|].
    destruct (args_of_join (units <$> (a :: args))) as [Hlast Hsplit].
    { done. }
    { apply Forall_fmap. eapply Forall_impl; [exact Hargs|]. intros b (_ & ? & ?). by apply units_zero. }
    revert Hlast Hsplit. generalize ((units <$> (a :: args)) ≫= (λ a, a ++ [0])) as strings. intros [|u us] Hlast Hsplit; [done|].
    rewrite bool_decide_eq_true_2 by done. cbn [rbind]. rewrite Hsplit. by rewrite args_accepted.
Qed.

Lemma request_args_exact_witness : request_args (request_bytes [codes "--list"; [233]]) = Ok [codes "--list"; [233]].
Proof.
  apply request_args_exact; [apply (bool_decide_unpack _); by vm_compute|]. exists [codes "--list"; [233]].
  split; [done|]. split; [by vm_compute|]. split; [|split; by vm_compute].
  constructor; [|constructor; [|constructor]]; (split; [done|]); (split; [apply (bool_decide_unpack _); by vm_compute|]);
    repeat constructor; unfold scalar; lia.
Defined.

(** ** One request *)

Definition run_request (es : list request_event) (q : request_state) : request_state :=
  foldl (λ q e, request_step e q) q es.

Record request_ok (q : request_state) : Prop := {
  ro_settled : length (settled q) = if finished q then 1%nat else 0%nat;
  ro_active : in_active q = negb (finished q);
  ro_terminated : terminations q = if finished q && has_worker q then 1 else 0;
  ro_worker : creating q = true → has_worker q = false;
  ro_listening : listening q = true → has_worker q = true }.

Lemma complete_ok s q : request_ok q → request_ok (complete s q).
Proof.
  intros Hq. unfold complete. destruct (finished q) eqn:Hf; [done|]. destruct Hq as [H1 H2 H3 H4 H5].
  rewrite Hf in H1, H3. constructor; simpl; try done; [rewrite length_app, H1; done|]. rewrite H3. by destruct (has_worker q).
Qed.

Lemma complete_finished s q : finished (complete s q) = true.
Proof. unfold complete. by destruct (finished q) eqn:H. Qed.

Lemma complete_settled s q : settled q `prefix_of` settled (complete s q).
Proof. unfold complete. destruct (finished q); [done|]. by apply prefix_app_r. Qed.

Lemma request_start_ok c : request_ok (request_start c).
Proof. by destruct c. Qed.

Lemma request_step_ok e q : request_ok q → request_ok (request_step e q).
Proof.
  intros Hq. pose proof Hq as [H1 H2 H3 H4 H5]. destruct e; simpl.
  - destruct (creating q) eqn:Hc; [|done]. specialize (H4 eq_refl). rewrite H4, andb_false_r in H3. unfold worker_created.
    destruct (finished q) eqn:Hf; [constructor; simpl; try done; lia|].
    assert (request_ok (mkRequest false false true true (terminations q) (in_active q) (output_length q) (settled q))).
    { by constructor. }
    destruct posted; [done|by apply complete_ok].
  - destruct (creating q) eqn:Hc; [|done]. apply complete_ok. by constructor.
  - destruct (listening q) eqn:Hl; [|done]. unfold worker_output. specialize (H5 eq_refl).
    assert (request_ok (mkRequest (finished q) (creating q) (has_worker q) (listening q) (terminations q) (in_active q)
              (output_length q + length) (settled q))) by (by constructor).
    destruct (_ <? _); [by apply complete_ok|done].
  - destruct (listening q); [by apply complete_ok|done].
  - destruct (listening q); [by apply complete_ok|done].
  - destruct (listening q); [by apply complete_ok|done].
  - by apply complete_ok.
Qed.

Lemma run_request_ok es q : request_ok q → request_ok (run_request es q).
Proof. revert q. induction es as [|e es IH]; intros q Hq; [done|]. apply IH. by apply request_step_ok. Qed.

(** What was settled stays settled. *)
Lemma request_step_settled e q : settled q `prefix_of` settled (request_step e q).
Proof.
  destruct e as [posted| |n|r| | |]; simpl.
  - destruct (creating q); [|done]. unfold worker_created. destruct (finished q); [done|]. destruct posted; [done|].
    apply (complete_settled Rejected (mkRequest false false true true _ _ _ _)).
  - destruct (creating q); [|done]. apply (complete_settled Rejected (mkRequest _ _ _ _ _ _ _ _)).
  - destruct (listening q); [|done]. unfold worker_output. destruct (_ <? _); [|done].
    apply (complete_settled _ (mkRequest _ _ _ _ _ _ _ _)).
  - destruct (listening q); [apply complete_settled|done].
  - destruct (listening q); [apply complete_settled|done].
  - destruct (listening q); [apply complete_settled|done].
  - apply complete_settled.
Qed.

Lemma run_request_settled es q : settled q `prefix_of` settled (run_request es q).
Proof. revert q. induction es as [|e es IH]; intros q; [done|]. etrans; [apply (request_step_settled e)|apply IH]. Qed.

(** Whatever its worker does and in whatever order creation, messages, crash and timer come, a
    request settles at most once, its first outcome is never replaced, its timer settles it, and once
    it is settled it is off the cancel set and its worker, if there is one, was terminated exactly once. *)
Theorem request_settles_once c es es' :
  let q := run_request es (request_start c) in
  let q' := run_request es' q in
  (length (settled q) ≤ 1)%nat ∧ settled q `prefix_of` settled q' ∧
  (RequestTimer ∈ es → settled q ≠ []) ∧
  (settled q ≠ [] → in_active q = false ∧ terminations q = if has_worker q then 1 else 0) ∧
  (settled q = [] → in_active q = true ∧ terminations q = 0).
Proof.
  intros q q'. pose proof (run_request_ok es _ (request_start_ok c)) as [H1 H2 H3 H4 H5]. fold q in H1, H2, H3, H4, H5.
  split; [destruct (finished q); lia|]. split; [apply run_request_settled|]. split.
  - intros (l1 & l2 & Hes)%list_elem_of_split Hnil.
    pose proof (run_request_settled l2 (request_step RequestTimer (run_request l1 (request_start c)))) as Hp.
    assert (run_request l2 (request_step RequestTimer (run_request l1 (request_start c))) = q) as Hq.
    { unfold q. rewrite Hes. unfold run_request. by rewrite foldl_app. }
    rewrite Hq, Hnil in Hp. apply prefix_nil_inv in Hp.
    pose proof (ro_settled _ (request_step_ok RequestTimer _ (run_request_ok l1 _ (request_start_ok c)))) as Hl.
    rewrite Hp in Hl. simpl in Hl. by rewrite complete_finished in Hl.
  - split; intros Hs; destruct (finished q); destruct (settled q); simpl in *; try done.
Qed.

(** ** The job pool *)

Definition run_pool (tests : list test) (es : list pool_event) (p : pool) : pool :=
  foldl (λ p e, pool_step tests e p) p es.

(** Index [i] is being run by some job. *)
Definition busy (p : pool) (i : nat) : Prop := ∃ j q, workers p !! j = Some (Busy i q).

Definition recorded (p : pool) (i : nat) (s : status) : Prop := records p !! i = Some (Some s).

Record pool_ok (tests : list test) (p : pool) : Prop := {
  po_length : length (records p) = length tests;
  po_next : (next p ≤ length tests)%nat;
  po_below : ∀ i, (i < next p)%nat → busy p i ∨ ∃ s, recorded p i s;
  po_above : ∀ i, (next p ≤ i < length tests)%nat → records p !! i = Some None;
  po_busy : ∀ i, busy p i → i ∈ requested p;
  po_job : ∀ j i q, workers p !! j = Some (Busy i q) → request_ok q ∧ records p !! i = Some None;
  po_apart : ∀ j j' i q q', workers p !! j = Some (Busy i q) → workers p !! j' = Some (Busy i q') → j = j';
  po_over : Over ∈ workers p → next p = length tests;
  po_requested : NoDup (requested p) ∧ ∀ i, i ∈ requested p → (i < next p)%nat;
  po_ran : ∀ i t, i ∈ requested p → tests !! i = Some t → skipReason t = [];
  po_skip : ∀ i t, tests !! i = Some t → skipReason t ≠ [] → (i < next p)%nat → recorded p i SKIP }.

(** The jobs after one of them changed. *)
Lemma job_insert (l : list job) j w j' w' :
  <[j := w]> l !! j' = Some w' → (j = j' ∧ w = w' ∧ (j < length l)%nat) ∨ (j ≠ j' ∧ l !! j' = Some w').
Proof. intros [(-> & -> & H)|[H H']]%list_lookup_insert_Some; auto. Qed.

Lemma in_range {A} (l : list A) i a : l !! i = Some a → (i < length l)%nat.
Proof. apply lookup_lt_Some. Qed.

Section pool.
Context (tests : list test).

(** Recording the next test without running it. *)
Lemma step_record p s :
  pool_ok tests p → (next p < length tests)%nat →
  (∀ t, tests !! next p = Some t → skipReason t ≠ [] → s = SKIP) →
  pool_ok tests (put_record (next p) s (take_index p)).
Proof.
  intros [Hl Hn Hb Ha Hbu Hjob Hap Ho [Hnd Hr] Hran Hsk] Hi Hs. constructor; simpl; try done.
  - by rewrite length_insert.
  - intros i Hlt. destruct (decide (i = next p)) as [->|Hne].
    + right. exists s. unfold recorded. simpl. rewrite list_lookup_insert_eq; [done|lia].
    + destruct (Hb i) as [H|[s' H]]; [lia|by left|]. right. exists s'. unfold recorded. simpl.
      by rewrite list_lookup_insert_ne by done.
  - intros i Hr'. rewrite list_lookup_insert_ne by lia. apply Ha. lia.
  - intros j i q Hj. destruct (Hjob j i q Hj) as [Hq Hrec]. split; [done|].
    rewrite list_lookup_insert_ne; [done|]. intros <-.
    assert (next p ∈ requested p) as H%Hr by (apply Hbu; by exists j, q). lia.
  - intros H. specialize (Ho H). lia.
  - split; [done|]. intros i H. specialize (Hr i H). lia.
  - intros i t Ht Hskip Hlt. unfold recorded. simpl. destruct (decide (i = next p)) as [->|Hne].
    + rewrite list_lookup_insert_eq by lia. by rewrite (Hs t Ht Hskip).
    + rewrite list_lookup_insert_ne by done. apply Hsk with t; try done. lia.
Qed.

(** Starting the request of the next test. *)
Lemma step_start p j t c :
  pool_ok tests p → workers p !! j = Some Ready → tests !! next p = Some t → skipReason t = [] →
  pool_ok tests (mkPool (S (next p)) (records p) (<[j := Busy (next p) (request_start c)]> (workers p)) (cancelled p)
                   (next p :: requested p)).
Proof.
  intros [Hl Hn Hb Ha Hbu Hjob Hap Ho [Hnd Hr] Hran Hsk] Hj Ht Hskip.
  pose proof (in_range _ _ _ Ht) as Hlt. pose proof (in_range _ _ _ Hj) as Hjl.
  assert (∀ j' q, workers p !! j' = Some (Busy (next p) q) → False) as Hfree.
  { intros j' q Hj'. assert (next p ∈ requested p) as H%Hr by (apply Hbu; by exists j', q). lia. }
  constructor; simpl; try done; try lia.
  - intros i Hi. destruct (decide (i = next p)) as [->|Hne].
    + left. exists j, (request_start c). simpl. by rewrite list_lookup_insert_eq.
    + destruct (Hb i) as [(j' & q & Hj')|H]; [lia| |by right]. left. exists j', q. simpl.
      rewrite list_lookup_insert_ne; [done|]. intros ->. congruence.
  - intros i Hi. apply Ha. lia.
  - intros i (j' & q & [(-> & [= <- <-] & _)|[_ H]]%job_insert); [by left|]. right. apply Hbu. by exists j', q.
  - intros j' i q [(-> & [= <- <-] & _)|[_ H]]%job_insert; [|by apply (Hjob j')]. split; [apply request_start_ok|].
    apply Ha. lia.
  - intros j1 j2 i q q' [(-> & [= <- <-] & _)|[_ H1]]%job_insert [(-> & ? & _)|[_ H2]]%job_insert; try done.
    + by apply Hfree in H2.
    + simplify_eq. by apply Hfree in H1.
    + by apply (Hap _ _ _ _ _ H1 H2).
  - intros (k & [(? & ? & ?)|[_ Hk]]%job_insert)%list_elem_of_lookup; [done|]. rewrite Ho in Hlt; [lia|].
    by eapply list_elem_of_lookup_2.
  - split; [constructor; [|done]; intros H; specialize (Hr _ H); lia|].
    intros i [->|H]%elem_of_cons; [lia|]. specialize (Hr i H). lia.
  - intros i t' [->|H]%elem_of_cons Ht'; [congruence|]. by apply (Hran i).
  - intros i t' Ht' Hs' Hi. destruct (decide (i = next p)) as [->|Hne]; [congruence|]. apply (Hsk i t'); try done. lia.
Qed.

(** A job that finds no test left is over. *)
Lemma step_over p j :
  pool_ok tests p → workers p !! j = Some Ready → next p = length tests → pool_ok tests (set_job j Over p).
Proof.
  intros [Hl Hn Hb Ha Hbu Hjob Hap Ho Hr Hran Hsk] Hj Hend.
  pose proof (in_range _ _ _ Hj) as Hjl.
  constructor; simpl; try done.
  - intros i Hi. destruct (Hb i Hi) as [(j' & q & Hj')|H]; [|by right]. left. exists j', q. simpl.
    rewrite list_lookup_insert_ne; [done|]. intros ->. congruence.
  - intros i (j' & q & [(? & ? & ?)|[_ H]]%job_insert); [done|]. apply Hbu. by exists j', q.
  - intros j' i q [(? & ? & ?)|[_ H]]%job_insert; [done|]. by apply (Hjob j').
  - intros j1 j2 i q q' [(? & ? & _)|[_ H1]]%job_insert [(? & ? & _)|[_ H2]]%job_insert; try done.
    by apply (Hap _ _ _ _ _ H1 H2).
Qed.

(** The answer of a settled request is recorded. *)
Lemma step_answer p j i q s :
  pool_ok tests p → workers p !! j = Some (Busy i q) → pool_ok tests (set_job j Ready (put_record i s p)).
Proof.
  intros [Hl Hn Hb Ha Hbu Hjob Hap Ho [Hnd Hr] Hran Hsk] Hj.
  pose proof (in_range _ _ _ Hj) as Hjl. destruct (Hjob _ _ _ Hj) as [Hq Hrec]. pose proof (in_range _ _ _ Hrec) as Hil.
  assert (i ∈ requested p) as Hir by (apply Hbu; by exists j, q).
  constructor; simpl; try done.
  - by rewrite length_insert.
  - intros i' Hi'. destruct (decide (i' = i)) as [->|Hne].
    + right. eexists. unfold recorded. simpl. by rewrite list_lookup_insert_eq.
    + destruct (Hb i' Hi') as [(j' & q' & Hj')|[s' Hs]].
      * left. exists j', q'. simpl. rewrite list_lookup_insert_ne; [done|]. intros ->. congruence.
      * right. exists s'. unfold recorded. simpl. by rewrite list_lookup_insert_ne.
  - intros i' Hi'. rewrite list_lookup_insert_ne; [by apply Ha|]. specialize (Hr i Hir). lia.
  - intros i' (j' & q' & [(? & ? & ?)|[_ H]]%job_insert); [done|]. apply Hbu. by exists j', q'.
  - intros j' i' q' [(? & ? & ?)|[Hne H]]%job_insert; [done|]. destruct (Hjob j' _ _ H). split; [done|].
    rewrite list_lookup_insert_ne; [done|]. intros ->. by apply Hne, (Hap _ _ _ _ _ Hj H).
  - intros j1 j2 i' q1 q2 [(? & ? & _)|[_ H1]]%job_insert [(? & ? & _)|[_ H2]]%job_insert; try done.
    by apply (Hap _ _ _ _ _ H1 H2).
  - intros (k & [(? & ? & ?)|[_ Hk]]%job_insert)%list_elem_of_lookup; [done|]. apply Ho. by eapply list_elem_of_lookup_2.
  - intros i' t' Ht' Hs' Hi'. unfold recorded. simpl. destruct (decide (i' = i)) as [->|Hne].
    + rewrite (Hran i t') in Hs'; done.
    + rewrite list_lookup_insert_ne by done. by apply (Hsk i' t').
Qed.

(** Requests progress without changing which job runs what. *)
Definition same_job (w w' : job) : Prop :=
  match w with Busy i q => ∃ q', w' = Busy i q' ∧ (request_ok q → request_ok q') | _ => w' = w end.

Lemma step_requests p l c :
  Forall2 same_job (workers p) l → pool_ok tests p → pool_ok tests (mkPool (next p) (records p) l c (requested p)).
Proof.
  intros Hf [Hl Hn Hb Ha Hbu Hjob Hap Ho Hr Hran Hsk].
  assert (∀ j i q, l !! j = Some (Busy i q) → ∃ q0, workers p !! j = Some (Busy i q0) ∧ (request_ok q0 → request_ok q)) as Hback.
  { intros j i q Hj. destruct (Forall2_lookup_r _ _ _ _ _ Hf Hj) as (w & Hw & Hs).
    destruct w as [|i0 q0|]; simpl in Hs; [done| |done]. destruct Hs as (q' & [= <- <-] & Hok). eauto. }
  constructor; simpl; try done.
  - intros i Hi. destruct (Hb i Hi) as [(j & q & Hj)|H]; [|by right]. left.
    destruct (Forall2_lookup_l _ _ _ _ _ Hf Hj) as (w & Hw & q' & -> & _). by exists j, q'.
  - intros i (j & q & Hj). destruct (Hback _ _ _ Hj) as (q0 & H0 & _). apply Hbu. by exists j, q0.
  - intros j i q (q0 & H0 & Hok)%Hback. destruct (Hjob _ _ _ H0). auto.
  - intros j j' i q q' (q0 & H0 & _)%Hback (q1 & H1 & _)%Hback. by apply (Hap _ _ _ _ _ H0 H1).
  - intros (j & Hj)%list_elem_of_lookup. apply Ho. destruct (Forall2_lookup_r _ _ _ _ _ Hf Hj) as (w & Hw & Hs).
    destruct w as [|i q|]; simpl in Hs; [done|by destruct Hs as (? & ? & ?)|]. by eapply list_elem_of_lookup_2.
Qed.

Lemma same_job_refl w : same_job w w.
Proof. destruct w; simpl; eauto. Qed.

Lemma same_job_insert l j i q q' :
  l !! j = Some (Busy i q) → (request_ok q → request_ok q') → Forall2 same_job l (<[j := Busy i q']> l).
Proof.
  intros Hj Hq. apply Forall2_same_length_lookup. split; [by rewrite length_insert|].
  intros k w w' Hw [(-> & <- & _)|[_ Hw']]%job_insert.
  - simplify_eq. simpl. eauto.
  - simplify_eq. apply same_job_refl.
Qed.

Lemma same_job_cancel l : Forall2 same_job l (cancel_job <$> l).
Proof.
  apply Forall2_fmap_r, Forall_Forall2_diag, Forall_true. intros [|i q|]; simpl; try done. eexists. split; [done|].
  intros Hq. destruct (in_active q); [by apply complete_ok|done].
Qed.

Lemma pool_step_ok e p : pool_ok tests p → pool_ok tests (pool_step tests e p).
Proof.
  intros Hp. destruct e as [j|j e|]; simpl.
  - destruct (workers p !! j) as [[|i q|]|] eqn:Hj; try done.
    + unfold consume_next. destruct (tests !! next p) as [t|] eqn:Ht.
      * pose proof (in_range _ _ _ Ht). case_bool_decide as Hs; simpl; [destruct (cancelled p) eqn:Hc|].
        -- apply step_record; try done. intros t' Ht' Hs'. congruence.
        -- rewrite <- Hc at 2. by apply (step_start p j t).
        -- by apply step_record.
      * apply step_over; try done. apply lookup_ge_None in Ht. pose proof (po_next _ _ Hp). lia.
    + destruct (tests !! i); [|done]. destruct (settled q); [done|]. by apply (step_answer p j i q).
  - destruct (workers p !! j) as [[|i q|]|] eqn:Hj; try done.
    apply step_requests; [|done]. apply same_job_insert with q; [done|apply request_step_ok].
  - apply step_requests; [apply same_job_cancel|done].
Qed.

Lemma run_pool_ok es p : pool_ok tests p → pool_ok tests (run_pool tests es p).
Proof. revert p. induction es as [|e es IH]; intros p Hp; [done|]. simpl. apply IH. by apply pool_step_ok. Qed.

Lemma pool_start_ok o : pool_ok tests (pool_start tests o).
Proof.
  constructor; simpl; try lia; try (by rewrite length_replicate).
  - intros i Hi. apply lookup_replicate_2. lia.
  - intros i (j & q & Hj). simpl in Hj. by apply lookup_replicate in Hj as [? _].
  - intros j i q Hj. by apply lookup_replicate in Hj as [? _].
  - intros j j' i q q' Hj. by apply lookup_replicate in Hj as [? _].
  - intros H. by apply elem_of_replicate in H as [? _].
  - split; [constructor|]. intros i H. by apply elem_of_nil in H.
  - intros i t H. by apply elem_of_nil in H.
Qed.

Lemma reachable_ok es o : pool_ok tests (run_pool tests es (pool_start tests o)).
Proof. apply run_pool_ok, pool_start_ok. Qed.

Lemma workers_length e p : length (workers (pool_step tests e p)) = length (workers p).
Proof.
  destruct e; simpl; unfold consume_next; repeat case_match; simpl; rewrite ?length_insert, ?length_fmap; done.
Qed.

Lemma run_pool_workers es p : length (workers (run_pool tests es p)) = length (workers p).
Proof. revert p. induction es as [|e es IH]; intros p; [done|]. simpl. rewrite IH. apply workers_length. Qed.

Lemma over_next es o :
  1 ≤ jobs o → tests ≠ [] → let p := run_pool tests es (pool_start tests o) in pool_over p → next p = length tests.
Proof.
  intros Hj Hne p Hover. apply (po_over _ _ (reachable_ok es o)). fold p.
  assert (0 < zlen tests) as Hlen by (unfold zlen; destruct tests; [done|simpl; lia]).
  assert (length (workers p) = Z.to_nat (Z.min (jobs o) (zlen tests))) as Hw.
  { unfold p. rewrite run_pool_workers. simpl. by rewrite length_replicate. }
  destruct (workers p) as [|w ws] eqn:Hws; [simpl in Hw; lia|].
  unfold pool_over in Hover. rewrite Hws in Hover. inversion Hover; subst. by left.
Qed.

Lemma over_recorded es o :
  1 ≤ jobs o → tests ≠ [] → let p := run_pool tests es (pool_start tests o) in pool_over p → Forall is_Some (records p).
Proof.
  intros Hj Hne p Hover. pose proof (reachable_ok es o) as Hp. fold p in Hp. pose proof (over_next es o Hj Hne Hover) as Hnext. fold p in Hnext.
  apply Forall_lookup. intros i r Hr. assert (i < next p)%nat as Hi.
  { rewrite Hnext, <- (po_length _ _ Hp). by eapply lookup_lt_Some. }
  destruct (po_below _ _ Hp i Hi) as [(j & q & Hb)|[s Hs]].
  - unfold pool_over in Hover. rewrite Forall_lookup in Hover. by specialize (Hover j _ Hb).
  - unfold recorded in Hs. rewrite Hr in Hs. simplify_eq. by eexists.
Qed.
End pool.

(** C33: However the jobs interleave and whenever the batch is cancelled, once every job is over
    each selected test has exactly one record at its own place, a test with a skip reason
    is recorded as SKIP and never started, and no test is started twice. *)
Theorem every_test_recorded_once tests o es :
  1 ≤ jobs o → tests ≠ [] →
  let p := run_pool tests es (pool_start tests o) in
  pool_over p →
  length (records p) = length tests ∧ Forall is_Some (records p) ∧ NoDup (requested p) ∧
  (∀ i t, tests !! i = Some t → skipReason t ≠ [] → records p !! i = Some (Some SKIP) ∧ i ∉ requested p).
Proof.
  intros Hj Hne p Hover. pose proof (reachable_ok tests es o) as Hp. fold p in Hp.
  pose proof (over_next tests es o Hj Hne Hover) as Hnext. fold p in Hnext.
  split; [apply Hp|]. split; [|split; [apply Hp|]].
  - by apply over_recorded.
  - intros i t Ht Hs. split.
    + apply (po_skip _ _ Hp i t Ht Hs). rewrite Hnext. by eapply lookup_lt_Some.
    + intros Hin. by apply Hs, (po_ran _ _ Hp i t).
Qed.

Definition sample_test (id : string) (skip : list Z) : test :=
  mkTest (codes id) (codes "core") [] [] [] skip false false.
Definition sample_tests : list test := [sample_test "a" []; sample_test "b" (codes "slow")].
Definition sample_events : list pool_event :=
  [Turn 0; Request 0 RequestTimer; Turn 1; Turn 0; Turn 0; Turn 1].

Lemma every_test_recorded_once_witness :
  pool_over (run_pool sample_tests sample_events (pool_start sample_tests default_options)) ∧
  length (records (run_pool sample_tests sample_events (pool_start sample_tests default_options))) = 2%nat.
Proof.
  assert (pool_over (run_pool sample_tests sample_events (pool_start sample_tests default_options))) as H.
  { vm_compute. repeat constructor. }
  split; [exact H|].
  apply (every_test_recorded_once sample_tests default_options sample_events); [by vm_compute|done|exact H].
Defined.

(** ** Cancelling *)

(** The outcome of test [i] after a cancel in [p0]: not run, cancelled, or what its request had
    already settled on. *)
Definition late_status (tests : list test) (p0 : pool) (i : nat) (s : status) : Prop :=
  s = SKIP ∨ s = CANCELLED ∨
  ∃ j q a t, workers p0 !! j = Some (Busy i q) ∧ settled q = [a] ∧ tests !! i = Some t ∧ s = classify t (answer a).

Record cancelled_from (tests : list test) (p0 p : pool) : Prop := {
  cf_cancelled : cancelled p = true;
  cf_requested : requested p = requested p0;
  cf_job : ∀ j i q, workers p !! j = Some (Busy i q) →
    ∃ a, settled q = [a] ∧ finished q = true ∧
      (a = Resolved (plain_response true false false) ∨ ∃ q0, workers p0 !! j = Some (Busy i q0) ∧ settled q0 = [a]);
  cf_record : ∀ i, records p0 !! i = Some None → records p !! i = Some None ∨ ∃ s, recorded p i s ∧ late_status tests p0 i s }.

Lemma finished_stays e q : finished q = true → finished (request_step e q) = true ∧ settled (request_step e q) = settled q.
Proof.
  intros Hf. assert (∀ s, complete s q = q) as Hc by (intros s; unfold complete; by rewrite Hf).
  destruct e; simpl; unfold worker_created, worker_output, fail_request;
    repeat (case_match; try done); rewrite ?Hc; try done; unfold complete; simpl; by rewrite Hf.
Qed.

Section cancel.
Context (tests : list test).

Lemma cancel_start p : pool_ok tests p → cancelled_from tests p (pool_step tests Cancel p).
Proof.
  intros Hp. constructor; simpl; auto.
  intros j i q. rewrite list_lookup_fmap. destruct (workers p !! j) as [[|i0 q0|]|] eqn:Hj; try done. intros [= <- <-].
  destruct (po_job _ _ Hp _ _ _ Hj) as [[H1 H2 _ _ _] _]. rewrite H2. unfold cancel_request, complete.
  destruct (finished q0) eqn:Hf; simpl.
  - rewrite Hf. destruct (settled q0) as [|a [|]] eqn:Hs; try done. exists a. split; [done|]. split; [done|]. right. eauto.
  - destruct (settled q0); [|done]. eexists. split; [done|]. auto.
Qed.

(** A recorded status stays, and a new one is a late one. *)
Lemma late_insert p0 p i s :
  cancelled_from tests p0 p → late_status tests p0 i s →
  ∀ k, records p0 !! k = Some None →
    <[i := Some s]> (records p) !! k = Some None ∨
    ∃ s', <[i := Some s]> (records p) !! k = Some (Some s') ∧ late_status tests p0 k s'.
Proof.
  intros [_ _ _ Hrec] Hl k Hk. destruct (decide (i = k)) as [->|Hne].
  - right. exists s. split; [|done]. apply list_lookup_insert_eq.
    destruct (Hrec k Hk) as [H|(s' & H & _)]; by apply lookup_lt_Some in H.
  - rewrite list_lookup_insert_ne by done. by apply Hrec.
Qed.

Lemma cancelled_step p0 e p : cancelled_from tests p0 p → cancelled_from tests p0 (pool_step tests e p).
Proof.
  intros Hc. pose proof Hc as [H1 H2 H3 H4]. destruct e as [j|j e|]; simpl.
  - destruct (workers p !! j) as [[|i q|]|] eqn:Hj; try done.
    + unfold consume_next. destruct (tests !! next p) as [t|] eqn:Ht.
      * destruct (negb _); [|rewrite H1];
          (constructor; simpl; try done; intros k; apply late_insert; [done|]; rewrite ?H1; unfold late_status; auto).
      * constructor; simpl; try done. intros j' i q [(? & ? & ?)|[_ H]]%job_insert; [done|]. by apply H3.
    + destruct (tests !! i) as [t|] eqn:Ht; [|done]. destruct (H3 j i q Hj) as (a & Ha & Hf & Ho). rewrite Ha.
      constructor; simpl; try done.
      * intros j' i' q' [(? & ? & ?)|[_ H]]%job_insert; [done|]. by apply H3.
      * intros k. apply late_insert; [done|]. right. destruct Ho as [->|(q0 & Hq0 & Hs0)]; [by left|].
        right. by exists j, q0, a, t.
  - destruct (workers p !! j) as [[|i q|]|] eqn:Hj; try done. constructor; simpl; try done.
    intros j' i' q' [(<- & [= <- <-] & _)|[_ H]]%job_insert; [|by apply H3].
    destruct (H3 j i q Hj) as (a & Ha & Hf & Ho). destruct (finished_stays e q Hf) as [-> ->]. eauto.
  - constructor; simpl; try done. intros j i q. rewrite list_lookup_fmap.
    destruct (workers p !! j) as [[|i0 q0|]|] eqn:Hj; try done. intros [= <- <-].
    destruct (H3 j _ _ Hj) as (a & Ha & Hf & Ho). unfold cancel_request, complete. rewrite Hf.
    destruct (in_active q0); eauto.
Qed.

Lemma cancelled_run p0 es p : cancelled_from tests p0 p → cancelled_from tests p0 (run_pool tests es p).
Proof. revert p. induction es as [|e es IH]; intros p H; [done|]. apply IH. by apply cancelled_step. Qed.
End cancel.

(** After a cancel no further test is started, whatever happens next; when the jobs are over,
    each test that had no record is skipped, cancelled, or has the result its request had already
    settled on before the cancel. *)
Theorem cancel_stops_batch tests o es es' :
  1 ≤ jobs o → tests ≠ [] →
  let p := run_pool tests es (pool_start tests o) in
  let p' := run_pool tests (Cancel :: es') p in
  requested p' = requested p ∧ cancelled p' = true ∧
  (pool_over p' → ∀ i, records p !! i = Some None → ∃ s, records p' !! i = Some (Some s) ∧ late_status tests p i s).
Proof.
  intros Hj Hne p p'. pose proof (reachable_ok tests es o) as Hp. fold p in Hp.
  pose proof (cancelled_run tests p es' _ (cancel_start tests p Hp)) as [H1 H2 _ H4].
  change (run_pool tests es' (pool_step tests Cancel p)) with p' in *.
  split; [done|]. split; [done|]. intros Hover i Hi.
  destruct (H4 i Hi) as [Hn|H]; [exfalso|done].
  assert (p' = run_pool tests (es ++ Cancel :: es') (pool_start tests o)) as Hp'.
  { unfold p', p, run_pool. by rewrite foldl_app. }
  pose proof (reachable_ok tests (es ++ Cancel :: es') o) as Hok. rewrite <- Hp' in Hok.
  pose proof (over_next tests (es ++ Cancel :: es') o Hj Hne) as Hnext. rewrite <- Hp' in Hnext. specialize (Hnext Hover).
  pose proof (in_range _ _ _ Hn) as Hlt. rewrite (po_length _ _ Hok), <- Hnext in Hlt.
  destruct (po_below _ _ Hok i Hlt) as [(j & q & Hb)|(s & Hs)]; [|unfold recorded in Hs; congruence].
  unfold pool_over in Hover. rewrite Forall_lookup in Hover. by specialize (Hover j _ Hb).
Qed.

Lemma cancel_stops_batch_witness :
  let p := run_pool sample_tests [Turn 0] (pool_start sample_tests default_options) in
  let p' := run_pool sample_tests [Cancel; Turn 0; Turn 0; Turn 0; Turn 1] p in
  requested p' = requested p ∧ cancelled p' = true ∧
  (pool_over p' → ∀ i, records p !! i = Some None →
     ∃ s, records p' !! i = Some (Some s) ∧ late_status sample_tests p i s).
Proof. apply (cancel_stops_batch sample_tests default_options [Turn 0] [Turn 0; Turn 0; Turn 0; Turn 1]); by vm_compute. Defined.

(** ** The batch can always end *)

Definition job_work (w : job) : nat := match w with Ready => 1 | Busy _ _ => 2 | Over => 0 end.
Definition work (tests : list test) (p : pool) : nat :=
  sum_list_with job_work (workers p) + 3 * (length tests - next p).

Lemma sum_insert (l : list job) j w w' :
  l !! j = Some w → (sum_list_with job_work (<[j := w']> l) + job_work w = sum_list_with job_work l + job_work w')%nat.
Proof.
  revert j. induction l as [|a l IH]; intros [|j]; simpl; try done.
  - intros [= ->]. lia.
  - intros H. specialize (IH j H). lia.
Qed.

Lemma not_over_job (l : list job) : ¬ Forall (λ w, w = Over) l → ∃ j w, l !! j = Some w ∧ w ≠ Over.
Proof.
  induction l as [|w l IH]; [intros H; by destruct H|]. intros H. destruct w as [| |].
  - by exists 0%nat, Ready.
  - by eexists 0%nat, _.
  - destruct IH as (j & w & Hj & Hw); [intros Hl; apply H; by constructor|]. by exists (S j), w.
Qed.

(** Events that need no worker: turns of the loops and timers. *)
Definition own_event (e : pool_event) : Prop := match e with Turn _ | Request _ RequestTimer => True | _ => False end.

Lemma step_down tests p :
  pool_ok tests p → ¬ pool_over p → ∃ es, Forall own_event es ∧ (length es ≤ 2)%nat ∧ (work tests (run_pool tests es p) < work tests p)%nat.
Proof.
  intros Hp Hover. destruct (not_over_job _ Hover) as (j & w & Hj & Hw). destruct w as [|i q|]; [| |done].
  - exists [Turn j]. split; [by repeat constructor|]. split; [simpl; lia|]. simpl. rewrite Hj. unfold consume_next, work.
    pose proof (sum_insert _ _ _ Over Hj). pose proof (sum_insert _ _ _ (Busy (next p) (request_start (cancelled p))) Hj).
    destruct (tests !! next p) as [t|] eqn:Ht; [apply lookup_lt_Some in Ht|]; repeat case_match; simpl in *; lia.
  - exists [Request j RequestTimer; Turn j]. split; [by repeat constructor|]. split; [simpl; lia|].
    simpl. rewrite Hj. simpl. pose proof (in_range _ _ _ Hj) as Hjl. rewrite list_lookup_insert_eq by done.
    destruct (po_job _ _ Hp _ _ _ Hj) as [Hq Hrec]. apply in_range in Hrec. rewrite (po_length _ _ Hp) in Hrec.
    destruct (lookup_lt_is_Some_2 tests i Hrec) as [t ->].
    pose proof (ro_settled _ (complete_ok (Resolved (plain_response false true false)) q Hq)) as Hs.
    rewrite complete_finished in Hs. destruct (settled _) as [|a l] eqn:He; [done|].
    unfold work. simpl. rewrite list_insert_insert_eq. pose proof (sum_insert _ _ _ Ready Hj). simpl in *. lia.
Qed.

Lemma finish_from tests n p :
  pool_ok tests p → (work tests p ≤ n)%nat →
  ∃ es, Forall own_event es ∧ (length es ≤ 2 * n)%nat ∧ pool_over (run_pool tests es p).
Proof.
  revert p. induction n as [n IH] using lt_wf_ind. intros p Hp Hn.
  destruct (decide (Forall (λ w, job_work w = 0%nat) (workers p))) as [Hz|Hz].
  - exists []. split; [done|]. split; [simpl; lia|]. unfold pool_over. simpl. eapply Forall_impl; [exact Hz|]. by intros [].
  - destruct (step_down tests p Hp) as (es & Hown & Hlen & Hdown).
    { intros H. apply Hz. eapply Forall_impl; [exact H|]. by intros ? ->. }
    destruct (IH (n - 1)%nat ltac:(lia) (run_pool tests es p)) as (es' & Hown' & Hlen' & Hover).
    { by apply run_pool_ok. } { lia. }
    exists (es ++ es'). split; [by apply Forall_app|]. split; [rewrite length_app; lia|].
    unfold run_pool in *. by rewrite foldl_app.
Qed.

(** C39: A batch can always end without help from a worker: from every state it can reach, some
    turns of its own loops and expiries of its own timers finish every job, and their number is
    bounded by the jobs and tests. *)
Theorem batch_can_finish tests o es :
  let p := run_pool tests es (pool_start tests o) in
  ∃ es', Forall own_event es' ∧ (length es' ≤ 4 * length (workers p) + 6 * length tests)%nat ∧
         pool_over (run_pool tests es' p).
Proof.
  intros p. destruct (finish_from tests (2 * length (workers p) + 3 * length tests) p) as (es' & H1 & H2 & H3).
  - apply reachable_ok.
  - unfold work. enough (sum_list_with job_work (workers p) ≤ 2 * length (workers p))%nat by lia.
    induction (workers p) as [|[] l IHl]; simpl; lia.
  - exists es'. split; [done|]. split; [lia|done].
Qed.

(** ** The exit code *)

Definition as_expected (s : status) : Prop := s = PASS ∨ s = XFAIL ∨ s = SKIP.

Definition total (sm : summary) : Z := n_pass sm + n_fail sm + n_xfail sm + n_xpass sm + n_skip sm.

Lemma summarise_counts l sm :
  let r := foldl (λ sm s, count_status s sm) sm l in
  total r = total sm + zlen l ∧ n_fail sm ≤ n_fail r ∧ n_xpass sm ≤ n_xpass r ∧
  (n_fail r = n_fail sm ∧ n_xpass r = n_xpass sm ↔ Forall as_expected l).
Proof.
  revert sm. induction l as [|s l IH]; intros sm; simpl.
  { unfold zlen. simpl. split; [lia|]. split; [lia|]. split; [lia|]. split; [constructor|done]. }
  destruct (IH (count_status s sm)) as (H1 & H2 & H3 & H4). rewrite Forall_cons.
  assert (zlen (s :: l) = zlen l + 1) as -> by (unfold zlen; simpl; lia).
  unfold total in *. unfold as_expected at 1. destruct s; simpl in *; (split; [lia|]); (split; [lia|]); (split; [lia|]);
    rewrite <- H4; (split; [intros [? ?]; split; [auto; lia|lia]|intros [Hs ?]; try lia]);
    by destruct Hs as [?|[?|?]].
Qed.

Lemma summarise_total l : total (summarise l) = zlen l.
Proof. destruct (summarise_counts l (mkSummary 0 0 0 0 0)) as (H1 & _). unfold total in *. simpl in H1. unfold summarise. lia. Qed.

Lemma exit_zero_spec was_cancelled l :
  exitCode was_cancelled (summarise l) = 0 ↔ was_cancelled = false ∧ Forall as_expected l.
Proof.
  destruct (summarise_counts l (mkSummary 0 0 0 0 0)) as (_ & H2 & H3 & H4). unfold summarise.
  set (r := foldl _ _ _) in *. simpl in *. unfold exitCode. destruct was_cancelled; [naive_solver|].
  rewrite <- H4. destruct (n_fail r =? 0) eqn:Hf, (n_xpass r =? 0) eqn:Hx; simpl; b2p; naive_solver lia.
Qed.

(** Every record is counted once in the summary, and a batch exits with 0 exactly when it was not
    cancelled and every test passed, failed as expected or was skipped; a cancelled one exits with 130. *)
Theorem exit_zero_iff_as_expected was_cancelled l :
  total (summarise l) = zlen l ∧
  (exitCode was_cancelled (summarise l) = 0 ↔ was_cancelled = false ∧ Forall as_expected l) ∧
  (was_cancelled = true → exitCode was_cancelled (summarise l) = 130).
Proof. split; [apply summarise_total|]. split; [apply exit_zero_spec|]. by intros ->. Qed.

(** A test counts as passed only if its worker reported a complete run: as many results as it
    counted, all passed, all its setup done and no error, timeout or cancel. *)
Theorem pass_is_earned t r :
  classify t r = PASS ∨ classify t r = XPASS →
  rs_cancelled r = false ∧ rs_timedOut r = false ∧ rs_error r = false ∧ rs_completed r = Some true ∧
  (∃ results, rs_results r = Some results ∧ Forall (λ b, b = true) results ∧ rs_passed r = zlen results) ∧
  (∃ setup n, rs_setup r = Some setup ∧ su_complete setup = true ∧ su_total setup = Some n ∧ su_passed setup = Some n).
Proof.
  intros H. unfold classify in H.
  destruct (rs_cancelled r); [naive_solver|]. destruct (rs_timedOut r); [naive_solver|]. destruct (rs_error r); [naive_solver|].
  destruct (report_ok r) as [ok|] eqn:Hr; [|naive_solver]. destruct ok; [|destruct (expectedFailure t); naive_solver].
  unfold report_ok in Hr.
  destruct (rs_results r) as [results|]; [|done]. destruct (rs_ok r) as [ok|]; [|done]. destruct (rs_total r) as [total|]; [|done].
  destruct (rs_setup r) as [setup|]; [|done]. destruct (rs_completed r) as [completed|]; [|done].
  destruct (su_total setup) as [st|] eqn:H1; [|done]. destruct (su_passed setup) as [sp|] eqn:H2; [|done].
  destruct (su_failures setup); [|done]. destruct (_ && _) eqn:Hb; [|done]. injection Hr as ->.
  repeat match goal with H : _ && _ = true |- _ => apply andb_true_iff in H as [? ?] end.
  match goal with H : eqb true _ = true |- _ => apply eqb_prop in H; symmetry in H; b2p end. b2p. subst.
  do 3 (split; [done|]). split; [done|]. split; [|by exists setup, st].
  exists results. split; [done|]. split; [|lia].
  assert (zlen (filter (λ b, b = true) results) = zlen results) as Hl by lia. clear -Hl.
  induction results as [|b l IH]; [done|].
  rewrite filter_cons in Hl. pose proof (length_filter (λ b, b = true) l). unfold zlen in *. destruct b; simpl in Hl; try lia.
  constructor; [done|]. apply IH. lia.
Qed.

Definition good_report : response :=
  mkResponse false false false (Some [true; true]) (Some true) (Some 2) 2 (Some (mkSetup true (Some 1) (Some 1) (Some 0)))
    (Some true) None.

Lemma pass_is_earned_witness :
  classify (sample_test "a" []) good_report = PASS ∧ rs_completed good_report = Some true.
Proof.
  assert (classify (sample_test "a" []) good_report = PASS) as H by (by vm_compute). split; [exact H|].
  apply (pass_is_earned (sample_test "a" []) good_report). left. exact H.
Defined.

(** ** The guest's command *)

Lemma exit_codes c sm : exitCode c sm ∈ [0; 1; 130].
Proof. unfold exitCode. destruct c; [set_solver|]. destruct (_ || _); set_solver. Qed.

Section command.
Context (decode_error : list Z) (stringify : report → list Z).

(** A reply that is not refused is read back as it was sent. *)
Lemma reply_ok code output r bytes :
  0 ≤ code < 2^32 → reply stringify code output r = Ok bytes →
  zlen bytes ≤ SUITE_GUEST_REPLY_MAX_BYTES ∧
  parse_reply bytes = Some (1, code, text_encode output, match r with Some r => text_encode (stringify r ++ [10]) | None => [] end).
Proof.
  intros Hc. unfold reply. pose proof (guest_reply_spec code (text_encode output) (match r with Some r => text_encode (stringify r ++ [10]) | None => [] end)) as H.
  destruct (guestReply _ _ _); [|done]. simpl. intros [= <-]. by rewrite (to_uint32_id code) in H.
Qed.

Lemma reply_fits code output r :
  4 * zlen output + (match r with Some r => 4 * (zlen (stringify r) + 1) | None => 0 end) ≤ 16000000 →
  ∃ bytes, reply stringify code output r = Ok bytes.
Proof.
  intros Hl. unfold reply, guestReply.
  assert (16 + zlen (text_encode output) + zlen (match r with Some r => text_encode (stringify r ++ [10]) | None => [] end)
          ≤ SUITE_GUEST_REPLY_MAX_BYTES) as Hfit.
  { pose proof (text_encode_length output). unfold SUITE_GUEST_REPLY_MAX_BYTES. destruct r as [r|]; [|unfold zlen in *; simpl; lia].
    pose proof (text_encode_length (stringify r ++ [10])). unfold zlen in *. rewrite length_app in *. simpl in *. lia. }
  case (Z.ltb_spec SUITE_GUEST_REPLY_MAX_BYTES
          (16 + zlen (text_encode output) + zlen (match r with Some r => text_encode (stringify r ++ [10]) | None => [] end))); [lia|].
  simpl. eauto.
Qed.

(** The reasons for a zero exit code. *)
Definition succeeded (bytes : list Z) (a : awaited) : Prop :=
  aw_busy a = false ∧ aw_cancelled_list a = false ∧
  ∃ o, parse_request bytes = Ok o ∧
    (want_list o = true ∨ ∃ l, aw_run a = Ok (l, false) ∧ Forall as_expected (rec_status <$> l)).

Lemma run_report_zero l c : report_code (run_report l c) = 0 → c = false ∧ Forall as_expected (rec_status <$> l).
Proof. intros H. by apply exit_zero_spec in H. Qed.

Lemma command_body_ok bytes a reply :
  command_body stringify bytes a = Ok reply →
  aw_busy a = false ∧ ∃ code out json, zlen reply ≤ SUITE_GUEST_REPLY_MAX_BYTES ∧ parse_reply reply = Some (1, code, out, json) ∧
    code ∈ [0; 1; 130] ∧ (code = 0 → succeeded bytes a).
Proof.
  unfold command_body. destruct (aw_busy a) eqn:Hbusy; [done|]. intros H. split; [done|]. revert H.
  destruct (parse_request bytes) as [o|] eqn:Ho; [|done]. cbn [own rbind].
  destruct (aw_list a) as [catalogue|]; [|done]. cbn [foreign rbind]. destruct (aw_cancelled_list a) eqn:Hc; [done|].
  destruct (select catalogue (sel o)) as [selected|]; [|done]. cbn [own rbind]. destruct (existsb _ _); [done|].
  destruct (want_list o) eqn:Hlist; cbn [rbind].
  - intros [H1 H2]%reply_ok; [|done]. do 3 eexists. split; [done|]. split; [done|]. split; [set_solver|].
    intros _. split; [done|]. split; [done|]. exists o. auto.
  - destruct (aw_run a) as [[l c]|] eqn:Hrun; [|done]. cbn [foreign rbind].
    pose proof (exit_codes c (summarise (rec_status <$> l))) as Hcode.
    intros [H1 H2]%reply_ok; [|simpl; set_unfold; lia]. do 3 eexists. split; [done|]. split; [done|]. split; [done|].
    intros [-> Hexp]%run_report_zero. split; [done|]. split; [done|]. exists o. split; [done|]. right. by exists l.
Qed.
End command.

Lemma cancelled_text_length : zlen (codes "waste-test: cancelled before enumeration" ++ [10]) = 41.
Proof. by vm_compute. Qed.

Lemma error_text_length m : zlen (codes "waste-test: " ++ m ++ [10]) = zlen m + 13.
Proof.
  assert (length (codes "waste-test: ") = 12%nat) as H by (by vm_compute).
  unfold zlen. rewrite !length_app, H. simpl. lia.
Qed.

(** C18: The guest always gets an answer: whatever it sends and whatever the enumeration and the run
    do, the command returns a well-formed reply within the size limit with exit code 0, 1, 2 or 130,
    an oversized report included (it is answered as an error). A second command during a batch is
    refused with 2, and 0 means a valid request that was listed, or run uncancelled with every test as
    expected. The thrown messages are not themselves huge. *)
Theorem guest_always_answered decode_error stringify bytes a :
  zlen (stringify CancelledReport) ≤ 1000000 →
  (∀ e, command_body stringify bytes a = Err e → zlen (message decode_error e) ≤ 1000000) →
  ∃ reply code out json,
    guestCommand decode_error stringify bytes a = Ok reply ∧ zlen reply ≤ SUITE_GUEST_REPLY_MAX_BYTES ∧
    parse_reply reply = Some (1, code, out, json) ∧ code ∈ [0; 1; 2; 130] ∧
    (aw_busy a = true → code = 2) ∧ (code = 0 → succeeded bytes a).
Proof.
  intros Hcan Hmsg. unfold guestCommand. destruct (command_body stringify bytes a) as [r|e] eqn:Hb.
  - destruct (command_body_ok _ _ _ _ Hb) as (Hbusy & code & out & json & H1 & H2 & H3 & H4).
    exists r, code, out, json. do 3 (split; [done|]). split; [set_solver|]. split; [congruence|done].
  - specialize (Hmsg e eq_refl). destruct (negb (aw_busy a) && aw_cancelled a) eqn:Hc.
    + destruct (reply_fits stringify 130 (codes "waste-test: cancelled before enumeration" ++ [10]) (Some CancelledReport))
        as [r Hr]; [rewrite cancelled_text_length; lia|].
      rewrite Hr. apply reply_ok in Hr as [H1 H2]; [|done]. do 4 eexists. split; [done|]. split; [done|]. split; [done|].
      split; [set_solver|]. apply andb_true_iff in Hc as [Hc _]. apply negb_true_iff in Hc. split; [congruence|done].
    + destruct (reply_fits stringify 2 (codes "waste-test: " ++ message decode_error e ++ [10]) None) as [r Hr].
      { rewrite error_text_length. lia. }
      rewrite Hr. apply reply_ok in Hr as [H1 H2]; [|done]. do 4 eexists. split; [done|]. split; [done|]. split; [done|].
      split; [set_solver|]. done.
Qed.

Definition sample_awaited : awaited :=
  mkAwaited false (Ok [sample_test "simd" []]) false (Ok ([mkRecord (sample_test "simd" []) PASS], false)) false.

Lemma guest_always_answered_witness :
  ∃ reply code out json,
    guestCommand [] (λ _, codes "{}") sample_request sample_awaited = Ok reply ∧
    zlen reply ≤ SUITE_GUEST_REPLY_MAX_BYTES ∧
    parse_reply reply = Some (1, code, out, json) ∧ code ∈ [0; 1; 2; 130] ∧
    (aw_busy sample_awaited = true → code = 2) ∧ (code = 0 → succeeded sample_request sample_awaited).
Proof.
  apply (guest_always_answered [] (λ _, codes "{}") sample_request sample_awaited).
  - by vm_compute.
  - intros e He. vm_compute in He. discriminate He.
Defined.
