(* ===== verification/Evidence.v ===== *)
(** * The loader evidence script (src/html-rt/src/app.js)

    The page can drive the shell through a fixed list of commands: each is sent
    when the output after the previous one shows the expected marker and a
    prompt, and when the worker has announced that it waits for input.  The
    state is the record [evidence]; [append_evidence] is the part of [appendRaw]
    behind [if (evidenceStartedAt)].  Texts are lists of UTF-16 units. *)

From stdpp Require Import base numbers list strings.
From Stdlib Require Import ZArith Lia.
From S2P Require Import Prelude JsNum TermModel Utf8.

#[local] Open Scope Z_scope.

(** ** Searching in texts *)

Fixpoint starts_with (needle hay : list Z) : bool :=
  match needle, hay with
  | [], _ => true
  | a :: n', b :: h' => (a =? b) && starts_with n' h'
  | _ :: _, [] => false
  end.

(** [hay.indexOf(needle)]. *)
Fixpoint index_of (needle hay : list Z) : option nat :=
  if starts_with needle hay then Some O
  else match hay with [] => None | _ :: h' => S <$> index_of needle h' end.

(** [hay.includes(needle)]. *)
Definition includes (needle hay : list Z) : bool := bool_decide (is_Some (index_of needle hay)).

(** [/# /.test(text)]. *)
Definition prompt_mark : list Z := codes "# ".

(** ** The script *)

Inductive expectation : Type :=
| Prompt                      (* [{prompt: true}] *)
| Marker (marker : list Z).   (* [{marker: ...}] *)

#[export] Instance expectation_eq_dec : EqDecision expectation.
Proof. solve_decision. Defined.

Record script_step : Type := mkScript { expects : expectation; command : list Z }.

Definition quoted (s : string) : list Z := 34 :: codes s ++ [34].

(** [printf '<name>_%s__\n' "$?"]. *)
Definition report (name : string) : list Z := codes "printf '" ++ codes name ++ codes "_%s__\n' " ++ quoted "$?".
Definition run_and_report (path name : string) : list Z := codes path ++ codes "; " ++ report name.

Definition evidenceSteps : list script_step :=
  [mkScript (Marker (codes "__WASTE_EVIDENCE_BEGIN__"))
     (run_and_report "/bin/wat /tmp/waste-evidence.wat" "__WASTE_EVIDENCE_WAT_EXPLICIT");
   mkScript (Marker (codes "__WASTE_EVIDENCE_WAT_EXPLICIT_0__"))
     (run_and_report "/tmp/waste-evidence.wat" "__WASTE_EVIDENCE_WAT_DIRECT");
   mkScript (Marker (codes "__WASTE_EVIDENCE_WAT_DIRECT_0__"))
     (run_and_report "/tmp/waste-evidence-shebang.wat" "__WASTE_EVIDENCE_WAT_SHEBANG");
   mkScript (Marker (codes "__WASTE_EVIDENCE_WAT_SHEBANG_0__")) (codes "/bin/wast /tmp/waste-evidence.wast");
   mkScript Prompt (report "__WASTE_EVIDENCE_WAST_EXPLICIT");
   mkScript (Marker (codes "__WASTE_EVIDENCE_WAST_EXPLICIT_0__")) (codes "/tmp/waste-evidence.wast");
   mkScript Prompt (report "__WASTE_EVIDENCE_WAST_DIRECT");
   mkScript (Marker (codes "__WASTE_EVIDENCE_WAST_DIRECT_0__")) (codes "/tmp/waste-evidence-shebang.wast");
   mkScript Prompt (report "__WASTE_EVIDENCE_WAST_SHEBANG");
   mkScript (Marker (codes "__WASTE_EVIDENCE_WAST_SHEBANG_0__")) (codes "printf '__WASTE_EVIDENCE_END__\n'")].

(** The label and the text of every marker the log lists. *)
Definition evidenceMarkers : list (list Z * list Z) :=
  [(codes "WAT explicit", codes "__WASTE_EVIDENCE_WAT_EXPLICIT_0__");
   (codes "WAT direct", codes "__WASTE_EVIDENCE_WAT_DIRECT_0__");
   (codes "WAT shebang", codes "__WASTE_EVIDENCE_WAT_SHEBANG_0__");
   (codes "WAST explicit", codes "__WASTE_EVIDENCE_WAST_EXPLICIT_0__");
   (codes "WAST direct", codes "__WASTE_EVIDENCE_WAST_DIRECT_0__");
   (codes "WAST shebang", codes "__WASTE_EVIDENCE_WAST_SHEBANG_0__")].

Definition end_marker : list Z := codes "__WASTE_EVIDENCE_END__".

(** ** State *)

(** [evidenceStartedAt] and [evidenceFinishedAt] are only tested for being set. *)
Record evidence : Type := mkEvidence {
  startedAt : bool; finishedAt : bool; output : list Z; step : nat; waitOffset : nat; workerReady : bool }.

Definition no_evidence : evidence := mkEvidence false false [] 0 0 false.

Definition set_ready (b : bool) (e : evidence) : evidence :=
  mkEvidence (startedAt e) (finishedAt e) (output e) (step e) (waitOffset e) b.
Definition add_output (text : list Z) (e : evidence) : evidence :=
  mkEvidence (startedAt e) (finishedAt e) (output e ++ text) (step e) (waitOffset e) (workerReady e).
Definition set_finished (e : evidence) : evidence :=
  mkEvidence (startedAt e) true (output e) (step e) (waitOffset e) (workerReady e).
(** [evidenceStep++; evidenceWaitOffset = evidenceOutput.length; evidenceWorkerReady = false]. *)
Definition advance (e : evidence) : evidence :=
  mkEvidence (startedAt e) (finishedAt e) (output e) (S (step e)) (length (output e)) false.

(** ** Operations *)

Definition evidencePassed (e : evidence) : bool :=
  includes end_marker (output e) && forallb (λ m, includes m.2 (output e)) evidenceMarkers.

Definition completeEvidence (e : evidence) : evidence :=
  if finishedAt e || negb (evidencePassed e) then e else set_finished e.

(** The output since the last command shows what the step waits for. *)
Definition shows (x : expectation) (text : list Z) : bool :=
  match x with
  | Prompt => includes prompt_mark text
  | Marker m =>
    match index_of m text with
    | Some i => includes prompt_mark (drop (i + length m) text)
    | None => false
    end
  end.

(** The bytes of a command line. *)
Definition command_bytes (command : list Z) : list Z := text_encode (command ++ [10]).

(** The evidence part of [appendRaw(text)], with the input it schedules. *)
Definition append_evidence (text : list Z) (e : evidence) : evidence * option (list Z) :=
  if startedAt e then
    let e1 := add_output text e in
    let '(e2, sent) :=
      match evidenceSteps !! step e1 with
      | Some st =>
        if shows (expects st) (drop (waitOffset e1) (output e1)) && workerReady e1
        then (advance e1, Some (command_bytes (command st))) else (e1, None)
      | None => (e1, None)
      end in
    (completeEvidence e2, sent)
  else (e, None).

(** [runLoaderEvidence]: the state and the first line of input. *)
Definition runLoaderEvidence (e : evidence) : evidence * list Z :=
  (mkEvidence true false [] 0 0 false, text_encode (codes "printf '__WASTE_EVIDENCE_BEGIN__\n'" ++ [10])).

(** The [started] message. *)
Definition on_started (e : evidence) : evidence := set_ready true e.

(** The [io-ready] message: the output is looked at again. *)
Definition on_io_ready (e : evidence) : evidence * option (list Z) :=
  let e1 := set_ready true e in if startedAt e1 then append_evidence [] e1 else (e1, None).

(** ** The log *)

(** [lines.join("\n") + "\n"]. *)
Definition log_lines (l : list (list Z)) : list Z := l ≫= (λ line, line ++ [10]).

Definition yes_no (b : bool) : list Z := codes (if b then "yes" else "no").

(** The text [downloadEvidence] saves; the times and the texts of the browser are arguments. *)
Definition evidence_log (now url agent started finished transcript : list Z) (e : evidence) : list Z :=
  log_lines
    ([codes "WASTE browser loader evidence";
      codes "generated_at=" ++ now;
      codes "page_url=" ++ url;
      codes "user_agent=" ++ agent;
      codes "evidence_started_at=" ++ (if startedAt e then started else codes "not-run");
      codes "evidence_finished_at=" ++ (if finishedAt e then finished else codes "not-finished");
      codes "evidence_complete=" ++ yes_no (finishedAt e && evidencePassed e);
      codes "expected_markers:"] ++
     ((λ m, m.1 ++ codes ": " ++ m.2) <$> evidenceMarkers) ++
     [codes "observed_markers:"] ++
     ((λ m, m.1 ++ codes ": " ++ yes_no (includes m.2 (output e))) <$> evidenceMarkers) ++
     [codes "--- terminal transcript ---"; transcript]).

(** [new Date().toISOString().replace(/[:.]/g, "-")] in the name of the file. *)
Definition log_name (now : list Z) : list Z :=
  codes "waste-browser-loader-evidence-" ++ ((λ c, if (c =? 58) || (c =? 46) then 45 else c) <$> now) ++ codes ".log".

(** ** Sequences of events *)

Inductive ev : Type := Chunk (text : list Z) | Ready.

Definition ev_step (v : ev) (e : evidence) : evidence * option (list Z) :=
  match v with Chunk text => append_evidence text e | Ready => on_io_ready e end.

Fixpoint ev_run (l : list ev) (e : evidence) : evidence * list (list Z) :=
  match l with
  | [] => (e, [])
  | v :: l' =>
    let '(e1, sent) := ev_step v e in
    let '(e2, rest) := ev_run l' e1 in
    (e2, option_list sent ++ rest)
  end.

(** All the text of a sequence of events. *)
Fixpoint ev_text (l : list ev) : list Z :=
  match l with [] => [] | Chunk text :: l' => text ++ ev_text l' | Ready :: l' => ev_text l' end.
