(* ===== verification/EvidenceTheorems.v ===== *)
(** * Theorems on the evidence script

    Text search, the progress of the script against a shell that answers, and what
    a mere echo of the commands can show. *)

From stdpp Require Import base numbers list strings.
From Stdlib Require Import ZArith Lia.
From S2P Require Import Prelude JsNum TermModel Utf8 Evidence.

#[local] Open Scope Z_scope.

(** ** Searching *)

Lemma starts_with_spec n h : starts_with n h = true ↔ ∃ r, h = n ++ r.
Proof.
  revert h. induction n as [|a n IH]; intros h; simpl; [naive_solver|].
  destruct h as [|b h]; [split; [done|by intros [? ?]]|]. rewrite andb_true_iff, Z.eqb_eq, IH. naive_solver.
Qed.

Lemma index_of_found n a b : ∃ i, index_of n (a ++ n ++ b) = Some i.
Proof.
  induction a as [|x a IH].
  - assert (starts_with n (n ++ b) = true) as H by (apply starts_with_spec; eauto).
    exists O. simpl. destruct (n ++ b); cbn [index_of]; by rewrite H.
  - cbn [app index_of]. destruct (starts_with _ _); [eauto|]. destruct IH as [i ->]. by eexists.
Qed.

Lemma index_of_Some n h i : index_of n h = Some i → ∃ a b, h = a ++ n ++ b ∧ length a = i.
Proof.
  revert i. induction h as [|x h IH]; intros i; cbn [index_of].
  - destruct (starts_with n []) eqn:Hs; [|done]. intros [= <-]. apply starts_with_spec in Hs as [r Hr].
    exists [], r. by rewrite <- Hr.
  - destruct (starts_with n (x :: h)) eqn:Hs.
    + intros [= <-]. apply starts_with_spec in Hs as [r Hr]. exists [], r. by rewrite <- Hr.
    + destruct (index_of n h) as [j|]; [|done]. intros [= <-]. destruct (IH j eq_refl) as (a & b & -> & <-).
      by exists (x :: a), b.
Qed.

Lemma includes_spec n h : includes n h = true ↔ ∃ a b, h = a ++ n ++ b.
Proof.
  unfold includes. rewrite bool_decide_eq_true. split.
  - intros [i Hi]. apply index_of_Some in Hi as (a & b & -> & _). eauto.
  - intros (a & b & ->). destruct (index_of_found n a b) as [i ->]. eauto.
Qed.

Lemma includes_app n a h b : includes n h = true → includes n (a ++ h ++ b) = true.
Proof.
  rewrite !includes_spec. intros (c & d & ->). exists (a ++ c), (d ++ b). by rewrite <- !app_assoc.
Qed.

(** A text contains the characters of what it includes. *)
Lemma includes_char n h c : includes n h = true → c ∈ n → c ∈ h.
Proof. rewrite includes_spec. intros (a & b & ->) Hc. rewrite !elem_of_app. auto. Qed.

Lemma shows_marker m text : shows (Marker m) text = true → includes m text = true.
Proof.
  simpl. destruct (index_of m text) eqn:Hi; [|done]. intros _. unfold includes. rewrite Hi.
  apply bool_decide_eq_true. by eexists.
Qed.

(** ** One phase of the script *)

(** [text] is an answer to a step: what it waits for is complete with the last character, the prompt. *)
Definition answers (x : expectation) (text : list Z) : Prop :=
  shows x text = true ∧ ∀ p q, text = p ++ q → q ≠ [] → shows x p = false.

(** The text seen since the last command. *)
Definition seen (e : evidence) : list Z := drop (waitOffset e) (output e).

(** Facts the loop keeps. *)
Record running (e : evidence) : Prop := {
  run_started : startedAt e = true;
  run_offset : (waitOffset e ≤ length (output e))%nat;
  run_finished : finishedAt e = true ∨ evidencePassed e = false }.

Lemma completeEvidence_fields e :
  let e' := completeEvidence e in
  startedAt e' = startedAt e ∧ output e' = output e ∧ step e' = step e ∧ waitOffset e' = waitOffset e ∧
  workerReady e' = workerReady e ∧ (finishedAt e' = true ∨ evidencePassed e' = false).
Proof.
  unfold completeEvidence. destruct (finishedAt e) eqn:Hf; simpl; [by auto 10|].
  destruct (evidencePassed e) eqn:Hp; simpl; auto 10.
Qed.

(** The text and the ready flag an event brings. *)
Definition ev_chunk (v : ev) : list Z := match v with Chunk t => t | Ready => [] end.
Definition ev_flag (v : ev) (e : evidence) : bool := match v with Chunk _ => workerReady e | Ready => true end.

Lemma ev_step_append v e : startedAt e = true → ev_step v e = append_evidence (ev_chunk v) (set_ready (ev_flag v e) e).
Proof. intros Hs. destruct v; simpl; [by destruct e|]. unfold on_io_ready. simpl. by rewrite Hs. Qed.

(** One event, in terms of what is seen after it. *)
Lemma ev_step_cases v e st :
  running e → evidenceSteps !! step e = Some st →
  let text := ev_chunk v in
  let ready := ev_flag v e in
  ∃ e', running e' ∧ output e' = output e ++ text ∧
    if shows (expects st) (seen e ++ text) && ready
    then ev_step v e = (e', Some (command_bytes (command st))) ∧ step e' = S (step e) ∧ seen e' = [] ∧ workerReady e' = false
    else ev_step v e = (e', None) ∧ step e' = step e ∧ seen e' = seen e ++ text ∧ workerReady e' = ready.
Proof.
  intros [Hs Ho Hf] Hst text ready.
  rewrite ev_step_append by done. fold text ready.
  unfold append_evidence. simpl. rewrite Hs, Hst.
  assert (drop (waitOffset e) (output e ++ text) = seen e ++ text) as Hseen by (by rewrite drop_app_le).
  rewrite Hseen. destruct (shows (expects st) (seen e ++ text) && ready); simpl.
  - match goal with |- context [completeEvidence ?x] => destruct (completeEvidence_fields x) as (H1 & H2 & H3 & H4 & H5 & H6) end.
    simpl in *. eexists. split; [constructor; [by rewrite H1|by rewrite H4, H2|exact H6]|]. split; [exact H2|].
    split; [reflexivity|]. split; [exact H3|]. split; [|exact H5]. unfold seen. by rewrite H4, H2, drop_all.
  - match goal with |- context [completeEvidence ?x] => destruct (completeEvidence_fields x) as (H1 & H2 & H3 & H4 & H5 & H6) end.
    simpl in *. eexists. split; [constructor; [by rewrite H1|rewrite H4, H2, length_app; lia|exact H6]|]. split; [exact H2|].
    split; [reflexivity|]. split; [exact H3|]. split; [|exact H5]. unfold seen. by rewrite H4, H2.
Qed.

(** No step is satisfied by an empty output. *)
Lemma shows_nothing : Forall (λ st, shows (expects st) [] = false) evidenceSteps.
Proof. apply (bool_decide_unpack _). by vm_compute. Qed.

(** After the last step events only add output. *)
Lemma ev_step_over v e :
  running e → evidenceSteps !! step e = None →
  ∃ e', running e' ∧ ev_step v e = (e', None) ∧ step e' = step e ∧
    output e' = output e ++ ev_chunk v ∧ seen e' = seen e ++ ev_chunk v.
Proof.
  intros [Hs Ho Hf] Hst. rewrite ev_step_append by done.
  unfold append_evidence. simpl. rewrite Hs, Hst.
  match goal with |- context [completeEvidence ?x] => destruct (completeEvidence_fields x) as (H1 & H2 & H3 & H4 & H5 & H6) end.
  simpl in *. eexists. split; [constructor; [by rewrite H1|rewrite H4, H2, length_app; lia|exact H6]|].
  split; [reflexivity|]. split; [done|]. split; [done|]. unfold seen. by rewrite H4, H2, drop_app_le.
Qed.

Lemma ev_text_cons v l : ev_text (v :: l) = ev_chunk v ++ ev_text l.
Proof. by destruct v. Qed.

Lemma ev_run_step v l e e1 sent :
  ev_step v e = (e1, sent) → ev_run (v :: l) e = let '(e2, rest) := ev_run l e1 in (e2, option_list sent ++ rest).
Proof. intros H. simpl. by rewrite H. Qed.

(** With nothing new to see no command is sent. *)
Lemma ev_rest l e :
  running e → seen e = [] → ev_text l = [] →
  ∃ e', ev_run l e = (e', []) ∧ running e' ∧ step e' = step e ∧ seen e' = [] ∧ output e' = output e.
Proof.
  revert e. induction l as [|v l IH]; intros e Hr Hs Ht; [by exists e|].
  rewrite ev_text_cons in Ht. apply app_eq_nil in Ht as [Hv Hl].
  assert (∃ e1, running e1 ∧ ev_step v e = (e1, None) ∧ step e1 = step e ∧ seen e1 = [] ∧ output e1 = output e)
    as (e1 & Hr1 & H1 & Hst1 & Hs1 & Ho1).
  { destruct (evidenceSteps !! step e) as [st|] eqn:Hst.
    - destruct (ev_step_cases v e st Hr Hst) as (e1 & Hr1 & Ho1 & Hc). rewrite Hs, Hv in Hc. simpl in Hc.
      rewrite Hv, app_nil_r in Ho1.
      assert (shows (expects st) [] = false) as Hsh by (by apply (Forall_lookup_1 _ _ _ _ shows_nothing Hst)).
      rewrite Hsh in Hc. simpl in Hc. destruct Hc as (? & ? & ? & _). by exists e1.
    - destruct (ev_step_over v e Hr Hst) as (e1 & Hr1 & H1 & H2 & H3 & H4).
      rewrite Hs, Hv, ?app_nil_r in *. by exists e1. }
  rewrite (ev_run_step _ _ _ _ _ H1). destruct (IH e1 Hr1 Hs1 Hl) as (e2 & -> & Hr2 & Hst2 & Hs2 & Ho2).
  exists e2. split; [done|]. split; [done|]. split; [congruence|]. split; [done|congruence].
Qed.

(** The events of one answer, in any chunks and with the worker's announcement anywhere among
    them, send exactly the next command. *)
Lemma ev_phase l e st text :
  running e → evidenceSteps !! step e = Some st → answers (expects st) text →
  seen e ++ ev_text l = text → (seen e = text → workerReady e = false) → workerReady e = true ∨ Ready ∈ l →
  ∃ e', ev_run l e = (e', [command_bytes (command st)]) ∧ running e' ∧ step e' = S (step e) ∧ seen e' = [] ∧
    output e' = output e ++ ev_text l.
Proof.
  intros Hr Hst [Hshow Hpre]. revert e Hr Hst. induction l as [|v l IH]; intros e Hr Hst Ht Hnot Hready.
  { exfalso. rewrite app_nil_r in Ht. rewrite (Hnot Ht) in Hready. destruct Hready as [|H]; [done|]. by apply elem_of_nil in H. }
  destruct (ev_step_cases v e st Hr Hst) as (e1 & Hr1 & Ho1 & Hc). rewrite ev_text_cons in Ht |- *.
  set (now := seen e ++ ev_chunk v) in *. assert (now ++ ev_text l = text) as Hnow by (unfold now; by rewrite <- app_assoc).
  destruct (shows (expects st) now && ev_flag v e) eqn:Hgo.
  - destruct Hc as (H1 & Hst1 & Hs1 & _). apply andb_true_iff in Hgo as [Hgo _].
    assert (ev_text l = []) as Hl.
    { destruct (ev_text l) as [|c r] eqn:Hl; [done|]. rewrite (Hpre now (c :: r)) in Hgo; done. }
    destruct (ev_rest l e1 Hr1 Hs1 Hl) as (e2 & H2 & Hr2 & Hst2 & Hs2 & Ho2).
    exists e2. rewrite (ev_run_step _ _ _ _ _ H1), H2. split; [done|]. split; [done|]. split; [congruence|].
    split; [done|]. by rewrite Ho2, Ho1, Hl, app_nil_r.
  - destruct Hc as (H1 & Hst1 & Hs1 & Hrd1).
    destruct (IH e1) as (e2 & H2 & Hr2 & Hst2 & Hs2 & Ho2); [done|by rewrite Hst1|by rewrite Hs1| | |].
    + rewrite Hs1, Hrd1. intros Heq. rewrite Heq, Hshow in Hgo. done.
    + rewrite Hrd1. destruct v as [t|]; [|by left]. simpl. destruct Hready as [|H]; [by left|]. right.
      apply elem_of_cons in H as [H|H]; done.
    + exists e2. rewrite (ev_run_step _ _ _ _ _ H1), H2. split; [done|]. split; [done|]. split; [congruence|].
      split; [done|]. by rewrite Ho2, Ho1, <- app_assoc.
Qed.

Lemma ev_run_app l1 l2 e :
  ev_run (l1 ++ l2) e = let '(e1, s1) := ev_run l1 e in let '(e2, s2) := ev_run l2 e1 in (e2, s1 ++ s2).
Proof.
  revert e. induction l1 as [|v l1 IH]; intros e; simpl; [by destruct (ev_run l2 e)|].
  destruct (ev_step v e) as [e1 sent]. rewrite IH. destruct (ev_run l1 e1) as [e2 s1].
  destruct (ev_run l2 e2). by rewrite app_assoc.
Qed.

Lemma ev_text_app l1 l2 : ev_text (l1 ++ l2) = ev_text l1 ++ ev_text l2.
Proof. induction l1 as [|v l1 IH]; [done|]. by rewrite <- app_comm_cons, !ev_text_cons, IH, <- app_assoc. Qed.

(** After the script events only add output. *)
Lemma ev_after l e :
  running e → evidenceSteps !! step e = None →
  ∃ e', ev_run l e = (e', []) ∧ running e' ∧ output e' = output e ++ ev_text l.
Proof.
  revert e. induction l as [|v l IH]; intros e Hr Hst; [exists e; by rewrite app_nil_r|].
  destruct (ev_step_over v e Hr Hst) as (e1 & Hr1 & H1 & Hst1 & Ho1 & _).
  destruct (IH e1 Hr1 ltac:(by rewrite Hst1)) as (e2 & H2 & Hr2 & Ho2). exists e2.
  rewrite (ev_run_step _ _ _ _ _ H1), H2, ev_text_cons, Ho2, Ho1, <- app_assoc. done.
Qed.

(** The answers to the steps from the [n]th on. *)
Lemma ev_phases n phases e :
  running e → step e = n → seen e = [] →
  Forall2 (λ st l, answers (expects st) (ev_text l) ∧ Ready ∈ l) (drop n evidenceSteps) phases →
  ∃ e', ev_run (concat phases) e = (e', command_bytes ∘ command <$> drop n evidenceSteps) ∧ running e' ∧
    evidenceSteps !! step e' = None ∧ output e' = output e ++ ev_text (concat phases).
Proof.
  intros Hr Hn Hs HF. remember (drop n evidenceSteps) as rest eqn:Hrest. revert n e Hr Hn Hs Hrest.
  induction HF as [|st l rest phases [Ha Hl] HF IH]; intros n e Hr Hn Hs Hrest.
  - exists e. simpl. rewrite app_nil_r. split; [done|]. split; [done|]. split; [|done].
    rewrite Hn. apply lookup_ge_None. pose proof (f_equal length Hrest) as H. rewrite length_drop in H. simpl length in H at 1. lia.
  - assert (evidenceSteps !! n = Some st) as Hst.
    { replace n with (n + 0)%nat by lia. rewrite <- lookup_drop, <- Hrest. done. }
    destruct (ev_phase l e st (ev_text l)) as (e1 & H1 & Hr1 & Hst1 & Hs1 & Ho1); rewrite ?Hn, ?Hs; try done; [|by right|].
    { intros Heq. destruct Ha as [Ha _]. rewrite <- Heq in Ha.
      by rewrite (Forall_lookup_1 _ _ _ _ shows_nothing Hst) in Ha. }
    destruct (IH (S n) e1 Hr1) as (e2 & H2 & Hr2 & Hst2 & Ho2); [congruence|done| |].
    { rewrite (drop_S _ _ _ Hst) in Hrest. by injection Hrest. }
    exists e2. simpl concat. rewrite ev_run_app, H1, H2. split; [done|]. split; [done|]. split; [done|].
    by rewrite Ho2, Ho1, ev_text_app, <- app_assoc.
Qed.

(** Every marker of the log is waited for by a step. *)
Lemma markers_expected : Forall (λ m : list Z * list Z, Exists (λ st, expects st = Marker m.2) evidenceSteps) evidenceMarkers.
Proof. apply (bool_decide_unpack _). by vm_compute. Qed.

Lemma text_of_phase phases l : l ∈ phases → ∃ a b, ev_text (concat phases) = a ++ ev_text l ++ b.
Proof.
  intros Hl. apply list_elem_of_split in Hl as (p1 & p2 & ->).
  rewrite concat_app. simpl. rewrite !ev_text_app. eauto.
Qed.

(** C27: Against a shell that answers every command, the evidence script completes whatever
    the timing: if the answer to each step shows what the step waits for exactly when its
    final prompt is out, and the worker announces that it waits for input at least
    once during each answer, then in every division of the output into messages and
    every position of the announcements the ten commands are sent, each once and in order, and
    when the last answer contains the end marker the evidence is complete. *)
Theorem evidence_completes phases last :
  Forall2 (λ st l, answers (expects st) (ev_text l) ∧ Ready ∈ l) evidenceSteps phases →
  includes end_marker (ev_text last) = true →
  ∃ e', ev_run (concat phases ++ last) (runLoaderEvidence no_evidence).1 =
          (e', command_bytes ∘ command <$> evidenceSteps) ∧
    finishedAt e' = true ∧ evidencePassed e' = true.
Proof.
  intros HF Hend. set (e0 := (runLoaderEvidence no_evidence).1).
  assert (running e0) as Hr0 by (constructor; [done|simpl; lia|by right]).
  destruct (ev_phases 0 phases e0 Hr0 eq_refl eq_refl HF) as (e1 & H1 & Hr1 & Hst1 & Ho1).
  destruct (ev_after last e1 Hr1 Hst1) as (e2 & H2 & Hr2 & Ho2).
  exists e2. rewrite ev_run_app, H1, H2, app_nil_r. split; [done|].
  assert (output e2 = ev_text (concat phases) ++ ev_text last) as Hout by (by rewrite Ho2, Ho1).
  assert (evidencePassed e2 = true) as Hpass.
  { unfold evidencePassed. rewrite Hout. apply andb_true_iff. split.
    - rewrite <- (app_nil_r (ev_text last)). by apply includes_app.
    - apply forallb_forall. intros m Hm%list_elem_of_In.
      pose proof (proj1 (Forall_forall _ _) markers_expected m Hm) as Hx. apply Exists_exists in Hx as (st & Hst & Hexp).
      apply list_elem_of_lookup in Hst as [i Hi]. destruct (Forall2_lookup_l _ _ _ _ _ HF Hi) as (l & Hl & [Ha _] & _).
      rewrite Hexp in Ha. apply shows_marker in Ha. apply list_elem_of_lookup_2 in Hl.
      destruct (text_of_phase phases l Hl) as (a & b & ->). rewrite <- !app_assoc. by apply includes_app. }
  split; [|done]. destruct (run_finished _ Hr2); congruence.
Qed.

(** A shell that runs every probe with status 0 and whose output comes in two messages. *)
Definition sample_answer (x : expectation) : list ev :=
  let line := match x with Marker m => m | Prompt => codes "done" end in
  [Chunk (take 5 line); Ready; Chunk (drop 5 line ++ [10] ++ codes "bash# ")].

(** Every proper prefix of a text, for checking [answers] by evaluation. *)
Definition answersb (x : expectation) (text : list Z) : bool :=
  shows x text && forallb (λ n, negb (shows x (take n text))) (seq 0 (length text)).

Lemma answersb_sound x text : answersb x text = true → answers x text.
Proof.
  intros [H1 H2]%andb_true_iff. split; [done|]. intros p q -> Hq.
  rewrite forallb_forall in H2. specialize (H2 (length p)). rewrite take_app_length in H2.
  apply negb_true_iff, H2. apply in_seq. rewrite length_app. destruct q; [done|]. simpl. lia.
Qed.

Lemma sample_answers :
  Forall2 (λ st l, answers (expects st) (ev_text l) ∧ Ready ∈ l) evidenceSteps (sample_answer ∘ expects <$> evidenceSteps).
Proof.
  apply Forall2_fmap_r. apply Forall_Forall2_diag.
  assert (Forall (λ st, answersb (expects st) (ev_text (sample_answer (expects st))) = true) evidenceSteps) as H
    by (apply (bool_decide_unpack _); by vm_compute).
  eapply Forall_impl; [exact H|]. intros st Hst. split; [by apply answersb_sound|].
  unfold sample_answer. right. left.
Qed.

Lemma evidence_completes_witness :
  ∃ e', ev_run (concat (sample_answer ∘ expects <$> evidenceSteps) ++ [Chunk (end_marker ++ [10])])
          (runLoaderEvidence no_evidence).1 = (e', command_bytes ∘ command <$> evidenceSteps) ∧
    finishedAt e' = true ∧ evidencePassed e' = true.
Proof. apply (evidence_completes _ _ sample_answers). by vm_compute. Defined.

(** ** Echo *)

(** All characters the page types during the script. *)
Definition typed : list Z := codes "printf '__WASTE_EVIDENCE_BEGIN__\n'" ++ [10] ++ (evidenceSteps ≫= λ st, command st ++ [10]).

(** What an echoing terminal can show: typed characters, prompts, carriage returns. *)
Definition echo_chars : list Z := typed ++ prompt_mark ++ [13].

Lemma echo_no_zero : 48 ∉ echo_chars.
Proof. apply (bool_decide_unpack _). by vm_compute. Qed.

(** A state whose output lacks the digit of every success marker is not complete. *)
Lemma no_zero_not_passed e : 48 ∉ output e → evidencePassed e = false.
Proof.
  intros H. unfold evidencePassed. destruct (includes end_marker (output e)); [|done]. simpl.
  destruct (includes _ (output e)) eqn:Hi; [|done]. exfalso. apply H. eapply includes_char; [exact Hi|].
  apply (bool_decide_unpack _). by vm_compute.
Qed.

Lemma append_echo text e :
  48 ∉ text → 48 ∉ output e → finishedAt e = false →
  let e' := (append_evidence text e).1 in (48 ∉ output e') ∧ finishedAt e' = false.
Proof.
  intros Ht Ho Hf. unfold append_evidence. destruct (startedAt e); [|by split].
  assert (48 ∉ output (add_output text e)) as Ho1 by (simpl; rewrite elem_of_app; tauto).
  assert (∀ e1, output e1 = output (add_output text e) → finishedAt e1 = false →
    (48 ∉ output (completeEvidence e1)) ∧ finishedAt (completeEvidence e1) = false) as Hc.
  { intros e1 He1 Hf1. unfold completeEvidence. rewrite Hf1, no_zero_not_passed by (by rewrite He1). simpl. by rewrite He1. }
  destruct (evidenceSteps !! step (add_output text e)) as [st|]; [|by apply Hc].
  destruct (_ && _); by apply Hc.
Qed.

(** Echo proves nothing: the page's own typing contains no success marker, so a terminal
    that only echoes what the page types, in any pieces and any order, with prompts
    but without a single line of program output, never completes the evidence, however
    long it runs. *)
Theorem echo_never_completes l :
  (∀ text, Chunk text ∈ l → Forall (λ c, c ∈ echo_chars) text) →
  finishedAt (ev_run l (runLoaderEvidence no_evidence).1).1 = false.
Proof.
  intros Hl.
  assert (∀ text, Chunk text ∈ l → 48 ∉ text) as Hz.
  { intros text Hin H0. exact (echo_no_zero (proj1 (Forall_forall _ _) (Hl text Hin) 48 H0)). }
  assert (∀ e, 48 ∉ output e → finishedAt e = false → finishedAt (ev_run l e).1 = false) as Hrun;
    [|apply Hrun; [apply not_elem_of_nil|done]].
  clear Hl. induction l as [|v l IH]; intros e Ho Hf; [done|]. simpl.
  assert ((48 ∉ output (ev_step v e).1) ∧ finishedAt (ev_step v e).1 = false) as [Ho1 Hf1].
  { destruct v as [text|]; simpl; [apply append_echo; try done; apply Hz; left|].
    unfold on_io_ready. simpl. destruct (startedAt e); [|done]. by apply append_echo; [apply not_elem_of_nil|..]. }
  specialize (IH ltac:(intros text Ht; apply Hz; by right) (ev_step v e).1 Ho1 Hf1).
  destruct (ev_step v e) as [e1 sent]. simpl in IH. by destruct (ev_run l e1).
Qed.

Lemma echo_never_completes_witness :
  finishedAt (ev_run [Chunk typed; Ready; Chunk (codes "# ")] (runLoaderEvidence no_evidence).1).1 = false.
Proof.
  apply echo_never_completes. intros text Hin.
  repeat (apply elem_of_cons in Hin as [Hin|Hin]; [try discriminate; injection Hin as ->|]);
    [apply Forall_forall; intros c Hc; apply elem_of_app; by left
    |apply (bool_decide_unpack _); by vm_compute
    |by apply elem_of_nil in Hin].
Defined.
