(* ===== verification/Page.v ===== *)
(** * The shell page (src/html-rt/src/app.js)

    The page owns the terminal model and renderer, at most one current worker,
    and the host services the guest may ask for: uploads, the clipboard, the
    test controller and the render test.  Its module variables are the record
    [page]; closures that outlive the call that made them (a clipboard or upload
    request, a start in progress, a batch) are entries of a list, so that a later
    event can refer to them.  Workers are numbered as they are created.  Times and
    status texts with times in them are left out. *)

From stdpp Require Import base numbers list strings gmap.
From Stdlib Require Import ZArith Lia Ascii.
From S2P Require Import Prelude JsNum TermModel Utf8 Evidence Renderer Worker TestSuite.

#[local] Open Scope Z_scope.
#[local] Open Scope waste_scope.

(** ** Keys *)

(** The parts of a keyboard event the page reads; [key] in UTF-16 units. *)
Record key_event : Type := mkKey { k_key : list Z; k_ctrl : bool; k_meta : bool }.

(** A key name as a string; names of special keys are ASCII. *)
Definition key_name (key : list Z) : string :=
  if forallb (λ u, (0 <=? u) && (u <=? 127)) key
  then foldr (λ u s, String (ascii_of_N (Z.to_N u)) s) EmptyString key else EmptyString.

(** The units other than a-z whose upper case starts with a letter A-Z, with that letter. *)
Definition special_upper : list (Z * Z) :=
  [(223, 83); (305, 73); (383, 83); (496, 74); (7830, 72); (7831, 84); (7832, 87); (7833, 89); (7834, 65);
   (64256, 70); (64257, 70); (64258, 70); (64259, 70); (64260, 70); (64261, 83); (64262, 83)].

(** [text.toUpperCase().charCodeAt(0)] of one unit, as far as it lies in 64..95: every other unit
    stays outside that range. *)
Definition upper_first (u : Z) : Z :=
  if (97 <=? u) && (u <=? 122) then u - 32
  else match find (λ p, p.1 =? u) special_upper with Some p => p.2 | None => u end.

(** The bytes sent, if any, and whether the browser's own action is prevented. *)
Definition handleTerminalKeydown (t : term) (e : key_event) : option (list Z) * bool :=
  if k_meta e then (None, false)
  else match keySequence t (key_name (k_key e)) with
  | Some sequence => (Some (text_encode sequence), true)
  | None =>
    if bool_decide (k_key e = codes "Enter") then (Some [10], true)
    else if bool_decide (k_key e = codes "Backspace") then (Some [127], true)
    else if bool_decide (k_key e = codes "Tab") then (Some [9], true)
    else match k_key e with
    | [u] =>
      if k_ctrl e then
        let code := upper_first u - 64 in
        (if (0 <? code) && (code <? 32) then Some [code] else None, true)
      else (Some (text_encode [u]), true)
    | _ => (None, false)
    end
  end.

(** ** The files of the evidence script *)

Definition wat_source : list Z := codes "(module (memory 1) (func (export " ++ quoted "_start" ++ codes ")))" ++ [10].
Definition wast_source : list Z := codes "(module)" ++ [10].

(** A regular file with mode 0o755. *)
Definition evidence_file (path : string) (source : list Z) : packaged :=
  mkPackaged (codes path) 1 493 (text_encode source) [] None.

Definition evidenceFiles : list packaged :=
  [evidence_file "/tmp/waste-evidence.wat" wat_source;
   evidence_file "/tmp/waste-evidence-shebang.wat" (codes "#!/bin/wat" ++ [10] ++ wat_source);
   evidence_file "/tmp/waste-evidence.wast" wast_source;
   evidence_file "/tmp/waste-evidence-shebang.wast" (codes "#!/bin/wast" ++ [10] ++ wast_source)].

(** ** State *)

Inductive posted : Type :=
| PStart (vfsFiles : list packaged)   (* the [start] message *)
| PMsg (m : msg).  (* any other message of the worker's protocol *)

(** A call of [startShell]: waiting for the files, or for the new worker. *)
Inductive start_phase : Type := Loading | Creating | Started.

#[export] Instance start_phase_eq_dec : EqDecision start_phase.
Proof. solve_decision. Defined.

Record workers : Type := mkWorkers {
  current : option Z;            (* [worker] *)
  created : Z; alive : list Z;   (* how many were made; those not terminated *)
  posts : list (Z * posted);     (* [postMessage] calls, oldest first *)
  starts : list start_phase }.

Record screen : Type := mkPageScreen {
  model : term; rend : renderer; transcript : list Z;
  starting : bool; controls : bool; inputEnabled : bool }.

(** The [requester] of a request is the value of [worker] when it came. *)

(** A clipboard request: [replied], and whether [writeText] is still awaited. *)
Record clip : Type := mkClip { c_requester : option Z; c_id : Z; c_text : list Z; c_replied : bool; c_waiting : bool }.

Record upload : Type := mkUpload { up_requester : option Z; up_replied : bool }.

(** A batch request: the worker whose handler runs it, the worker it answers. *)
Record batch : Type := mkBatch { b_handler : Z; b_requester : option Z; b_id : Z; b_settled : bool }.

Record host : Type := mkHost {
  clips : list clip; cancelClipboard : option nat;
  uploads : list upload; batches : list batch;
  guestSuiteId : gmap Z Z;           (* one variable per started worker *)
  cancels : list (Z * Z);            (* [guest-suite-cancel] messages not yet looked at: handler and id *)
  suiteCancels : list Z;             (* [suite.cancel()] calls, by the id they were for *)
  downloads : list (list Z * list Z) }.

Record page : Type := mkPage {
  wk : workers; scr : screen; evid : evidence;
  timers : list (list Z);            (* input scheduled by [setTimeout(..., 10)] *)
  hst : host }.

Definition set_wk (w : workers) (p : page) : page := mkPage w (scr p) (evid p) (timers p) (hst p).
Definition set_scr (s : screen) (p : page) : page := mkPage (wk p) s (evid p) (timers p) (hst p).
Definition set_evid (e : evidence) (p : page) : page := mkPage (wk p) (scr p) e (timers p) (hst p).
Definition set_timers (l : list (list Z)) (p : page) : page := mkPage (wk p) (scr p) (evid p) l (hst p).
Definition set_hst (h : host) (p : page) : page := mkPage (wk p) (scr p) (evid p) (timers p) h.

Definition set_current (c : option Z) (w : workers) : workers :=
  mkWorkers c (created w) (alive w) (posts w) (starts w).
Definition set_starts (l : list start_phase) (w : workers) : workers :=
  mkWorkers (current w) (created w) (alive w) (posts w) l.
Definition set_clips (l : list clip) (c : option nat) (h : host) : host :=
  mkHost l c (uploads h) (batches h) (guestSuiteId h) (cancels h) (suiteCancels h) (downloads h).
Definition set_uploads (l : list upload) (h : host) : host :=
  mkHost (clips h) (cancelClipboard h) l (batches h) (guestSuiteId h) (cancels h) (suiteCancels h) (downloads h).
Definition set_batches (l : list batch) (m : gmap Z Z) (h : host) : host :=
  mkHost (clips h) (cancelClipboard h) (uploads h) l m (cancels h) (suiteCancels h) (downloads h).
Definition set_cancels (l : list (Z * Z)) (done : list Z) (h : host) : host :=
  mkHost (clips h) (cancelClipboard h) (uploads h) (batches h) (guestSuiteId h) l done (downloads h).
Definition add_download (d : list Z * list Z) (h : host) : host :=
  mkHost (clips h) (cancelClipboard h) (uploads h) (batches h) (guestSuiteId h) (cancels h) (suiteCancels h) (downloads h ++ [d]).

(** ** Messages to workers *)

Definition post_to (w : Z) (m : posted) (p : page) : page :=
  set_wk (mkWorkers (current (wk p)) (created (wk p)) (alive (wk p)) (posts (wk p) ++ [(w, m)]) (starts (wk p))) p.

(** [if (worker) worker.postMessage(m)]. *)
Definition post_current (m : posted) (p : page) : page :=
  match current (wk p) with Some w => post_to w m p | None => p end.

(** [if (worker === requester) requester.postMessage(m)]: when both are null this throws, and nothing
    is posted; see [cancel_throws] for the callers that have more to do. *)
Definition post_requester (requester : option Z) (m : posted) (p : page) : page :=
  if bool_decide (current (wk p) = requester)
  then match requester with Some w => post_to w m p | None => p end else p.

(** [worker?.terminate()]. *)
Definition terminate (p : page) : page :=
  match current (wk p) with
  | Some w => set_wk (mkWorkers (Some w) (created (wk p)) (filter (λ v, v ≠ w) (alive (wk p))) (posts (wk p)) (starts (wk p))) p
  | None => p
  end.

Definition sendInputBytes (bytes : list Z) (p : page) : page := post_current (PMsg (MInput bytes)) p.

Definition sendTerminalResize (p : page) : page :=
  post_current (PMsg (MResize (Num (NInt (columns (model (scr p))))) (Num (NInt (rows (model (scr p))))))) p.

(** ** Output *)

Definition transcriptLimit : nat := Z.to_nat 65536.

(** [text.slice(-n)]. *)
Definition slice_last (n : nat) (text : list Z) : list Z := drop (length text - n) text.

Definition set_running (r : bool) (s : screen) : screen :=
  mkPageScreen (model s) (rend s) (transcript s) (starting s) r (if r then inputEnabled s else false).

(** [model.write(text); renderer.markDirty(); transcript...], then the evidence script. *)
Definition appendRaw (text : list Z) (p : page) : result fault page :=
  let s := scr p in
  let* t := write (points text) (model s) in
  let s1 := mkPageScreen t (markDirty (rend s)) (slice_last transcriptLimit (transcript s ++ text))
              (starting s) (controls s) (inputEnabled s) in
  let '(e, sent) := append_evidence text (evid p) in
  Ok (mkPage (wk p) s1 e (timers p ++ option_list sent) (hst p)).

Definition append (line : list Z) (p : page) : result fault page := appendRaw (line ++ [10]) p.

(** ** Host requests *)

(** The [reply] closure of clipboard request [i]. *)
Definition reply_clip (i : nat) (ok : bool) (p : page) : page :=
  match clips (hst p) !! i with
  | None => p
  | Some c =>
    if c_replied c then p
    else
      let c1 := mkClip (c_requester c) (c_id c) (c_text c) true (c_waiting c) in
      let p1 := set_hst (set_clips (<[i := c1]> (clips (hst p))) None (hst p)) p in
      post_requester (c_requester c) (PMsg (MClipboardResponse (c_id c) ok)) p1
  end.

(** [cancelClipboard?.()]. *)
Definition cancel_clipboard (p : page) : page :=
  match cancelClipboard (hst p) with Some i => reply_clip i false p | None => p end.

(** That call throws: the open request came when there was no current worker, and there is none now. *)
Definition cancel_throws (p : page) : bool :=
  match cancelClipboard (hst p) with
  | Some i =>
    match clips (hst p) !! i with
    | Some c => negb (c_replied c) && bool_decide (c_requester c = None) && bool_decide (current (wk p) = None)
    | None => false
    end
  | None => false
  end.

(** [requestHostClipboard(worker, data)] up to its [await]. *)
Definition requestHostClipboard (requester : option Z) (id : Z) (bytes : list Z) (p : page) : page :=
  let p1 := cancel_clipboard p in
  if cancel_throws p then p1 else
  let c := mkClip requester id (decode_once true bytes) false true in
  set_hst (set_clips (clips (hst p1) ++ [c]) (Some (length (clips (hst p1)))) (hst p1)) p1.

(** The outcome of [writeText]; when it failed, what [execCommand("copy")] did ([None]: it threw). *)
Inductive copied : Type := Written | NotWritten (fallback : option bool).

(** The rest of [requestHostClipboard]. *)
Definition clipboard_settled (i : nat) (o : copied) (p : page) : page :=
  match clips (hst p) !! i with
  | None => p
  | Some c =>
    if negb (c_waiting c) then p
    else
      let c1 := mkClip (c_requester c) (c_id c) (c_text c) (c_replied c) false in
      let p1 := set_hst (set_clips (<[i := c1]> (clips (hst p))) (cancelClipboard (hst p)) (hst p)) p in
      match o with
      | Written => reply_clip i true p1
      | NotWritten fallback =>
        if c_replied c || negb (bool_decide (current (wk p) = c_requester c)) then reply_clip i false p1
        else reply_clip i (default false fallback) p1
      end
  end.

(** The [reply] closure of upload request [i]: the bytes, or [None] for a cancel. *)
Definition reply_upload (i : nat) (result : option (list Z)) (p : page) : page :=
  match uploads (hst p) !! i with
  | None => p
  | Some u =>
    if up_replied u then p
    else
      let p1 := set_hst (set_uploads (<[i := mkUpload (up_requester u) true]> (uploads (hst p))) (hst p)) p in
      post_requester (up_requester u)
        (PMsg (match result with Some bytes => MUploadResponse false bytes | None => MUploadResponse true [] end)) p1
  end.

Definition requestHostUpload (requester : option Z) (p : page) : page :=
  set_hst (set_uploads (uploads (hst p) ++ [mkUpload requester false]) (hst p)) p.

(** ** Ending *)

(** [finish]. *)
Definition finish (p : page) : page :=
  let p1 := cancel_clipboard p in
  if cancel_throws p then p1 else
  let s := scr p1 in
  let p2 := set_scr (set_running false (mkPageScreen (model s) (rend s) (transcript s) false (controls s) (inputEnabled s))) p1 in
  let p3 := terminate (post_current (PMsg MStop) p2) in
  set_wk (set_current None (wk p3)) p3.

(** ** Messages from a worker *)

Section page.
(** The render test of the page's renderer (its verdict and its JSON text), [JSON.stringify] of
    test results, and the texts of errors. *)
Context (renderTest : renderer → bool * list Z) (results_json : list (bool * list Z * list Z) → list Z)
        (error_text : exn → list Z).

Definition mount_error : list Z := codes "Cannot mount or stage batch execution image".

(** [/# /.test(data.text)]: the shell is up. *)
Definition on_output (text : list Z) (p : page) : result fault page :=
  let* p1 := appendRaw text p in
  let s := scr p1 in
  if starting s && includes prompt_mark text
  then Ok (set_scr (mkPageScreen (model s) (rend s) (transcript s) false (controls s) true) p1)
  else Ok p1.

(** The render test answers at once: a verdict word and the report. *)
Definition render_reply (s : screen) : list Z :=
  let '(ok, json) := renderTest (rend s) in le32 (if ok then 1 else 0) ++ text_encode json.

(** The worker in whose handler the message arrives is [w]; the code uses [worker] for the reply. *)
Definition onmessage (w : Z) (o : out) (p : page) : result fault page :=
  match o with
  | OOutput text => on_output (units text) p
  | OEvidence text => on_output (codes "WASTE_TRANSITION_EVIDENCE=" ++ units text ++ [10]) p
  | ODoneResults results => on_output (codes "WASTE_DONE_RESULTS=" ++ results_json results ++ [10]) p
  | OStarted _ _ => Ok (sendTerminalResize (set_evid (on_started (evid p)) p))
  | OIoReady _ _ =>
    let p1 := set_evid (set_ready true (evid p)) p in
    if startedAt (evid p1) then appendRaw [] p1 else Ok p1
  | OSuiteRequest id request =>
    Ok (set_hst (set_batches (batches (hst p) ++ [mkBatch w (current (wk p)) id false])
          (<[w := id]> (guestSuiteId (hst p))) (hst p)) p)
  | OSuiteCancel id =>
    if default 0 (guestSuiteId (hst p) !! w) =? id
    then Ok (set_hst (set_cancels (cancels (hst p) ++ [(w, id)]) (suiteCancels (hst p)) (hst p)) p)
    else Ok p
  | ORenderRequest id =>
    Ok (post_current (PMsg (MRenderResponse id (render_reply (scr p)))) p)
  | ODownload name bytes => Ok (set_hst (add_download (units name, bytes) (hst p)) p)
  | OUploadRequest _ =>
    Ok (requestHostUpload (current (wk p)) p)
  | OClipboardRequest id bytes =>
    Ok (requestHostClipboard (current (wk p)) id bytes p)
  | ODone d =>
    let* p1 := if dn_mount_error d then append mount_error p else Ok p in Ok (finish p1)
  | OFailed e => let* p1 := append (error_text e) p in Ok (finish p1)
  | OControlError _ | OVfs _ _ | OSuiteList _ => Ok p
  end.

(** ** Batches *)

(** What the test controller gives back: the reply, or an error with its message. *)
Definition batch_reply (outcome : list Z + list Z) : result suite_error (list Z) :=
  match outcome with
  | inl bytes => Ok bytes
  | inr message => guestReply 2 (text_encode (codes "waste-test: " ++ message ++ [10])) []
  end.

(** The promise chain of a batch, with its [finally]. *)
Definition batch_settled (i : nat) (outcome : list Z + list Z) (p : page) : page :=
  match batches (hst p) !! i with
  | None => p
  | Some b =>
    if b_settled b then p
    else
      let b1 := mkBatch (b_handler b) (b_requester b) (b_id b) true in
      let ids := guestSuiteId (hst p) in
      let ids1 := if default 0 (ids !! b_handler b) =? b_id b then <[b_handler b := 0]> ids else ids in
      let p1 := set_hst (set_batches (<[i := b1]> (batches (hst p))) ids1 (hst p)) p in
      match batch_reply outcome with
      | Ok bytes => post_requester (b_requester b) (PMsg (MSuiteResponse (b_id b) bytes)) p1
      | Err _ => p1
      end
  end.

(** [installedBrowserSuite().then(suite => { if (guestSuiteId === data.id) suite.cancel(); })]. *)
Definition cancel_looked_at (p : page) : page :=
  match cancels (hst p) with
  | [] => p
  | (w, id) :: rest =>
    set_hst (set_cancels rest
      (suiteCancels (hst p) ++ if default 0 (guestSuiteId (hst p) !! w) =? id then [id] else []) (hst p)) p
  end.

(** ** Starting *)

(** [startShell] up to its first [await]. *)
Definition startShell (p : page) : page :=
  if cancel_throws p then cancel_clipboard p else
  let p1 := terminate (post_current (PMsg MStop) (cancel_clipboard p)) in
  set_wk (set_starts (starts (wk p1) ++ [Loading]) (wk p1)) p1.

(** After the three files are there: the screen is reset and a worker is ordered. *)
Definition start_loaded (i : nat) (p : page) : page :=
  let s := scr p in
  let s1 := mkPageScreen (fullReset (model s)) (markDirty (rend s)) [] true true false in
  set_wk (set_starts (<[i := Creating]> (starts (wk p))) (wk p)) (set_scr s1 p).

(** After [createWorker]. *)
Definition start_created (i : nat) (p : page) : page :=
  let w := created (wk p) + 1 in
  let p1 := set_wk (mkWorkers (Some w) w (alive (wk p) ++ [w]) (posts (wk p)) (<[i := Started]> (starts (wk p)))) p in
  post_to w (PStart evidenceFiles) p1.

(** A rejected load or creation only changes the status line. *)
Definition start_failed (i : nat) (p : page) : page :=
  set_wk (set_starts (<[i := Started]> (starts (wk p))) (wk p)) p.

(** [runLoaderEvidence]. *)
Definition run_evidence (p : page) : page :=
  match current (wk p) with
  | None => p
  | Some _ => let '(e, line) := runLoaderEvidence (evid p) in sendInputBytes line (set_evid e p)
  end.

(** [downloadEvidence]: a last look at the output, and the log as a download. *)
Definition downloadEvidence (now url agent started finished : list Z) (p : page) : page :=
  let e := completeEvidence (evid p) in
  let log := evidence_log now url agent started finished (transcript (scr p)) e in
  set_hst (add_download (log_name now, text_encode log) (hst p)) (set_evid e p).

(** ** Events *)

Inductive event : Type :=
| EStart | EStartLoaded (i : nat) (ok : bool) | EStartCreated (i : nat) (ok : bool)
| EWorker (w : Z) (o : out)
| EWorkerError (w : Z) (message : list Z)
| ETimer
| EClipboard (i : nat) (o : copied)
| EUpload (i : nat) (result : option (list Z))
| EBatch (i : nat) (outcome : list Z + list Z)
| ECancelLooked
| EKey (e : key_event) | EPaste (text : list Z) | ESubmit (text : list Z)
| EResize | ESignal (signal : Z) | EStopClick | ERunEvidence
| EDownloadEvidence (now url agent started finished : list Z).

(** The signals the page offers. *)
Definition signal_options : list Z := [2; 15; 1; 14; 28].

Definition worker_error : list Z := codes "worker error".

(** One event; [None] when it cannot happen now. *)
Definition step (e : event) (p : page) : option (result fault page) :=
  match e with
  | EStart => Some (Ok (startShell p))
  | EStartLoaded i ok =>
    if bool_decide (starts (wk p) !! i = Some Loading)
    then Some (Ok (if ok then start_loaded i p else start_failed i p)) else None
  | EStartCreated i ok =>
    if bool_decide (starts (wk p) !! i = Some Creating)
    then Some (Ok (if ok then start_created i p else start_failed i p)) else None
  | EWorker w o => if bool_decide (w ∈ alive (wk p)) then Some (onmessage w o p) else None
  | EWorkerError w message =>
    if bool_decide (w ∈ alive (wk p))
    then Some (let* p1 := append (match message with [] => worker_error | _ => message end) p in Ok (finish p1)) else None
  | ETimer =>
    match timers p with
    | [] => None
    | bytes :: rest => Some (Ok (sendInputBytes bytes (set_timers rest p)))
    end
  | EClipboard i o => Some (Ok (clipboard_settled i o p))
  | EUpload i r => Some (Ok (reply_upload i r p))
  | EBatch i o => Some (Ok (batch_settled i o p))
  | ECancelLooked => Some (Ok (cancel_looked_at p))
  | EKey k =>
    Some (Ok (match (handleTerminalKeydown (model (scr p)) k).1 with Some bytes => sendInputBytes bytes p | None => p end))
  | EPaste text => Some (Ok (sendInputBytes (text_encode text) p))
  | ESubmit text => Some (Ok (sendInputBytes (text_encode (text ++ [10])) p))
  | EResize => Some (Ok (sendTerminalResize p))
  | ESignal signal =>
    if bool_decide (signal ∈ signal_options)
    then Some (Ok (post_current (PMsg (MSignal (Num (NInt signal)) Undefined Undefined)) p)) else None
  | EStopClick => Some (Ok (finish p))
  | ERunEvidence => Some (Ok (run_evidence p))
  | EDownloadEvidence now url agent started finished => Some (Ok (downloadEvidence now url agent started finished p))
  end.

(** The page as loaded: an 80 by 24 terminal and no worker. *)
Definition initial_page (r : renderer) : page :=
  mkPage (mkWorkers None 0 [] [] []) (mkPageScreen (constructor 80 24) r [] false false false)
    no_evidence [] (mkHost [] None [] [] ∅ [] [] []).

(** Texts of browser events are strings; a worker numbers its requests from 1 ([fresh_id]). *)
Definition event_ok (e : event) : Prop :=
  match e with
  | EKey k => Forall is_unit (k_key k)
  | EPaste text | ESubmit text => Forall is_unit text
  | EWorker _ (OSuiteRequest id _) | EWorker _ (OSuiteCancel id) => 0 < id
  | _ => True
  end.

Inductive reachable (r : renderer) : page → Prop :=
| reach_page : reachable r (initial_page r)
| reach_event p e p' : reachable r p → event_ok e → step e p = Some (Ok p') → reachable r p'.

Fixpoint run_events (l : list event) (p : page) : option page :=
  match l with
  | [] => Some p
  | e :: l' => match step e p with Some (Ok p') => run_events l' p' | _ => None end
  end.

Lemma page_run_reachable r l p p' :
  reachable r p → Forall event_ok l → run_events l p = Some p' → reachable r p'.
Proof.
  intros Hp Hl. revert p Hp. induction Hl as [|e l He _ IH]; intros p Hp; simpl; [by intros [= <-]|].
  destruct (step e p) as [[p1|]|] eqn:Hs; [|done|done]. apply IH. by eapply reach_event.
Qed.
End page.

(** ** A concrete page

    An 80 by 24 terminal with a plain renderer before its first frame, a passing render test, and a page
    whose first worker has been started. *)
Definition demo_renderer : renderer := mkRenderer 8 19 (NInt 1) true false ∅ 640 456 (NInt 640) (NInt 456) true [].

Definition demo_run : list event → page → option page := run_events (λ _, (true, [])) (λ _, []) (λ _, []).

Definition demo_start : list event := [EStart; EStartLoaded 0 true; EStartCreated 0 true].

Definition demo_page (l : list event) : page :=
  default (initial_page demo_renderer) (demo_run (demo_start ++ l) (initial_page demo_renderer)).
