(* ===== verification/PageKeys.v ===== *)
(** * Keys of the shell page

    What [handleTerminalKeydown] sends for each key. *)

From stdpp Require Import base numbers list strings gmap.
From Stdlib Require Import ZArith Lia Ascii.
From S2P Require Import Prelude JsNum TermModel TermSafety TermParser TermFrame Utf8 Evidence Renderer Worker TestSuite Page.

#[local] Open Scope Z_scope.
#[local] Open Scope waste_scope.

(** ** Keys *)

(** Every key with a sequence of its own has a name of at least two characters. *)
Lemma keySequence_name t s q : keySequence t s = Some q → (2 ≤ String.length s)%nat.
Proof.
  unfold keySequence. intros H. apply fmap_Some in H as ([n l] & Hf & _). apply find_some in Hf as [Hin He].
  simpl in He. apply bool_decide_eq_true in He. subst n. simpl in Hin.
  repeat destruct Hin as [Hin|Hin]; try (injection Hin as <- _; simpl; lia); done.
Qed.

(** The sequences are ASCII texts. *)
Lemma keySequence_ascii t s q : keySequence t s = Some q → q ≠ [] ∧ Forall (λ u, 0 ≤ u ≤ 127) q.
Proof.
  unfold keySequence. intros H. apply fmap_Some in H as ([n l] & Hf & ->). apply find_some in Hf as [Hin _].
  destruct (applicationCursorKeys t); simpl in Hin;
    repeat destruct Hin as [Hin|Hin]; try (injection Hin as _ <-; split; [done|repeat constructor; lia]); done.
Qed.

Lemma keySequence_unit t u : keySequence t (key_name [u]) = None.
Proof.
  destruct (keySequence t (key_name [u])) eqn:H; [|done]. apply keySequence_name in H.
  unfold key_name in H. simpl in H. destruct (_ && _); simpl in H; lia.
Qed.

(** The editing keys. *)
Definition editing_keys : list (list Z * list Z) :=
  [(codes "Enter", [10]); (codes "Backspace", [127]); (codes "Tab", [9])].

Lemma keydown_editing t key ctrl sent :
  (key, sent) ∈ editing_keys → handleTerminalKeydown t (mkKey key ctrl false) = (Some sent, true).
Proof. intros H. repeat (apply elem_of_cons in H as [[= -> ->]|H]; [done|]). by apply elem_of_nil in H. Qed.

Lemma upper_first_letter u : 65 ≤ u ≤ 90 ∨ 97 ≤ u ≤ 122 → upper_first u - 64 = Z.land u 31.
Proof.
  intros H. change 31 with (Z.ones 5). rewrite Z.land_ones by lia. change (2 ^ 5) with 32. unfold upper_first.
  destruct H as [H|H].
  - rewrite (proj2 (Z.leb_gt 97 u)) by lia. simpl andb. cbn iota.
    replace (find (λ p : Z * Z, p.1 =? u) special_upper) with (@None (Z * Z)).
    + Z.to_euclidean_division_equations. lia.
    + symmetry. unfold special_upper. cbn [find fst].
      repeat match goal with |- context [?c =? u] => rewrite (proj2 (Z.eqb_neq c u)) by lia end. done.
  - rewrite (proj2 (Z.leb_le 97 u)), (proj2 (Z.leb_le u 122)) by lia. simpl.
    Z.to_euclidean_division_equations. lia.
Qed.

Lemma text_encode_nonempty text : text ≠ [] → text_encode text ≠ [].
Proof.
  intros H. unfold text_encode. destruct (points text) as [|c l] eqn:Hp.
  - destruct text as [|u [|v l]]; [done..|]. rewrite points_pair in Hp. by destruct (_ && _).
  - rewrite fmap_cons, encode_points_cons. unfold encode1. repeat case_match; done.
Qed.

Lemma keydown_unit t u ctrl :
  handleTerminalKeydown t (mkKey [u] ctrl false) =
    if ctrl then (if (0 <? upper_first u - 64) && (upper_first u - 64 <? 32) then Some [upper_first u - 64] else None, true)
    else (Some (text_encode [u]), true).
Proof. unfold handleTerminalKeydown. cbn [k_meta k_key k_ctrl]. rewrite keySequence_unit. by do 3 (rewrite bool_decide_eq_false_2 by done). Qed.

(** Whatever is sent is a non-empty sequence of bytes. *)
Lemma keydown_sends t key ctrl :
  Forall is_unit key →
  let '(sent, prevented) := handleTerminalKeydown t (mkKey key ctrl false) in
  ∀ bytes, sent = Some bytes → bytes ≠ [] ∧ Forall is_byte bytes ∧ prevented = true.
Proof.
  intros Hk. unfold handleTerminalKeydown. cbn [k_meta k_key k_ctrl].
  destruct (keySequence t (key_name key)) as [q|] eqn:Hq.
  { intros bytes [= <-]. apply keySequence_ascii in Hq as [Hne Ha]. rewrite text_encode_ascii by done.
    split; [done|]. split; [|done]. eapply Forall_impl; [exact Ha|]. intros u Hu. unfold is_byte. simpl in Hu. lia. }
  do 3 (case_bool_decide; [intros bytes [= <-]; split; [done|]; split; [apply Forall_singleton; unfold is_byte; lia|done]|]).
  destruct key as [|u [|v l]]; [done| |done]. destruct ctrl.
  - destruct (_ && _) eqn:Hc; [|done]. intros bytes [= <-]. b2p. split; [done|]. split; [|done].
    apply Forall_singleton. unfold is_byte. lia.
  - intros bytes [= <-]. split; [by apply text_encode_nonempty|]. split; [by apply text_encode_bytes|done].
Qed.

(** What a key sends: a printable key without Ctrl or Meta sends exactly the UTF-8 bytes of its
    character (U+FFFD for half of a surrogate pair); Ctrl with a letter sends its control
    code 1 to 26; Enter, Backspace and Tab send LF, DEL and HT; a key with Meta sends nothing
    and is left to the browser; and whenever anything is sent it is a non-empty
    sequence of bytes and the browser's own action is prevented. *)
Theorem keydown_exact t key ctrl :
  Forall is_unit key →
  let '(sent, prevented) := handleTerminalKeydown t (mkKey key ctrl false) in
  (∀ bytes, sent = Some bytes → bytes ≠ [] ∧ Forall is_byte bytes ∧ prevented = true) ∧
  (∀ u, key = [u] → ctrl = false → ∃ bytes, sent = Some bytes ∧ decode_fatal true bytes = Some [scalar_of u]) ∧
  (∀ u, key = [u] → ctrl = true → 65 ≤ u ≤ 90 ∨ 97 ≤ u ≤ 122 → sent = Some [Z.land u 31]) ∧
  (key = codes "Enter" → sent = Some [10]) ∧ (key = codes "Backspace" → sent = Some [127]) ∧
  (key = codes "Tab" → sent = Some [9]) ∧
  handleTerminalKeydown t (mkKey key ctrl true) = (None, false).
Proof.
  intros Hk. pose proof (keydown_sends t key ctrl Hk) as Hs.
  destruct (handleTerminalKeydown t (mkKey key ctrl false)) as [sent prevented] eqn:He.
  split; [intros bytes ->; by apply Hs|].
  split; [|split; [|split; [|split; [|split; [|done]]]]].
  - intros u -> ->. rewrite keydown_unit in He. injection He as <- _. eexists. split; [done|].
    unfold text_encode. change [scalar_of u] with (scalar_of <$> points [u]).
    by apply decode_fatal_encode, scalars_of_text.
  - intros u -> -> Hu. rewrite keydown_unit in He. injection He as <- _.
    rewrite upper_first_letter by done. change 31 with (Z.ones 5). rewrite Z.land_ones by lia. change (2 ^ 5) with 32.
    by rewrite (proj2 (Z.ltb_lt _ _)), (proj2 (Z.ltb_lt _ _)) by (Z.to_euclidean_division_equations; lia).
  - intros ->. rewrite (keydown_editing _ _ _ [10]) in He by left. congruence.
  - intros ->. rewrite (keydown_editing _ _ _ [127]) in He by (right; left). congruence.
  - intros ->. rewrite (keydown_editing _ _ _ [9]) in He by (right; right; left). congruence.
Qed.

Lemma keydown_exact_witness :
  Forall is_unit [233] ∧ ∃ bytes, (handleTerminalKeydown (constructor 80 24) (mkKey [233] false false)).1 = Some bytes ∧
    decode_fatal true bytes = Some [scalar_of 233].
Proof.
  assert (Forall is_unit [233]) as H by (repeat constructor; lia). split; [exact H|].
  pose proof (keydown_exact (constructor 80 24) [233] false H) as K.
  destruct (handleTerminalKeydown (constructor 80 24) (mkKey [233] false false)) as [sent prevented].
  exact (proj1 (proj2 K) 233 eq_refl eq_refl).
Defined.
