(* ===== verification/PageClipboard.v ===== *)
(** * The clipboard requests of the shell page

    The closures of [requestHostClipboard] as a refinement of a one-slot
    specification. *)

From stdpp Require Import base numbers list strings gmap.
From Stdlib Require Import ZArith Lia Ascii.
From S2P Require Import Prelude JsNum TermModel TermSafety TermParser TermFrame Utf8 Evidence Renderer Worker TestSuite Page.

#[local] Open Scope Z_scope.
#[local] Open Scope waste_scope.

(** ** The clipboard protocol

    The specification knows the current worker, at most one open request, and the
    answers given.  A new request closes the open one with a refusal; closing
    answers the requester only while it is the current worker. *)

Record slot : Type := mkSlot { a_current : option Z; a_open : option (option Z * Z); a_answers : list (Z * Z * bool) }.

Definition a_close (ok : bool) (s : slot) : slot :=
  match a_open s with
  | None => s
  | Some (r, id) =>
    mkSlot (a_current s) None
      (a_answers s ++ match r with
                      | Some w => if bool_decide (a_current s = Some w) then [(w, id, ok)] else []
                      | None => []
                      end)
  end.

Definition a_request (id : Z) (s : slot) : slot :=
  let s1 := a_close false s in mkSlot (a_current s1) (Some (a_current s1, id)) (a_answers s1).

Inductive a_step : slot → slot → Prop :=
| A_request id s : a_step s (a_request id s)
| A_close ok s : a_step s (a_close ok s)
| A_switch w s : a_step s (mkSlot w (a_open s) (a_answers s)).

(** The abstraction of a page. *)
Definition clip_answer (x : Z * posted) : list (Z * Z * bool) :=
  match x.2 with PMsg (MClipboardResponse id ok) => [(x.1, id, ok)] | _ => [] end.

Definition abs_clip (current : option Z) (cs : list clip) (c : option nat) (l : list (Z * posted)) : slot :=
  mkSlot current (i ← c; k ← cs !! i; Some (c_requester k, c_id k)) (l ≫= clip_answer).

Definition abs (p : page) : slot :=
  abs_clip (Page.current (wk p)) (clips (hst p)) (cancelClipboard (hst p)) (posts (wk p)).

(** [cancelClipboard] refers to the one request not replied to. *)
Record clip_ok (p : page) : Prop := {
  ck_open : ∀ i c, clips (hst p) !! i = Some c → c_replied c = false → cancelClipboard (hst p) = Some i;
  ck_set : ∀ i, cancelClipboard (hst p) = Some i → ∃ c, clips (hst p) !! i = Some c ∧ c_replied c = false }.

(** A step of the page outside the protocol: same requests, same current worker, no answers. *)
Definition clip_frame (p p' : page) : Prop :=
  clips (hst p') = clips (hst p) ∧ cancelClipboard (hst p') = cancelClipboard (hst p) ∧
  Page.current (wk p') = Page.current (wk p) ∧ ∃ l, posts (wk p') = posts (wk p) ++ l ∧ l ≫= clip_answer = [].

(** The fields the protocol does not know may change freely. *)
Lemma clip_frame_same p p' :
  clips (hst p') = clips (hst p) → cancelClipboard (hst p') = cancelClipboard (hst p) →
  Page.current (wk p') = Page.current (wk p) → posts (wk p') = posts (wk p) → clip_frame p p'.
Proof. intros H1 H2 H3 H4. split; [done|]. split; [done|]. split; [done|]. exists []. by rewrite app_nil_r. Qed.

Lemma clip_frame_refl p : clip_frame p p.
Proof. by apply clip_frame_same. Qed.

Lemma clip_frame_trans p1 p2 p3 : clip_frame p1 p2 → clip_frame p2 p3 → clip_frame p1 p3.
Proof.
  intros (H1 & H2 & H3 & l & H4 & H5) (H6 & H7 & H8 & l' & H9 & H10).
  split; [congruence|]. split; [congruence|]. split; [congruence|]. exists (l ++ l').
  rewrite H9, H4, <- app_assoc, bind_app, H5, H10. done.
Qed.

Lemma clip_frame_abs p p' : clip_frame p p' → abs p' = abs p.
Proof.
  intros (H1 & H2 & H3 & l & H4 & H5). unfold abs. rewrite H1, H2, H3, H4. unfold abs_clip.
  by rewrite bind_app, H5, app_nil_r.
Qed.

Lemma clip_frame_ok p p' : clip_frame p p' → clip_ok p → clip_ok p'.
Proof. intros (H1 & H2 & _) [Ho Hs]. split; rewrite H1, H2; done. Qed.

(** Messages that are not clipboard answers. *)
Definition other_post (m : posted) : Prop := ∀ id ok, m ≠ PMsg (MClipboardResponse id ok).

Lemma clip_frame_post w m p : other_post m → clip_frame p (post_to w m p).
Proof.
  intros Hm. split; [done|]. split; [done|]. split; [done|]. exists [(w, m)]. split; [done|].
  unfold clip_answer. simpl. destruct m as [fs|m]; [done|]. destruct m; try done. by destruct (Hm id ok).
Qed.

Lemma clip_frame_post_current m p : other_post m → clip_frame p (post_current m p).
Proof. intros Hm. unfold post_current. destruct (Page.current (wk p)); [by apply clip_frame_post|apply clip_frame_refl]. Qed.

Lemma clip_frame_post_requester r m p : other_post m → clip_frame p (post_requester r m p).
Proof.
  intros Hm. unfold post_requester. case_bool_decide; [|apply clip_frame_refl].
  destruct r; [by apply clip_frame_post|apply clip_frame_refl].
Qed.

Lemma clip_frame_terminate p : clip_frame p (terminate p).
Proof.
  unfold terminate. destruct (Page.current (wk p)) eqn:Hc; [|apply clip_frame_refl].
  by apply clip_frame_same.
Qed.

Lemma clip_frame_append text p p' : appendRaw text p = Ok p' → clip_frame p p'.
Proof.
  unfold appendRaw. destruct (write _ _); [|done]. simpl. destruct (append_evidence _ _). intros [= <-]. by apply clip_frame_same.
Qed.

(** Closing request [i], in the code and in the specification. *)
Lemma reply_clip_spec i ok p :
  clip_ok p → clip_ok (reply_clip i ok p) ∧
  (abs (reply_clip i ok p) = abs p ∨ abs (reply_clip i ok p) = a_close ok (abs p)) ∧
  (cancelClipboard (hst p) = Some i → abs (reply_clip i ok p) = a_close ok (abs p) ∧ cancelClipboard (hst (reply_clip i ok p)) = None).
Proof.
  intros [Ho Hs]. unfold reply_clip. destruct (clips (hst p) !! i) as [c|] eqn:Hc.
  2:{ split; [done|]. split; [by left|]. intros Hi. destruct (Hs i Hi) as (c & Hx & _). congruence. }
  destruct (c_replied c) eqn:Hr.
  { split; [done|]. split; [by left|]. intros Hi. destruct (Hs i Hi) as (c' & Hx & Hy). congruence. }
  pose proof (Ho i c Hc Hr) as Hi.
  set (c1 := mkClip (c_requester c) (c_id c) (c_text c) true (c_waiting c)).
  set (p1 := set_hst (set_clips (<[i:=c1]> (clips (hst p))) None (hst p)) p).
  assert (clip_ok p1) as Hok1.
  { split; simpl; [|done]. intros j c' Hj Hr'. destruct (decide (i = j)) as [<-|Hij].
    - rewrite list_lookup_insert_eq in Hj by (by eapply lookup_lt_Some). injection Hj as <-. done.
    - rewrite list_lookup_insert_ne in Hj by done. rewrite (Ho j c' Hj Hr') in Hi. congruence. }
  assert (abs (post_requester (c_requester c) (PMsg (MClipboardResponse (c_id c) ok)) p1) = a_close ok (abs p)) as Habs.
  { unfold abs, abs_clip, a_close. simpl. rewrite Hi. simpl. rewrite Hc. simpl.
    unfold post_requester. simpl. destruct (c_requester c) as [w|]; case_bool_decide as Hw; simpl; rewrite ?app_nil_r; try done.
    by rewrite bind_app. }
  split.
  - unfold post_requester. case_bool_decide; [|done]. destruct (c_requester c); [|done]. by destruct Hok1.
  - split; [by right|]. intros _. split; [done|]. unfold post_requester. case_bool_decide; [|done]. by destruct (c_requester c).
Qed.

(** One event moves the abstraction by steps of the specification and keeps the invariant. *)
Definition refined (p p' : page) : Prop := clip_ok p' ∧ rtc a_step (abs p) (abs p').

Lemma refined_frame p p' : clip_ok p → clip_frame p p' → refined p p'.
Proof. intros Hok Hf. split; [by eapply clip_frame_ok|]. rewrite (clip_frame_abs _ _ Hf). done. Qed.

Lemma refined_trans p1 p2 p3 : refined p1 p2 → (clip_ok p2 → refined p2 p3) → refined p1 p3.
Proof. intros [H1 H2] H. destruct (H H1) as [H3 H4]. split; [done|]. by etransitivity. Qed.

Lemma refined_reply i ok p : clip_ok p → refined p (reply_clip i ok p).
Proof.
  intros Hok. destruct (reply_clip_spec i ok p Hok) as (H1 & [H2|H2] & _); (split; [done|]); rewrite H2; [done|].
  apply rtc_once. constructor.
Qed.

Lemma refined_cancel p : clip_ok p → refined p (cancel_clipboard p).
Proof.
  intros Hok. unfold cancel_clipboard. destruct (cancelClipboard (hst p)); [by apply refined_reply|].
  by apply refined_frame, clip_frame_refl.
Qed.

Lemma cancel_clipboard_spec p :
  clip_ok p → abs (cancel_clipboard p) = a_close false (abs p) ∧ cancelClipboard (hst (cancel_clipboard p)) = None.
Proof.
  intros Hok. unfold cancel_clipboard. destruct (cancelClipboard (hst p)) as [i|] eqn:Hi.
  - by apply reply_clip_spec.
  - split; [|done]. unfold abs, abs_clip, a_close. by rewrite Hi.
Qed.

Lemma refined_switch w p p' :
  clip_ok p → clips (hst p') = clips (hst p) → cancelClipboard (hst p') = cancelClipboard (hst p) →
  Page.current (wk p') = w → posts (wk p') = posts (wk p) → refined p p'.
Proof.
  intros [Ho Hs] H1 H2 H3 H4. split; [split; rewrite H1, H2; done|]. apply rtc_once.
  replace (abs p') with (mkSlot w (a_open (abs p)) (a_answers (abs p))); [constructor|].
  unfold abs, abs_clip. by rewrite H1, H2, H3, H4.
Qed.

Lemma refined_request id bytes p : clip_ok p → refined p (requestHostClipboard (Page.current (wk p)) id bytes p).
Proof.
  intros Hok. destruct (cancel_clipboard_spec p Hok) as [Habs Hnone]. destruct (refined_cancel p Hok) as [Hok1 _].
  assert (Page.current (wk (cancel_clipboard p)) = Page.current (wk p)) as Hcur.
  { apply (f_equal a_current) in Habs. simpl in Habs. unfold a_close in Habs. destruct (a_open (abs p)) as [[]|]; done. }
  unfold requestHostClipboard. destruct (cancel_throws p); [by apply refined_cancel|].
  set (p1 := cancel_clipboard p) in *. set (c := mkClip _ id _ false true).
  assert (∀ j k, (clips (hst p1) ++ [c]) !! j = Some k → j = length (clips (hst p1)) ∧ k = c ∨ clips (hst p1) !! j = Some k) as Hsnoc.
  { intros j k Hj. apply lookup_snoc_Some in Hj as [[_ Hj]|[-> ->]]; auto. }
  split.
  - split; simpl.
    + intros j k Hj Hr. destruct (Hsnoc j k Hj) as [[-> _]|Hj']; [done|]. destruct Hok1 as [Ho _]. rewrite (Ho j k Hj' Hr) in Hnone. done.
    + intros j [= <-]. exists c. split; [|done]. by rewrite lookup_app_r, Nat.sub_diag by lia.
  - apply rtc_once.
    match goal with |- a_step _ (abs ?q) => assert (abs q = a_request id (abs p)) as -> end; [|constructor].
    unfold a_request. rewrite <- Habs. unfold abs, abs_clip. simpl.
    rewrite lookup_app_r, Nat.sub_diag by lia. simpl. by rewrite Hcur.
Qed.

Lemma refined_settled i o p : clip_ok p → refined p (clipboard_settled i o p).
Proof.
  intros Hok. unfold clipboard_settled. destruct (clips (hst p) !! i) as [c|] eqn:Hc; [|by apply refined_frame, clip_frame_refl].
  destruct (negb (c_waiting c)); [by apply refined_frame, clip_frame_refl|].
  set (c1 := mkClip (c_requester c) (c_id c) (c_text c) (c_replied c) false).
  set (p1 := set_hst (set_clips (<[i:=c1]> (clips (hst p))) (cancelClipboard (hst p)) (hst p)) p).
  assert (∀ j k, clips (hst p1) !! j = Some k → ∃ k', clips (hst p) !! j = Some k' ∧ c_replied k' = c_replied k ∧
    c_requester k' = c_requester k ∧ c_id k' = c_id k) as Hsame.
  { simpl. intros j k Hj. destruct (decide (i = j)) as [<-|Hij].
    - rewrite list_lookup_insert_eq in Hj by (by eapply lookup_lt_Some). injection Hj as <-. exists c. done.
    - rewrite list_lookup_insert_ne in Hj by done. by exists k. }
  assert (∀ j, is_Some (clips (hst p) !! j) → is_Some (clips (hst p1) !! j)) as Hdom.
  { simpl. intros j Hj. apply lookup_lt_is_Some. rewrite length_insert. by apply lookup_lt_is_Some. }
  assert (refined p p1) as Hp1.
  { destruct Hok as [Ho Hs]. split.
    - split; [intros j k Hj Hr; destruct (Hsame j k Hj) as (k' & Hj' & Hr' & _); apply (Ho j k' Hj'); congruence|].
      intros j Hj. destruct (Hs j Hj) as (k & Hk & Hr). destruct (Hdom j ltac:(eauto)) as [k1 Hk1].
      destruct (Hsame j k1 Hk1) as (k' & Hj' & Hr' & _). exists k1. split; [done|]. congruence.
    - replace (abs p1) with (abs p); [done|]. unfold abs, abs_clip. change (cancelClipboard (hst p1)) with (cancelClipboard (hst p)).
      f_equal. destruct (cancelClipboard (hst p)) as [j|] eqn:Hj; [|done]. simpl.
      destruct (Hs j eq_refl) as (k & Hk & Hr). destruct (Hdom j ltac:(eauto)) as [k1 Hk1].
      destruct (Hsame j k1 Hk1) as (k' & Hj' & _ & Hq & Hid). change (clips (hst p1)) with (<[i:=c1]> (clips (hst p))) in Hk1.
      rewrite Hk1, Hj'. simpl. congruence. }
  destruct o as [|fallback]; [|destruct (_ || _)]; (eapply refined_trans; [exact Hp1|]); intros; by apply refined_reply.
Qed.

Section events.
Context (renderTest : renderer → bool * list Z) (results_json : list (bool * list Z * list Z) → list Z)
        (error_text : exn → list Z).
#[local] Abbreviation step := (Page.step renderTest results_json error_text).
#[local] Abbreviation onmessage := (Page.onmessage renderTest results_json error_text).
#[local] Abbreviation reachable := (Page.reachable renderTest results_json error_text).

Lemma refined_on_output text p p' : clip_ok p → on_output text p = Ok p' → refined p p'.
Proof.
  intros Hok. unfold on_output. destruct (appendRaw text p) as [p1|] eqn:Ha; [|done]. simpl. intros H.
  apply clip_frame_append in Ha. apply refined_frame; [done|].
  destruct (_ && _); injection H as <-; [|done]. eapply clip_frame_trans; [exact Ha|]. by apply clip_frame_same.
Qed.

Lemma refined_finish p : clip_ok p → refined p (finish p).
Proof.
  intros Hok. unfold finish. destruct (cancel_throws p); [by apply refined_cancel|]. eapply refined_trans; [by apply refined_cancel|]. intros Hok1.
  set (p1 := cancel_clipboard p) in *. set (p2 := set_scr _ p1).
  set (p3 := terminate (post_current (PMsg MStop) p2)).
  assert (clip_frame p1 p3) as Hf.
  { eapply clip_frame_trans; [|apply clip_frame_terminate]. eapply clip_frame_trans; [|by apply clip_frame_post_current].
    by apply clip_frame_same. }
  eapply refined_trans; [by apply refined_frame|]. intros Hok3. by apply (refined_switch None).
Qed.

Lemma refined_append_finish line p p' :
  clip_ok p → (let* p1 := append line p in Ok (finish p1)) = Ok p' → refined p p'.
Proof.
  intros Hok. unfold append. destruct (appendRaw (line ++ [10]) p) as [p1|] eqn:Ha; [|done]. simpl. intros [= <-].
  eapply refined_trans; [apply refined_frame; [done|by eapply clip_frame_append]|]. apply refined_finish.
Qed.

Lemma refined_onmessage w o p p' : clip_ok p → onmessage w o p = Ok p' → refined p p'.
Proof.
  intros Hok. destruct o; simpl; try (by apply refined_on_output); try (by intros [= <-]; apply refined_frame, clip_frame_same).
  - case_match; intros [= <-]; by apply refined_frame, clip_frame_same.
  - intros [= <-]. by apply refined_frame, clip_frame_post_current.
  - intros [= <-]. by apply refined_request.
  - intros [= <-]. apply refined_frame; [done|]. eapply clip_frame_trans; [|by apply clip_frame_post_current]. by apply clip_frame_same.
  - destruct (startedAt _); [|intros [= <-]; by apply refined_frame, clip_frame_same].
    intros Ha%clip_frame_append. apply refined_frame; [done|]. eapply clip_frame_trans; [|exact Ha]. by apply clip_frame_same.
  - destruct (dn_mount_error d); [by apply refined_append_finish|]. simpl. intros [= <-]. by apply refined_finish.
  - by apply refined_append_finish.
Qed.

Lemma refined_batch i o p : clip_ok p → refined p (batch_settled i o p).
Proof.
  intros Hok. apply refined_frame; [done|]. unfold batch_settled. destruct (batches (hst p) !! i) as [b|]; [|apply clip_frame_refl].
  destruct (b_settled b); [apply clip_frame_refl|]. destruct (batch_reply o); [|by apply clip_frame_same].
  eapply clip_frame_trans; [|by apply clip_frame_post_requester]. by apply clip_frame_same.
Qed.

Lemma refined_upload i r p : clip_ok p → refined p (reply_upload i r p).
Proof.
  intros Hok. apply refined_frame; [done|]. unfold reply_upload. destruct (uploads (hst p) !! i) as [u|]; [|apply clip_frame_refl].
  destruct (up_replied u); [apply clip_frame_refl|].
  eapply clip_frame_trans; [|apply clip_frame_post_requester; by destruct r]. by apply clip_frame_same.
Qed.

Lemma refined_startShell p : clip_ok p → refined p (startShell p).
Proof.
  intros Hok. unfold startShell. destruct (cancel_throws p); [by apply refined_cancel|]. eapply refined_trans; [by apply refined_cancel|]. intros Hok1. apply refined_frame; [done|].
  eapply clip_frame_trans; [by apply (clip_frame_post_current (PMsg MStop))|].
  eapply clip_frame_trans; [apply clip_frame_terminate|]. by apply clip_frame_same.
Qed.

Lemma refined_created i p : clip_ok p → refined p (start_created i p).
Proof.
  intros Hok. unfold start_created. set (p1 := set_wk _ p).
  eapply refined_trans; [by apply (refined_switch (Some (created (wk p) + 1)) p p1)|].
  intros Hok1. apply refined_frame; [done|]. by apply clip_frame_post.
Qed.

Lemma refined_step e p p' : clip_ok p → step e p = Some (Ok p') → refined p p'.
Proof.
  intros Hok. destruct e; simpl; try (case_bool_decide; [|done]).
  - intros [= <-]. by apply refined_startShell.
  - intros [= <-]. apply refined_frame; [done|]. by destruct ok; apply clip_frame_same.
  - intros [= <-]. destruct ok; [by apply refined_created|]. by apply refined_frame, clip_frame_same.
  - intros [= H']. by eapply refined_onmessage.
  - intros [= H']. by eapply refined_append_finish.
  - destruct (timers p); [done|]. intros [= <-]. apply refined_frame; [done|].
    eapply clip_frame_trans; [|by apply clip_frame_post_current]. by apply clip_frame_same.
  - intros [= <-]. by apply refined_settled.
  - intros [= <-]. by apply refined_upload.
  - intros [= <-]. by apply refined_batch.
  - intros [= <-]. apply refined_frame; [done|]. unfold cancel_looked_at.
    destruct (cancels (hst p)) as [|[w id] l]; [apply clip_frame_refl|by apply clip_frame_same].
  - intros [= <-]. apply refined_frame; [done|]. destruct (handleTerminalKeydown _ _).1;
      [by apply clip_frame_post_current|apply clip_frame_refl].
  - intros [= <-]. by apply refined_frame, clip_frame_post_current.
  - intros [= <-]. by apply refined_frame, clip_frame_post_current.
  - intros [= <-]. by apply refined_frame, clip_frame_post_current.
  - intros [= <-]. by apply refined_frame, clip_frame_post_current.
  - intros [= <-]. by apply refined_finish.
  - intros [= <-]. apply refined_frame; [done|]. unfold run_evidence. destruct (Page.current (wk p)); [|apply clip_frame_refl].
    eapply clip_frame_trans; [|by apply clip_frame_post_current]. by apply clip_frame_same.
  - intros [= <-]. by apply refined_frame, clip_frame_same.
Qed.

Lemma reachable_clip_ok r p : reachable r p → clip_ok p.
Proof. induction 1 as [|p e p' _ IH _ Hs]; [by split|]. by apply (refined_step e p p'). Qed.

(** C7: The clipboard closures refine a one-slot protocol: the page starts with an empty slot, and
    every event, whatever the order of worker messages, promise outcomes, restarts and
    stops, is a sequence of steps of the specification (a request first refuses the one
    that is open; a request is answered at most once, and only to the worker that made it and while
    that worker is the current one); at any time at most one request is unanswered. *)
Theorem clipboard_refines r p e p' :
  reachable r p → step e p = Some (Ok p') →
  abs (initial_page r) = mkSlot None None [] ∧ rtc a_step (abs p) (abs p') ∧
  ∀ i j c d, clips (hst p') !! i = Some c → clips (hst p') !! j = Some d →
    c_replied c = false → c_replied d = false → i = j.
Proof.
  intros Hr Hs. destruct (refined_step e p p' (reachable_clip_ok r p Hr) Hs) as [[Ho _] Hstep].
  split; [done|]. split; [done|]. intros i j c d Hi Hj Hc Hd.
  pose proof (Ho i c Hi Hc). pose proof (Ho j d Hj Hd). congruence.
Qed.
End events.

(** Two requests in a row, and the outcome of the first arriving late. *)
Lemma clipboard_refines_witness :
  let p := demo_page [EWorker 1 (OClipboardRequest 1 [104]); EWorker 1 (OClipboardRequest 2 [105])] in
  match demo_run [EClipboard 0 Written] p with
  | Some p' => a_answers (abs p') = [(1, 1, false)] ∧ a_open (abs p') = Some (Some 1, 2) ∧ rtc a_step (abs p) (abs p')
  | None => False
  end.
Proof.
  intros p. change (demo_run [EClipboard 0 Written] p) with (Some (clipboard_settled 0 Written p)). cbv iota beta.
  destruct (clipboard_refines (λ _, (true, [])) (λ _, []) (λ _, []) demo_renderer p (EClipboard 0 Written) (clipboard_settled 0 Written p))
    as (_ & H & _); [|done|].
  - apply (page_run_reachable _ _ _ _ (demo_start ++ [EWorker 1 (OClipboardRequest 1 [104]); EWorker 1 (OClipboardRequest 2 [105])])
             (initial_page demo_renderer)); [apply reach_page|by repeat constructor|by vm_compute].
  - split; [by vm_compute|]. split; [by vm_compute|exact H].
Defined.
