(* ===== verification/PageTheorems.v ===== *)
(** * Theorems on the shell page

    The invariant of its variables and the messages it posts, the batches it
    passes on, and the life of its workers. *)

From stdpp Require Import base numbers list strings gmap.
From Stdlib Require Import ZArith Lia Ascii.
From S2P Require Import Prelude JsNum TermModel TermSafety TermParser TermFrame Utf8 Evidence Renderer Worker TestSuite Page PageKeys.

#[local] Open Scope Z_scope.
#[local] Open Scope waste_scope.

Section events.
Context (renderTest : renderer → bool * list Z) (results_json : list (bool * list Z * list Z) → list Z)
        (error_text : exn → list Z).
#[local] Abbreviation step := (Page.step renderTest results_json error_text).
#[local] Abbreviation onmessage := (Page.onmessage renderTest results_json error_text).
#[local] Abbreviation reachable := (Page.reachable renderTest results_json error_text).

(** ** Well-typed messages *)

(** What the worker's handlers require of a message. *)
Definition accepted (m : posted) : Prop :=
  match m with
  | PMsg (MInput bytes) => Forall is_byte bytes
  | PMsg (MResize c r) => int_field 1 65535 c = Some 80 ∧ int_field 1 65535 r = Some 24
  | PMsg (MSignal s p g) =>
    (∃ n, int_field 1 128 s = Some n ∧ n ∈ signal_options) ∧
    int_field 0 2147483647 (or_zero p) = Some 0 ∧ int_field 0 2147483647 (or_zero g) = Some 0
  | PMsg (MRenderResponse _ bytes) => 4 ≤ zlen bytes
  | PMsg (MAdvanceClock _ _) | PMsg (MSetClock _ _ _ _) | PMsg MCancel => False
  | _ => True
  end.

Record typed_page (p : page) : Prop := {
  ty_wf : wf (model (scr p));
  ty_columns : columns (model (scr p)) = 80;
  ty_rows : rows (model (scr p)) = 24;
  ty_transcript : (length (transcript (scr p)) ≤ transcriptLimit)%nat;
  ty_timers : Forall (Forall is_byte) (timers p);
  ty_posts : Forall (λ x, accepted x.2) (posts (wk p)) }.

(** A change that only touches other fields, or adds accepted messages. *)
Lemma typed_more p p' l :
  typed_page p → scr p' = scr p → timers p' = timers p → posts (wk p') = posts (wk p) ++ l →
  Forall (λ x, accepted x.2) l → typed_page p'.
Proof. intros [] H1 H2 H3 Hl. constructor; rewrite ?H1, ?H2, ?H3; try done. by apply Forall_app. Qed.

Lemma typed_same p p' :
  typed_page p → scr p' = scr p → timers p' = timers p → posts (wk p') = posts (wk p) → typed_page p'.
Proof. intros Hp H1 H2 H3. apply (typed_more p p' []); try done. by rewrite app_nil_r. Qed.

Lemma typed_post_to w m p : accepted m → typed_page p → typed_page (post_to w m p).
Proof. intros Hm Hp. by apply (typed_more p _ [(w, m)]); try done; repeat constructor. Qed.

Lemma typed_post_current m p : accepted m → typed_page p → typed_page (post_current m p).
Proof. intros Hm Hp. unfold post_current. destruct (Page.current (wk p)); [by apply typed_post_to|done]. Qed.

Lemma typed_post_requester q m p : accepted m → typed_page p → typed_page (post_requester q m p).
Proof. intros Hm Hp. unfold post_requester. case_bool_decide; [|done]. destruct q; [by apply typed_post_to|done]. Qed.

Lemma typed_terminate p : typed_page p → typed_page (terminate p).
Proof. intros Hp. unfold terminate. destruct (Page.current (wk p)); [by eapply typed_same|done]. Qed.

Lemma typed_resize p : typed_page p → typed_page (sendTerminalResize p).
Proof.
  intros Hp. unfold sendTerminalResize. destruct Hp as [Hw Hc Hr]. rewrite Hc, Hr. by apply typed_post_current.
Qed.

(** Every line the script sends is ASCII. *)
Lemma script_bytes : Forall (λ st, Forall is_byte (command_bytes (command st))) evidenceSteps.
Proof. apply (bool_decide_unpack _). by vm_compute. Qed.

Lemma append_sends text e bytes : (append_evidence text e).2 = Some bytes → Forall is_byte bytes.
Proof.
  unfold append_evidence. destruct (startedAt e); [|done].
  destruct (evidenceSteps !! Evidence.step (add_output text e)) as [st|] eqn:Hst; [|done].
  destruct (_ && _); [|done]. intros [= <-]. by apply (Forall_lookup_1 _ _ _ _ script_bytes Hst).
Qed.

Lemma typed_append text p p' : typed_page p → appendRaw text p = Ok p' → typed_page p'.
Proof.
  intros [Hw Hc Hr Ht Hi Hp]. unfold appendRaw. pose proof (write_post_holds (points text) (model (scr p)) Hw) as Hpost.
  pose proof (write_size (points text) (model (scr p))) as Hsize.
  destruct (write (points text) (model (scr p))) as [t|]; [|done]. simpl. destruct (Hsize t eq_refl) as [Hs1 Hs2].
  pose proof (append_sends text (evid p)) as Hsent. destruct (append_evidence text (evid p)) as [e sent].
  intros [= <-]. constructor; simpl; try done; try congruence.
  - unfold slice_last. rewrite length_drop. lia.
  - apply Forall_app. split; [done|]. destruct sent; [|constructor]. constructor; [by apply Hsent|constructor].
Qed.

Lemma typed_reply_clip i ok p : typed_page p → typed_page (reply_clip i ok p).
Proof.
  intros Hp. unfold reply_clip. destruct (clips (hst p) !! i) as [c|]; [|done]. destruct (c_replied c); [done|].
  apply typed_post_requester; [done|]. by eapply typed_same.
Qed.

Lemma typed_cancel p : typed_page p → typed_page (cancel_clipboard p).
Proof. intros Hp. unfold cancel_clipboard. destruct (cancelClipboard (hst p)); [by apply typed_reply_clip|done]. Qed.

Lemma typed_finish p : typed_page p → typed_page (finish p).
Proof.
  intros Hp. unfold finish. destruct (cancel_throws p); [by apply typed_cancel|]. set (p1 := cancel_clipboard p). assert (typed_page p1) as [H1 H2 H3 H4 H5 H6] by (by apply typed_cancel).
  eapply typed_same; [apply typed_terminate, (typed_post_current (PMsg MStop)); [done|]|done..]. by constructor.
Qed.

Lemma typed_append_finish line p p' : typed_page p → (let* p1 := append line p in Ok (finish p1)) = Ok p' → typed_page p'.
Proof.
  intros Hp. unfold append. destruct (appendRaw (line ++ [10]) p) as [p1|] eqn:Ha; [|done]. simpl. intros [= <-].
  by eapply typed_finish, typed_append.
Qed.

Lemma typed_on_output text p p' : typed_page p → on_output text p = Ok p' → typed_page p'.
Proof.
  intros Hp. unfold on_output. destruct (appendRaw text p) as [p1|] eqn:Ha; [|done]. simpl.
  pose proof (typed_append text p p1 Hp Ha) as [H1 H2 H3 H4 H5 H6]. destruct (_ && _); intros [= <-]; by constructor.
Qed.

Lemma typed_onmessage w o p p' : typed_page p → onmessage w o p = Ok p' → typed_page p'.
Proof.
  intros Hp. destruct o; simpl; try (by apply typed_on_output); try (by intros [= <-]; eapply typed_same).
  - case_match; intros [= <-]; [by eapply typed_same|done].
  - intros [= <-]. apply typed_post_current; [|done]. simpl. unfold render_reply. destruct (renderTest _).
    rewrite zlen_app. pose proof (zlen_nonneg (text_encode l)). change (zlen (le32 _)) with 4. lia.
  - intros [= <-]. unfold requestHostClipboard. destruct (cancel_throws p); [by apply typed_cancel|]. eapply typed_same; [by apply typed_cancel|done..].
  - intros [= <-]. apply typed_resize. by eapply typed_same.
  - destruct (startedAt _); [|intros [= <-]; by eapply typed_same]. apply typed_append. by eapply typed_same.
  - destruct (dn_mount_error d); [by apply typed_append_finish|]. simpl. intros [= <-]. by apply typed_finish.
  - by apply typed_append_finish.
Qed.

Lemma typed_step e p p' : typed_page p → event_ok e → step e p = Some (Ok p') → typed_page p'.
Proof.
  intros Hp He. destruct e; simpl in *; try (case_bool_decide as Hb; [|done]).
  - intros [= <-]. unfold startShell. destruct (cancel_throws p); [by apply typed_cancel|]. eapply typed_same; [apply typed_terminate, (typed_post_current (PMsg MStop)); [done|by apply typed_cancel]|done..].
  - intros [= <-]. destruct ok; [|by eapply typed_same]. destruct Hp. constructor; try done; simpl; try lia.
    by apply wf_fullReset.
  - intros [= <-]. destruct ok; [|by eapply typed_same]. unfold start_created. apply typed_post_to; [done|]. by eapply typed_same.
  - intros [= H']. by eapply typed_onmessage.
  - intros [= H']. by eapply typed_append_finish.
  - destruct (timers p) as [|bytes rest] eqn:Ht; [done|]. intros [= <-]. destruct Hp as [? ? ? ? Hi ?].
    rewrite Ht in Hi. apply Forall_cons in Hi as [Hb Hrest]. apply typed_post_current; [done|]. by constructor.
  - intros [= <-]. unfold clipboard_settled. destruct (clips (hst p) !! i) as [c|]; [|done].
    destruct (negb (c_waiting c)); [done|]. destruct o; [|destruct (_ || _)]; apply typed_reply_clip; by eapply typed_same.
  - intros [= <-]. unfold reply_upload. destruct (uploads (hst p) !! i) as [u|]; [|done]. destruct (up_replied u); [done|].
    apply typed_post_requester; [by destruct result|]. by eapply typed_same.
  - intros [= <-]. unfold batch_settled. destruct (batches (hst p) !! i) as [b|]; [|done]. destruct (b_settled b); [done|].
    destruct (batch_reply outcome); [|by eapply typed_same]. apply typed_post_requester; [done|]. by eapply typed_same.
  - intros [= <-]. unfold cancel_looked_at. destruct (cancels (hst p)) as [|[w id] l]; [done|by eapply typed_same].
  - intros [= <-]. destruct e as [key ctrl []]; [done|]. pose proof (keydown_sends (model (scr p)) key ctrl He) as Hk.
    destruct (handleTerminalKeydown _ _) as [[bytes|] prevented]; [|done]. apply typed_post_current; [|done]. by apply Hk.
  - intros [= <-]. apply typed_post_current; [|done]. by apply text_encode_bytes.
  - intros [= <-]. apply typed_post_current; [|done]. apply text_encode_bytes. apply Forall_app. split; [done|].
    apply Forall_singleton. unfold is_unit. lia.
  - intros [= <-]. by apply typed_resize.
  - intros [= <-]. apply typed_post_current; [|done]. simpl. split; [|done]. exists signal. split; [|done].
    unfold signal_options in Hb. repeat (apply elem_of_cons in Hb as [->|Hb]; [done|]). by apply elem_of_nil in Hb.
  - intros [= <-]. by apply typed_finish.
  - intros [= <-]. unfold run_evidence. destruct (Page.current (wk p)); [|done].
    apply typed_post_current; [apply (bool_decide_unpack _); by vm_compute|]. by eapply typed_same.
  - intros [= <-]. by eapply typed_same.
Qed.

Lemma wf_initial : wf (constructor 80 24).
Proof. apply (wf_constructor 80 24). Qed.

Lemma reachable_typed r p : reachable r p → typed_page p.
Proof.
  induction 1 as [|p e p' _ IH He Hs]; [|by eapply typed_step].
  constructor; simpl; [apply wf_initial|done|done|lia|constructor|constructor].
Qed.


(** ** Batches *)

(** A [guestSuiteId] that is set belongs to a batch that has not settled. *)
Definition batches_ok (h : host) : Prop :=
  ∀ w id, guestSuiteId h !! w = Some id → id ≠ 0 →
    ∃ i b, batches h !! i = Some b ∧ b_handler b = w ∧ b_id b = id ∧ b_settled b = false.

Lemma batches_same h h' : batches h' = batches h → guestSuiteId h' = guestSuiteId h → batches_ok h → batches_ok h'.
Proof. intros H1 H2 H w id. rewrite H1, H2. apply H. Qed.

Lemma batches_add w q id h :
  0 < id → batches_ok h →
  batches_ok (set_batches (batches h ++ [mkBatch w q id false]) (<[w := id]> (guestSuiteId h)) h).
Proof.
  intros Hid H v k Hv Hk. simpl in *. destruct (decide (w = v)) as [->|Hne].
  - rewrite lookup_insert_eq in Hv. injection Hv as <-. exists (length (batches h)), (mkBatch v q id false).
    split; [by rewrite lookup_app_r, Nat.sub_diag by lia|done].
  - rewrite lookup_insert_ne in Hv by done. destruct (H v k Hv Hk) as (i & b & Hi & Hb). exists i, b.
    split; [|done]. by apply lookup_app_l_Some.
Qed.

Lemma batches_settle i b h :
  batches h !! i = Some b → batches_ok h →
  batches_ok (set_batches (<[i := mkBatch (b_handler b) (b_requester b) (b_id b) true]> (batches h))
    (if default 0 (guestSuiteId h !! b_handler b) =? b_id b then <[b_handler b := 0]> (guestSuiteId h) else guestSuiteId h) h).
Proof.
  intros Hi H w id. simpl. intros Hw Hid.
  assert (guestSuiteId h !! w = Some id ∧ ¬ (b_handler b = w ∧ b_id b = id)) as [Hw' Hne].
  { destruct (Z.eqb_spec (default 0 (guestSuiteId h !! b_handler b)) (b_id b)) as [He|He].
    - destruct (decide (b_handler b = w)) as [<-|Hx]; [rewrite lookup_insert_eq in Hw; congruence|].
      rewrite lookup_insert_ne in Hw by done. split; [done|]. by intros [? _].
    - split; [done|]. intros [<- <-]. rewrite Hw in He. done. }
  destruct (H w id Hw' Hid) as (j & c & Hj & Hh & Hcid & Hset). exists j, c. split; [|done].
  rewrite list_lookup_insert_ne; [done|]. intros ->. rewrite Hi in Hj. injection Hj as ->. by apply Hne.
Qed.

Lemma hst_post w m p : hst (post_to w m p) = hst p. Proof. done. Qed.
Lemma hst_post_current m p : hst (post_current m p) = hst p.
Proof. unfold post_current. by destruct (Page.current (wk p)). Qed.
Lemma hst_post_requester q m p : hst (post_requester q m p) = hst p.
Proof. unfold post_requester. case_bool_decide; [|done]. by destruct q. Qed.
Lemma hst_terminate p : hst (terminate p) = hst p.
Proof. unfold terminate. by destruct (Page.current (wk p)). Qed.
Lemma hst_append text p p' : appendRaw text p = Ok p' → hst p' = hst p.
Proof. unfold appendRaw. destruct (write _ _); [|done]. simpl. destruct (append_evidence _ _). by intros [= <-]. Qed.

(** The host state of the batches is untouched. *)
Definition same_batches (p p' : page) : Prop :=
  batches (hst p') = batches (hst p) ∧ guestSuiteId (hst p') = guestSuiteId (hst p) ∧
  cancels (hst p') = cancels (hst p) ∧ suiteCancels (hst p') = suiteCancels (hst p).

Lemma same_batches_reply i ok p : same_batches p (reply_clip i ok p).
Proof.
  unfold reply_clip, same_batches. destruct (clips (hst p) !! i) as [c|]; [|done]. destruct (c_replied c); [done|].
  by rewrite hst_post_requester.
Qed.

Lemma same_batches_cancel p : same_batches p (cancel_clipboard p).
Proof. unfold cancel_clipboard. destruct (cancelClipboard (hst p)); [apply same_batches_reply|done]. Qed.

Lemma same_batches_finish p : same_batches p (finish p).
Proof.
  unfold finish. destruct (cancel_throws p); [apply same_batches_cancel|]. unfold same_batches. simpl. rewrite hst_terminate, hst_post_current. simpl. apply same_batches_cancel.
Qed.

Lemma same_batches_append_finish line p p' :
  (let* p1 := append line p in Ok (finish p1)) = Ok p' → same_batches p p'.
Proof.
  unfold append. destruct (appendRaw (line ++ [10]) p) as [p1|] eqn:Ha; [|done]. simpl. intros [= <-].
  pose proof (hst_append _ _ _ Ha) as Hh. pose proof (same_batches_finish p1) as Hf. unfold same_batches in *. by rewrite Hh in Hf.
Qed.

Lemma same_batches_output text p p' : on_output text p = Ok p' → same_batches p p'.
Proof.
  unfold on_output. destruct (appendRaw text p) as [p1|] eqn:Ha; [|done]. simpl. apply hst_append in Ha.
  unfold same_batches. destruct (_ && _); intros [= <-]; simpl; by rewrite Ha.
Qed.

(** Only four events concern the batches. *)
Definition batch_event (e : event) : bool :=
  match e with EWorker _ (OSuiteRequest _ _) | EWorker _ (OSuiteCancel _) | EBatch _ _ | ECancelLooked => true | _ => false end.

Lemma same_batches_step e p p' : batch_event e = false → step e p = Some (Ok p') → same_batches p p'.
Proof.
  unfold same_batches. destruct e; simpl; try done; intros Hb; try (case_bool_decide; [|done]).
  - intros [= <-]. unfold startShell. destruct (cancel_throws p); [apply same_batches_cancel|]. simpl. rewrite hst_terminate, hst_post_current. apply same_batches_cancel.
  - intros [= <-]. by destruct ok.
  - intros [= <-]. by destruct ok.
  - intros [= H']. destruct o; simpl in *; try done; try (by eapply same_batches_output); try (by injection H' as <-).
    + injection H' as <-. by rewrite hst_post_current.
    + injection H' as <-. unfold requestHostClipboard. destruct (cancel_throws p); simpl; apply same_batches_cancel.
    + injection H' as <-. unfold sendTerminalResize. by rewrite hst_post_current.
    + destruct (startedAt _); [by apply hst_append in H' as ->|by injection H' as <-].
    + destruct (dn_mount_error d); [by eapply same_batches_append_finish|]. injection H' as <-. apply same_batches_finish.
    + by eapply same_batches_append_finish.
  - intros [= H']. by eapply same_batches_append_finish.
  - destruct (timers p); [done|]. intros [= <-]. unfold sendInputBytes. by rewrite hst_post_current.
  - intros [= <-]. unfold clipboard_settled. destruct (clips (hst p) !! i) as [c|]; [|done].
    destruct (negb (c_waiting c)); [done|].
    destruct o; [|destruct (_ || _)]; (match goal with |- context [reply_clip ?i ?ok ?q] => pose proof (same_batches_reply i ok q) as Hx end);
      exact Hx.
  - intros [= <-]. unfold reply_upload. destruct (uploads (hst p) !! i) as [u|]; [|done]. destruct (up_replied u); [done|].
    by rewrite hst_post_requester.
  - intros [= <-]. destruct (handleTerminalKeydown _ _).1; [|done]. unfold sendInputBytes. by rewrite hst_post_current.
  - intros [= <-]. unfold sendInputBytes. by rewrite hst_post_current.
  - intros [= <-]. unfold sendInputBytes. by rewrite hst_post_current.
  - intros [= <-]. unfold sendTerminalResize. by rewrite hst_post_current.
  - intros [= <-]. by rewrite hst_post_current.
  - intros [= <-]. apply same_batches_finish.
  - intros [= <-]. unfold run_evidence. destruct (Page.current (wk p)); [|done]. unfold sendInputBytes. simpl. by rewrite hst_post_current.
  - by intros [= <-].
Qed.

Lemma batches_step e p p' : batches_ok (hst p) → event_ok e → step e p = Some (Ok p') → batches_ok (hst p').
Proof.
  intros Hok He Hs. destruct (batch_event e) eqn:Hb.
  2:{ apply same_batches_step in Hs as (H1 & H2 & _); [|done]. by eapply batches_same. }
  destruct e; try done.
  - destruct o; try done; simpl in Hs; (case_bool_decide; [|done]); injection Hs as Hs.
    + destruct (_ =? _); injection Hs as <-; [|done]. exact Hok.
    + subst p'. by apply batches_add.
  - injection Hs as <-. unfold batch_settled. destruct (batches (hst p) !! i) as [b|] eqn:Hi; [|done].
    destruct (b_settled b); [done|]. destruct (batch_reply outcome); rewrite ?hst_post_requester; by apply batches_settle.
  - injection Hs as <-. unfold cancel_looked_at. destruct (cancels (hst p)) as [|[w id] l]; [done|]. exact Hok.
Qed.

Lemma reachable_cancels r p : reachable r p → Forall (λ x : Z * Z, 0 < x.2) (cancels (hst p)).
Proof.
  induction 1 as [|p e p' _ IH He Hs]; [constructor|]. destruct (batch_event e) eqn:Hb.
  2:{ apply same_batches_step in Hs as (_ & _ & H3 & _); [|done]. by rewrite H3. }
  destruct e; try done.
  - destruct o; try done; simpl in Hs, He; (case_bool_decide; [|done]); injection Hs as Hs; [|by subst p'].
    destruct (_ =? _); injection Hs as <-; [|done]. simpl. apply Forall_app. split; [done|]. by apply Forall_singleton.
  - injection Hs as <-. unfold batch_settled. destruct (batches (hst p) !! i) as [b|]; [|done].
    destruct (b_settled b); [done|]. destruct (batch_reply outcome); by rewrite ?hst_post_requester.
  - injection Hs as <-. unfold cancel_looked_at. destruct (cancels (hst p)) as [|[w id] l] eqn:Hc; [by rewrite Hc|].
    by apply Forall_cons in IH as [_ ?].
Qed.

Lemma reachable_batches r p : reachable r p → batches_ok (hst p).
Proof.
  induction 1 as [|p e p' _ IH He Hs]; [|by eapply batches_step]. intros w id H. simpl in H. by rewrite lookup_empty in H.
Qed.

(** A batch is cancelled only while it runs: whenever an event makes the page call [cancel] on the
    test controller, it is for the id of a request that has not settled, so a cancel
    that comes late never stops a later batch; and a settled batch posts at most one
    response, to the worker that asked and only while that worker is current. *)
Theorem batch_cancel_hits_running r p e p' :
  reachable r p → step e p = Some (Ok p') →
  (∀ l, suiteCancels (hst p') = suiteCancels (hst p) ++ l →
     Forall (λ id, ∃ i b, batches (hst p) !! i = Some b ∧ b_id b = id ∧ b_settled b = false) l) ∧
  (∀ i o, e = EBatch i o →
     posts (wk p') = posts (wk p) ∨
     ∃ b w bytes, batches (hst p) !! i = Some b ∧ b_settled b = false ∧ b_requester b = Some w ∧
       Page.current (wk p) = Some w ∧ posts (wk p') = posts (wk p) ++ [(w, PMsg (MSuiteResponse (b_id b) bytes))]).
Proof.
  intros Hr Hs. pose proof (reachable_batches r p Hr) as Hok. pose proof (reachable_cancels r p Hr) as Hpos. split.
  - intros l Hl. assert (∀ q, q = suiteCancels (hst p) → q = suiteCancels (hst p) ++ l → l = []) as Hnil.
    { intros q -> Hq. by apply (f_equal length) in Hq; rewrite length_app in Hq; destruct l; [|simpl in Hq; lia]. }
    destruct (batch_event e) eqn:Hb.
    2:{ apply same_batches_step in Hs as (_ & _ & _ & H4); [|done]. rewrite (Hnil _ H4 Hl). constructor. }
    destruct e; try done.
    + destruct o; try done; simpl in Hs; (case_bool_decide; [|done]); injection Hs as Hs;
        [destruct (_ =? _); injection Hs as <-|subst p']; rewrite (Hnil _ eq_refl Hl); constructor.
    + injection Hs as <-. rewrite (Hnil (suiteCancels (hst (batch_settled i outcome p)))); [constructor| |done].
      unfold batch_settled. destruct (batches (hst p) !! i) as [b|]; [|done].
      destruct (b_settled b); [done|]. destruct (batch_reply outcome); by rewrite ?hst_post_requester.
    + injection Hs as <-. unfold cancel_looked_at in Hl. destruct (cancels (hst p)) as [|[w id] rest].
      { rewrite (Hnil _ eq_refl Hl). constructor. }
      apply Forall_cons in Hpos as [Hid _]. simpl in Hid.
      simpl in Hl. apply app_inv_head in Hl. subst l. destruct (Z.eqb_spec (default 0 (guestSuiteId (hst p) !! w)) id) as [He|]; [|constructor].
      apply Forall_singleton. destruct (guestSuiteId (hst p) !! w) as [k|] eqn:Hk; simpl in He; [|lia]. subst k.
      destruct (Hok w id Hk ltac:(lia)) as (i & b & Hi & _ & Hbid & Hset).
      by exists i, b.
  - intros i o ->. injection Hs as <-. unfold batch_settled. destruct (batches (hst p) !! i) as [b|]; [|by left].
    destruct (b_settled b) eqn:Hset; [by left|]. destruct (batch_reply o) as [bytes|]; [|by left].
    unfold post_requester. case_bool_decide as Hcur; [|by left]. destruct (b_requester b) as [w|] eqn:Hq; [|by left].
    right. exists b, w, bytes. done.
Qed.

(** ** The life of the workers *)

(** No start is in progress. *)
Definition settled_starts (w : workers) : Prop := Forall (λ s, s = Started) (starts w).

(** At most one start is in progress, no worker lives meanwhile, and a living worker is the current one. *)
Record solo (w : workers) : Prop := {
  so_current : ∀ v, v ∈ alive w → Page.current w = Some v;
  so_nodup : NoDup (alive w);
  so_fresh : Forall (λ v, v ≤ created w) (alive w);
  so_one : ∀ i j s s', starts w !! i = Some s → starts w !! j = Some s' → s ≠ Started → s' ≠ Started → i = j;
  so_none : ∀ i s, starts w !! i = Some s → s ≠ Started → alive w = [] }.

(** Posting and setting other fields does not matter. *)
Lemma solo_same w w' :
  solo w → Page.current w' = Page.current w → alive w' = alive w → created w' = created w → starts w' = starts w → solo w'.
Proof. intros [] H1 H2 H3 H4. constructor; rewrite ?H1, ?H2, ?H3, ?H4; done. Qed.

Lemma solo_post w m p : solo (wk p) → solo (wk (post_to w m p)).
Proof. intros H. by eapply solo_same. Qed.
Lemma solo_post_current m p : solo (wk p) → solo (wk (post_current m p)).
Proof. intros H. unfold post_current. destruct (Page.current (wk p)); [by apply solo_post|done]. Qed.
Lemma solo_post_requester q m p : solo (wk p) → solo (wk (post_requester q m p)).
Proof. intros H. unfold post_requester. case_bool_decide; [|done]. destruct q; [by apply solo_post|done]. Qed.

Lemma solo_dead w : Page.current w = None → solo w → alive w = [].
Proof.
  intros Hc [Hcur _ _ _ _]. destruct (alive w) as [|v l]; [done|]. specialize (Hcur v ltac:(left)). congruence.
Qed.

(** With no worker alive only the starts matter. *)
Lemma solo_empty w :
  alive w = [] → (∀ i j s s', starts w !! i = Some s → starts w !! j = Some s' → s ≠ Started → s' ≠ Started → i = j) → solo w.
Proof.
  intros Ha Ho. constructor; rewrite ?Ha; [by intros v Hv%elem_of_nil|apply NoDup_nil_2|constructor|exact Ho|done].
Qed.

(** Terminating the current worker leaves none alive. *)
Lemma terminate_all p : solo (wk p) → alive (wk (terminate p)) = [] ∧ solo (wk (terminate p)).
Proof.
  intros Hs. unfold terminate. destruct (Page.current (wk p)) as [w|] eqn:Hc; [|by split; [apply solo_dead|]].
  assert (filter (λ v, v ≠ w) (alive (wk p)) = []) as Hf.
  { destruct (filter _ _) as [|v l] eqn:Hl; [done|]. assert (v ∈ filter (λ v, v ≠ w) (alive (wk p))) as Hv by (rewrite Hl; left).
    apply list_elem_of_filter in Hv as [Hne Hv]. apply (so_current _ Hs) in Hv. congruence. }
  split; [done|]. apply solo_empty; [done|]. apply (so_one _ Hs).
Qed.

Lemma solo_reply i ok p : solo (wk p) → solo (wk (reply_clip i ok p)).
Proof.
  intros H. unfold reply_clip. destruct (clips (hst p) !! i) as [c|]; [|done]. destruct (c_replied c); [done|].
  by apply solo_post_requester.
Qed.

Lemma solo_cancel p : solo (wk p) → solo (wk (cancel_clipboard p)).
Proof. intros H. unfold cancel_clipboard. destruct (cancelClipboard (hst p)); [by apply solo_reply|done]. Qed.

(** *** Clipboard requests name their worker *)

Definition requesters (p : page) : list (option Z) := c_requester <$> clips (hst p).

Lemma requesters_insert i c c1 p q :
  clips (hst p) !! i = Some c → c_requester c1 = c_requester c → clips (hst q) = <[i := c1]> (clips (hst p)) → requesters q = requesters p.
Proof.
  intros Hi Hc Hq. unfold requesters. rewrite Hq, list_fmap_insert. apply list_insert_id.
  by rewrite list_lookup_fmap, Hi, Hc.
Qed.

Lemma requesters_same p q : clips (hst q) = clips (hst p) → requesters q = requesters p.
Proof. unfold requesters. by intros ->. Qed.

Lemma requesters_reply i ok p : requesters (reply_clip i ok p) = requesters p.
Proof.
  unfold reply_clip. destruct (clips (hst p) !! i) as [c|] eqn:Hi; [|done]. destruct (c_replied c); [done|].
  eapply requesters_insert; [exact Hi|..]; [|by rewrite hst_post_requester]. done.
Qed.

Lemma requesters_cancel p : requesters (cancel_clipboard p) = requesters p.
Proof. unfold cancel_clipboard. destruct (cancelClipboard (hst p)); [apply requesters_reply|done]. Qed.

Lemma requesters_finish p : requesters (finish p) = requesters p.
Proof.
  unfold finish. rewrite <- (requesters_cancel p). destruct (cancel_throws p); [done|]. apply requesters_same. simpl.
  by rewrite hst_terminate, hst_post_current.
Qed.

Lemma requesters_append_finish line p p' : (let* p1 := append line p in Ok (finish p1)) = Ok p' → requesters p' = requesters p.
Proof.
  unfold append. destruct (appendRaw (line ++ [10]) p) as [p1|] eqn:Ha; [|done]. simpl. intros [= <-].
  rewrite requesters_finish. apply requesters_same. by rewrite (hst_append _ _ _ Ha).
Qed.

Lemma requesters_output text p p' : on_output text p = Ok p' → requesters p' = requesters p.
Proof.
  unfold on_output. destruct (appendRaw text p) as [p1|] eqn:Ha; [|done]. simpl. apply hst_append in Ha.
  intros H. apply requesters_same. destruct (_ && _); injection H as <-; simpl; by rewrite Ha.
Qed.

Lemma requesters_step e p p' :
  step e p = Some (Ok p') →
  requesters p' = requesters p ∨ (∃ w, w ∈ alive (wk p)) ∧ requesters p' = requesters p ++ [Page.current (wk p)].
Proof.
  destruct e; simpl; try (case_bool_decide as Hal; [|done]);
    try (intros [= <-]; left; apply requesters_same; try (destruct ok); unfold sendInputBytes, sendTerminalResize, run_evidence;
         try (case_match); rewrite ?hst_post_current; done).
  - intros [= <-]. left. unfold startShell. destruct (cancel_throws p); [apply requesters_cancel|].
    rewrite <- (requesters_cancel p). apply requesters_same. simpl. by rewrite hst_terminate, hst_post_current.
  - intros [= H']. destruct o; simpl in *; try (left; by eapply requesters_output); try (by injection H' as <-; left).
    + left. by destruct (_ =? _); injection H' as <-.
    + injection H' as <-. left. apply requesters_same. by rewrite hst_post_current.
    + injection H' as <-. unfold requestHostClipboard. destruct (cancel_throws p); [left; apply requesters_cancel|right].
      split; [by eexists|]. rewrite <- (requesters_cancel p). unfold requesters. simpl. by rewrite fmap_app.
    + injection H' as <-. left. unfold sendTerminalResize. apply requesters_same. by rewrite hst_post_current.
    + left. apply requesters_same. destruct (startedAt _); [by apply hst_append in H' as ->|by injection H' as <-].
    + left. destruct (dn_mount_error d); [by eapply requesters_append_finish|]. injection H' as <-. apply requesters_finish.
    + left. by eapply requesters_append_finish.
  - intros [= H']. left. by eapply requesters_append_finish.
  - destruct (timers p); [done|]. intros [= <-]. left. apply requesters_same. unfold sendInputBytes. by rewrite hst_post_current.
  - intros [= <-]. left. unfold clipboard_settled. destruct (clips (hst p) !! i) as [c|] eqn:Hi; [|done].
    destruct (negb (c_waiting c)); [done|].
    destruct o; [|destruct (_ || _)]; rewrite requesters_reply; (eapply requesters_insert; [exact Hi| |reflexivity]); reflexivity.
  - intros [= <-]. left. unfold reply_upload. destruct (uploads (hst p) !! i) as [u|]; [|done]. destruct (up_replied u); [done|].
    apply requesters_same. by rewrite hst_post_requester.
  - intros [= <-]. left. unfold batch_settled. destruct (batches (hst p) !! i) as [b|]; [|done]. destruct (b_settled b); [done|].
    apply requesters_same. destruct (batch_reply outcome); by rewrite ?hst_post_requester.
  - intros [= <-]. left. unfold cancel_looked_at. by destruct (cancels (hst p)) as [|[w id] l].
  - intros [= <-]. left. by apply requesters_finish.
  - intros [= <-]. left. apply requesters_same. unfold run_evidence. destruct (Page.current (wk p)); [|done].
    unfold sendInputBytes. simpl. by rewrite hst_post_current.
Qed.

(** Every request was made by a worker, so refusing one never throws. *)
Definition named (p : page) : Prop := Forall (λ q : option Z, is_Some q) (requesters p).

Lemma named_no_throw p : named p → cancel_throws p = false.
Proof.
  unfold named, requesters, cancel_throws. intros H. destruct (cancelClipboard (hst p)) as [i|]; [|done].
  destruct (clips (hst p) !! i) as [c|] eqn:Hi; [|done]. rewrite Forall_fmap in H.
  destruct (Forall_lookup_1 _ _ _ _ H Hi) as [w Hw]. simpl in Hw. rewrite Hw, andb_false_r. done.
Qed.

(** *** The invariant of orderly runs *)

Lemma finish_all p :
  named p → solo (wk p) → alive (wk (finish p)) = [] ∧ Page.current (wk (finish p)) = None ∧ solo (wk (finish p)).
Proof.
  intros Hn H. unfold finish. rewrite (named_no_throw p Hn). set (p2 := set_scr _ (cancel_clipboard p)).
  assert (solo (wk (post_current (PMsg MStop) p2))) as H2 by (apply solo_post_current; by apply solo_cancel).
  destruct (terminate_all _ H2) as [H3 H4]. set (p3 := terminate _) in *. split; [done|]. split; [done|].
  apply solo_empty; [done|]. apply (so_one _ H4).
Qed.

Lemma solo_append text p p' : appendRaw text p = Ok p' → wk p' = wk p.
Proof. unfold appendRaw. destruct (write _ _); [|done]. simpl. destruct (append_evidence _ _). by intros [= <-]. Qed.

Lemma solo_append_finish line p p' :
  named p → solo (wk p) → (let* p1 := append line p in Ok (finish p1)) = Ok p' → solo (wk p').
Proof.
  intros Hn H. unfold append. destruct (appendRaw (line ++ [10]) p) as [p1|] eqn:Ha; [|done]. simpl. intros [= <-].
  apply finish_all; [|by rewrite (solo_append _ _ _ Ha)]. unfold named. by rewrite (requesters_same p p1) by (by rewrite (hst_append _ _ _ Ha)).
Qed.

Lemma solo_on_output text p p' : solo (wk p) → on_output text p = Ok p' → solo (wk p').
Proof.
  intros H. unfold on_output. destruct (appendRaw text p) as [p1|] eqn:Ha; [|done]. simpl. apply solo_append in Ha.
  destruct (_ && _); intros [= <-]; simpl; by rewrite Ha.
Qed.

Lemma solo_onmessage w o p p' : named p → solo (wk p) → onmessage w o p = Ok p' → solo (wk p').
Proof.
  intros Hn H. destruct o; simpl; try (by apply solo_on_output); try (by intros [= <-]).
  - destruct (_ =? _); by intros [= <-].
  - intros [= <-]. by apply solo_post_current.
  - intros [= <-]. unfold requestHostClipboard. destruct (cancel_throws p); by apply solo_cancel.
  - intros [= <-]. unfold sendTerminalResize. by apply solo_post_current.
  - destruct (startedAt _); [intros Ha%solo_append; by rewrite Ha|by intros [= <-]].
  - destruct (dn_mount_error d); [by apply solo_append_finish|]. simpl. intros [= <-]. by apply finish_all.
  - by apply solo_append_finish.
Qed.

(** One start moves on to another phase. *)
Lemma solo_advance i s p w' :
  solo (wk p) → starts (wk p) !! i = Some s → s ≠ Started →
  alive w' = [] → (∃ s', starts w' = <[i := s']> (starts (wk p))) → solo w'.
Proof.
  intros [Hc Hn Hf Ho He] Hi Hs Ha [s' Hst]. apply solo_empty; [done|]. rewrite Hst. intros j k a b Hj Hk Hna Hnb.
  assert (∀ j a, <[i := s']> (starts (wk p)) !! j = Some a → a ≠ Started → j = i) as Hall.
  { intros j0 a0 Hj0 Ha0. destruct (decide (i = j0)) as [->|Hij]; [done|]. rewrite list_lookup_insert_ne in Hj0 by done.
    by apply (Ho j0 i a0 s). }
  rewrite (Hall j a), (Hall k b); done.
Qed.

Lemma starts_cancel p : starts (wk (terminate (post_current (PMsg MStop) (cancel_clipboard p)))) = starts (wk p).
Proof.
  unfold terminate, post_current, cancel_clipboard, reply_clip, post_requester. repeat (case_match; try done; simpl).
Qed.

Lemma solo_start p :
  named p → solo (wk p) → alive (wk (startShell p)) = [] ∧ (settled_starts (wk p) → solo (wk (startShell p))).
Proof.
  intros Hn H. unfold startShell. rewrite (named_no_throw p Hn).
  assert (solo (wk (post_current (PMsg MStop) (cancel_clipboard p)))) as H2 by (by apply solo_post_current, solo_cancel).
  destruct (terminate_all _ H2) as [Ha _]. pose proof (starts_cancel p) as Hs. set (p1 := terminate _) in *.
  split; [done|]. intros Hst. apply solo_empty; [done|]. simpl. rewrite Hs.
  assert (∀ j a, (starts (wk p) ++ [Loading]) !! j = Some a → a ≠ Started → j = length (starts (wk p))) as Hall.
  { intros j a Hj Hne. apply lookup_snoc_Some in Hj as [[_ Hj]|[-> _]]; [|done].
    by rewrite (Forall_lookup_1 _ _ _ _ Hst Hj) in Hne. }
  intros i j a b Hi Hj Hna Hnb. rewrite (Hall i a), (Hall j b); done.
Qed.

Lemma solo_created i p : solo (wk p) → starts (wk p) !! i = Some Creating → solo (wk (start_created i p)).
Proof.
  intros [Hc Hn Hf Ho He] Hb. pose proof (He i Creating Hb ltac:(done)) as Ha. unfold start_created. apply solo_post.
  assert (∀ j a, <[i := Started]> (starts (wk p)) !! j = Some a → a = Started) as Hall.
  { intros j a Hj. destruct (decide (i = j)) as [->|Hij].
    - rewrite list_lookup_insert_eq in Hj by (by eapply lookup_lt_Some). congruence.
    - rewrite list_lookup_insert_ne in Hj by done. destruct (decide (a = Started)) as [|Hne]; [done|].
      exfalso. apply Hij. by apply (Ho i j Creating a). }
  constructor; simpl; rewrite ?Ha; simpl.
  - intros v Hv%list_elem_of_singleton. by subst v.
  - apply NoDup_singleton.
  - apply Forall_singleton. lia.
  - intros j k a b Hj _ Hna. by rewrite (Hall j a Hj) in Hna.
  - intros j a Hj Hna. by rewrite (Hall j a Hj) in Hna.
Qed.

Lemma solo_step e p p' :
  named p → solo (wk p) → (e = EStart → settled_starts (wk p)) → step e p = Some (Ok p') → solo (wk p').
Proof.
  intros Hn H Hsolo. destruct e; simpl; try (case_bool_decide as Hb; [|done]);
    try (by intros [= <-]; apply solo_post_current).
  - intros [= <-]. apply solo_start; auto.
  - intros [= <-]. pose proof (so_none _ H i Loading Hb ltac:(done)) as Ha.
    destruct ok; eapply (solo_advance i Loading p); try done; by eexists.
  - intros [= <-]. destruct ok; [by apply solo_created|]. pose proof (so_none _ H i Creating Hb ltac:(done)) as Ha.
    eapply (solo_advance i Creating p); try done. by eexists.
  - intros [= H']. by eapply solo_onmessage.
  - intros [= H']. by eapply solo_append_finish.
  - destruct (timers p); [done|]. intros [= <-]. by apply solo_post_current.
  - intros [= <-]. unfold clipboard_settled. destruct (clips (hst p) !! i) as [c|]; [|done].
    destruct (negb (c_waiting c)); [done|]. destruct o; [|destruct (_ || _)]; by apply solo_reply.
  - intros [= <-]. unfold reply_upload. destruct (uploads (hst p) !! i) as [u|]; [|done]. destruct (up_replied u); [done|].
    by apply solo_post_requester.
  - intros [= <-]. unfold batch_settled. destruct (batches (hst p) !! i) as [b|]; [|done]. destruct (b_settled b); [done|].
    destruct (batch_reply outcome); [by apply solo_post_requester|done].
  - intros [= <-]. unfold cancel_looked_at. by destruct (cancels (hst p)) as [|[w id] l].
  - intros [= <-]. destruct (handleTerminalKeydown _ _).1; [|done]. by apply solo_post_current.
  - intros [= <-]. by apply finish_all.
  - intros [= <-]. unfold run_evidence. destruct (Page.current (wk p)); [|done]. by apply solo_post_current.
  - by intros [= <-].
Qed.

(** Runs in which a restart is only asked for when the previous one is through. *)
Inductive orderly (r : renderer) : page → Prop :=
| orderly_init : orderly r (initial_page r)
| orderly_step p e p' : orderly r p → event_ok e → (e = EStart → settled_starts (wk p)) → step e p = Some (Ok p') → orderly r p'.

Lemma orderly_run r l p p' :
  orderly r p → Forall (λ e, event_ok e ∧ e ≠ EStart) l →
  Page.run_events renderTest results_json error_text l p = Some p' → orderly r p'.
Proof.
  intros Hp Hl. revert p Hp. induction Hl as [|e l [He Hne] _ IH]; intros p Hp; simpl; [by intros [= <-]|].
  destruct (step e p) as [[p1|]|] eqn:Hs; [|done|done]. apply IH. by eapply orderly_step.
Qed.

Lemma orderly_solo r p : orderly r p → named p ∧ solo (wk p).
Proof.
  induction 1 as [|p e p' _ [Hn Hs] _ Hsolo Hst]; [split; [constructor|by apply solo_empty]|].
  split; [|by eapply solo_step]. unfold named in *. apply requesters_step in Hst as [->|[[w Hw] ->]]; [done|].
  apply Forall_app. split; [done|]. apply Forall_singleton. rewrite (so_current _ Hs w Hw). by eexists.
Qed.

(** C32: If restarts do not overlap, the page never has two workers at once: at most one is
    alive, it is the current one, a restart and a stop leave none alive that was there
    before, and after a stop the page has no worker. *)
Theorem one_worker_at_a_time r p :
  orderly r p →
  (length (alive (wk p)) ≤ 1)%nat ∧ (∀ v, v ∈ alive (wk p) → Page.current (wk p) = Some v) ∧
  alive (wk (finish p)) = [] ∧ Page.current (wk (finish p)) = None ∧
  alive (wk (startShell p)) = [].
Proof.
  intros H. destruct (orderly_solo r p H) as [Hn Hs]. split; [|split; [apply Hs|]].
  - destruct Hs as [Hc Hd _ _ _]. destruct (alive (wk p)) as [|v [|u l]]; simpl; try lia. exfalso.
    pose proof (Hc v ltac:(left)) as Hv. pose proof (Hc u ltac:(right; left)) as Hu.
    apply NoDup_cons in Hd as [Hx _]. apply Hx. assert (v = u) as -> by congruence. left.
  - destruct (finish_all p Hn Hs) as (Ha & Hc & _). split; [done|]. split; [done|]. by apply solo_start.
Qed.
End events.

(** ** Examples *)

(** A restart with a clipboard request open. *)
Lemma one_worker_at_a_time_witness :
  let p := demo_page [EWorker 1 (OClipboardRequest 1 [104; 105])] in
  length (alive (wk p)) = 1%nat ∧ alive (wk (finish p)) = [] ∧ alive (wk (startShell p)) = [].
Proof.
  intros p. destruct (one_worker_at_a_time (λ _, (true, [])) (λ _, []) (λ _, []) demo_renderer p) as (_ & _ & H1 & _ & H2).
  - apply (orderly_run _ _ _ _ [EStartLoaded 0 true; EStartCreated 0 true; EWorker 1 (OClipboardRequest 1 [104; 105])]
             (startShell (initial_page demo_renderer))); [|by repeat constructor|by vm_compute].
    apply (orderly_step _ _ _ _ (initial_page demo_renderer) EStart); [apply orderly_init|done|constructor|done].
  - split; [by vm_compute|]. split; [exact H1|]. exact H2.
Defined.


(** A cancel that is looked at while its batch runs. *)
Lemma batch_cancel_hits_running_witness :
  let p := demo_page [EWorker 1 (OSuiteRequest 7 []); EWorker 1 (OSuiteCancel 7)] in
  match demo_run [ECancelLooked] p with
  | Some p' => suiteCancels (hst p') = [7] ∧
      Forall (λ id, ∃ i b, batches (hst p) !! i = Some b ∧ b_id b = id ∧ b_settled b = false) [7]
  | None => False
  end.
Proof.
  intros p. change (demo_run [ECancelLooked] p) with (Some (cancel_looked_at p)). cbv iota beta.
  destruct (batch_cancel_hits_running (λ _, (true, [])) (λ _, []) (λ _, []) demo_renderer p ECancelLooked (cancel_looked_at p)) as [H _].
  - apply (page_run_reachable _ _ _ _ (demo_start ++ [EWorker 1 (OSuiteRequest 7 []); EWorker 1 (OSuiteCancel 7)])
             (initial_page demo_renderer)); [apply reach_page|by repeat constructor|by vm_compute].
  - done.
  - split; [by vm_compute|]. apply H. by vm_compute.
Defined.

(** Two overlapping restarts leave a worker behind: both are alive, only the second is current,
    and stopping the page does not stop the first, whose output still reaches the terminal. *)
Example overlapping_starts_orphan :
  match demo_run [EStart; EStart; EStartLoaded 0 true; EStartLoaded 1 true; EStartCreated 0 true; EStartCreated 1 true; EStopClick;
                  EWorker 1 (OOutput (codes "still here"))] (initial_page demo_renderer) with
  | Some p => alive (wk p) = [1] ∧ Page.current (wk p) = None ∧ transcript (scr p) = codes "still here"
  | None => False
  end.
Proof. by vm_compute. Qed.
