(* ===== verification/Shell.v ===== *)
(** * The shell: the page and its workers

    app.js and worker.js run on two threads that share nothing but messages.  A
    [shell] is the page with the workers it has made; each worker has the two
    message queues of its port, given by what was posted on either side and how
    much of it has been delivered.  Queues keep order; [terminate] ends a worker
    and drops what is still under way in both directions, which is the behaviour
    of web workers.  Every worker has an engine of its own. *)

From stdpp Require Import base numbers list strings gmap.
From Stdlib Require Import ZArith Lia.
From S2P Require Import Prelude JsNum TermModel Utf8 Evidence Renderer Worker WorkerSafety WorkerLoop WorkerIds TestSuite Page PageTheorems.

#[local] Open Scope Z_scope.
#[local] Open Scope waste_scope.

(** A worker, the files of the [start] message it got, and how many messages it got and the page heard. *)
Record seat : Type := mkSeat {
  st_worker : worker; st_files : option (list packaged); st_received : nat; st_heard : nat }.

Record shell : Type := mkShell { pg : page; seats : gmap Z seat }.

Definition new_seat : seat := mkSeat Worker.initial None 0 0.

(** What the page posted to worker [w], oldest first. *)
Definition mailbox (w : Z) (p : page) : list posted := snd <$> filter (λ x : Z * posted, x.1 = w) (posts (wk p)).

(** The start message's files in the settings of a run. *)
Definition with_files (files : list packaged) (c : config) : config :=
  mkConfig (cfg_source c) (cfg_probe c) files (cfg_buildMtime c) (cfg_vfs c) (cfg_vfsPaths c) (cfg_limits c) (cfg_suite c)
    (cfg_shell c) (now_ms c) (setup_error_bytes c).

Inductive shell_event : Type :=
| SPage (e : Page.event)              (* an event of the page other than a worker's message *)
| SDeliver (w : Z)                    (* the worker's next message arrives *)
| SWorker (w : Z) (e : Worker.event)  (* a timer of the worker, its loop, or its engine is there *)
| SHear (w : Z).                      (* the page's next message from the worker arrives *)

Definition from_worker (e : Page.event) : bool := match e with EWorker _ _ => true | _ => false end.
Definition is_message (e : Worker.event) : bool := match e with EMsg _ => true | _ => false end.

Section shell.
Context (renderTest : renderer → bool * list Z) (results_json : list (bool * list Z * list Z) → list Z)
        (error_text : exn → list Z) (E : Z → engine) (cfg : Z → config).
#[local] Abbreviation pstep := (Page.step renderTest results_json error_text).

Definition config_of (w : Z) (s : seat) : config := with_files (default [] (st_files s)) (cfg w).

(** [new Worker(url)] gives the new worker a seat. *)
Definition seat_new (p p' : page) (m : gmap Z seat) : gmap Z seat :=
  if created (wk p) <? created (wk p') then <[created (wk p') := new_seat]> m else m.

Definition set_seat (w : Z) (s : seat) (sh : shell) : shell := mkShell (pg sh) (<[w := s]> (seats sh)).

Definition seat_of (w : Z) (sh : shell) : option seat :=
  if bool_decide (w ∈ alive (wk (pg sh))) then seats sh !! w else None.

(** The message [m] arrives at the worker; it is sent one start message (shown in ShellRequests). *)
Definition receive (w : Z) (m : posted) (s : seat) : option seat :=
  match m with
  | PStart files =>
    match st_files s with
    | None => Some (mkSeat (st_worker s) (Some files) (S (st_received s)) (st_heard s))
    | Some _ => None
    end
  | PMsg m =>
    v ← handle (E w) (config_of w s) (EMsg m) (st_worker s);
    Some (mkSeat v (st_files s) (S (st_received s)) (st_heard s))
  end.

Definition shell_step (e : shell_event) (sh : shell) : option (result fault shell) :=
  match e with
  | SPage e =>
    if from_worker e then None
    else
      r ← pstep e (pg sh);
      Some (let* p := r in Ok (mkShell p (seat_new (pg sh) p (seats sh))))
  | SDeliver w =>
    s ← seat_of w sh; m ← mailbox w (pg sh) !! st_received s; s' ← receive w m s; Some (Ok (set_seat w s' sh))
  | SWorker w e =>
    s ← seat_of w sh;
    if is_message e || bool_decide (st_files s = None) then None
    else
      v ← handle (E w) (config_of w s) e (st_worker s);
      Some (Ok (set_seat w (mkSeat v (st_files s) (st_received s) (st_heard s)) sh))
  | SHear w =>
    s ← seat_of w sh; o ← outbox (st_worker s) !! st_heard s;
    r ← pstep (EWorker w o) (pg sh);
    Some (let* p := r in Ok (mkShell p (<[w := mkSeat (st_worker s) (st_files s) (st_received s) (S (st_heard s))]> (seats sh))))
  end.

(** Texts of browser events are strings. *)
Definition shell_event_ok (e : shell_event) : Prop := match e with SPage e => event_ok e | _ => True end.

(** The page as loaded, and what can follow. *)
Inductive shell_reachable (r : renderer) : shell → Prop :=
| shell_init : shell_reachable r (mkShell (initial_page r) ∅)
| shell_next sh e sh' :
    shell_reachable r sh → shell_event_ok e → shell_step e sh = Some (Ok sh') → shell_reachable r sh'.

(** The same, when a restart is only asked for after the previous one is through. *)
Inductive shell_orderly (r : renderer) : shell → Prop :=
| shell_orderly_init : shell_orderly r (mkShell (initial_page r) ∅)
| shell_orderly_next sh e sh' :
    shell_orderly r sh → shell_event_ok e → (e = SPage EStart → settled_starts (wk (pg sh))) →
    shell_step e sh = Some (Ok sh') → shell_orderly r sh'.

Fixpoint run_shell (l : list shell_event) (sh : shell) : option shell :=
  match l with
  | [] => Some sh
  | e :: l' => match shell_step e sh with Some (Ok sh') => run_shell l' sh' | _ => None end
  end.

(** ** Each side sees the other as its own model assumes *)

Lemma orderly_reachable r sh : shell_orderly r sh → shell_reachable r sh.
Proof. induction 1 as [|sh e sh' _ IH He _ Hs]; [constructor|by eapply shell_next]. Qed.

(** Before the start message the settings do not matter. *)
Definition seat_ok (w : Z) (s : seat) : Prop :=
  match st_files s with
  | Some files => Worker.reachable (E w) (with_files files (cfg w)) (st_worker s)
  | None => ∀ files, Worker.reachable (E w) (with_files files (cfg w)) (st_worker s)
  end.

Definition seats_ok (m : gmap Z seat) : Prop := map_Forall seat_ok m.

Lemma seat_reachable w s : seat_ok w s → Worker.reachable (E w) (config_of w s) (st_worker s).
Proof. unfold seat_ok, config_of. by destruct (st_files s). Qed.

Lemma seats_ok_new p p' m : seats_ok m → seats_ok (seat_new p p' m).
Proof. intros H. unfold seat_new. destruct (_ <? _); [|done]. apply map_Forall_insert_2; [intros files; constructor|done]. Qed.

(** A worker's messages are numbered as the page expects. *)
Lemma heard_event_ok w s o : seat_ok w s → o ∈ outbox (st_worker s) → event_ok (EWorker w o).
Proof.
  intros Hs Ho. pose proof (reachable_ids _ _ _ (seat_reachable w s Hs)) as [Hord _ Hcan].
  destruct o; try done; [by apply (Hcan id)|]. simpl.
  destruct (increasing_range _ _ _ id Hord) as [? _]; [|done]. apply list_elem_of_omap. eexists. split; [done|]. done.
Qed.

Lemma receive_ok w m s s' : seat_ok w s → receive w m s = Some s' → seat_ok w s'.
Proof.
  unfold seat_ok, receive. intros Hs. destruct m as [files|m].
  - destruct (st_files s); [done|]. intros [= <-]. simpl. apply Hs.
  - destruct (handle (E w) (config_of w s) (EMsg m) (st_worker s)) as [v|] eqn:Hh; [|done]. simpl. intros [= <-]. simpl.
    destruct (st_files s) as [files|]; [|intros files]; (apply (reach_step _ _ (st_worker s) (EMsg m)); [apply Hs|exact Hh]).
Qed.

(** A step of the shell is a step of the page, of one worker, or a start message. *)
Lemma seats_ok_step e sh sh' : seats_ok (seats sh) → shell_step e sh = Some (Ok sh') → seats_ok (seats sh').
Proof.
  intros Hok. destruct e as [e|w|w e|w]; unfold shell_step.
  - destruct (from_worker e); [done|]. destruct (pstep e (pg sh)) as [[p|]|]; try done. simpl. intros [= <-]. by apply seats_ok_new.
  - unfold seat_of. case_bool_decide; [|done]. destruct (seats sh !! w) as [s|] eqn:Hs; [|done]. cbn [mbind option_bind].
    destruct (mailbox w (pg sh) !! st_received s) as [m|]; [|done]. simpl.
    destruct (receive w m s) as [s'|] eqn:Hr; [|done]. simpl. intros [= <-].
    apply map_Forall_insert_2; [|done]. eapply receive_ok; [by apply (Hok w)|done].
  - unfold seat_of. case_bool_decide; [|done]. destruct (seats sh !! w) as [s|] eqn:Hs; [|done]. cbn [mbind option_bind].
    destruct (is_message e); [done|]. case_bool_decide as Hf; [done|]. simpl.
    destruct (handle (E w) (config_of w s) e (st_worker s)) as [v|] eqn:Hh; [|done]. simpl. intros [= <-].
    apply map_Forall_insert_2; [|done]. pose proof (Hok w s Hs) as Hw. unfold seat_ok, config_of in *. simpl.
    destruct (st_files s) as [files|]; [|done]. by eapply reach_step.
  - unfold seat_of. case_bool_decide; [|done]. destruct (seats sh !! w) as [s|] eqn:Hs; [|done]. cbn [mbind option_bind].
    destruct (outbox (st_worker s) !! st_heard s) as [o|]; [|done]. cbn [mbind option_bind].
    destruct (pstep (EWorker w o) (pg sh)) as [[p|]|]; try done. simpl. intros [= <-].
    apply map_Forall_insert_2; [|done]. exact (Hok w s Hs).
Qed.

Lemma shell_seats_ok r sh : shell_reachable r sh → seats_ok (seats sh).
Proof. induction 1 as [|sh e sh' _ IH _ Hs]; [apply map_Forall_empty|by eapply seats_ok_step]. Qed.

(** What a step does to the page: nothing, or an event the page's model allows. *)
Lemma page_of_step e sh sh' :
  seats_ok (seats sh) → shell_event_ok e → shell_step e sh = Some (Ok sh') →
  pg sh' = pg sh ∨ ∃ pe, event_ok pe ∧ pstep pe (pg sh) = Some (Ok (pg sh')) ∧ (pe = EStart → e = SPage EStart).
Proof.
  intros Hok He. destruct e as [e|w|w e|w]; unfold shell_step.
  - destruct (from_worker e); [done|]. destruct (pstep e (pg sh)) as [[p|]|] eqn:Hp; try done. simpl. intros [= <-].
    right. exists e. split; [done|]. split; [done|]. by intros ->.
  - destruct (seat_of w sh) as [s|]; [|done]. cbn [mbind option_bind]. destruct (mailbox w (pg sh) !! st_received s) as [m|]; [|done]. simpl.
    destruct (receive w m s) as [s'|]; [|done]. intros [= <-]. by left.
  - destruct (seat_of w sh) as [s|]; [|done]. cbn [mbind option_bind]. destruct (_ || _); [done|].
    destruct (handle (E w) _ e (st_worker s)); [|done]. intros [= <-]. by left.
  - unfold seat_of. case_bool_decide as Ha; [|done]. destruct (seats sh !! w) as [s|] eqn:Hs; [|done]. cbn [mbind option_bind].
    destruct (outbox (st_worker s) !! st_heard s) as [o|] eqn:Ho; [|done]. cbn [mbind option_bind].
    destruct (pstep (EWorker w o) (pg sh)) as [[p|]|] eqn:Hp; try done. simpl. intros [= <-].
    right. exists (EWorker w o). split; [eapply heard_event_ok; [by apply (Hok w)|by eapply list_elem_of_lookup_2]|].
    by split.
Qed.

Lemma shell_page_reachable r sh : shell_reachable r sh → Page.reachable renderTest results_json error_text r (pg sh).
Proof.
  induction 1 as [|sh e sh' Hr IH He Hs]; [constructor|].
  destruct (page_of_step e sh sh' (shell_seats_ok r sh Hr) He Hs) as [-> |(pe & Hpe & Hst & _)]; [done|by eapply reach_event].
Qed.

Lemma shell_page_orderly r sh : shell_orderly r sh → orderly renderTest results_json error_text r (pg sh).
Proof.
  induction 1 as [|sh e sh' Hr IH He Hset Hs]; [constructor|].
  destruct (page_of_step e sh sh' (shell_seats_ok r sh (orderly_reachable r sh Hr)) He Hs) as [-> |(pe & Hpe & Hst & Hst')]; [done|].
  eapply orderly_step; eauto.
Qed.

Lemma run_shell_orderly r l sh sh' :
  shell_orderly r sh → Forall (λ e, shell_event_ok e ∧ e ≠ SPage EStart) l → run_shell l sh = Some sh' → shell_orderly r sh'.
Proof.
  intros Hp Hl. revert sh Hp. induction Hl as [|e l [He Hne] _ IH]; intros sh Hp; simpl; [by intros [= <-]|].
  destruct (shell_step e sh) as [[sh1|]|] eqn:Hs; [|done|done]. apply IH. by eapply shell_orderly_next.
Qed.
End shell.

(** ** A concrete shell

    One start of the page of [demo_page], with the same engine for every worker. *)
Definition demo_run_shell (E : engine) (c : config) : list shell_event → shell → option shell :=
  run_shell (λ _, (true, [])) (λ _, []) (λ _, []) (λ _, E) (λ _, c).

Definition demo_opened : shell := mkShell (startShell (initial_page demo_renderer)) ∅.

(** The files are there, the worker is made, gets its start message and runs. *)
Definition demo_boot : list shell_event :=
  [SPage (EStartLoaded 0 true); SPage (EStartCreated 0 true); SDeliver 1; SWorker 1 Worker.EStart; SWorker 1 ERun].

Definition demo_shell (E : engine) (c : config) (l : list shell_event) : shell :=
  default demo_opened (demo_run_shell E c (demo_boot ++ l) demo_opened).

Lemma demo_shell_orderly E c l :
  Forall (λ e, shell_event_ok e ∧ e ≠ SPage EStart) l →
  match demo_run_shell E c (demo_boot ++ l) demo_opened with Some _ => true | None => false end = true →
  shell_orderly (λ _, (true, [])) (λ _, []) (λ _, []) (λ _, E) (λ _, c) demo_renderer (demo_shell E c l).
Proof.
  intros Hl. unfold demo_shell. destruct (demo_run_shell E c (demo_boot ++ l) demo_opened) as [sh|] eqn:Hsh; [|done]. intros _. simpl.
  apply (run_shell_orderly _ _ _ _ _ _ (demo_boot ++ l) demo_opened); [| |exact Hsh].
  - apply (shell_orderly_next _ _ _ _ _ _ (mkShell (initial_page demo_renderer) ∅) (SPage EStart)); [constructor|done| |done].
    intros _. constructor.
  - apply Forall_app. split; [|done]. by repeat constructor.
Qed.
