(* ===== verification/ShellRequests.v ===== *)
(** * Requests and answers between the page and its workers

    A worker asks the page for a batch, a render test, the clipboard or a file.
    The ledger of a worker lists the answers the page has posted to it and the
    requests the page still has open for it; it never holds more than the worker
    asked for, so every answer belongs to a request, each request is answered at
    most once, and an answer has the number and the kind of its request. *)

From stdpp Require Import base numbers list strings gmap.
From Stdlib Require Import ZArith Lia.
From S2P Require Import Prelude JsNum TermModel Utf8 Evidence Renderer Worker WorkerSafety WorkerLoop WorkerTheorems WorkerIds TestSuite Page PageTheorems Shell.

#[local] Open Scope Z_scope.
#[local] Open Scope waste_scope.

Inductive kind : Type := KStart | KBatch | KRender | KClipboard | KUpload.

#[export] Instance kind_eq_dec : EqDecision kind.
Proof. solve_decision. Defined.

(** A request by its kind and number; uploads have none, and a new worker is due its start message. *)
Abbreviation key := (kind * Z)%type (only parsing).

Definition asked_key (o : out) : option key :=
  match o with
  | OSuiteRequest id _ => Some (KBatch, id)
  | ORenderRequest id => Some (KRender, id)
  | OClipboardRequest id _ => Some (KClipboard, id)
  | OUploadRequest _ => Some (KUpload, 0)
  | _ => None
  end.

Definition answered_key (m : posted) : option key :=
  match m with
  | PMsg (MSuiteResponse id _) => Some (KBatch, id)
  | PMsg (MRenderResponse id _) => Some (KRender, id)
  | PMsg (MClipboardResponse id _) => Some (KClipboard, id)
  | PMsg (MUploadResponse _ _) => Some (KUpload, 0)
  | PStart _ => Some (KStart, 0)
  | _ => None
  end.

(** ** Updating one entry of a list *)

Lemma omap_snoc {A B} (f : A → option B) (l : list A) a : omap f (l ++ [a]) = omap f l ++ option_list (f a).
Proof. rewrite omap_app. simpl. by destruct (f a). Qed.

Lemma omap_insert_same {A B} (f : A → option B) (l : list A) (i : nat) a a' :
  l !! i = Some a → f a' = f a → omap f (<[i := a']> l) = omap f l.
Proof.
  revert i. induction l as [|x l IH]; intros [|i] Hi Hf; simpl in *; try done.
  - injection Hi as ->. by rewrite Hf.
  - by rewrite IH.
Qed.

Lemma omap_insert_drop {A B} (f : A → option B) (l : list A) (i : nat) a a' b :
  l !! i = Some a → f a = Some b → f a' = None → b :: omap f (<[i := a']> l) ≡ₚ omap f l.
Proof.
  revert i. induction l as [|x l IH]; intros [|i] Hi Hf Hf'; simpl in *; try done.
  - injection Hi as ->. by rewrite Hf, Hf'.
  - destruct (f x); [|by apply IH]. rewrite <- (IH i) by done. by constructor.
Qed.

Section ledger.
Context (w : Z).

(** The open requests of [w]. *)
Definition clip_key (c : clip) : option key :=
  if bool_decide (c_requester c = Some w) && negb (c_replied c) then Some (KClipboard, c_id c) else None.
Definition upload_key (u : upload) : option key :=
  if bool_decide (up_requester u = Some w) && negb (up_replied u) then Some (KUpload, 0) else None.
Definition batch_key (b : batch) : option key :=
  if bool_decide (b_requester b = Some w) && negb (b_settled b) then Some (KBatch, b_id b) else None.

Definition answers (p : page) : list key := omap answered_key (mailbox w p).
Definition opened (h : host) : list key :=
  omap clip_key (clips h) ++ omap upload_key (uploads h) ++ omap batch_key (batches h).
Definition ledger (p : page) : list key := answers p ++ opened (hst p).

(** [p'] owes no more than [p] and the keys in [l]. *)
Definition owes (l : list key) (p p' : page) : Prop := ledger p' ⊆+ ledger p ++ l.

Lemma owes_same p p' : posts (wk p') = posts (wk p) → opened (hst p') = opened (hst p) → owes [] p p'.
Proof. intros H1 H2. unfold owes, ledger, answers, mailbox. by rewrite H1, H2, app_nil_r. Qed.

Lemma owes_trans l l' p p1 p2 : owes l p p1 → owes l' p1 p2 → owes (l ++ l') p p2.
Proof. unfold owes. intros H1 H2. etrans; [exact H2|]. rewrite app_assoc. by apply submseteq_app. Qed.

Lemma owes_then p p1 p2 l : owes [] p p1 → owes l p1 p2 → owes l p p2.
Proof. intros H1 H2. by apply (owes_trans [] l p p1). Qed.

(** What posting adds. *)
Definition posting (v : Z) (m : posted) : list key := if bool_decide (v = w) then option_list (answered_key m) else [].

Lemma answers_post v m p : answers (post_to v m p) = answers p ++ posting v m.
Proof.
  unfold answers, mailbox, posting. simpl. rewrite filter_app, fmap_app, omap_app. f_equal.
  rewrite filter_cons, filter_nil. simpl. case_decide as Hv; [rewrite bool_decide_eq_true_2 by done|by rewrite bool_decide_eq_false_2].
  simpl. by destruct (answered_key m).
Qed.

Lemma owes_post v m p : owes (posting v m) p (post_to v m p).
Proof. unfold owes, ledger. rewrite answers_post. simpl. solve_submseteq. Qed.

Lemma owes_quiet v m p : answered_key m = None → owes [] p (post_to v m p).
Proof. intros Hm. pose proof (owes_post v m p) as H. unfold posting in H. rewrite Hm in H. by destruct (bool_decide _). Qed.

Lemma owes_current m p : answered_key m = None → owes [] p (post_current m p).
Proof. intros Hm. unfold post_current. destruct (Page.current (wk p)); [by apply owes_quiet|by apply owes_same]. Qed.

(** A request of [q] is closed, whether or not it is answered. *)
Lemma owes_closed (q : option Z) k p p1 :
  posts (wk p1) = posts (wk p) →
  (q = Some w → k :: opened (hst p1) ≡ₚ opened (hst p)) → (q ≠ Some w → opened (hst p1) = opened (hst p)) → owes [] p p1.
Proof.
  intros Hp Hin Hout. unfold owes. rewrite app_nil_r. unfold ledger, answers, mailbox. rewrite Hp. apply submseteq_app; [done|].
  destruct (decide (q = Some w)) as [Hq|Hq]; [rewrite <- (Hin Hq); by apply submseteq_cons|by rewrite Hout].
Qed.

Lemma owes_reply q m k p p1 :
  posts (wk p1) = posts (wk p) → answered_key m = Some k →
  (q = Some w → k :: opened (hst p1) ≡ₚ opened (hst p)) → (q ≠ Some w → opened (hst p1) = opened (hst p)) →
  owes [] p (post_requester q m p1).
Proof.
  intros Hp Hk Hin Hout. pose proof (owes_closed q k p p1 Hp Hin Hout) as Hle.
  unfold post_requester. case_bool_decide; [|done]. destruct q as [v|]; [|done].
  pose proof (owes_post v m p1) as Hpost. unfold posting in Hpost. case_bool_decide as Hv.
  - subst v. rewrite Hk in Hpost. unfold owes in *. etrans; [exact Hpost|]. rewrite app_nil_r.
    unfold ledger, answers, mailbox. rewrite Hp, <- (Hin eq_refl). solve_submseteq.
  - by eapply owes_then.
Qed.

(** ** The page's functions *)

Lemma owes_reply_clip i ok p : owes [] p (reply_clip i ok p).
Proof.
  unfold reply_clip. destruct (clips (hst p) !! i) as [c|] eqn:Hi; [|by apply owes_same].
  destruct (c_replied c) eqn:Hr; [by apply owes_same|]. set (c1 := mkClip _ _ _ true _).
  apply (owes_reply _ _ (KClipboard, c_id c)); [done|done|..]; unfold opened; simpl; intros Hq.
  - rewrite <- (omap_insert_drop clip_key _ i c c1 (KClipboard, c_id c) Hi); [done|..]; unfold clip_key.
    + by rewrite Hq, Hr, bool_decide_eq_true_2.
    + by rewrite andb_false_r.
  - rewrite (omap_insert_same clip_key _ i c c1 Hi); [done|]. unfold clip_key. by rewrite !bool_decide_eq_false_2.
Qed.

Lemma owes_cancel p : owes [] p (cancel_clipboard p).
Proof. unfold cancel_clipboard. destruct (cancelClipboard (hst p)); [apply owes_reply_clip|by apply owes_same]. Qed.

Lemma owes_terminate p : owes [] p (terminate p).
Proof. unfold terminate. destruct (Page.current (wk p)); by apply owes_same. Qed.

Lemma owes_stop p : owes [] p (terminate (post_current (PMsg MStop) p)).
Proof. eapply owes_then; [by apply (owes_current (PMsg MStop))|apply owes_terminate]. Qed.

Lemma owes_finish p : owes [] p (Page.finish p).
Proof.
  unfold Page.finish. destruct (cancel_throws p); [apply owes_cancel|]. eapply owes_then; [apply owes_cancel|].
  eapply owes_then; [|by apply owes_same]. eapply owes_then; [|apply owes_stop]. by apply owes_same.
Qed.

Lemma owes_append text p p' : appendRaw text p = Ok p' → owes [] p p'.
Proof.
  intros H. apply owes_same; [|by rewrite (hst_append _ _ _ H)]. unfold appendRaw in H. destruct (write _ _); [|done]. simpl in H.
  destruct (append_evidence _ _). by injection H as <-.
Qed.

Lemma owes_append_finish line p p' : (let* p1 := append line p in Ok (Page.finish p1)) = Ok p' → owes [] p p'.
Proof.
  unfold append. destruct (appendRaw (line ++ [10]) p) as [p1|] eqn:Ha; [|done]. simpl. intros [= <-].
  eapply owes_then; [by eapply owes_append|apply owes_finish].
Qed.

Lemma owes_on_output text p p' : on_output text p = Ok p' → owes [] p p'.
Proof.
  unfold on_output. destruct (appendRaw text p) as [p1|] eqn:Ha; [|done]. simpl. apply owes_append in Ha.
  destruct (_ && _); intros [= <-]; [|done]. eapply owes_then; [exact Ha|by apply owes_same].
Qed.

(** A new request is open until it is answered. *)
Definition asking (v : Z) (o : out) : list key := if bool_decide (v = w) then option_list (asked_key o) else [].

Lemma owes_onmessage rt rj et v o p p' :
  Page.current (wk p) = Some v → Page.onmessage rt rj et v o p = Ok p' → owes (asking v o) p p'.
Proof.
  intros Hc. assert (∀ q, owes [] p q → owes (asking v o) p q) as Hnone.
  { intros q Hq. unfold owes in *. rewrite Hq, app_nil_r. by apply submseteq_inserts_r. }
  assert (∀ p1 p2 k, owes [] p p1 → posts (wk p2) = posts (wk p1) → asked_key o = Some k →
    opened (hst p2) ⊆+ opened (hst p1) ++ option_list (if bool_decide (Page.current (wk p) = Some w) && true then Some k else None) →
    owes (asking v o) p p2) as Hnew.
  { intros p1 p2 k H1 H2 H3 H4. apply (owes_then p p1); [done|]. unfold owes, asking, ledger, answers, mailbox. rewrite H2, H3.
    rewrite <- app_assoc. apply submseteq_app; [done|]. rewrite Hc in H4. etrans; [exact H4|].
    case_bool_decide as Hv; case_bool_decide as Hv'; simplify_eq/=; done. }
  destruct o; simpl; try (by intros [= <-]; apply Hnone, owes_same); try (intros H; apply Hnone; by apply owes_on_output in H).
  - destruct (_ =? _); intros [= <-]; by apply Hnone, owes_same.
  - intros [= <-]. eapply (Hnew p); [by apply owes_same|reflexivity|reflexivity|]. unfold opened. simpl. rewrite omap_snoc. unfold batch_key at 2. simpl.
    solve_submseteq.
  - intros [= <-]. unfold post_current. rewrite Hc. unfold owes, asking. apply owes_post.
  - intros [= <-]. unfold requestHostClipboard. destruct (cancel_throws p); [apply Hnone, owes_cancel|].
    eapply (Hnew (cancel_clipboard p)); [apply owes_cancel|reflexivity|reflexivity|]. unfold opened. simpl. rewrite omap_snoc. unfold clip_key at 2. simpl.
    solve_submseteq.
  - intros [= <-]. eapply (Hnew p); [by apply owes_same|reflexivity|reflexivity|]. unfold opened. simpl. rewrite omap_snoc. unfold upload_key at 2. simpl.
    solve_submseteq.
  - intros [= <-]. apply Hnone. unfold sendTerminalResize. eapply owes_then; [|by apply owes_current]. by apply owes_same.
  - destruct (startedAt _); intros H; apply Hnone; [|injection H as <-; by apply owes_same].
    apply owes_append in H. eapply owes_then; [|exact H]. by apply owes_same.
  - destruct (dn_mount_error d); simpl; [intros H; by apply Hnone, (owes_append_finish mount_error)|]. intros [= <-]. apply Hnone, owes_finish.
  - intros H. by apply Hnone, (owes_append_finish (et e)).
Qed.

(** What an event asks for. *)
Definition event_asks (p : page) (e : Page.event) : list key :=
  match e with
  | EWorker v o => asking v o
  | EStartCreated _ true => if bool_decide (created (wk p) + 1 = w) then [(KStart, 0)] else []
  | _ => []
  end.

Lemma owes_step rt rj et e p p' :
  (∀ v, v ∈ alive (wk p) → Page.current (wk p) = Some v) → Page.step rt rj et e p = Some (Ok p') → owes (event_asks p e) p p'.
Proof.
  intros Hc. destruct e; simpl; try (case_bool_decide as Hb; [|done]);
    try (intros [= <-]; apply owes_current; done); try (intros [= <-]; by apply owes_same).
  - intros [= <-]. unfold startShell. destruct (cancel_throws p); [apply owes_cancel|].
    eapply owes_then; [apply owes_cancel|]. eapply owes_then; [apply owes_stop|by apply owes_same].
  - intros [= <-]. destruct ok; by apply owes_same.
  - intros [= <-]. destruct ok; [|by apply owes_same]. unfold start_created. eapply owes_then; [|apply (owes_post (created (wk p) + 1))]. by apply owes_same.
  - intros [= H]. apply (owes_onmessage rt rj et); auto.
  - intros [= H]. by eapply owes_append_finish.
  - destruct (timers p); [done|]. intros [= <-]. unfold sendInputBytes. eapply owes_then; [|by apply owes_current]. by apply owes_same.
  - intros [= <-]. unfold clipboard_settled. destruct (clips (hst p) !! i) as [c|] eqn:Hi; [|by apply owes_same].
    destruct (negb (c_waiting c)); [by apply owes_same|]. set (p1 := set_hst _ p).
    assert (owes [] p p1) as H1.
    { apply owes_same; [done|]. unfold opened. simpl. by rewrite (omap_insert_same clip_key _ i c _ Hi). }
    destruct o; [|destruct (_ || _)]; (eapply owes_then; [exact H1|apply owes_reply_clip]).
  - intros [= <-]. unfold reply_upload. destruct (uploads (hst p) !! i) as [u|] eqn:Hi; [|by apply owes_same].
    destruct (up_replied u) eqn:Hr; [by apply owes_same|]. set (u1 := mkUpload _ true).
    apply (owes_reply _ _ (KUpload, 0)); [done|by destruct result|..]; unfold opened; simpl; intros Hq.
    + rewrite <- (omap_insert_drop upload_key _ i u u1 (KUpload, 0) Hi); [solve_Permutation| |by unfold upload_key; rewrite andb_false_r].
      unfold upload_key. by rewrite Hq, Hr, bool_decide_eq_true_2.
    + rewrite (omap_insert_same upload_key _ i u u1 Hi); [done|]. unfold upload_key. by rewrite !bool_decide_eq_false_2.
  - intros [= <-]. unfold batch_settled. destruct (batches (hst p) !! i) as [b|] eqn:Hi; [|by apply owes_same].
    destruct (b_settled b) eqn:Hr; [by apply owes_same|]. set (b1 := mkBatch _ _ _ true). set (p1 := set_hst _ p).
    assert (b_requester b = Some w → (KBatch, b_id b) :: opened (hst p1) ≡ₚ opened (hst p)) as Hin.
    { intros Hq. unfold opened. simpl. rewrite <- (omap_insert_drop batch_key _ i b b1 (KBatch, b_id b) Hi);
        [solve_Permutation| |by unfold batch_key; rewrite andb_false_r]. unfold batch_key. by rewrite Hq, Hr, bool_decide_eq_true_2. }
    assert (b_requester b ≠ Some w → opened (hst p1) = opened (hst p)) as Hout.
    { intros Hq. unfold opened. simpl. rewrite (omap_insert_same batch_key _ i b b1 Hi); [done|].
      unfold batch_key. by rewrite !bool_decide_eq_false_2. }
    destruct (batch_reply outcome); [by apply (owes_reply _ _ (KBatch, b_id b))|].
    by apply (owes_closed (b_requester b) (KBatch, b_id b)).
  - intros [= <-]. unfold cancel_looked_at. destruct (cancels (hst p)) as [|[v id] l]; by apply owes_same.
  - intros [= <-]. destruct (handleTerminalKeydown _ _).1; [by apply owes_current|by apply owes_same].
  - intros [= <-]. apply owes_finish.
  - intros [= <-]. unfold run_evidence. destruct (Page.current (wk p)); [|by apply owes_same]. unfold sendInputBytes.
    eapply owes_then; [|by apply owes_current]. by apply owes_same.
Qed.
End ledger.

(** ** The seats *)

(** A worker's messages stay posted. *)
Definition posted_before (l : list out) (v : worker) : Prop := l `prefix_of` outbox v.

Lemma closed_posted E l : closed E (posted_before l).
Proof.
  split; intros; try (apply keeps_upd; by intros w); [apply keeps_ask; by intros w|apply keeps_upd; intros w Hw; by apply prefix_app_r|..];
    intros w Hw; unfold wakeIO, resolve_waiter, mbind, M_bind, get; simpl; by destruct (ioResolve w).
Qed.

Lemma closed_loop_posted l : closed_loop (posted_before l).
Proof.
  split; intros; try (apply keeps_upd; by intros w); [|by apply keeps_decode_text].
  intros w Hw. unfold flushOutput, mbind, M_bind, get. simpl. destruct (pendingOutput w); [done|]. by apply prefix_app_r.
Qed.

Lemma outbox_grows E cfg e v v' : handle E cfg e v = Some v' → outbox v `prefix_of` outbox v'.
Proof.
  intros H. apply (closed_handle E cfg _ (closed_posted E (outbox v)) (closed_loop_posted (outbox v))) with e v; [|done|by unfold posted_before|done].
  intros poll u Hu. unfold waitForIO, mbind, M_bind, get. simpl. by destruct (ioPending u).
Qed.

(** The page takes back no message, revives no worker, and gets workers only in one place. *)
Record kept (p p' : page) : Prop := mkKept {
  kp_posts : posts (wk p) `prefix_of` posts (wk p');
  kp_created : created (wk p') = created (wk p);
  kp_alive : ∀ v, v ∈ alive (wk p') → v ∈ alive (wk p);
  kp_starts : ∀ i, starts (wk p') !! i = Some Creating → starts (wk p) !! i = Some Creating }.

#[export] Instance kept_preorder : PreOrder kept.
Proof.
  split; [by constructor|]. intros p q t [H1 H2 H3 H4] [H5 H6 H7 H8].
  constructor; [by trans (posts (wk q))|congruence|auto..].
Qed.

Lemma kept_same p p' :
  posts (wk p') = posts (wk p) → created (wk p') = created (wk p) → alive (wk p') = alive (wk p) → starts (wk p') = starts (wk p) →
  kept p p'.
Proof. intros H1 H2 H3 H4. constructor; by rewrite ?H1, ?H2, ?H3, ?H4. Qed.
Lemma kept_post v m p : kept p (post_to v m p).
Proof. constructor; try done. simpl. by apply prefix_app_r. Qed.
Lemma kept_current m p : kept p (post_current m p).
Proof. unfold post_current. destruct (Page.current (wk p)); [apply kept_post|done]. Qed.
Lemma kept_requester q m p : kept p (post_requester q m p).
Proof. unfold post_requester. case_bool_decide; [|done]. destruct q; [apply kept_post|done]. Qed.
Lemma kept_terminate p : kept p (terminate p).
Proof.
  unfold terminate. destruct (Page.current (wk p)); [|done]. constructor; try done. simpl. by intros v [_ Hv]%list_elem_of_filter.
Qed.
Lemma kept_reply i ok p : kept p (reply_clip i ok p).
Proof.
  unfold reply_clip. destruct (clips (hst p) !! i) as [c|]; [|done]. destruct (c_replied c); [done|].
  etrans; [|apply kept_requester]. by apply kept_same.
Qed.
Lemma kept_cancel p : kept p (cancel_clipboard p).
Proof. unfold cancel_clipboard. destruct (cancelClipboard (hst p)); [apply kept_reply|done]. Qed.
Lemma kept_stop p : kept p (terminate (post_current (PMsg MStop) p)).
Proof. etrans; [apply kept_current|apply kept_terminate]. Qed.
Lemma kept_finish p : kept p (Page.finish p).
Proof.
  unfold Page.finish. destruct (cancel_throws p); [apply kept_cancel|]. set (p2 := set_scr _ _).
  trans (cancel_clipboard p); [apply kept_cancel|]. trans p2; [by apply kept_same|].
  trans (terminate (post_current (PMsg MStop) p2)); [apply kept_stop|by apply kept_same].
Qed.
Lemma kept_append text p p' : appendRaw text p = Ok p' → kept p p'.
Proof. intros H%solo_append. apply kept_same; by rewrite H. Qed.
Lemma kept_append_finish line p p' : (let* p1 := append line p in Ok (Page.finish p1)) = Ok p' → kept p p'.
Proof.
  unfold append. destruct (appendRaw (line ++ [10]) p) as [p1|] eqn:Ha; [|done]. simpl. intros [= <-].
  etrans; [by eapply kept_append|apply kept_finish].
Qed.
Lemma kept_output text p p' : on_output text p = Ok p' → kept p p'.
Proof.
  unfold on_output. destruct (appendRaw text p) as [p1|] eqn:Ha; [|done]. simpl. apply kept_append in Ha.
  destruct (_ && _); intros [= <-]; [|done]. etrans; [exact Ha|by apply kept_same].
Qed.

Lemma kept_message rt rj et v o p p' : Page.onmessage rt rj et v o p = Ok p' → kept p p'.
Proof.
  destruct o; simpl; try (by intros [= <-]; apply kept_same); try apply kept_output; try apply kept_append_finish.
  - destruct (_ =? _); intros [= <-]; by apply kept_same.
  - intros [= <-]. apply kept_current.
  - intros [= <-]. unfold requestHostClipboard. destruct (cancel_throws p); [apply kept_cancel|].
    etrans; [apply kept_cancel|by apply kept_same].
  - intros [= <-]. unfold sendTerminalResize. etrans; [|apply kept_current]. by apply kept_same.
  - destruct (startedAt _); [|intros [= <-]; by apply kept_same]. intros H. apply kept_append in H. etrans; [|exact H]. by apply kept_same.
  - destruct (dn_mount_error d); [apply kept_append_finish|]. simpl. intros [= <-]. apply kept_finish.
Qed.

(** The only event that makes a worker, and the one before it. *)
Definition makes (e : Page.event) : bool := match e with EStartCreated _ true => true | _ => false end.
Definition orders (e : Page.event) : bool := match e with EStartLoaded _ true => true | _ => false end.

Lemma creating_insert i v p j : v ≠ Creating → <[i := v]> (starts (wk p)) !! j = Some Creating → starts (wk p) !! j = Some Creating.
Proof.
  intros Hv H. destruct (decide (i = j)) as [-> |Hij]; [|by rewrite list_lookup_insert_ne in H].
  apply list_lookup_insert_Some in H as [(_ & H & _)|[H _]]; congruence.
Qed.

Lemma kept_step rt rj et e p p' :
  Page.step rt rj et e p = Some (Ok p') → makes e = false → orders e = false → kept p p'.
Proof.
  intros H Hm Ho. revert H. destruct e; simpl; try (case_bool_decide as Hb; [|done]);
    try (intros [= <-]; first [apply kept_current|apply kept_finish|by apply kept_same]).
  - intros [= <-]. unfold startShell. destruct (cancel_throws p); [apply kept_cancel|].
    etrans; [apply kept_cancel|]. etrans; [apply kept_stop|]. constructor; try done. simpl. intros i Hi.
    apply lookup_snoc_Some in Hi as [[_ Hi]|[_ Hi]]; [done|discriminate].
  - intros [= <-]. destruct ok; [done|]. constructor; try done. intros j. by apply creating_insert.
  - intros [= <-]. destruct ok; [done|]. constructor; try done. intros j. by apply creating_insert.
  - intros [= H]. by eapply kept_message.
  - intros [= H]. by eapply kept_append_finish.
  - destruct (timers p); [done|]. intros [= <-]. unfold sendInputBytes. etrans; [|apply kept_current]. by apply kept_same.
  - intros [= <-]. unfold clipboard_settled. destruct (clips (hst p) !! i) as [c|]; [|done].
    destruct (negb (c_waiting c)); [done|]. destruct o; [|destruct (_ || _)]; (etrans; [|apply kept_reply]); by apply kept_same.
  - intros [= <-]. unfold reply_upload. destruct (uploads (hst p) !! i) as [u|]; [|done]. destruct (up_replied u); [done|].
    etrans; [|apply kept_requester]. by apply kept_same.
  - intros [= <-]. unfold batch_settled. destruct (batches (hst p) !! i) as [b|]; [|done]. destruct (b_settled b); [done|].
    destruct (batch_reply outcome); [etrans; [|apply kept_requester]|]; by apply kept_same.
  - intros [= <-]. unfold cancel_looked_at. destruct (cancels (hst p)) as [|[v id] l]; by apply kept_same.
  - intros [= <-]. destruct (handleTerminalKeydown _ _).1; [apply kept_current|done].
  - intros [= <-]. unfold run_evidence. destruct (Page.current (wk p)); [|done]. unfold sendInputBytes. simpl.
    etrans; [|apply kept_current]. by apply kept_same.
Qed.

(** The two events that are left out. *)
Lemma started_step rt rj et e p p' :
  Page.step rt rj et e p = Some (Ok p') → makes e = true ∨ orders e = true →
  (∃ i, e = EStartCreated i true ∧ starts (wk p) !! i = Some Creating ∧ p' = start_created i p) ∨
  (∃ i, e = EStartLoaded i true ∧ starts (wk p) !! i = Some Loading ∧ p' = start_loaded i p).
Proof.
  intros H Hm. destruct e; simpl in *; try (by destruct Hm); destruct ok; try (by destruct Hm); case_bool_decide; try done;
    injection H as <-; eauto.
Qed.

Lemma event_cases e : makes e = false ∧ orders e = false ∨ makes e = true ∨ orders e = true.
Proof. destruct (makes e), (orders e); auto. Qed.

Lemma posts_step rt rj et e p p' : Page.step rt rj et e p = Some (Ok p') → posts (wk p) `prefix_of` posts (wk p').
Proof.
  intros H. destruct (event_cases e) as [[Hm Ho]|Hm]; [apply (kept_step _ _ _ _ _ _ H Hm Ho)|].
  destruct (started_step _ _ _ _ _ _ H Hm) as [(i & _ & _ & ->)|(i & _ & _ & ->)]; simpl; [by apply prefix_app_r|done].
Qed.

Lemma created_step rt rj et e p p' :
  Page.step rt rj et e p = Some (Ok p') → created (wk p') = created (wk p) + if makes e then 1 else 0.
Proof.
  intros H. destruct (event_cases e) as [[Hm Ho]|Hm].
  - rewrite Hm, Z.add_0_r. apply (kept_step _ _ _ _ _ _ H Hm Ho).
  - destruct (started_step _ _ _ _ _ _ H Hm) as [(i & -> & _ & ->)|(i & -> & _ & ->)]; simpl; lia.
Qed.

Lemma created_mono rt rj et e p p' : Page.step rt rj et e p = Some (Ok p') → created (wk p) ≤ created (wk p').
Proof. intros ->%created_step. destruct (makes e); lia. Qed.

(** ** The whole shell *)

Section shell.
Context (renderTest : renderer → bool * list Z) (results_json : list (bool * list Z * list Z) → list Z)
        (error_text : exn → list Z) (E : Z → engine) (cfg : Z → config).
#[local] Abbreviation shell_step := (Shell.shell_step renderTest results_json error_text E cfg).
#[local] Abbreviation shell_orderly := (Shell.shell_orderly renderTest results_json error_text E cfg).

(** What the page has heard from a worker. *)
Definition heard (w : Z) (sh : shell) : list out :=
  match seats sh !! w with Some s => take (st_heard s) (outbox (st_worker s)) | None => [] end.

(** The requests heard, and the start message for a worker that was made. *)
Definition requests_of (w : Z) (sh : shell) : list key :=
  (if bool_decide (is_Some (seats sh !! w)) then [(KStart, 0)] else []) ++ omap asked_key (heard w sh).

(** Seats belong to workers that were made, and the page hears only what was posted. *)
Definition seats_made (sh : shell) : Prop :=
  map_Forall (λ w s, w ≤ created (wk (pg sh)) ∧ (st_heard s ≤ length (outbox (st_worker s)))%nat) (seats sh).

(** What a step of one worker does to its seat: more is posted, and maybe one message more is heard. *)
Inductive seat_step (w : Z) : seat → seat → list out → Prop :=
| seat_same s s' : outbox (st_worker s) `prefix_of` outbox (st_worker s') → st_heard s' = st_heard s → seat_step w s s' []
| seat_hears s s' o :
    st_worker s' = st_worker s → outbox (st_worker s) !! st_heard s = Some o → st_heard s' = S (st_heard s) → seat_step w s s' [o].

Lemma take_prefix {A} (a b : list A) n : a `prefix_of` b → (n ≤ length a)%nat → take n b = take n a.
Proof. intros [k ->] Hn. by rewrite take_app_le. Qed.

(** The steps of a shell. *)
Lemma shell_step_cases e sh sh' :
  shell_step e sh = Some (Ok sh') →
  (∃ pe, from_worker pe = false ∧ Page.step renderTest results_json error_text pe (pg sh) = Some (Ok (pg sh')) ∧
     seats sh' = seat_new (pg sh) (pg sh') (seats sh)) ∨
  (∃ w s s' l, w ∈ alive (wk (pg sh)) ∧ seats sh !! w = Some s ∧ seats sh' = <[w := s']> (seats sh) ∧ seat_step w s s' l ∧
     match l with
     | [] => pg sh' = pg sh
     | o :: _ => Page.step renderTest results_json error_text (EWorker w o) (pg sh) = Some (Ok (pg sh'))
     end).
Proof.
  destruct e as [e|w|w e|w]; unfold Shell.shell_step.
  - destruct (from_worker e) eqn:He; [done|]. destruct (Page.step _ _ _ e (pg sh)) as [[p|]|] eqn:Hp; try done. simpl. intros [= <-].
    left. by exists e.
  - unfold seat_of. case_bool_decide as Ha; [|done]. destruct (seats sh !! w) as [s|] eqn:Hs; [|done]. cbn [mbind option_bind].
    destruct (mailbox w (pg sh) !! st_received s) as [m|]; [|done]. cbn [mbind option_bind].
    destruct (receive E cfg w m s) as [s'|] eqn:Hr; [|done]. simpl. intros [= <-]. right. exists w, s, s', [].
    do 3 (split; [done|]). split; [|done]. unfold receive in Hr. destruct m as [files|m].
    + destruct (st_files s); [done|]. injection Hr as <-. by constructor.
    + destruct (handle _ _ _ _) as [v|] eqn:Hh; [|done]. simpl in Hr. injection Hr as <-. constructor; [|done].
      by eapply outbox_grows.
  - unfold seat_of. case_bool_decide as Ha; [|done]. destruct (seats sh !! w) as [s|] eqn:Hs; [|done]. cbn [mbind option_bind].
    destruct (_ || _); [done|]. destruct (handle _ _ e (st_worker s)) as [v|] eqn:Hh; [|done]. simpl. intros [= <-].
    right. eexists w, s, _, []. do 3 (split; [done|]). split; [|done]. constructor; [|done]. by eapply outbox_grows.
  - unfold seat_of. case_bool_decide as Ha; [|done]. destruct (seats sh !! w) as [s|] eqn:Hs; [|done]. cbn [mbind option_bind].
    destruct (outbox (st_worker s) !! st_heard s) as [o|] eqn:Ho; [|done]. cbn [mbind option_bind].
    destruct (Page.step _ _ _ (EWorker w o) (pg sh)) as [[p|]|] eqn:Hp; try done. simpl. intros [= <-].
    right. eexists w, s, _, [o]. do 3 (split; [done|]). split; [by constructor|done].
Qed.

Lemma seats_made_step e sh sh' : seats_made sh → shell_step e sh = Some (Ok sh') → seats_made sh'.
Proof.
  intros Hm Hst. apply shell_step_cases in Hst as [(pe & _ & Hp & Hs)|(w & s & s' & l & Ha & Hw & Hs & Hst & Hp)].
  - apply created_mono in Hp. unfold seats_made. rewrite Hs. unfold seat_new. destruct (_ <? _).
    + apply map_Forall_insert_2; [simpl; lia|]. eapply map_Forall_impl; [exact Hm|]. simpl. intros v u [? ?]. lia.
    + eapply map_Forall_impl; [exact Hm|]. simpl. intros v u [? ?]. lia.
  - assert (created (wk (pg sh)) ≤ created (wk (pg sh'))) as Hc.
    { destruct l as [|o l]; [by rewrite Hp|]. by eapply created_mono. }
    destruct (Hm w s Hw) as [H1 H2]. unfold seats_made. rewrite Hs. apply map_Forall_insert_2.
    + split; [lia|]. inversion Hst as [? ? Hpre Hh|? ? o Hwk Ho Hh]; subst; rewrite Hh.
      * apply prefix_length in Hpre. lia.
      * rewrite Hwk. by eapply lookup_lt_Some.
    + eapply map_Forall_impl; [exact Hm|]. simpl. intros v u [? ?]. lia.
Qed.

(** What has been heard of [w] grows by the message heard. *)
Lemma heard_seat w s s' l sh m :
  seats sh !! w = Some s → (st_heard s ≤ length (outbox (st_worker s)))%nat → seat_step w s s' l → seats m = <[w := s']> (seats sh) →
  heard w m = heard w sh ++ l ∧ ∀ v, v ≠ w → heard v m = heard v sh.
Proof.
  intros Hs Hle Hst Hm. unfold heard. split.
  - rewrite Hm, lookup_insert_eq, Hs. inversion Hst as [? ? Hpre Hh|? ? o Hwk Ho Hh]; subst; rewrite Hh.
    + rewrite app_nil_r. by apply take_prefix.
    + rewrite Hwk. by apply take_S_r.
  - intros v Hv. by rewrite Hm, lookup_insert_ne.
Qed.

Definition balanced (sh : shell) : Prop := ∀ w, ledger w (pg sh) ⊆+ requests_of w sh.

Lemma balanced_step e sh sh' :
  (∀ v, v ∈ alive (wk (pg sh)) → Page.current (wk (pg sh)) = Some v) → seats_made sh → balanced sh →
  shell_step e sh = Some (Ok sh') → balanced sh'.
Proof.
  intros Hc Hm Hb Hst w. apply shell_step_cases in Hst as [(pe & Hpe & Hp & Hs)|(v & s & s' & l & Ha & Hv & Hs & Hst & Hp)].
  - pose proof (created_step _ _ _ _ _ _ Hp) as Hcr. apply (owes_step w) in Hp; [|done]. etrans; [exact Hp|].
    unfold requests_of, heard. rewrite Hs. unfold seat_new. rewrite Hcr.
    destruct (makes pe) eqn:Hd.
    + destruct pe as [| |i []| | | | | | | | | | | | | | |]; try done. rewrite (proj2 (Z.ltb_lt _ _)) by lia.
      destruct (decide (w = created (wk (pg sh)) + 1)) as [-> |Hne].
      * simpl. rewrite bool_decide_eq_true_2 by done. rewrite lookup_insert_eq. simpl.
        pose proof (Hb (created (wk (pg sh)) + 1)) as Hz. unfold requests_of, heard in Hz.
        destruct (seats sh !! (created (wk (pg sh)) + 1)) as [s|] eqn:Hx; [destruct (Hm _ s Hx); lia|].
        rewrite bool_decide_eq_false_2 in Hz by (by intros []). simpl in Hz. apply submseteq_nil_r in Hz. by rewrite Hz.
      * simpl. rewrite bool_decide_eq_false_2, app_nil_r by congruence. rewrite lookup_insert_ne by congruence. apply Hb.
    + assert (event_asks w (pg sh) pe = []) as -> by (destruct pe; try done; by destruct ok).
      rewrite app_nil_r, (proj2 (Z.ltb_ge _ _)) by lia. apply Hb.
  - destruct (Hm v s Hv) as [_ Hle]. destruct (heard_seat v s s' l sh sh' Hv Hle Hst Hs) as [H1 H2].
    unfold requests_of. destruct (decide (w = v)) as [-> |Hne].
    + specialize (Hb v). unfold requests_of in Hb. rewrite Hv in Hb. rewrite Hs, lookup_insert_eq.
      rewrite bool_decide_eq_true_2 in Hb |- * by (by eexists). rewrite H1, omap_app. inversion Hst as [? ? Hpre Hh|? ? o Hwk Ho Hh]; subst l.
      * rewrite Hp. simpl. by rewrite app_nil_r.
      * apply (owes_step v) in Hp; [|done]. unfold owes, event_asks, asking in Hp. rewrite bool_decide_eq_true_2 in Hp by done.
        etrans; [exact Hp|]. change (omap asked_key [o]) with (omap asked_key ([] ++ [o])). rewrite omap_snoc, app_assoc. by apply submseteq_app.
    + rewrite H2 by done. rewrite Hs, lookup_insert_ne by congruence. etrans; [|apply (Hb w)]. destruct l as [|o l]; [by rewrite Hp|].
      apply (owes_step w) in Hp; [|done]. unfold owes, event_asks, asking in Hp.
      rewrite bool_decide_eq_false_2, app_nil_r in Hp by congruence. done.
Qed.

Lemma orderly_current r sh : shell_orderly r sh → ∀ v, v ∈ alive (wk (pg sh)) → Page.current (wk (pg sh)) = Some v.
Proof. intros H. apply shell_page_orderly in H. destruct (orderly_solo _ _ _ r _ H) as [_ Hs]. apply Hs. Qed.

Lemma orderly_balanced r sh : shell_orderly r sh → seats_made sh ∧ balanced sh.
Proof.
  induction 1 as [|sh e sh' Hr [IH1 IH2] _ _ Hs]; [split; [apply map_Forall_empty|by intros w]|].
  split; [by eapply seats_made_step|]. eapply balanced_step; eauto. by eapply orderly_current.
Qed.
(** The kinds that carry a number. *)
Definition numbered (k : key) : bool := match k.1 with KBatch | KRender | KClipboard => true | _ => false end.
Definition numbers (l : list key) : list Z := snd <$> filter (λ k, numbered k = true) l.

Lemma numbers_app l1 l2 : numbers (l1 ++ l2) = numbers l1 ++ numbers l2.
Proof. unfold numbers. by rewrite filter_app, fmap_app. Qed.

Lemma numbers_asked l : numbers (omap asked_key l) = request_ids l.
Proof.
  induction l as [|o l IH]; [done|]. unfold request_ids in *. unfold numbers in *.
  destruct o; simpl; rewrite ?filter_cons; try case_decide; simplify_eq/=; try done; f_equal; exact IH.
Qed.

Lemma numbers_submseteq l1 l2 : l1 ⊆+ l2 → NoDup (numbers l2) → NoDup (numbers l1).
Proof.
  intros [k Hk]%submseteq_Permutation H. unfold numbers in *. rewrite Hk, filter_app, fmap_app in H. by apply NoDup_app in H as [H _].
Qed.

Lemma request_numbers_distinct r sh w :
  Shell.shell_reachable renderTest results_json error_text E cfg r sh → NoDup (numbers (requests_of w sh)).
Proof.
  intros Hr. unfold requests_of. rewrite numbers_app, numbers_asked. unfold heard.
  destruct (seats sh !! w) as [s|] eqn:Hs; [|constructor]. rewrite bool_decide_eq_true_2 by (by eexists). simpl.
  pose proof (shell_seats_ok _ _ _ E cfg r sh Hr w s Hs) as Hok. apply (seat_reachable E cfg) in Hok.
  pose proof (id_order _ (reachable_ids _ _ _ Hok)) as Hord. apply increasing_NoDup in Hord.
  rewrite <- (take_drop (st_heard s) (outbox (st_worker s))), request_ids_app in Hord. by apply NoDup_app in Hord as [Hord _].
Qed.

(** C2: Requests and answers match across the two threads. In every run with orderly restarts, with any
    engines and any interleaving of both event loops and their message queues, the answers the page
    has posted to a worker are, counted with repetitions, among the requests it has heard from
    that same worker, kind for kind and number for number; a worker gets one start message; and
    no number is ever answered twice. *)
Theorem answers_match_requests r sh w :
  shell_orderly r sh →
  answers w (pg sh) ⊆+ requests_of w sh ∧ NoDup (numbers (answers w (pg sh))) ∧
  (length (filter (λ k, k = (KStart, 0%Z)) (answers w (pg sh))) ≤ 1)%nat.
Proof.
  intros Hr. destruct (orderly_balanced r sh Hr) as [_ Hb].
  assert (answers w (pg sh) ⊆+ requests_of w sh) as Ha by (etrans; [|apply (Hb w)]; unfold ledger; by apply submseteq_inserts_r).
  split; [done|]. split; [apply (numbers_submseteq _ _ Ha); apply (request_numbers_distinct r); by apply orderly_reachable|].
  trans (length (filter (λ k : key, k = (KStart, 0)) (requests_of w sh))).
  { apply submseteq_Permutation in Ha as [k ->]. rewrite filter_app, length_app. lia. }
  unfold requests_of. rewrite filter_app, length_app.
  assert (∀ l, filter (λ k : key, k = (KStart, 0)) (omap asked_key l) = []) as ->.
  { intros l. induction l as [|o l IH]; [done|]. destruct o; simpl; rewrite ?filter_cons; try case_decide; simplify_eq/=; rewrite ?IH; done. }
  destruct (bool_decide _); [rewrite filter_cons; case_decide|]; simpl; lia.
Qed.
End shell.

(** A clipboard request, carried out, answered and heard by the engine. *)
Definition clip_events : list shell_event :=
  [SHear 1; SHear 1; SHear 1; SPage (EClipboard 0 Written); SDeliver 1; SWorker 1 ERun; SDeliver 1; SWorker 1 ERun].

Lemma answers_match_requests_witness :
  let sh := demo_shell clip_engine fake_config clip_events in
  answers 1 (pg sh) = [(KStart, 0); (KClipboard, 1)] ∧ answers 1 (pg sh) ⊆+ requests_of 1 sh ∧
  NoDup (numbers (answers 1 (pg sh))).
Proof.
  intros sh. destruct (answers_match_requests (λ _, (true, [])) (λ _, []) (λ _, []) (λ _, clip_engine) (λ _, fake_config)
    demo_renderer sh 1) as (H1 & H2 & _).
  - apply demo_shell_orderly; [by repeat constructor|]. by vm_compute.
  - split; [by vm_compute|]. by split.
Defined.
