(* ===== verification/ShellTheorems.v ===== *)
(** * Theorems on the whole shell

    From the keyboard to the engine, and from the engine to the screen: what is
    typed on the page reaches the engine of the worker it was typed for, and what
    the terminal shows is what the engine wrote. *)

From stdpp Require Import base numbers list strings gmap.
From Stdlib Require Import ZArith Lia.
From S2P Require Import Prelude JsNum TermModel TermSafety TermParser TermFrame Utf8 Utf8Scalars WatFloat Evidence Renderer Worker WorkerSafety WorkerLoop WorkerTheorems WorkerInput WorkerIds TestSuite Page PageTheorems Shell ShellRequests.

#[local] Open Scope Z_scope.
#[local] Open Scope waste_scope.

(** ** Input *)

(** The input in a list of messages. *)
Definition input_of (m : posted) : list Z := match m with PMsg (MInput bytes) => bytes | _ => [] end.
Definition inputs_in (l : list posted) : list Z := l ≫= input_of.

Lemma inputs_in_app l1 l2 : inputs_in (l1 ++ l2) = inputs_in l1 ++ inputs_in l2.
Proof. apply bind_app. Qed.

Lemma inputs_in_prefix l1 l2 : l1 `prefix_of` l2 → inputs_in l1 `prefix_of` inputs_in l2.
Proof. intros [k ->]. rewrite inputs_in_app. by apply prefix_app_r. Qed.

Lemma mailbox_prefix w p p' : posts (wk p) `prefix_of` posts (wk p') → mailbox w p `prefix_of` mailbox w p'.
Proof. intros [k Hk]. unfold mailbox. rewrite Hk, filter_app, fmap_app. by apply prefix_app_r. Qed.

Section shell.
Context (renderTest : renderer → bool * list Z) (results_json : list (bool * list Z * list Z) → list Z)
        (error_text : exn → list Z) (E : Z → engine) (cfg : Z → config).
#[local] Abbreviation shell_step := (Shell.shell_step renderTest results_json error_text E cfg).
#[local] Abbreviation shell_reachable := (Shell.shell_reachable renderTest results_json error_text E cfg).
#[local] Abbreviation shell_orderly := (Shell.shell_orderly renderTest results_json error_text E cfg).

(** An engine that grants its buffers and converts no literal outside the guest. *)
Definition generous (w : Z) : Prop := Quiet (E w) ∧ Grants (E w).

(** What worker [w] accounts for, against what it has received. *)
Record seat_input (w : Z) (box : list posted) (s : seat) : Prop := {
  si_received : (st_received s ≤ length box)%nat;
  si_sublist : account (st_worker s) `sublist_of` inputs_in (take (st_received s) box);
  si_exact : generous w → 3 ∉ inputs_in box → zlen (inputs_in box) ≤ pendingInputLimit →
    account (st_worker s) = inputs_in (take (st_received s) box) }.

Lemma seat_input_more w box box' s : box `prefix_of` box' → seat_input w box s → seat_input w box' s.
Proof.
  intros Hp [H1 H2 H3]. destruct (inputs_in_prefix _ _ Hp) as [k Hk]. destruct Hp as [l ->].
  constructor; [rewrite length_app; lia|by rewrite take_app_le|]. intros Hg H4 H5. rewrite take_app_le by done.
  rewrite Hk in H4, H5. apply not_elem_of_app in H4 as [H4 _]. rewrite zlen_app in H5. pose proof (zlen_nonneg k). apply H3; auto. lia.
Qed.

(** An event of the worker that is no message leaves the account as it is, or loses some of it. *)
Lemma seat_input_event w box s e v :
  seat_ok E cfg w s → seat_input w box s → is_message e = false → handle (E w) (config_of cfg w s) e (st_worker s) = Some v →
  seat_input w box (mkSeat v (st_files s) (st_received s) (st_heard s)).
Proof.
  intros Hok [H1 H2 H3] He Hh. pose proof (seat_reachable E cfg w s Hok) as Hr.
  assert (typed e = []) as Ht by (by destruct e).
  constructor; simpl; [done|..].
  - pose proof (handle_account _ _ e _ v (reachable_unstarted _ _ _ Hr) Hh) as Ha. rewrite Ht, app_nil_r in Ha. by trans (account (st_worker s)).
  - intros Hg H4 H5. specialize (H3 Hg H4 H5). destruct Hg as [HQ HG].
    assert (inputs_in (take (st_received s) box) `prefix_of` inputs_in box) as [k Hk] by (apply inputs_in_prefix, prefix_take).
    rewrite (handle_exact (E w) (config_of cfg w s) e (st_worker s) v Hr); [by rewrite Ht, app_nil_r|..|done]; rewrite Ht, app_nil_r, H3.
    + intros Hx. apply H4. rewrite Hk. apply elem_of_app. by left.
    + rewrite Hk, zlen_app in H5. pose proof (zlen_nonneg k). lia.
Qed.

(** A message that arrives. *)
Lemma seat_input_receive w box s s' m :
  seat_ok E cfg w s → seat_input w box s → box !! st_received s = Some m → receive E cfg w m s = Some s' → seat_input w box s'.
Proof.
  intros Hok [H1 H2 H3] Hm Hrec. pose proof (seat_reachable E cfg w s Hok) as Hr.
  assert (inputs_in (take (S (st_received s)) box) = inputs_in (take (st_received s) box) ++ input_of m) as Hin.
  { rewrite (take_S_r _ _ _ Hm), inputs_in_app. f_equal. unfold inputs_in. simpl. apply app_nil_r. }
  pose proof (lookup_lt_Some _ _ _ Hm) as Hlt. unfold receive in Hrec. destruct m as [files|m].
  - destruct (st_files s); [done|]. injection Hrec as <-. constructor; simpl; [lia|rewrite Hin, app_nil_r; done|].
    rewrite Hin, app_nil_r. done.
  - destruct (handle _ _ _ _) as [v|] eqn:Hh; [|done]. simpl in Hrec. injection Hrec as <-.
    assert (typed (EMsg m) = input_of (PMsg m)) as Ht by (by destruct m).
    constructor; simpl; [lia|..]; rewrite Hin.
    + etrans; [apply (handle_account _ _ _ _ _ (reachable_unstarted _ _ _ Hr) Hh)|]. rewrite Ht. by apply sublist_app.
    + intros Hg H4 H5. specialize (H3 Hg H4 H5). destruct Hg as [HQ HG].
      assert (inputs_in (take (S (st_received s)) box) `prefix_of` inputs_in box) as [k Hk] by (apply inputs_in_prefix, prefix_take).
      rewrite Hin in Hk.
      rewrite (handle_exact (E w) (config_of cfg w s) (EMsg m) (st_worker s) v Hr); [by rewrite Ht, H3|..|done]; rewrite Ht, H3.
      * intros Hx. apply H4. rewrite Hk. apply elem_of_app. by left.
      * rewrite Hk, zlen_app in H5. pose proof (zlen_nonneg k). lia.
Qed.

Definition inputs_ok (sh : shell) : Prop := map_Forall (λ w s, seat_input w (mailbox w (pg sh)) s) (seats sh).

Lemma seat_input_new w box : seat_input w box new_seat.
Proof. constructor; simpl; [lia|by apply sublist_nil_l|done]. Qed.

Lemma inputs_ok_step e sh sh' : seats_ok E cfg (seats sh) → inputs_ok sh → shell_step e sh = Some (Ok sh') → inputs_ok sh'.
Proof.
  intros Hok Hin.
  assert (∀ p, posts (wk (pg sh)) `prefix_of` posts (wk p) → inputs_ok (mkShell p (seats sh))) as Hmore.
  { intros p Hp. eapply map_Forall_impl; [exact Hin|]. intros v u Hu. simpl. eapply seat_input_more; [|exact Hu]. by apply mailbox_prefix. }
  destruct e as [e|w|w e|w]; unfold Shell.shell_step.
  - destruct (from_worker e); [done|]. destruct (Page.step _ _ _ e (pg sh)) as [[p|]|] eqn:Hp; try done. simpl. intros [= <-].
    apply posts_step in Hp. specialize (Hmore p Hp). unfold inputs_ok, seat_new. simpl. destruct (_ <? _); [|done].
    apply map_Forall_insert_2; [apply seat_input_new|done].
  - unfold seat_of. case_bool_decide; [|done]. destruct (seats sh !! w) as [s|] eqn:Hs; [|done]. cbn [mbind option_bind].
    destruct (mailbox w (pg sh) !! st_received s) as [m|] eqn:Hm; [|done]. cbn [mbind option_bind].
    destruct (receive E cfg w m s) as [s'|] eqn:Hr; [|done]. simpl. intros [= <-].
    apply map_Forall_insert_2; [|done]. eapply seat_input_receive; [by apply (Hok w)|by apply (Hin w)|done|done].
  - unfold seat_of. case_bool_decide; [|done]. destruct (seats sh !! w) as [s|] eqn:Hs; [|done]. cbn [mbind option_bind].
    destruct (is_message e) eqn:He; [done|]. simpl. case_bool_decide; [done|].
    destruct (handle _ _ e (st_worker s)) as [v|] eqn:Hh; [|done]. simpl. intros [= <-].
    apply map_Forall_insert_2; [|done]. eapply seat_input_event; [by apply (Hok w)|by apply (Hin w)|done|done].
  - unfold seat_of. case_bool_decide; [|done]. destruct (seats sh !! w) as [s|] eqn:Hs; [|done]. cbn [mbind option_bind].
    destruct (outbox (st_worker s) !! st_heard s) as [o|]; [|done]. cbn [mbind option_bind].
    destruct (Page.step _ _ _ (EWorker w o) (pg sh)) as [[p|]|] eqn:Hp; try done. simpl. intros [= <-].
    apply posts_step in Hp. specialize (Hmore p Hp). apply map_Forall_insert_2; [|done].
    destruct (Hmore w s Hs). by constructor.
Qed.

Lemma reachable_inputs r sh : shell_reachable r sh → inputs_ok sh.
Proof.
  induction 1 as [|sh e sh' Hr IH _ Hs]; [apply map_Forall_empty|]. eapply inputs_ok_step; eauto. by eapply shell_seats_ok.
Qed.

(** C3: What is typed reaches the engine. In every run of the shell, with any engines, the bytes worker [w]
    has handed to its engine, followed by those it keeps until the engine is ready, are a
    subsequence of the bytes the page posted to it: no byte is invented, repeated or moved.
    With an engine that grants its buffers, no Ctrl-C, and no more than the 4096
    bytes the worker may hold back, none is lost either: once all messages have arrived and the
    engine is ready, it has been given exactly what the page posted. *)
Theorem typed_input_reaches_engine r sh w s :
  shell_reachable r sh → seats sh !! w = Some s →
  let typed := inputs_in (mailbox w (pg sh)) in
  account (st_worker s) `sublist_of` typed ∧
  (generous w → 3 ∉ typed → zlen typed ≤ 4096 → st_received s = length (mailbox w (pg sh)) →
   account (st_worker s) = typed ∧ (engineReady (st_worker s) = true → concat (inputs_of (calls (st_worker s))) = typed)).
Proof.
  intros Hr Hs typed. destruct (reachable_inputs r sh Hr w s Hs) as [H1 H2 H3]. split.
  - etrans; [exact H2|]. unfold typed. destruct (inputs_in_prefix _ _ (prefix_take (mailbox w (pg sh)) (st_received s))) as [k ->].
    by apply sublist_inserts_r.
  - intros Hg H4 H5 H6. specialize (H3 Hg H4 H5). rewrite H6, firstn_all in H3. split; [done|]. intros Hready.
    unfold account in H3. by rewrite Hready, app_nil_r in H3.
Qed.
End shell.

(** ** An engine that greets

    It writes a prompt when it starts and an answer whenever it is resumed. *)
Definition hello_engine : engine :=
  mkEngine (λ _ c, match c with Alloc _ => 64 | WaitKind | Resume | StartShell => 1 | _ => 0 end)
    (λ _ c, match c with StartShell => [HostWrite 1 (codes "# ")] | Resume => [HostWrite 1 (codes "hi")] | _ => [] end)
    (λ _ _ _, []) (λ _ _, []).

#[export] Instance hello_quiet : Quiet hello_engine.
Proof. intros h c Hc. destruct c; try done; constructor. Qed.

#[export] Instance hello_grants : Grants hello_engine.
Proof. by intros h n. Qed.

(** A paste that has arrived, and one more message of the guest heard. *)
Definition hello_events : list shell_event :=
  [SHear 1; SHear 1; SHear 1; SPage (EPaste (codes "ls")); SDeliver 1; SWorker 1 ERun; SWorker 1 ERun; SDeliver 1; SWorker 1 ERun; SHear 1].

Definition hello_shell : shell := demo_shell hello_engine fake_config hello_events.
Definition hello_seat : seat := default new_seat (seats hello_shell !! 1).

Lemma hello_orderly : shell_orderly (λ _, (true, [])) (λ _, []) (λ _, []) (λ _, hello_engine) (λ _, fake_config) demo_renderer hello_shell.
Proof.
  apply demo_shell_orderly; [|by vm_compute]. repeat (apply Forall_cons; split; [split; [|discriminate]|]); try done; try constructor.
Qed.

Lemma typed_input_reaches_engine_witness :
  inputs_in (mailbox 1 (pg hello_shell)) = codes "ls" ∧ concat (inputs_of (calls (st_worker hello_seat))) = codes "ls".
Proof.
  split; [by vm_compute|].
  destruct (typed_input_reaches_engine (λ _, (true, [])) (λ _, []) (λ _, []) (λ _, hello_engine) (λ _, fake_config)
    demo_renderer hello_shell 1 hello_seat) as [_ H].
  - apply orderly_reachable, hello_orderly.
  - by vm_compute.
  - destruct H as [_ H]; [by split; [apply hello_quiet|apply hello_grants]|..].
    + apply (bool_decide_unpack _). by vm_compute.
    + by vm_compute.
    + by vm_compute.
    + rewrite H by (by vm_compute). by vm_compute.
Defined.
