(* ===== verification/ShellScreen.v ===== *)
(** * From the engine to the screen

    The terminal of the page shows the messages of the current worker and nothing
    else: it is the cleared terminal of the last start after the texts heard since. *)

From stdpp Require Import base numbers list strings gmap.
From Stdlib Require Import ZArith Lia.
From S2P Require Import Prelude JsNum TermModel TermSafety TermParser TermFrame Utf8 Utf8Scalars WatFloat Evidence Renderer Worker WorkerSafety WorkerLoop WorkerTheorems WorkerIds TestSuite Page PageTheorems Shell ShellRequests ShellTheorems.

#[local] Open Scope Z_scope.
#[local] Open Scope waste_scope.

(** ** The page's screen *)

Lemma scr_current m p : scr (post_current m p) = scr p.
Proof. unfold post_current. by destruct (Page.current (wk p)). Qed.
Lemma scr_requester q m p : scr (post_requester q m p) = scr p.
Proof. unfold post_requester. case_bool_decide; [|done]. by destruct q. Qed.
Lemma scr_terminate p : scr (terminate p) = scr p.
Proof. unfold terminate. by destruct (Page.current (wk p)). Qed.
Lemma scr_reply i ok p : scr (reply_clip i ok p) = scr p.
Proof. unfold reply_clip. destruct (clips (hst p) !! i) as [c|]; [|done]. destruct (c_replied c); [done|]. by rewrite scr_requester. Qed.
Lemma scr_cancel p : scr (cancel_clipboard p) = scr p.
Proof. unfold cancel_clipboard. destruct (cancelClipboard (hst p)); [apply scr_reply|done]. Qed.
Lemma model_finish p : model (scr (Page.finish p)) = model (scr p).
Proof.
  unfold Page.finish. destruct (cancel_throws p); [by rewrite scr_cancel|]. simpl. rewrite scr_terminate, scr_current. simpl. by rewrite scr_cancel.
Qed.

Create Rewrite HintDb screen.
#[export] Hint Rewrite scr_current scr_requester scr_terminate scr_reply scr_cancel model_finish : screen.

(** The events that may write on the terminal. *)
Definition writes (e : Page.event) : bool := match e with EWorker _ _ | EWorkerError _ _ => true | _ => orders e end.

Lemma model_step rt rj et e p p' :
  Page.step rt rj et e p = Some (Ok p') → writes e = false → model (scr p') = model (scr p).
Proof.
  intros H Hw. revert H. destruct e; simpl in *; try done; try (case_bool_decide as Hb; [|done]);
    try (intros [= <-]; unfold sendInputBytes, sendTerminalResize; autorewrite with screen; done).
  - intros [= <-]. unfold startShell. destruct (cancel_throws p); simpl; by autorewrite with screen.
  - intros [= <-]. by destruct ok.
  - intros [= <-]. by destruct ok.
  - destruct (timers p); [done|]. intros [= <-]. unfold sendInputBytes. by autorewrite with screen.
  - intros [= <-]. unfold clipboard_settled. destruct (clips (hst p) !! i) as [c|]; [|done].
    destruct (negb (c_waiting c)); [done|]. destruct o; [|destruct (_ || _)]; by autorewrite with screen.
  - intros [= <-]. unfold reply_upload. destruct (uploads (hst p) !! i) as [u|]; [|done]. destruct (up_replied u); [done|].
    by autorewrite with screen.
  - intros [= <-]. unfold batch_settled. destruct (batches (hst p) !! i) as [b|]; [|done]. destruct (b_settled b); [done|].
    destruct (batch_reply outcome); by autorewrite with screen.
  - intros [= <-]. unfold cancel_looked_at. by destruct (cancels (hst p)) as [|[v id] l].
  - intros [= <-]. destruct (handleTerminalKeydown _ _).1; [|done]. unfold sendInputBytes. by autorewrite with screen.
  - intros [= <-]. unfold run_evidence. destruct (Page.current (wk p)); [|done]. unfold sendInputBytes. simpl. by autorewrite with screen.
Qed.

Section screen.
Context (renderTest : renderer → bool * list Z) (results_json : list (bool * list Z * list Z) → list Z)
        (error_text : exn → list Z).

(** The text a message puts on the terminal while the worker goes on. *)
Definition shown (o : out) : list Z :=
  match o with
  | OOutput text => units text
  | OEvidence text => codes "WASTE_TRANSITION_EVIDENCE=" ++ units text ++ [10]
  | ODoneResults results => codes "WASTE_DONE_RESULTS=" ++ results_json results ++ [10]
  | _ => []
  end.

(** The terminal after some messages. *)
Definition screen_after (l : list out) (t : term) : result fault term := foldM (λ o, write (points (shown o))) l t.

Lemma model_append text p p' : appendRaw text p = Ok p' → write (points text) (model (scr p)) = Ok (model (scr p')).
Proof. unfold appendRaw. destruct (write _ _) as [t|]; [|done]. simpl. destruct (append_evidence _ _). by intros [= <-]. Qed.

Lemma model_output text p p' : on_output text p = Ok p' → write (points text) (model (scr p)) = Ok (model (scr p')).
Proof.
  unfold on_output. destruct (appendRaw text p) as [p1|] eqn:Ha; [|done]. simpl. apply model_append in Ha.
  destruct (_ && _); by intros [= <-].
Qed.

(** The end of a worker leaves none alive. *)
Lemma alive_append_finish line p p' :
  named p → solo (wk p) → (let* p1 := append line p in Ok (Page.finish p1)) = Ok p' → alive (wk p') = [].
Proof.
  intros Hn H. unfold append. destruct (appendRaw (line ++ [10]) p) as [p1|] eqn:Ha; [|done]. simpl. intros [= <-].
  apply finish_all; [|by rewrite (solo_append _ _ _ Ha)]. unfold named. by rewrite (requesters_same p p1) by (by rewrite (hst_append _ _ _ Ha)).
Qed.

(** A worker that is alive after its message has put the message's text on the terminal. *)
Lemma model_message v o p p' :
  named p → solo (wk p) → Page.onmessage renderTest results_json error_text v o p = Ok p' → v ∈ alive (wk p') →
  write (points (shown o)) (model (scr p)) = Ok (model (scr p')).
Proof.
  intros Hn Hs H Hv. destruct o as [| | | | | | | | | | | | | |d|e]; cbn [Page.onmessage shown] in *; try (by apply model_output); try (by injection H as <-).
  - by destruct (_ =? _); injection H as <-.
  - injection H as <-. by rewrite scr_current.
  - injection H as <-. unfold requestHostClipboard. destruct (cancel_throws p); simpl; by rewrite scr_cancel.
  - injection H as <-. unfold sendTerminalResize. by rewrite scr_current.
  - destruct (startedAt _); [by apply model_append in H|by injection H as <-].
  - exfalso. destruct (dn_mount_error d); [rewrite (alive_append_finish _ _ _ Hn Hs H) in Hv; by apply elem_of_nil in Hv|].
    simpl in H. injection H as <-. rewrite (proj1 (finish_all p Hn Hs)) in Hv. by apply elem_of_nil in Hv.
  - exfalso. rewrite (alive_append_finish _ _ _ Hn Hs H) in Hv. by apply elem_of_nil in Hv.
Qed.

Context (E : Z → engine) (cfg : Z → config).
#[local] Abbreviation shell_step := (Shell.shell_step renderTest results_json error_text E cfg).
#[local] Abbreviation shell_reachable := (Shell.shell_reachable renderTest results_json error_text E cfg).
#[local] Abbreviation shell_orderly := (Shell.shell_orderly renderTest results_json error_text E cfg).

(** A worker that lives shows what was heard of it; one that is ordered will find a cleared terminal. *)
Record screen_ok (sh : shell) : Prop := {
  sc_alive : ∀ w, w ∈ alive (wk (pg sh)) →
    ∃ t0, wf t0 ∧ screen_after (heard w sh) (fullReset t0) = Ok (model (scr (pg sh)));
  sc_ordered : ∀ i, starts (wk (pg sh)) !! i = Some Creating → ∃ t0, wf t0 ∧ model (scr (pg sh)) = fullReset t0 }.

(** A page event without a message. *)
Lemma screen_page pe sh sh' :
  solo (wk (pg sh)) → named (pg sh) → wf (model (scr (pg sh))) → seats_made sh → screen_ok sh → from_worker pe = false →
  Page.step renderTest results_json error_text pe (pg sh) = Some (Ok (pg sh')) → seats sh' = seat_new (pg sh) (pg sh') (seats sh) →
  screen_ok sh'.
Proof.
  intros Hs Hn Hwf Hm [Ha Ho] Hpe Hst Hseats. pose proof (created_step _ _ _ _ _ _ Hst) as Hcr.
  destruct (event_cases pe) as [[Hmk Hor]|Hmk].
  - destruct (kept_step _ _ _ _ _ _ Hst Hmk Hor) as [_ _ Hal Hcre].
    assert (∀ w, heard w sh' = heard w sh) as Hheard.
    { intros w. unfold heard. rewrite Hseats. unfold seat_new. rewrite Hcr, Hmk, (proj2 (Z.ltb_ge _ _)) by lia. done. }
    destruct (writes pe) eqn:Hw.
    + assert (∃ v, v ∈ alive (wk (pg sh)) ∧ alive (wk (pg sh')) = []) as (v & Hv & Hnil).
      { destruct pe; simpl in Hw, Hpe, Hor; try done; [congruence|]. simpl in Hst. case_bool_decide as Hal'; [|done]. injection Hst as Hst.
        exists w. split; [done|]. by eapply alive_append_finish. }
      constructor; [rewrite Hnil; by intros w ?%elem_of_nil|]. intros i Hi%Hcre. exfalso.
      rewrite (so_none _ Hs i Creating Hi) in Hv by done. by apply elem_of_nil in Hv.
    + pose proof (model_step _ _ _ _ _ _ Hst Hw) as Hmod. constructor.
      * intros w Hw'%Hal. rewrite Hheard, Hmod. by apply Ha.
      * intros i Hi%Hcre. rewrite Hmod. by eapply Ho.
  - destruct (started_step _ _ _ _ _ _ Hst Hmk) as [(i & -> & Hi & Hp)|(i & -> & Hi & Hp)].
    + pose proof (so_none _ Hs i Creating Hi ltac:(done)) as Hnil. destruct (Ho i Hi) as (t0 & Hw0 & Hmod).
      assert (model (scr (pg sh')) = fullReset t0) as Hmod' by (by rewrite Hp).
      constructor.
      * intros w Hw. rewrite Hp in Hw. simpl in Hw. rewrite Hnil in Hw. apply list_elem_of_singleton in Hw as ->.
        exists t0. split; [done|]. unfold heard. rewrite Hseats. unfold seat_new. rewrite Hcr. simpl.
        rewrite (proj2 (Z.ltb_lt _ _)) by lia. rewrite lookup_insert_eq. simpl. by rewrite Hmod'.
      * intros j Hj. exists t0. done.
    + pose proof (so_none _ Hs i Loading Hi ltac:(done)) as Hnil. constructor.
      * intros w Hw. rewrite Hp in Hw. simpl in Hw. rewrite Hnil in Hw. by apply elem_of_nil in Hw.
      * intros j _. exists (model (scr (pg sh))). split; [done|]. by rewrite Hp.
Qed.

Lemma screen_step e sh sh' :
  solo (wk (pg sh)) → named (pg sh) → wf (model (scr (pg sh))) → seats_made sh → screen_ok sh →
  shell_step e sh = Some (Ok sh') → screen_ok sh'.
Proof.
  intros Hs Hn Hwf Hm Hok Hst. pose proof (shell_step_cases _ _ _ _ _ _ _ _ Hst) as [(pe & Hpe & Hp & Hseats)|(w & s & s' & l & Hal & Hw & Hseats & Hstep & Hp)].
  - by eapply screen_page.
  - destruct Hok as [Ha Ho]. destruct (Hm w s Hw) as [_ Hle]. destruct (heard_seat w s s' l sh sh' Hw Hle Hstep Hseats) as [H1 H2].
    destruct l as [|o l].
    + rewrite app_nil_r in H1. assert (∀ v, heard v sh' = heard v sh) as Hheard by (intros v; destruct (decide (v = w)) as [-> |]; auto).
      constructor; rewrite Hp; [|done]. intros v Hv. rewrite Hheard. by apply Ha.
    + assert (l = []) as -> by (by inversion Hstep). destruct (kept_step _ _ _ _ _ _ Hp eq_refl eq_refl) as [_ _ Hal' Hcre].
      constructor.
      * intros v Hv. pose proof (Hal' v Hv) as Hv'. pose proof (so_current _ Hs v Hv') as Hc. pose proof (so_current _ Hs w Hal) as Hc'.
        assert (v = w) as -> by congruence. destruct (Ha w Hal) as (t0 & Hw0 & Ht). exists t0. split; [done|].
        rewrite H1. unfold screen_after in *. rewrite foldM_snoc, Ht. simpl.
        simpl in Hp. rewrite bool_decide_eq_true_2 in Hp by done. injection Hp as Hp. by eapply model_message.
      * intros i Hi%Hcre. exfalso. rewrite (so_none _ Hs i Creating Hi) in Hal by done. by apply elem_of_nil in Hal.
Qed.

Lemma orderly_screen r sh : shell_orderly r sh → screen_ok sh.
Proof.
  induction 1 as [|sh e sh' Hr IH _ _ Hst]; [constructor; simpl; [by intros w ?%elem_of_nil|done]|].
  destruct (orderly_solo _ _ _ r _ (shell_page_orderly _ _ _ _ _ r sh Hr)) as [Hn Hs].
  destruct (orderly_balanced _ _ _ _ _ r sh Hr) as [Hm _].
  eapply screen_step; eauto. eapply ty_wf, reachable_typed, shell_page_reachable, orderly_reachable; eauto.
Qed.

(** Messages of a worker that has not begun its final report. *)
Definition running (o : out) : Prop := match o with OEvidence _ | ODoneResults _ => False | _ => True end.

Lemma screen_running l t :
  Forall running l → Forall scalar (outputs l) → screen_after l t = write (outputs l) t.
Proof.
  intros Hl. revert t. induction Hl as [|o l Ho _ IH]; intros t Hsc; [done|]. unfold screen_after in *. cbn [foldM].
  destruct o as [|text| | | | | | | | | | | | | |]; cbn [outputs] in *; try done; cbn [shown]; try (simpl; by apply IH).
  apply Forall_app in Hsc as [H1 H2]. rewrite points_units by done. unfold write. rewrite foldM_app.
  destruct (foldM consume text t); simpl; [by apply IH|done].
Qed.

Lemma stream_scalars pieces : Forall is_byte (concat pieces) → Forall scalar (pieces ≫= stream_text).
Proof.
  induction pieces as [|b pieces IH]; intros H; [constructor|]. simpl in H. apply Forall_app in H as [Hb H]. simpl.
  apply Forall_app. split; [by apply decode_scalars|by apply IH].
Qed.

End screen.

