(* ===== verification/Base64.v ===== *)
(** * Base64 texts (src/html-rt/src/worker.js, tests-worker.js: decodeB64)

    Test payloads carry binary data as Base64.  [decodeB64] is [atob] followed by
    the copy of its character codes into a byte array; [atob] is the forgiving
    decoder of the HTML standard: white space is dropped, padding is optional. *)

From stdpp Require Import base numbers list strings.
From Stdlib Require Import ZArith Lia.
From S2P Require Import Prelude JsNum TermModel Utf8.

#[local] Open Scope Z_scope.

(** ** The alphabet *)

Definition b64_digit (c : Z) : option Z :=
  if (65 <=? c) && (c <=? 90) then Some (c - 65)
  else if (97 <=? c) && (c <=? 122) then Some (c - 71)
  else if (48 <=? c) && (c <=? 57) then Some (c + 4)
  else if c =? 43 then Some 62
  else if c =? 47 then Some 63
  else None.

Definition b64_char (v : Z) : Z :=
  if v <? 26 then v + 65
  else if v <? 52 then v + 71
  else if v <? 62 then v - 4
  else if v =? 62 then 43 else 47.

(** ** The decoder *)

Definition ascii_space (c : Z) : bool := (c =? 9) || (c =? 10) || (c =? 12) || (c =? 13) || (c =? 32).

(** One or two trailing equals signs of a text whose length is a multiple of four. *)
Definition strip_padding (l : list Z) : list Z :=
  if zlen l mod 4 =? 0 then
    match reverse l with
    | 61 :: 61 :: _ => take (length l - 2) l
    | 61 :: _ => take (length l - 1) l
    | _ => l
    end
  else l.

(** Groups of four digits; the spare bits of a short last group are dropped. *)
Fixpoint b64_groups (l : list Z) : list Z :=
  match l with
  | a :: b :: c :: d :: l' => a * 4 + b / 16 :: b mod 16 * 16 + c / 4 :: c mod 4 * 64 + d :: b64_groups l'
  | [a; b; c] => [a * 4 + b / 16; b mod 16 * 16 + c / 4]
  | [a; b] => [a * 4 + b / 16]
  | _ => []
  end.

(** [None] is the [InvalidCharacterError] of [atob]. *)
Definition decodeB64 (text : list Z) : option (list Z) :=
  let l := strip_padding (filter (λ c, ascii_space c = false) text) in
  if zlen l mod 4 =? 1 then None
  else b64_groups <$> mapM b64_digit l.

(** ** The encoder of RFC 4648, as a specification *)

Fixpoint b64_encode (l : list Z) : list Z :=
  match l with
  | x :: y :: z :: l' =>
    b64_char (x / 4) :: b64_char (x mod 4 * 16 + y / 16) :: b64_char (y mod 16 * 4 + z / 64) :: b64_char (z mod 64) :: b64_encode l'
  | [x; y] => [b64_char (x / 4); b64_char (x mod 4 * 16 + y / 16); b64_char (y mod 16 * 4); 61]
  | [x] => [b64_char (x / 4); b64_char (x mod 4 * 16); 61; 61]
  | [] => []
  end.

(** ** The round trip *)

Lemma b64_digit_char v : 0 ≤ v < 64 → b64_digit (b64_char v) = Some v.
Proof.
  intros H. unfold b64_char, b64_digit.
  repeat (match goal with |- context [?a <? ?b] => destruct (Z.ltb_spec a b) | |- context [?a =? ?b] => destruct (Z.eqb_spec a b)
          | |- context [?a <=? ?b] => destruct (Z.leb_spec a b) end; simpl; try lia); f_equal; lia.
Qed.

Lemma b64_char_plain v : 0 ≤ v < 64 → b64_char v ≠ 61 ∧ ascii_space (b64_char v) = false.
Proof.
  intros H. unfold b64_char, ascii_space.
  repeat (match goal with |- context [?a <? ?b] => destruct (Z.ltb_spec a b) | |- context [?a =? ?b] => destruct (Z.eqb_spec a b) end;
          simpl; try lia); split; (done || lia).
Qed.

(** The characters of a text without its padding. *)
Fixpoint b64_digits (l : list Z) : list Z :=
  match l with
  | x :: y :: z :: l' => x / 4 :: x mod 4 * 16 + y / 16 :: y mod 16 * 4 + z / 64 :: z mod 64 :: b64_digits l'
  | [x; y] => [x / 4; x mod 4 * 16 + y / 16; y mod 16 * 4]
  | [x] => [x / 4; x mod 4 * 16]
  | [] => []
  end.

(** Induction by three elements. *)
Lemma three_ind {A} (P : list A → Prop) :
  P [] → (∀ x, P [x]) → (∀ x y, P [x; y]) → (∀ x y z l, P l → P (x :: y :: z :: l)) → ∀ l, P l.
Proof.
  intros H0 H1 H2 H3 l. induction l as [l IH] using (induction_ltof1 _ length). unfold ltof in IH.
  destruct l as [|x [|y [|z l]]]; try done. apply H3. apply IH. simpl. lia.
Qed.

(** Two bytes make digits below 64 and come back from them. *)
Lemma b64_bits x y :
  is_byte x → is_byte y →
  (0 ≤ x / 4 < 64 ∧ 0 ≤ x mod 4 * 16 + y / 16 < 64 ∧ 0 ≤ x mod 4 * 16 < 64) ∧
  (x / 4 * 4 + (x mod 4 * 16 + y / 16) / 16 = x ∧ x / 4 * 4 + x mod 4 * 16 / 16 = x ∧
   (x mod 4 * 16 + y / 16) mod 16 = y / 16).
Proof. unfold is_byte. intros Hx Hy. Z.to_euclidean_division_equations. lia. Qed.

Lemma b64_bits2 y z :
  is_byte y → is_byte z →
  (0 ≤ y mod 16 * 4 + z / 64 < 64 ∧ 0 ≤ y mod 16 * 4 < 64 ∧ 0 ≤ z mod 64 < 64) ∧
  (y / 16 * 16 + (y mod 16 * 4 + z / 64) / 4 = y ∧ y / 16 * 16 + y mod 16 * 4 / 4 = y ∧
   (y mod 16 * 4 + z / 64) mod 4 * 64 + z mod 64 = z).
Proof. unfold is_byte. intros Hy Hz. Z.to_euclidean_division_equations. lia. Qed.

Lemma b64_digits_range l : Forall is_byte l → Forall (λ v, 0 ≤ v < 64) (b64_digits l).
Proof.
  induction l as [|x|x y|x y z l IH] using three_ind; intros Hl; simpl; repeat (apply Forall_cons in Hl as [? Hl]).
  - constructor.
  - destruct (b64_bits x x) as [? _]; [done..|]. repeat constructor; lia.
  - destruct (b64_bits x y) as [? _]; [done..|]. destruct (b64_bits2 y y) as [? _]; [done..|]. repeat constructor; lia.
  - destruct (b64_bits x y) as [? _]; [done..|]. destruct (b64_bits2 y z) as [? _]; [done..|].
    repeat (constructor; [lia|]). by apply IH.
Qed.

Lemma b64_groups_digits l : Forall is_byte l → b64_groups (b64_digits l) = l.
Proof.
  induction l as [|x|x y|x y z l IH] using three_ind; intros Hl; cbn [b64_digits b64_groups]; repeat (apply Forall_cons in Hl as [? Hl]).
  - done.
  - destruct (b64_bits x x) as [_ ?]; [done..|]. f_equal; lia.
  - destruct (b64_bits x y) as [_ (? & _ & ->)]; [done..|]. destruct (b64_bits2 y y) as [_ ?]; [done..|]. repeat f_equal; lia.
  - destruct (b64_bits x y) as [_ (? & _ & ->)]; [done..|]. destruct (b64_bits2 y z) as [_ ?]; [done..|].
    rewrite IH by done. repeat f_equal; lia.
Qed.

(** The padding an encoder adds. *)
Definition b64_pad (l : list Z) : list Z :=
  if zlen l mod 3 =? 1 then [61; 61] else if zlen l mod 3 =? 2 then [61] else [].

Lemma zlen_three {A} (x y z : A) l : zlen (x :: y :: z :: l) mod 3 = zlen l mod 3.
Proof. unfold zlen. simpl length. replace (Z.of_nat (S (S (S (length l))))) with (Z.of_nat (length l) + 1 * 3) by lia. apply Z_mod_plus_full. Qed.

Lemma b64_encode_digits l : b64_encode l = (b64_char <$> b64_digits l) ++ b64_pad l.
Proof.
  induction l as [|x|x y|x y z l IH] using three_ind; try done. cbn [b64_encode b64_digits]. rewrite IH.
  unfold b64_pad. by rewrite zlen_three.
Qed.

Lemma b64_digits_length l :
  zlen (b64_digits l) mod 4 = (if zlen l mod 3 =? 1 then 2 else if zlen l mod 3 =? 2 then 3 else 0) ∧
  (zlen (b64_digits l) + zlen (b64_pad l)) mod 4 = 0.
Proof.
  induction l as [|x|x y|x y z l IH] using three_ind; try done. unfold b64_pad in *. rewrite zlen_three.
  cbn [b64_digits]. unfold zlen in *. simpl length.
  set (n := length (b64_digits l)) in *. destruct IH as [H1 H2]. split.
  - rewrite <- H1. replace (Z.of_nat (S (S (S (S n))))) with (Z.of_nat n + 1 * 4) by lia. apply Z_mod_plus_full.
  - rewrite <- H2. replace (Z.of_nat (S (S (S (S n)))) + Z.of_nat (length (if Z.of_nat (length l) mod 3 =? 1 then [61; 61] else if Z.of_nat (length l) mod 3 =? 2 then [61] else [])))
      with (Z.of_nat n + Z.of_nat (length (if Z.of_nat (length l) mod 3 =? 1 then [61; 61] else if Z.of_nat (length l) mod 3 =? 2 then [61] else [])) + 1 * 4) by lia.
    apply Z_mod_plus_full.
Qed.

Lemma strip_padding_encode l : Forall is_byte l → strip_padding (b64_encode l) = b64_char <$> b64_digits l.
Proof.
  intros Hl. rewrite b64_encode_digits. set (d := b64_char <$> b64_digits l).
  assert (Forall (λ c, c ≠ 61) d) as Hd.
  { unfold d. apply Forall_fmap. eapply Forall_impl; [by apply b64_digits_range|]. intros v Hv. by apply b64_char_plain. }
  destruct (b64_digits_length l) as [_ Hlen]. unfold strip_padding.
  replace (zlen (d ++ b64_pad l) mod 4) with 0 by (rewrite zlen_app; unfold d, zlen in *; rewrite length_fmap; lia).
  rewrite Z.eqb_refl. unfold b64_pad. destruct (_ =? 1); [|destruct (_ =? 2)].
  - rewrite reverse_app. cbn [reverse rev_append]. rewrite length_app. simpl length.
    replace (length d + 2 - 2)%nat with (length d) by lia. change (reverse [61; 61] ++ reverse d) with (61 :: 61 :: reverse d). cbv iota.
    by rewrite take_app_length.
  - rewrite reverse_app, length_app. simpl length. replace (length d + 1 - 1)%nat with (length d) by lia.
    change (reverse [61] ++ reverse d) with (61 :: reverse d). cbv iota.
    rewrite take_app_length. destruct (reverse d) as [|c r] eqn:Hr; [done|].
    assert (c ≠ 61) as Hc. { rewrite Forall_forall in Hd. apply Hd. apply elem_of_reverse. rewrite Hr. left. }
    repeat (case_match; try done; try congruence).
  - rewrite app_nil_r. destruct (reverse d) as [|c r] eqn:Hr; [done|].
    assert (c ≠ 61) as Hc. { rewrite Forall_forall in Hd. apply Hd. apply elem_of_reverse. rewrite Hr. left. }
    repeat (case_match; try done; try congruence).
Qed.

Lemma mapM_digits l : Forall (λ v, 0 ≤ v < 64) l → mapM b64_digit (b64_char <$> l) = Some l.
Proof. induction 1 as [|v l Hv _ IH]; [done|]. cbn. by rewrite b64_digit_char, IH by done. Qed.

(** Base64 data survives its transport: whatever white space a text has been broken up with, if what
    remains is the RFC 4648 encoding of some bytes, [decodeB64] gives back exactly those bytes. *)
Theorem b64_roundtrip bytes text :
  Forall is_byte bytes → filter (λ c, ascii_space c = false) text = b64_encode bytes → decodeB64 text = Some bytes.
Proof.
  intros Hb Ht. unfold decodeB64. rewrite Ht, strip_padding_encode by done.
  destruct (b64_digits_length bytes) as [Hlen _].
  replace (zlen (b64_char <$> b64_digits bytes)) with (zlen (b64_digits bytes)) by (unfold zlen; by rewrite length_fmap).
  rewrite Hlen. replace (_ =? 1) with false by (by repeat case_match).
  rewrite mapM_digits by (by apply b64_digits_range). simpl. by rewrite b64_groups_digits.
Qed.

Lemma b64_roundtrip_witness : decodeB64 (codes "AGFz" ++ [10; 32] ++ codes "bQE=") = Some [0; 97; 115; 109; 1].
Proof. apply (b64_roundtrip [0; 97; 115; 109; 1]); [by repeat constructor|by vm_compute]. Defined.

(** Padding inside the text and single left-over digits are refused. *)
Example b64_rejects : decodeB64 (codes "AG=z") = None ∧ decodeB64 (codes "AGFzb") = None ∧ decodeB64 (codes "AG-z") = None.
Proof. by vm_compute. Qed.
