(* ===== verification/TestsWorker.v ===== *)
(** * The test worker (src/html-rt/src/tests-worker.js)

    A worker that runs one test at a time: a WAST script on a fresh instance of
    the C engine, or a browser-native fixture.  Its float conversion and its
    fixture are textual copies of those of worker.js, and the model uses the same
    definitions ([WatFloat], [NativeFixture]).

    The engine is a parameter, a function of the calls made so far: what a call
    returns ([None]: it traps), the float literals it hands to its imports
    meanwhile, and the contents of its memory.  [runWastScript] is cut at its
    awaits, and [step] is one event of the worker's loop. *)

From stdpp Require Import base numbers list strings gmap.
From Stdlib Require Import ZArith Lia.
From S2P Require Import Prelude JsNum TermModel Utf8 WatFloat Worker NativeFixture Base64.

#[local] Open Scope Z_scope.
#[local] Open Scope waste_scope.

(** ** Float conversion

    Function for function the text of worker.js. *)

Module Floats.
Definition roundShiftEven := WatFloat.roundShiftEven.
Definition roundRatioEven := WatFloat.roundRatioEven.
Definition watDecimalF32 := WatFloat.watDecimalF32.
Definition watHexFloat := WatFloat.watHexFloat.
Definition watFloat := WatFloat.watFloat.
End Floats.

(** ** The engine *)

Inductive tcall : Type :=
| TAlloc (n : Z) | TStore (p : Z) (bytes : list Z)
| TStageFile (p n data dn mode : Z)
| TRequestProbe | TRunScript (p n : Z) | TWaitKind | TResume | TCommandLine | TProbeResult
| TResultsTotal | TResultsPtr | TNamePtr (i : Z) | TNameLen (i : Z)
| TSetupTotal | TSetupPassed | TSetupComplete | TFailureCount | TFailurePtr (i : Z)
| TScriptCompleted.

#[export] Instance tcall_eq_dec : EqDecision tcall.
Proof. solve_decision. Defined.

(** Calls are listed newest first. *)
Record tengine : Type := mkTEngine {
  te_answer : list tcall → tcall → option Z;
  te_floats : list tcall → tcall → list (list Z * bool);  (* bytes of a literal, [asF32] *)
  te_memory : list tcall → list Z;
  te_names : bool }.              (* [waste_wast_result_name_ptr] and [_len] are exported *)

Inductive terror : Type :=
| SpecError (message : list Z)
| UnsupportedMode
| LengthMismatch (got expected : Z)
| NoEngineBytes | CompileFailed | InstantiateFailed
| Trapped | LiteralThrew          (* out of an export of the engine *)
| OutsideMemory                   (* [RangeError] of a view or of [set] *)
| BadBase64
| StagingFailed (status : Z)
| WaitKindRefused (kind : Z)
| StoppedWith (status : Z)
| AtLine (e : terror) (line : Z)  (* " at WAST line " *)
| FixtureFailed (f : native_fault)
| CountGrew.                      (* see [failures_loop] *)

(** ** The engine monad: exceptions keep the history *)

Definition W (A : Type) : Type := list tcall → result terror A * list tcall.

Definition wret {A} (a : A) : W A := λ h, (Ok a, h).
Definition wbind {A B} (m : W A) (k : A → W B) : W B := λ h,
  match m h with (Ok a, h1) => k a h1 | (Err e, h1) => (Err e, h1) end.
Definition wthrow {A} (e : terror) : W A := λ h, (Err e, h).

#[local] Notation "x <- m ;; k" := (wbind m (λ x, k)) (at level 100, m at next level, right associativity).
#[local] Notation "m ;;; k" := (wbind m (λ _, k)) (at level 100, right associativity).

Fixpoint wmap {A B} (f : A → W B) (l : list A) : W (list B) :=
  match l with [] => wret [] | a :: l' => b <- f a;; bs <- wmap f l';; wret (b :: bs) end.

Section wast.
Context (E : tengine).

(** [hostFloat] of one literal: [Err] when the conversion throws, [None] for NaN. *)
Definition test_float (bytes : list Z) (asF32 : bool) : result terror (option Z) :=
  let text := decode_once false bytes in
  match Floats.watFloat text asF32 with
  | Ok bits => Ok (Some bits)
  | Err _ => if literal_throws text asF32 then Err LiteralThrew else Ok None
  end.

Definition floats_throw (l : list (list Z * bool)) : bool :=
  existsb (λ x, match test_float x.1 x.2 with Err _ => true | Ok _ => false end) l.

(** A call of an export. *)
Definition tcall_export (c : tcall) : W Z := λ h,
  if floats_throw (te_floats E h c) then (Err LiteralThrew, c :: h)
  else match te_answer E h c with Some v => (Ok v, c :: h) | None => (Err Trapped, c :: h) end.

(** [new Uint8Array(exp.memory.buffer)]. *)
Definition tmemory : W (list Z) := λ h, (Ok (te_memory E h), h).

(** [new Uint8Array(exp.memory.buffer).set(bytes, p)]. *)
Definition tstore (p : Z) (bytes : list Z) : W unit := λ h,
  if (0 <=? p) && (p + zlen bytes <=? zlen (te_memory E h)) then (Ok tt, TStore p bytes :: h) else (Err OutsideMemory, h).

(** ** Staging *)

Record vfs_file : Type := mkVfsFile { vf_path : list Z; vf_dataB64 : option (list Z); vf_mode : option Z }.

(** [file.mode || 0o666]. *)
Definition file_mode (m : option Z) : Z := match m with Some 0 | None => 438 | Some v => v end.

Definition stage_file (file : vfs_file) : W unit :=
  let pathBytes := text_encode (vf_path file) in
  pathPtr <- tcall_export (TAlloc (zlen pathBytes));;
  tstore pathPtr pathBytes;;;
  match decodeB64 (default [] (vf_dataB64 file)) with
  | None => wthrow BadBase64
  | Some dataBytes =>
    dataPtr <- (if zlen dataBytes =? 0 then wret 0 else tcall_export (TAlloc (zlen dataBytes)));;
    (if zlen dataBytes =? 0 then wret tt else tstore dataPtr dataBytes);;;
    staged <- tcall_export (TStageFile pathPtr (zlen pathBytes) dataPtr (zlen dataBytes) (file_mode (vf_mode file)));;
    if staged =? 0 then wret tt else wthrow (StagingFailed staged)
  end.

(** ** The report *)

(** [while (i < limit && mem[base + i] !== 0) i++]: a missing element is not 0. *)
Fixpoint scan_nul (mem : list Z) (base i : Z) (fuel : nat) : Z :=
  match fuel with
  | O => i
  | S f => if bool_decide (zlookup mem (base + i) = Some 0) then i else scan_nul mem base (i + 1) f
  end.

Definition scan_from (mem : list Z) (base i limit : Z) : Z := scan_nul mem base i (Z.to_nat (limit - i)).

Definition read_test (resultsPtr i : Z) : W test_result :=
  mem <- tmemory;;
  let base := resultsPtr + i * BROWSER_RESULT_BYTES in
  let pass := negb (bool_decide (zlookup mem base = Some 0)) in
  let funcEnd := scan_from mem base 1 BROWSER_RESULT_ERROR_OFFSET in
  nameStart <- (if te_names E then tcall_export (TNamePtr i) else wret (base + 1));;
  nameEnd <- (if te_names E then n <- tcall_export (TNameLen i);; wret (nameStart + n) else wret (base + funcEnd));;
  let func := decode_once true (array_slice mem nameStart nameEnd) in
  let errEnd := scan_from mem base BROWSER_RESULT_ERROR_OFFSET BROWSER_RESULT_BYTES in
  let error := if pass then [] else decode_once false (array_slice mem (base + BROWSER_RESULT_ERROR_OFFSET) (base + errEnd)) in
  wret (pass, func, error).

Definition WAST_SETUP_ERROR_BYTES : Z := 256.

(** The bytes before the first 0, all of them when there is none ([indexOf]). *)
Definition before_nul (l : list Z) : list Z :=
  match list_find (λ b, b = 0) l with Some (i, _) => take i l | None => l end.

Definition read_setup_failure (i : Z) : W setup_failure :=
  ptr <- tcall_export (TFailurePtr i);;
  mem <- tmemory;;
  if (0 <=? ptr) && (ptr + (12 + WAST_SETUP_ERROR_BYTES) <=? zlen mem) then
    let view := drop (Z.to_nat ptr) mem in
    let bytes := take (Z.to_nat WAST_SETUP_ERROR_BYTES) (drop 12 view) in
    wret (mkFailure (default 0 (get_le32 view)) (to_int32 (default 0 (get_le32 (drop 4 view))))
            (phase_name (default 0 (get_le32 (drop 8 view)))) (decode_once false (before_nul bytes)))
  else wthrow OutsideMemory.

(** The loop asks for the count before every turn.  The fuel is one more than the count at the
    start: reading the report runs no guest code, so the count stays. *)
Fixpoint failures_loop (fuel : nat) (i : Z) : W (list setup_failure) :=
  match fuel with
  | O => wthrow CountGrew
  | S f =>
    count <- tcall_export TFailureCount;;
    if i <? count then x <- read_setup_failure i;; xs <- failures_loop f (i + 1);; wret (x :: xs)
    else wret []
  end.

Definition failures_fuel : W nat := λ h,
  (Ok (S (Z.to_nat (default 0 (te_answer E h TFailureCount)))), h).

Record setup : Type := mkSetup { su_total : Z; su_passed : Z; su_complete : bool; su_failures : list setup_failure }.

Definition read_setup : W setup :=
  st <- tcall_export TSetupTotal;;
  sp <- tcall_export TSetupPassed;;
  sc <- tcall_export TSetupComplete;;
  fuel <- failures_fuel;;
  failures <- failures_loop fuel 0;;
  wret (mkSetup st sp (negb (sc =? 0)) failures).

Record wast_report : Type := mkReport { wr_results : list test_result; wr_setup : setup; wr_completed : bool }.

Definition probe_name : list Z := codes "shared-file-page-probe".

(** The extra result of the page probe; its error text holds the returned number. *)
Definition probe_result (v : Z) : test_result := (v =? 0, probe_name, if v =? 0 then [] else codes "probe returned").

Definition collect (probe : bool) : W wast_report :=
  probed <- (if probe then v <- tcall_export TProbeResult;; wret (Some v) else wret None);;
  total <- tcall_export TResultsTotal;;
  resultsPtr <- tcall_export TResultsPtr;;
  results <- wmap (read_test resultsPtr) (seqZ 0 total);;
  su <- read_setup;;
  completed <- tcall_export TScriptCompleted;;
  wret (mkReport (results ++ match probed with Some v => [probe_result v] | None => [] end) su (negb (completed =? 0))).

(** ** The run *)

(** [catch (error) { throw new Error(... + exp.waste_wast_command_line()) }]. *)
Definition at_line {A} (m : W A) : W A := λ h,
  match m h with
  | (Ok a, h1) => (Ok a, h1)
  | (Err e, h1) => match tcall_export TCommandLine h1 with (Ok line, h2) => (Err (AtLine e line), h2) | (Err e2, h2) => (Err e2, h2) end
  end.

(** The head of the loop: [true] when the run waits for its timer, [false] when it is over. *)
Definition after_status (status : Z) : W bool :=
  if status =? 1 then
    kind <- tcall_export TWaitKind;;
    if kind =? 2 then wret true else wthrow (WaitKindRefused kind)
  else if status =? 0 then wret false
  else wthrow (StoppedWith status).

Definition begin_script (wastBytes : list Z) (files : list vfs_file) (probe : bool) : W bool :=
  ptr <- tcall_export (TAlloc (zlen wastBytes));;
  tstore ptr wastBytes;;;
  wmap stage_file files;;;
  (if probe then tcall_export TRequestProbe else wret 0);;;
  at_line (status <- tcall_export (TRunScript ptr (zlen wastBytes));; after_status status).

Definition resume_script : W bool := at_line (status <- tcall_export TResume;; after_status status).
End wast.

(** ** Jobs *)

Inductive mode : Type := BrowserNative | WastStream | OtherMode.

#[export] Instance mode_eq_dec : EqDecision mode.
Proof. solve_decision. Defined.

Record module_spec : Type := mkModule { ms_wasmB64 : list Z; ms_id : option string }.

Record test_spec : Type := mkSpec {
  ts_file : list Z; ts_mode : mode; ts_error : option (list Z);
  ts_wastText : list Z; ts_sourceBytes : Z; ts_vfsFiles : list vfs_file; ts_probe : bool;
  ts_modules : list module_spec; ts_steps : list native_step }.

Inductive report : Type := NativeReport (results : list step_result) | WastReport (r : wast_report).

Inductive reply : Type :=
| Done (file : list Z) (r : report)
| Failed (e : terror).

(** Where the handler of the job in progress waits: in [workerControlPoint], for [compile], for
    [instantiate], for a fixture module, or in the loop's timer. *)
Inductive tpc : Type :=
| TIdle
| TPaused | TCompiling | TInstantiating | TWaiting
| TModules (loaded : list nat) (rest : list module_spec).

Record tworker : Type := mkTWorker {
  runtimePaused : bool; pendingRuntimeSignal : Z; workerRunning : bool; cached : bool;
  job : option (bool * test_spec);      (* with [wasmBytes], and the spec *)
  thist : list tcall; fixture : native; tpc_at : tpc;
  replies : list reply;
  taken : list test_spec }.             (* the jobs taken, for the specification only *)

Definition tinitial : tworker := mkTWorker false 0 false false None [] (native_start []) TIdle [] [].

Definition set_tpc (p : tpc) (s : tworker) : tworker :=
  mkTWorker (runtimePaused s) (pendingRuntimeSignal s) (workerRunning s) (cached s) (job s) (thist s) (fixture s) p (replies s) (taken s).
Definition set_control (p : bool) (g : Z) (s : tworker) : tworker :=
  mkTWorker p g (workerRunning s) (cached s) (job s) (thist s) (fixture s) (tpc_at s) (replies s) (taken s).
Definition set_thist (h : list tcall) (s : tworker) : tworker :=
  mkTWorker (runtimePaused s) (pendingRuntimeSignal s) (workerRunning s) (cached s) (job s) h (fixture s) (tpc_at s) (replies s) (taken s).
Definition set_cached (s : tworker) : tworker :=
  mkTWorker (runtimePaused s) (pendingRuntimeSignal s) (workerRunning s) true (job s) (thist s) (fixture s) (tpc_at s) (replies s) (taken s).
Definition set_fixture (n : native) (s : tworker) : tworker :=
  mkTWorker (runtimePaused s) (pendingRuntimeSignal s) (workerRunning s) (cached s) (job s) (thist s) n (tpc_at s) (replies s) (taken s).

(** The reply, and the [finally] of the handler. *)
Definition answer_job (r : reply) (s : tworker) : tworker :=
  mkTWorker (runtimePaused s) (pendingRuntimeSignal s) false (cached s) None (thist s) (fixture s) TIdle (replies s ++ [r]) (taken s).

Section loop.
Context (E : tengine) (engine_bytes : bool).  (* [__WASTE_ENGINE_BYTES] is defined *)

(** The fixture's modules: what an instance exports, and a call with the instance's memory active. *)
Context (exported : nat → string → bool) (invoke : nat → string → list wasm_value → native → outcome * native).

(** A result of [begin_script] or [resume_script], and what follows it. *)
Definition continue (m : W bool) (spec : test_spec) (s : tworker) : tworker :=
  match m (thist s) with
  | (Err e, h) => answer_job (Failed e) (set_thist h s)
  | (Ok true, h) => set_tpc TWaiting (set_thist h s)
  | (Ok false, h) =>
    match collect E (ts_probe spec) h with
    | (Ok r, h1) => answer_job (Done (ts_file spec) (WastReport r)) (set_thist h1 s)
    | (Err e, h1) => answer_job (Failed e) (set_thist h1 s)
    end
  end.

(** [named.get(id)]: the last module with the name. *)
Definition named_module (modules : list module_spec) (loaded : list nat) (id : string) : option nat :=
  snd <$> last (filter (λ x : module_spec * nat, ms_id x.1 = Some id) (zip modules loaded)).

(** The next module of a fixture, or its steps. *)
Definition next_module (spec : test_spec) (loaded : list nat) (rest : list module_spec) (s : tworker) : tworker :=
  match rest with
  | m :: rest' =>
    match decodeB64 (ms_wasmB64 m) with
    | Some _ => set_tpc (TModules loaded rest) s
    | None => answer_job (Failed BadBase64) s
    end
  | [] =>
    match run_steps nat (named_module (ts_modules spec) loaded) (last loaded) exported invoke (ts_steps spec) (fixture s) with
    | Ok (results, n) => answer_job (Done (ts_file spec) (NativeReport results)) (set_fixture n s)
    | Err f => answer_job (Failed (FixtureFailed f)) s
    end
  end.

(** [runWastScript] up to its first await. *)
Definition start_wast (wasmBytes : bool) (spec : test_spec) (s : tworker) : tworker :=
  let n := zlen (text_encode (ts_wastText spec)) in
  if negb (n =? ts_sourceBytes spec) then answer_job (Failed (LengthMismatch n (ts_sourceBytes spec))) s
  else if cached s then set_tpc TInstantiating s
  else if wasmBytes || engine_bytes then set_tpc TCompiling s
  else answer_job (Failed NoEngineBytes) s.

(** The handler after [workerControlPoint]. *)
Definition start_job (wasmBytes : bool) (spec : test_spec) (s : tworker) : tworker :=
  match ts_error spec with
  | Some message => answer_job (Failed (SpecError message)) s
  | None =>
    match ts_mode spec with
    | BrowserNative => next_module spec [] (ts_modules spec) (set_fixture (native_start (replicate (Z.to_nat 65536) 0)) s)
    | WastStream => start_wast wasmBytes spec s
    | OtherMode => answer_job (Failed UnsupportedMode) s
    end
  end.

(** A job message; one that comes while another runs is dropped. *)
Definition on_job (wasmBytes : bool) (spec : test_spec) (s : tworker) : tworker :=
  if workerRunning s then s
  else
    let s1 := mkTWorker (runtimePaused s) (pendingRuntimeSignal s) true (cached s) (Some (wasmBytes, spec)) (thist s) (fixture s)
                TPaused (replies s) (taken s ++ [spec]) in
    if runtimePaused s then s1 else start_job wasmBytes spec s1.

Definition on_control (operation argument : Z) (s : tworker) : tworker :=
  if operation =? 1 then set_control true (pendingRuntimeSignal s) s
  else if operation =? 0 then set_control false (pendingRuntimeSignal s) s
  else if operation =? 2 then set_control (runtimePaused s) argument s
  else s.

(** ** Events *)

Inductive tevent : Type :=
| VControl (operation argument : Z)
| VJob (wasmBytes : bool) (spec : test_spec)
| VTick                                  (* the 10 ms timer *)
| VCompiled (ok : bool)
| VInstantiated (ok : bool)              (* a fresh engine *)
| VModule (r : option (nat * native)).   (* an instance, and the fixture after its start function *)

(** [None] when the event cannot happen now. *)
Definition tstep (e : tevent) (s : tworker) : option tworker :=
  match e with
  | VControl op arg => Some (on_control op arg s)
  | VJob b spec => Some (on_job b spec s)
  | _ =>
    match job s with
    | None => None
    | Some (b, spec) =>
      match tpc_at s, e with
      | TPaused, VTick => Some (if runtimePaused s then s else start_job b spec s)
      | TWaiting, VTick => Some (continue (resume_script E) spec s)
      | TCompiling, VCompiled true => Some (set_tpc TInstantiating (set_cached s))
      | TCompiling, VCompiled false => Some (answer_job (Failed CompileFailed) s)
      | TInstantiating, VInstantiated true =>
        Some (continue (begin_script E (text_encode (ts_wastText spec)) (ts_vfsFiles spec) (ts_probe spec)) spec (set_thist [] s))
      | TInstantiating, VInstantiated false => Some (answer_job (Failed InstantiateFailed) s)
      | TModules loaded (_ :: rest), VModule (Some (i, n)) => Some (next_module spec (loaded ++ [i]) rest (set_fixture n s))
      | TModules _ (_ :: _), VModule None => Some (answer_job (Failed InstantiateFailed) s)
      | _, _ => None
      end
    end
  end.

Inductive treachable : tworker → Prop :=
| treach_init : treachable tinitial
| treach_step s e s' : treachable s → tstep e s = Some s' → treachable s'.

Fixpoint trun (l : list tevent) (s : tworker) : option tworker :=
  match l with [] => Some s | e :: l' => s1 ← tstep e s; trun l' s1 end.
End loop.
