(* ===== verification/TestsWorkerTheorems.v ===== *)
(** * Theorems on the test worker

    One reply per job, what a successful WAST report implies, and that a run the engine
    finishes is reported with exactly the results the engine recorded. *)

From stdpp Require Import base numbers list strings gmap.
From Stdlib Require Import ZArith Lia.
From S2P Require Import Prelude JsNum TermModel TermCells Utf8 WatFloat Worker NativeFixture NativeTheorems Base64 TestsWorker.

#[local] Open Scope Z_scope.
#[local] Open Scope waste_scope.

(** ** The fixture *)

Lemma run_steps_order {I} named current exported (invoke : I → string → list wasm_value → native → outcome * native) steps s rs s' :
  run_steps I named current exported invoke steps s = Ok (rs, s') → sr_func <$> rs = st_func <$> steps.
Proof.
  revert s rs s'. induction steps as [|st steps IH]; intros s rs s'; simpl; [by intros [= <- <-]|].
  destruct (of_option UnknownModule _) as [i|]; [|done]. simpl. destruct (exported i (st_func st)); [|done]. simpl.
  destruct (invoke i (st_func st) (st_args st) s) as [o s1].
  destruct (run_steps I named current exported invoke steps s1) as [[rs1 s2]|] eqn:Hr; [|done]. simpl.
  intros [= <- <-]. simpl. f_equal. by eapply IH.
Qed.

(** ** Histories *)

Section history.
Context (E : tengine).

(** What a [done] reply may rely on, for one call after the history [h]. *)
Definition status_ok (c : tcall) (v : Z) : Prop :=
  match c with
  | TStageFile _ _ _ _ _ => v = 0
  | TRunScript _ _ | TResume => v = 0 ∨ v = 1
  | TWaitKind => v = 2
  | _ => True
  end.

Definition call_ok (h : list tcall) (c : tcall) : Prop :=
  match c with
  | TStore _ _ => True
  | _ => floats_throw (te_floats E h c) = false ∧ ∃ v, te_answer E h c = Some v ∧ status_ok c v
  end.

Fixpoint clean (h : list tcall) : Prop :=
  match h with [] => True | c :: h0 => call_ok h0 c ∧ clean h0 end.

(** The answer of the newest call that runs the guest. *)
Fixpoint last_status (h : list tcall) : option Z :=
  match h with
  | [] => None
  | (TRunScript _ _ | TResume) as c :: h0 => te_answer E h0 c
  | _ :: h0 => last_status h0
  end.

(** Calls that do not run the guest and whose value is not a status. *)
Definition accessor (c : tcall) : Prop :=
  match c with TStageFile _ _ _ _ _ | TRunScript _ _ | TResume | TWaitKind => False | _ => True end.

(** A computation that, when it returns, has only made such calls. *)
Definition reads {A} (m : W A) : Prop :=
  ∀ h a h', m h = (Ok a, h') → ∃ l, h' = l ++ h ∧ Forall accessor l ∧ (clean h → clean h').

Lemma reads_ret {A} (a : A) : reads (wret a).
Proof. intros h b h' [= _ <-]. by exists []. Qed.

Lemma reads_throw {A} e : reads (wthrow (A := A) e).
Proof. by intros h b h'. Qed.

Lemma reads_bind {A B} (m : W A) (k : A → W B) : reads m → (∀ a, reads (k a)) → reads (wbind m k).
Proof.
  intros Hm Hk h b h'. unfold wbind. destruct (m h) as [[a|] h1] eqn:He; [|done]. intros H.
  destruct (Hm h a h1 He) as (l1 & -> & Ha1 & Hc1). destruct (Hk a _ b h' H) as (l2 & -> & Ha2 & Hc2).
  exists (l2 ++ l1). split; [by rewrite app_assoc|]. split; [by apply Forall_app|auto].
Qed.

Lemma export_ok c h v h' :
  tcall_export E c h = (Ok v, h') → h' = c :: h ∧ te_answer E h c = Some v ∧ floats_throw (te_floats E h c) = false.
Proof.
  unfold tcall_export. destruct (floats_throw _); [done|]. destruct (te_answer E h c) as [w|]; [|done]. by intros [= <- <-].
Qed.

Lemma reads_export c : accessor c → reads (tcall_export E c).
Proof.
  intros Hc h v h' (-> & Ha & Hf)%export_ok. exists [c]. split; [done|]. split; [by repeat constructor|].
  intros H. split; [|done]. destruct c; try done; simpl; (split; [done|by eexists]).
Qed.

Lemma reads_memory : reads (tmemory E).
Proof. intros h b h' [= _ <-]. by exists []. Qed.

Lemma reads_store p bytes : reads (tstore E p bytes).
Proof. intros h b h'. unfold tstore. destruct (_ && _); [|done]. intros [= _ <-]. exists [TStore p bytes]. by repeat constructor. Qed.

Lemma reads_wmap {A B} (f : A → W B) l : (∀ a, reads (f a)) → reads (wmap f l).
Proof.
  intros Hf. induction l as [|a l IH]; simpl; [apply reads_ret|]. apply reads_bind; [done|]. intros b.
  apply reads_bind; [done|]. intros bs. apply reads_ret.
Qed.

Lemma reads_failures fuel i : reads (failures_loop E fuel i).
Proof.
  revert i. induction fuel as [|fuel IH]; intros i; simpl; [apply reads_throw|]. apply reads_bind; [by apply reads_export|].
  intros count. destruct (i <? count); [|apply reads_ret]. apply reads_bind; [|intros x; apply reads_bind; [done|intros; apply reads_ret]].
  unfold read_setup_failure. apply reads_bind; [by apply reads_export|]. intros p. apply reads_bind; [apply reads_memory|]. intros mem.
  destruct (_ && _); [apply reads_ret|apply reads_throw].
Qed.

Lemma reads_test ptr i : reads (read_test E ptr i).
Proof.
  unfold read_test. apply reads_bind; [apply reads_memory|]. intros mem.
  apply reads_bind; [destruct (te_names E); [by apply reads_export|apply reads_ret]|]. intros a.
  apply reads_bind; [|intros; apply reads_ret].
  destruct (te_names E); [|apply reads_ret]. apply reads_bind; [by apply reads_export|intros; apply reads_ret].
Qed.

Lemma wmap_length {A B} (f : A → W B) l h bs h' : wmap f l h = (Ok bs, h') → length bs = length l.
Proof.
  revert h bs h'. induction l as [|a l IH]; intros h bs h'; [by intros [= <- _]|]. simpl. unfold wbind.
  destruct (f a h) as [[b|] h1]; [|done]. destruct (wmap f l h1) as [[bs1|] h2] eqn:Hw; [|done].
  intros [= <- _]. simpl. f_equal. by eapply IH.
Qed.

Lemma last_status_app l h : Forall accessor l → last_status (l ++ h) = last_status h.
Proof. induction 1 as [|c l Hc _ IH]; [done|]. by destruct c. Qed.

(** The number of results the engine announced in a history. *)
Definition announced (h : list tcall) (total : Z) : Prop :=
  ∃ l h0, h = l ++ TResultsTotal :: h0 ∧ te_answer E h0 TResultsTotal = Some total.

Lemma bind_ok {A B} (m : W A) (k : A → W B) h b h' :
  wbind m k h = (Ok b, h') → ∃ a h1, m h = (Ok a, h1) ∧ k a h1 = (Ok b, h').
Proof. unfold wbind. destruct (m h) as [[a|] h1]; [|done]. eauto. Qed.

Lemma ret_ok {A} (a b : A) h h' : wret a h = (Ok b, h') → a = b ∧ h = h'.
Proof. by intros [= <- <-]. Qed.

Lemma reads_setup : reads (read_setup E).
Proof.
  unfold read_setup. do 3 (apply reads_bind; [by apply reads_export|intros ?]).
  apply reads_bind; [intros h x h' [= _ <-]; by exists []|]. intros fuel.
  apply reads_bind; [apply reads_failures|]. intros. apply reads_ret.
Qed.

Lemma reads_probe (probe : bool) :
  reads (if probe then wbind (tcall_export E TProbeResult) (λ v, wret (Some v)) else wret None).
Proof. destruct probe; [|apply reads_ret]. apply reads_bind; [by apply reads_export|intros; apply reads_ret]. Qed.

Lemma collect_ok probe h r h' :
  collect E probe h = (Ok r, h') →
  (clean h → clean h') ∧ last_status h' = last_status h ∧
  ∃ total, announced h' total ∧ zlen (wr_results r) = Z.max 0 total + if probe then 1 else 0.
Proof.
  intros (probed & h1 & Hp & H)%bind_ok. destruct (reads_probe probe h probed h1 Hp) as (l1 & -> & Ha1 & Hc1).
  apply bind_ok in H as (total & h2 & Ht & H). destruct (reads_export TResultsTotal I _ _ _ Ht) as (_ & _ & _ & Hc2).
  apply export_ok in Ht as (-> & Ht & _).
  apply bind_ok in H as (ptr & h3 & Hq & H). apply (reads_export TResultsPtr I) in Hq as (l3 & -> & Ha3 & Hc3).
  apply bind_ok in H as (results & h4 & Hw & H). pose proof (wmap_length _ _ _ _ _ Hw) as Hl. rewrite length_seqZ in Hl.
  apply (reads_wmap _ _ (reads_test ptr)) in Hw as (l4 & -> & Ha4 & Hc4).
  apply bind_ok in H as (su & h5 & Hs & H). apply reads_setup in Hs as (l5 & -> & Ha5 & Hc5).
  apply bind_ok in H as (completed & h6 & He & H). apply (reads_export TScriptCompleted I) in He as (l6 & -> & Ha6 & Hc6).
  apply ret_ok in H as [<- <-]. split; [tauto|]. split; [|exists total; split].
  - rewrite !last_status_app by done. simpl. by rewrite last_status_app.
  - exists (l6 ++ l5 ++ l4 ++ l3), (l1 ++ h). by rewrite !app_assoc.
  - simpl. rewrite zlen_app. unfold zlen at 1. rewrite Hl. f_equal; [lia|]. destruct probe; [|by apply ret_ok in Hp as [<- _]].
    apply bind_ok in Hp as (v & h7 & _ & Hp). by apply ret_ok in Hp as [<- _].
Qed.

(** The head of the loop, after a status. *)
Lemma after_status_ok c h v b h' :
  (∃ p n, c = TRunScript p n) ∨ c = TResume →
  clean h → tcall_export E c h = (Ok v, c :: h) → after_status E v (c :: h) = (Ok b, h') →
  clean h' ∧ last_status h' = Some (if b then 1 else 0).
Proof.
  intros Hrun Hc (_ & Ha & Hf)%export_ok. unfold after_status.
  assert (last_status (c :: h) = te_answer E h c) as Hlast by (by destruct Hrun as [(? & ? & ->)| ->]).
  assert (v = 0 ∨ v = 1 → clean (c :: h)) as Hclean.
  { intros Hv. split; [|done]. destruct Hrun as [(? & ? & ->)| ->]; (split; [done|]); by exists v. }
  destruct (Z.eqb_spec v 1) as [->|]; [|destruct (Z.eqb_spec v 0) as [->|]; [|done]].
  - intros (kind & h1 & (-> & Hk & Hfk)%export_ok & H)%bind_ok. destruct (Z.eqb_spec kind 2) as [->|]; [|done].
    apply ret_ok in H as [<- <-]. split; [|by rewrite <- Ha, <- Hlast]. split; [|by auto]. split; [done|]. by exists 2.
  - intros [<- <-]%ret_ok. split; [by auto|]. by rewrite Hlast.
Qed.

Lemma at_line_ok {A} (m : W A) h a h' : at_line E m h = (Ok a, h') → m h = (Ok a, h').
Proof. unfold at_line. destruct (m h) as [[b|e] h1]; [done|]. by destruct (tcall_export E TCommandLine h1) as [[]]. Qed.

Lemma stage_file_ok file h u h' : clean h → stage_file E file h = (Ok u, h') → clean h'.
Proof.
  intros Hc (p & h1 & Hp & H)%bind_ok. apply (reads_export (TAlloc _) I) in Hp as (_ & _ & _ & Hc1).
  apply bind_ok in H as (u1 & h2 & Hs & H). apply reads_store in Hs as (_ & _ & _ & Hc2).
  destruct (decodeB64 _) as [bytes|]; [|done].
  apply bind_ok in H as (d & h3 & Hd & H).
  assert (clean h2 → clean h3) as Hc3.
  { destruct (zlen bytes =? 0); [by apply ret_ok in Hd as [<- <-]|]. by apply (reads_export (TAlloc _) I) in Hd as (_ & _ & _ & ?). }
  apply bind_ok in H as (u2 & h4 & He & H).
  assert (clean h3 → clean h4) as Hc4.
  { destruct (zlen bytes =? 0); [by apply ret_ok in He as [<- <-]|]. by apply reads_store in He as (_ & _ & _ & ?). }
  apply bind_ok in H as (v & h5 & (-> & Ha & Hf)%export_ok & H).
  destruct (Z.eqb_spec v 0) as [->|]; [|done]. apply ret_ok in H as [<- <-]. split; [|by auto]. split; [done|]. by exists 0.
Qed.

Lemma stage_files_ok files h us h' : clean h → wmap (stage_file E) files h = (Ok us, h') → clean h'.
Proof.
  revert h us h'. induction files as [|f files IH]; intros h us h' Hc; [by intros [_ <-]%ret_ok|].
  intros (u & h1 & Hf & H)%bind_ok. apply bind_ok in H as (us1 & h2 & Hw & H). apply ret_ok in H as [_ <-].
  eapply IH; [|exact Hw]. by eapply stage_file_ok.
Qed.

Lemma begin_ok bytes files probe h b h' :
  clean h → begin_script E bytes files probe h = (Ok b, h') → clean h' ∧ last_status h' = Some (if b then 1 else 0).
Proof.
  intros Hc (p & h1 & Hp & H)%bind_ok. apply (reads_export (TAlloc _) I) in Hp as (_ & _ & _ & Hc1).
  apply bind_ok in H as (u1 & h2 & Hs & H). apply reads_store in Hs as (_ & _ & _ & Hc2).
  apply bind_ok in H as (us & h3 & Hw & H). apply stage_files_ok in Hw as Hc3; [|by auto].
  apply bind_ok in H as (z & h4 & Hz & H).
  assert (clean h4) as Hc4.
  { destruct probe; [|by apply ret_ok in Hz as [_ <-]]. apply (reads_export TRequestProbe I) in Hz as (_ & _ & _ & ?). auto. }
  apply at_line_ok, bind_ok in H as (v & h5 & Hr & H). pose proof Hr as (-> & _)%export_ok.
  eapply after_status_ok; [|exact Hc4|exact Hr|exact H]. left. by eauto.
Qed.

Lemma resume_ok h b h' :
  clean h → resume_script E h = (Ok b, h') → clean h' ∧ last_status h' = Some (if b then 1 else 0).
Proof.
  intros Hc (v & h5 & Hr & H)%at_line_ok%bind_ok. pose proof Hr as (-> & _)%export_ok.
  eapply after_status_ok; [|exact Hc|exact Hr|exact H]. by right.
Qed.
End history.

Section loop.
Context (E : tengine) (engine_bytes : bool) (exported : nat → string → bool)
        (invoke : nat → string → list wasm_value → native → outcome * native).
#[local] Abbreviation tstep := (TestsWorker.tstep E engine_bytes exported invoke).
#[local] Abbreviation treachable := (TestsWorker.treachable E engine_bytes exported invoke).
#[local] Abbreviation next_module := (TestsWorker.next_module exported invoke).
#[local] Abbreviation start_job := (TestsWorker.start_job engine_bytes exported invoke).

(** ** One reply per job *)

(** What a reply tells about its job. *)
Definition reply_ok (spec : test_spec) (r : reply) : Prop :=
  match r with
  | Failed _ => True
  | Done file (NativeReport results) =>
    file = ts_file spec ∧ ts_error spec = None ∧ ts_mode spec = BrowserNative ∧ sr_func <$> results = st_func <$> ts_steps spec
  | Done file (WastReport _) =>
    file = ts_file spec ∧ ts_error spec = None ∧ ts_mode spec = WastStream ∧
    zlen (text_encode (ts_wastText spec)) = ts_sourceBytes spec
  end.

(** What the place where a handler waits tells about its job. *)
Definition pc_ok (spec : test_spec) (p : tpc) : Prop :=
  match p with
  | TIdle => False
  | TPaused => True
  | TCompiling | TInstantiating | TWaiting =>
    ts_error spec = None ∧ ts_mode spec = WastStream ∧ zlen (text_encode (ts_wastText spec)) = ts_sourceBytes spec
  | TModules _ _ => ts_error spec = None ∧ ts_mode spec = BrowserNative
  end.

Record served (s : tworker) : Prop := {
  sv_open : match job s with
            | None => workerRunning s = false ∧ tpc_at s = TIdle ∧ Forall2 reply_ok (taken s) (replies s)
            | Some (_, spec) =>
              workerRunning s = true ∧ pc_ok spec (tpc_at s) ∧
              ∃ before, taken s = before ++ [spec] ∧ Forall2 reply_ok before (replies s)
            end }.

(** The job in progress, before its reply. *)
Definition busy (b : bool) (spec : test_spec) (s : tworker) : Prop :=
  job s = Some (b, spec) ∧ workerRunning s = true ∧ ∃ before, taken s = before ++ [spec] ∧ Forall2 reply_ok before (replies s).

Lemma served_answer b spec r s : busy b spec s → reply_ok spec r → served (answer_job r s).
Proof.
  intros (_ & _ & before & Ht & Hf) Hr. constructor. simpl. split; [done|]. split; [done|]. rewrite Ht.
  apply Forall2_app; [done|]. by constructor.
Qed.

Lemma served_at b spec p s : busy b spec s → pc_ok spec p → served (set_tpc p s).
Proof. intros (Hj & Hr & Hb) Hp. constructor. simpl. by rewrite Hj. Qed.

Lemma served_continue m b spec s :
  busy b spec s → ts_error spec = None ∧ ts_mode spec = WastStream ∧ zlen (text_encode (ts_wastText spec)) = ts_sourceBytes spec →
  served (continue E m spec s).
Proof.
  intros Hb Hs. unfold continue. destruct (m (thist s)) as [[[]|e] h].
  - by eapply served_at.
  - destruct (collect E (ts_probe spec) h) as [[r|e] h1]; by eapply served_answer.
  - by eapply served_answer.
Qed.

Lemma served_next b spec loaded rest s :
  busy b spec s → ts_error spec = None → ts_mode spec = BrowserNative → served (next_module spec loaded rest s).
Proof.
  intros Hb He Hm. unfold TestsWorker.next_module. destruct rest as [|m rest].
  - destruct (run_steps _ _ _ _ _ _ _) as [[rs n]|f] eqn:Hr; [|by eapply served_answer].
    eapply (served_answer b spec); [done|]. simpl. repeat split; try done. by eapply run_steps_order.
  - destruct (decodeB64 (ms_wasmB64 m)); [by eapply served_at|by eapply served_answer].
Qed.

Lemma served_start b spec s : busy b spec s → served (start_job b spec s).
Proof.
  intros Hb. unfold TestsWorker.start_job. destruct (ts_error spec) as [m|] eqn:He; [by eapply served_answer|].
  destruct (ts_mode spec) eqn:Hm; [by eapply served_next| |by eapply served_answer].
  unfold start_wast. destruct (Z.eqb_spec (zlen (text_encode (ts_wastText spec))) (ts_sourceBytes spec)); [|by eapply served_answer].
  cbv zeta. simpl negb. cbv iota. destruct (cached s); [by eapply served_at|].
  destruct (b || engine_bytes); [by eapply served_at|by eapply served_answer].
Qed.

Lemma served_busy b spec s : served s → job s = Some (b, spec) → busy b spec s ∧ pc_ok spec (tpc_at s).
Proof. intros [Ho] Hj. rewrite Hj in Ho. destruct Ho as (Hr & Hp & Hb). by repeat split. Qed.

Lemma served_control op arg s : served s → served (on_control op arg s).
Proof.
  intros Hs. unfold on_control. destruct (op =? 1); [|destruct (op =? 0); [|destruct (op =? 2); [|done]]];
    constructor; apply Hs.
Qed.

Lemma served_step e s s' : served s → tstep e s = Some s' → served s'.
Proof.
  intros Hs. destruct (job s) as [[b spec]|] eqn:Hj.
  - destruct (served_busy b spec s Hs Hj) as [Hb Hp]. destruct e; simpl; rewrite ?Hj.
    + intros [= <-]. by apply served_control.
    + intros [= <-]. unfold on_job. destruct Hb as (_ & -> & _). done.
    + destruct (tpc_at s) as [| | | | |loaded [|m rest]] eqn:Hpc; try done; intros [= <-].
      * destruct (runtimePaused s); [done|by apply served_start].
      * by eapply served_continue.
    + destruct (tpc_at s) as [| | | | |loaded [|m rest]] eqn:Hpc; try done. destruct ok; intros [= <-]; [|by eapply served_answer].
      by eapply (served_at b spec TInstantiating (set_cached s)).
    + destruct (tpc_at s) as [| | | | |loaded [|m rest]] eqn:Hpc; try done. destruct ok; intros [= <-]; [|by eapply served_answer]. by eapply served_continue.
    + destruct (tpc_at s) as [| | | | |loaded [|m rest]] eqn:Hpc; try done.
      destruct r as [[i n]|]; intros [= <-]; [|by eapply served_answer]. destruct Hp. by eapply served_next.
  - destruct e; simpl; rewrite ?Hj; try done.
    + intros [= <-]. by apply served_control.
    + intros [= <-]. destruct Hs as [Ho]. rewrite Hj in Ho. destruct Ho as (Hr & _ & Hf). unfold on_job. rewrite Hr.
      set (s1 := mkTWorker _ _ true _ _ _ _ _ _ _).
      assert (busy wasmBytes spec s1) as Hb by (by repeat split; exists (taken s)).
      destruct (runtimePaused s); [|by apply served_start]. constructor. simpl. split; [done|]. split; [done|]. by exists (taken s).
Qed.

Lemma treachable_served s : treachable s → served s.
Proof. induction 1 as [|s e s' _ IH Hs]; [by repeat constructor|by eapply served_step]. Qed.

(** C15: The test worker answers every job it takes exactly once and in order: in every state it can
    reach the replies are those of the jobs taken before the one in progress, a job
    arriving meanwhile is dropped without a reply, and a [done] reply names the file of its job, which had
    a supported mode, no error and (for a script) the announced length; a fixture's results are one per step, in order. *)
Theorem test_worker_one_reply s :
  treachable s →
  match job s with
  | None => workerRunning s = false ∧ Forall2 reply_ok (taken s) (replies s)
  | Some (_, spec) =>
    workerRunning s = true ∧ (∃ before, taken s = before ++ [spec] ∧ Forall2 reply_ok before (replies s)) ∧
    ∀ b spec', tstep (VJob b spec') s = Some s
  end.
Proof.
  intros H. destruct (treachable_served s H) as [Ho]. destruct (job s) as [[b spec]|]; [|by destruct Ho as (? & _ & ?)].
  destruct Ho as (Hr & _ & Hb). split; [done|]. split; [done|]. intros b' spec'. simpl. unfold on_job. by rewrite Hr.
Qed.

(** ** Clean runs *)

(** The history of the engine in use is clean while its run waits. *)
Definition waiting_clean (s : tworker) : Prop := tpc_at s = TWaiting → clean E (thist s).

Definition reported (spec : test_spec) (s : tworker) (r : wast_report) : Prop :=
  clean E (thist s) ∧ last_status E (thist s) = Some 0 ∧
  ∃ total, announced E (thist s) total ∧ zlen (wr_results r) = Z.max 0 total + if ts_probe spec then 1 else 0.

(** A step that replies nothing, an error, or a clean report. *)
Definition replied_clean (s s' : tworker) : Prop :=
  waiting_clean s' ∧
  ∀ file r, replies s' = replies s ++ [Done file (WastReport r)] → ∃ b spec, job s = Some (b, spec) ∧ reported spec s' r.

Lemma snoc_ne {A} (l : list A) x : l ≠ l ++ [x].
Proof. intros H%(f_equal length). rewrite length_app in H. simpl in H. lia. Qed.

Lemma clean_none s s' : replies s' = replies s → waiting_clean s' → replied_clean s s'.
Proof. intros Hr Hw. split; [done|]. intros file r H. rewrite Hr in H. by apply snoc_ne in H. Qed.

Lemma clean_reply s q x : (∀ file r, x ≠ Done file (WastReport r)) → replies q = replies s → replied_clean s (answer_job x q).
Proof.
  intros Hx Hr. split; [done|]. intros file r H. simpl in H. rewrite Hr in H. apply app_inj_2 in H as [_ [= ->]]; [|done].
  by destruct (Hx file r).
Qed.

Lemma clean_continue (m : W bool) b spec s q :
  job s = Some (b, spec) → replies q = replies s →
  (∀ x h', m (thist q) = (Ok x, h') → clean E h' ∧ last_status E h' = Some (if x then 1 else 0)) →
  replied_clean s (continue E m spec q).
Proof.
  intros Hj Hr Hm. unfold continue. destruct (m (thist q)) as [[[]|e] h] eqn:He.
  - apply clean_none; [done|]. intros _. by apply (Hm true h).
  - destruct (Hm false h eq_refl) as [Hc Hl]. destruct (collect E (ts_probe spec) h) as [[r|e] h1] eqn:Hcol; [|by apply clean_reply].
    destruct (collect_ok E _ _ _ _ Hcol) as (Hc1 & Hl1 & Ht). split; [done|]. intros file r' H. simpl in H. rewrite Hr in H.
    apply app_inj_2 in H as [_ [= _ <-]]; [|done]. exists b, spec. split; [done|]. split; [by apply Hc1|]. split; [|done].
    simpl. by rewrite Hl1.
  - by apply clean_reply.
Qed.

Lemma clean_next spec loaded rest s q : replies q = replies s → replied_clean s (next_module spec loaded rest q).
Proof.
  intros Hr. unfold TestsWorker.next_module. destruct rest as [|m rest].
  - destruct (run_steps _ _ _ _ _ _ _) as [[rs n]|f]; by apply clean_reply.
  - destruct (decodeB64 _); [by apply clean_none|by apply clean_reply].
Qed.

Lemma clean_start b spec s q : replies q = replies s → replied_clean s (start_job b spec q).
Proof.
  intros Hr. unfold TestsWorker.start_job. destruct (ts_error spec); [by apply clean_reply|].
  destruct (ts_mode spec); [by apply clean_next| |by apply clean_reply].
  unfold start_wast. destruct (negb _); [by apply clean_reply|]. destruct (cached q); [by apply clean_none|].
  destruct (_ || _); [by apply clean_none|by apply clean_reply].
Qed.

Lemma clean_step e s s' : waiting_clean s → tstep e s = Some s' → replied_clean s s'.
Proof.
  intros Hw. destruct e; simpl.
  - intros [= <-]. unfold on_control. by repeat case_match; apply clean_none.
  - intros [= <-]. unfold on_job. destruct (workerRunning s); [by apply clean_none|].
    destruct (runtimePaused s); [by apply clean_none|by apply clean_start].
  - destruct (job s) as [[b spec]|] eqn:Hj; [|done]. destruct (tpc_at s) as [| | | | |loaded [|m rest]] eqn:Hpc; try done; intros [= <-].
    + destruct (runtimePaused s); [by apply clean_none|by apply clean_start].
    + eapply clean_continue; [done..|]. intros x h'. apply resume_ok. by apply Hw.
  - destruct (job s) as [[b spec]|] eqn:Hj; [|done]. destruct (tpc_at s) as [| | | | |loaded [|m rest]] eqn:Hpc; try done.
    destruct ok; intros [= <-]; [by apply clean_none|by apply clean_reply].
  - destruct (job s) as [[b spec]|] eqn:Hj; [|done]. destruct (tpc_at s) as [| | | | |loaded [|m rest]] eqn:Hpc; try done.
    destruct ok; intros [= <-]; [|by apply clean_reply]. eapply clean_continue; [done..|]. intros x h'. by apply begin_ok.
  - destruct (job s) as [[b spec]|] eqn:Hj; [|done]. destruct (tpc_at s) as [| | | | |loaded [|m rest]] eqn:Hpc; try done.
    destruct r as [[i n]|]; intros [= <-]; [by apply clean_next|by apply clean_reply].
Qed.

Lemma treachable_clean s : treachable s → waiting_clean s.
Proof. induction 1 as [|s e s' _ IH Hs]; [done|]. by apply (clean_step e s s'). Qed.

End loop.

Lemma trun_reachable E eb ex inv l s s' :
  treachable E eb ex inv s → trun E eb ex inv l s = Some s' → treachable E eb ex inv s'.
Proof.
  revert s. induction l as [|e l IH]; intros s Hs; simpl; [by intros [= <-]|].
  destruct (tstep E eb ex inv e s) as [s1|] eqn:H1; [|done]. simpl. apply IH. by eapply treach_step.
Qed.

(** ** Examples *)

(** An engine that answers 0 to everything: every script ends at once, without results. *)
Definition plain_engine : tengine := mkTEngine (λ _ _, Some 0) (λ _ _, []) (λ _, replicate 64 0) false.

Definition plain_spec : test_spec := mkSpec (codes "a.wast") WastStream None (codes "(module)") 8 [] true [] [].

Definition plain_run (l : list tevent) : tworker :=
  default tinitial (trun plain_engine false (λ _ _, false) (λ _ _ _ s, (Threw, s)) l tinitial).

Lemma plain_reachable l :
  (if trun plain_engine false (λ _ _, false) (λ _ _ _ s, (Threw, s)) l tinitial is Some _ then true else false) = true →
  treachable plain_engine false (λ _ _, false) (λ _ _ _ s, (Threw, s)) (plain_run l).
Proof.
  unfold plain_run. destruct (trun _ _ _ _ l tinitial) as [s|] eqn:Hs; [|done]. intros _. simpl.
  eapply trun_reachable; [apply treach_init|exact Hs].
Qed.

Lemma test_worker_one_reply_witness :
  let s := plain_run [VJob true plain_spec; VJob true plain_spec; VCompiled true; VInstantiated true; VJob true plain_spec] in
  zlen (replies s) = 1 ∧ zlen (taken s) = 2 ∧
  ∃ before, taken s = before ++ [plain_spec] ∧ Forall2 reply_ok before (replies s).
Proof.
  intros s. split; [by vm_compute|]. split; [by vm_compute|].
  assert (treachable plain_engine false (λ _ _, false) (λ _ _ _ s, (Threw, s)) s) as Hs by (apply plain_reachable; by vm_compute).
  pose proof (test_worker_one_reply _ _ _ _ s Hs) as H. replace (job s) with (Some (true, plain_spec)) in H by (by vm_compute).
  by destruct H as (_ & H & _).
Defined.

