(* ===== verification/TestsWorkerReport.v ===== *)
(** * The report of the test worker

    The layout of the engine's result records as an encoder, the reader of tests-worker.js as its
    inverse, and the run of a whole WAST job on an engine that finishes it. *)

From stdpp Require Import base numbers list strings gmap.
From Stdlib Require Import ZArith Lia.
From S2P Require Import Prelude JsNum TermModel TermCells Utf8 WatFloat Worker NativeFixture NativeTheorems Base64 TestsWorker TestsWorkerTheorems.

#[local] Open Scope Z_scope.
#[local] Open Scope waste_scope.

(** ** The layout *)

Definition pad_to (n : Z) (l : list Z) : list Z := l ++ replicate (Z.to_nat (n - zlen l)) 0.

(** A record of 256 bytes: a pass byte, 63 bytes of name, 192 bytes of error text. *)
Definition encode_record (r : test_result) : list Z :=
  let '(pass, name, error) := r in
  (if (pass : bool) then 1 else 0) :: pad_to 63 (take 63 (encode_points name)) ++ pad_to 192 (encode_points error).

(** Results the layout can hold; [names]: the full names are stored elsewhere. *)
Definition result_ok (names : bool) (r : test_result) : Prop :=
  let '(pass, name, error) := r in
  Forall scalar name ∧ Forall scalar error ∧ Forall (λ c, c ≠ 0) error ∧ head error ≠ Some 65279 ∧
  zlen (encode_points error) ≤ 192 ∧ (pass = true → error = []) ∧
  (names = false → Forall (λ c, c ≠ 0) name ∧ zlen (encode_points name) ≤ 63).

Lemma zlen_pad n l : zlen l ≤ n → zlen (pad_to n l) = n.
Proof. intros H. unfold pad_to. rewrite zlen_app. unfold zlen in *. rewrite length_replicate. lia. Qed.

Lemma zlen_take_le {A} n (l : list A) : zlen (take n l) ≤ Z.of_nat n.
Proof. unfold zlen. rewrite length_take. lia. Qed.

Lemma zlen_record r names : result_ok names r → zlen (encode_record r) = 256.
Proof.
  destruct r as [[pass name] error]. intros (_ & _ & _ & _ & He & _). unfold encode_record.
  replace (zlen (_ :: _)) with (1 + zlen (pad_to 63 (take 63 (encode_points name)) ++ pad_to 192 (encode_points error)))
    by (unfold zlen; simpl; lia).
  rewrite zlen_app, !zlen_pad; [done|done|]. apply (zlen_take_le 63).
Qed.

(** ** Reading one record *)

(** [mem] holds [bytes] at [base]. *)
Definition holds (mem : list Z) (base : Z) (bytes : list Z) : Prop :=
  ∃ pre post, mem = pre ++ bytes ++ post ∧ zlen pre = base.

Lemma holds_sub mem base a b c : holds mem base (a ++ b ++ c) → holds mem (base + zlen a) b.
Proof.
  intros (pre & post & -> & <-). exists (pre ++ a), (c ++ post). rewrite zlen_app. by rewrite <- !app_assoc.
Qed.

Lemma holds_left mem base b c : holds mem base (b ++ c) → holds mem base b.
Proof. intros (pre & post & -> & <-). exists pre, (c ++ post). by rewrite <- !app_assoc. Qed.

Lemma holds_head mem base x l : holds mem base (x :: l) → zlookup mem base = Some x.
Proof.
  intros (pre & post & -> & <-). unfold zlen. rewrite zlookup_nat, lookup_app_r, Nat.sub_diag by lia. done.
Qed.

Lemma holds_slice mem base b : holds mem base b → array_slice mem base (base + zlen b) = b.
Proof.
  intros (pre & post & -> & <-). pose proof (zlen_nonneg pre). pose proof (zlen_nonneg b). pose proof (zlen_nonneg post).
  rewrite array_slice_window by (rewrite ?zlen_app; lia). unfold window, zlen. rewrite !Nat2Z.id, drop_app_length.
  by rewrite take_app_length.
Qed.

(** The scan for a NUL stops right behind [b], at a NUL or at the limit. *)
Lemma scan_nul_spec mem base i b rest fuel :
  holds mem (base + i) (b ++ rest) → Forall (λ x, x ≠ 0) b → (length b ≤ fuel)%nat →
  length b = fuel ∨ head rest = Some 0 → scan_nul mem base i fuel = i + zlen b.
Proof.
  intros Hh Hb. revert i fuel Hh. induction Hb as [|x b Hx _ IH]; intros i fuel Hh Hl Hend.
  - destruct fuel as [|fuel]; [simpl; unfold zlen; simpl; lia|]. destruct Hend as [|Hr]; [done|]. destruct rest as [|y rest]; [done|].
    injection Hr as ->. simpl. rewrite (holds_head _ _ _ _ Hh). simpl. unfold zlen. simpl. lia.
  - destruct fuel as [|fuel]; [simpl in Hl; lia|]. simpl. rewrite (holds_head _ _ _ _ Hh).
    rewrite bool_decide_eq_false_2 by congruence. rewrite (IH (i + 1)).
    + unfold zlen. simpl. lia.
    + replace (base + (i + 1)) with (base + i + zlen [x]) by (unfold zlen; simpl; lia).
      apply (holds_sub mem (base + i) [x] (b ++ rest) []). by rewrite app_nil_r.
    + simpl in Hl. lia.
    + destruct Hend as [He|]; [left; simpl in He; lia|by right].
Qed.

Lemma scan_field mem base i limit b n :
  holds mem (base + i) (pad_to n b) → Forall (λ x, x ≠ 0) b → zlen b ≤ n → limit - i = n → scan_from mem base i limit = i + zlen b.
Proof.
  intros Hh Hb Hl Hn. unfold scan_from. rewrite Hn. eapply scan_nul_spec; [exact Hh|done|unfold zlen in *; lia|].
  destruct (Z.to_nat (n - zlen b)) as [|k] eqn:Hk; [left; unfold zlen in *; lia|right; done].
Qed.

Section report.
Context (E : tengine).

(** Where the reader finds the name of result [i]. *)
Definition named_at (h : list tcall) (i : Z) (name : list Z) : Prop :=
  ∃ p, te_answer E h (TNamePtr i) = Some p ∧ te_answer E (TNamePtr i :: h) (TNameLen i) = Some (zlen (encode_points name)) ∧
    holds (te_memory E h) p (encode_points name).

(** The calls of the engine run to their end. *)
Definition quiet : Prop := (∀ h c, floats_throw (te_floats E h c) = false) ∧ ∀ h c, is_Some (te_answer E h c).

Lemma export_run c h v : quiet → te_answer E h c = Some v → tcall_export E c h = (Ok v, c :: h).
Proof. intros [Hq _] Ha. unfold tcall_export. by rewrite Hq, Ha. Qed.

Lemma wbind_run {A B} (m : W A) (k : A → W B) h a h1 : m h = (Ok a, h1) → wbind m k h = k a h1.
Proof. unfold wbind. by intros ->. Qed.

(** One record reads back. *)
Lemma read_test_record ptr i h r :
  quiet → result_ok (te_names E) r → holds (te_memory E h) (ptr + i * 256) (encode_record r) →
  (te_names E = true → named_at h i r.1.2) →
  ∃ l, read_test E ptr i h = (Ok r, l ++ h) ∧ Forall accessor l.
Proof.
  destruct r as [[pass name] error]. intros Hq (Hsn & Hse & Hne & Hbom & Hle & Hpass & Hname) Hh Hat. simpl in Hat.
  set (base := ptr + i * 256) in *. unfold encode_record in Hh. set (mem := te_memory E h) in *.
  set (n63 := take 63 (encode_points name)) in *.
  assert (holds mem (base + 1) (pad_to 63 n63)) as Hn.
  { apply (holds_sub mem base [if pass then 1 else 0] _ (pad_to 192 (encode_points error))). exact Hh. }
  assert (zlen (pad_to 63 n63) = 63) as Hl63 by (apply zlen_pad, (zlen_take_le 63)).
  assert (holds mem (base + 64) (pad_to 192 (encode_points error))) as Her.
  { replace (base + 64) with (base + zlen ((if pass then 1 else 0) :: pad_to 63 n63)) by (unfold zlen in *; simpl; lia).
    eapply (holds_sub mem base _ _ []). rewrite app_nil_r. exact Hh. }
  assert (zlookup mem base = Some (if pass then 1 else 0)) as Hp by (by eapply holds_head).
  assert (negb (bool_decide (zlookup mem base = Some 0)) = pass) as Hpb by (rewrite Hp; by destruct pass).
  assert (scan_from mem base BROWSER_RESULT_ERROR_OFFSET BROWSER_RESULT_BYTES = 64 + zlen (encode_points error)) as Hsc.
  { apply (scan_field _ _ _ _ _ 192); [done|by apply encode_nonzero|done|done]. }
  assert ((if pass then [] else decode_once false (array_slice mem (base + 64) (base + (64 + zlen (encode_points error))))) = error) as Herr.
  { destruct pass; [by rewrite Hpass|]. rewrite Z.add_assoc. rewrite holds_slice by (eapply holds_left; exact Her).
    apply decode_once_encode; auto. }
  unfold read_test. rewrite (wbind_run (tmemory E) _ h mem h eq_refl). fold base. cbv zeta. fold mem.
  change (ptr + i * BROWSER_RESULT_BYTES) with base. change BROWSER_RESULT_ERROR_OFFSET with 64 in *. rewrite Hpb, Hsc, Herr.
  destruct (te_names E).
  - destruct (Hat eq_refl) as (p & Hp1 & Hp2 & Hw). rewrite (wbind_run _ _ _ _ _ (export_run _ _ _ Hq Hp1)).
    erewrite wbind_run by (rewrite (wbind_run _ _ _ _ _ (export_run _ _ _ Hq Hp2)); reflexivity).
    exists [TNameLen i; TNamePtr i]. split; [|by repeat constructor]. unfold wret. simpl. fold mem in Hw.
    by rewrite holds_slice, decode_once_encode by auto.
  - destruct (Hname eq_refl) as [Hnz Hln]. assert (n63 = encode_points name) as Hn63 by (apply take_ge; unfold zlen in Hln; lia).
    rewrite Hn63 in *. exists []. split; [|constructor]. unfold wbind, wret. simpl.
    rewrite (scan_field mem base 1 64 (encode_points name) 63) by (try done; by apply encode_nonzero).
    rewrite Z.add_assoc, holds_slice by (eapply holds_left; exact Hn). by rewrite decode_once_encode by auto.
Qed.

(** ** An engine that finishes *)

(** How often the guest was resumed. *)
Fixpoint resumes (h : list tcall) : nat :=
  match h with [] => O | TResume :: h0 => S (resumes h0) | _ :: h0 => resumes h0 end.

Definition started (h : list tcall) : Prop := ∃ p k, TRunScript p k ∈ h.

(** The script is over after [n] resumes. *)
Definition finished (n : nat) (h : list tcall) : Prop := started h ∧ resumes h = n.

(** The engine runs every script to its end: it needs [n] resumes, waiting each time for the
    clock only, and then shows the records of [rs] and [c] setup failures. *)
Class Finishes (n : nat) (rs : list test_result) (c : Z) : Prop := {
  fi_quiet : quiet;
  fi_alloc h k p : te_answer E h (TAlloc k) = Some p → 0 ≤ p ∧ p + k ≤ zlen (te_memory E (TAlloc k :: h));
  fi_stage h p a d b m : te_answer E h (TStageFile p a d b m) = Some 0;
  fi_run h p k : te_answer E h (TRunScript p k) = Some (if (0 <? n)%nat then 1 else 0);
  fi_resume h : te_answer E h TResume = Some (if (S (resumes h) <? n)%nat then 1 else 0);
  fi_wait h : te_answer E h TWaitKind = Some 2;
  fi_total h : finished n h → te_answer E h TResultsTotal = Some (zlen rs);
  fi_records h ptr i r : finished n h → te_answer E h TResultsPtr = Some ptr → zlookup rs i = Some r →
    ∀ l, Forall accessor l → holds (te_memory E (l ++ h)) (ptr + i * 256) (encode_record r);
  fi_results : Forall (result_ok (te_names E)) rs;
  fi_names h i r : te_names E = true → finished n h → zlookup rs i = Some r → named_at h i r.1.2;
  fi_count h : finished n h → te_answer E h TFailureCount = Some c;
  fi_failure h i p : finished n h → 0 ≤ i < c → te_answer E h (TFailurePtr i) = Some p →
    0 ≤ p ∧ p + 268 ≤ zlen (te_memory E (TFailurePtr i :: h)) }.

Context (n : nat) (rs : list test_result) (c : Z) `{!Finishes n rs c}.

Lemma resumes_app l h : Forall accessor l → resumes (l ++ h) = resumes h.
Proof. induction 1 as [|x l Hx _ IH]; [done|]. by destruct x. Qed.

Lemma finished_app l h : Forall accessor l → finished n h → finished n (l ++ h).
Proof.
  intros Hl [(p & k & Hs) Hr]. split; [exists p, k; apply elem_of_app; by right|]. by rewrite resumes_app.
Qed.

Lemma finished_cons x h : accessor x → finished n h → finished n (x :: h).
Proof. intros Hx. apply (finished_app [x]). by constructor. Qed.

Lemma export_answers x h : ∃ v, tcall_export E x h = (Ok v, x :: h) ∧ te_answer E h x = Some v.
Proof. destruct (proj2 fi_quiet h x) as [v Hv]. exists v. split; [|done]. apply export_run; [apply fi_quiet|done]. Qed.

(** ** Reading the report *)

Lemma read_results ptr h0 h k :
  finished n h0 → te_answer E h0 TResultsPtr = Some ptr → (∃ l, h = l ++ h0 ∧ Forall accessor l) → (k ≤ length rs)%nat →
  ∃ l, wmap (read_test E ptr) (seqZ (Z.of_nat k) (zlen rs - Z.of_nat k)) h = (Ok (drop k rs), l ++ h) ∧ Forall accessor l.
Proof.
  intros Hf Hp Hh Hk. remember (length rs - k)%nat as m eqn:Hm. revert k h Hh Hk Hm.
  induction m as [|m IH]; intros k h (l0 & -> & Hl0) Hk Hm.
  { exists []. split; [|constructor]. rewrite drop_ge by lia.
    replace (zlen rs - Z.of_nat k) with 0 by (unfold zlen; lia). done. }
  destruct (rs !! k) as [r|] eqn:Hr; [|apply lookup_ge_None in Hr; lia].
  assert (zlookup rs (Z.of_nat k) = Some r) as Hz by (by rewrite zlookup_nat).
  destruct (read_test_record ptr (Z.of_nat k) (l0 ++ h0) r) as (l1 & H1 & Hl1).
  { apply fi_quiet. } { by apply (Forall_lookup_1 _ _ k _ fi_results). } { by apply (fi_records h0). }
  { intros Hn. apply fi_names; [done|by apply finished_app|done]. }
  destruct (IH (S k) (l1 ++ l0 ++ h0)) as (l2 & H2 & Hl2); [|lia|lia|].
  { exists (l1 ++ l0). by rewrite app_assoc, Forall_app. }
  exists (l2 ++ l1). rewrite seqZ_cons by (unfold zlen; lia). cbn [wmap].
  rewrite (wbind_run _ _ _ _ _ H1). replace (Z.succ (Z.of_nat k)) with (Z.of_nat (S k)) by lia.
  replace (Z.pred (zlen rs - Z.of_nat k)) with (zlen rs - Z.of_nat (S k)) by lia.
  rewrite (wbind_run _ _ _ _ _ H2). split; [|by apply Forall_app]. unfold wret. by rewrite (drop_S _ _ _ Hr), app_assoc.
Qed.

Lemma failures_run fuel i h :
  finished n h → 0 ≤ i → (Z.to_nat (c - i) < fuel)%nat →
  ∃ fs l, failures_loop E fuel i h = (Ok fs, l ++ h) ∧ Forall accessor l.
Proof.
  revert i h. induction fuel as [|fuel IH]; intros i h Hf Hi Hfuel; [lia|]. cbn [failures_loop].
  rewrite (wbind_run _ _ _ _ _ (export_run _ _ _ fi_quiet (fi_count h Hf))).
  destruct (Z.ltb_spec i c) as [Hic|]; [|by exists [], [TFailureCount]; repeat constructor].
  assert (finished n (TFailureCount :: h)) as Hf1 by (by apply finished_cons).
  destruct (export_answers (TFailurePtr i) (TFailureCount :: h)) as (p & He & Hp).
  pose proof (fi_failure _ i p Hf1 (conj Hi Hic) Hp) as [Hp0 Hp1].
  assert (∃ x, read_setup_failure E i (TFailureCount :: h) = (Ok x, TFailurePtr i :: TFailureCount :: h)) as [x Hx].
  { unfold read_setup_failure. rewrite (wbind_run _ _ _ _ _ He). unfold wbind, tmemory.
    rewrite (proj2 (Z.leb_le 0 p)), (proj2 (Z.leb_le _ _)) by (done || (unfold WAST_SETUP_ERROR_BYTES; lia)). simpl. by eexists. }
  rewrite (wbind_run _ _ _ _ _ Hx). destruct (IH (i + 1) (TFailurePtr i :: TFailureCount :: h)) as (fs & l & Hl & Ha); [|lia|lia|].
  { by repeat apply finished_cons. }
  rewrite (wbind_run _ _ _ _ _ Hl). exists (x :: fs), (l ++ [TFailurePtr i; TFailureCount]).
  split; [unfold wret; by rewrite <- app_assoc|]. apply Forall_app. by repeat constructor.
Qed.

Lemma setup_run h : finished n h → ∃ su l, read_setup E h = (Ok su, l ++ h) ∧ Forall accessor l.
Proof.
  intros Hf. unfold read_setup.
  destruct (export_answers TSetupTotal h) as (st & H1 & _). rewrite (wbind_run _ _ _ _ _ H1).
  destruct (export_answers TSetupPassed (TSetupTotal :: h)) as (sp & H2 & _). rewrite (wbind_run _ _ _ _ _ H2).
  destruct (export_answers TSetupComplete (TSetupPassed :: TSetupTotal :: h)) as (sc & H3 & _). rewrite (wbind_run _ _ _ _ _ H3).
  set (h3 := TSetupComplete :: TSetupPassed :: TSetupTotal :: h).
  assert (finished n h3) as Hf3 by (by repeat apply finished_cons).
  erewrite wbind_run by reflexivity. rewrite (fi_count h3 Hf3). simpl default.
  destruct (failures_run (S (Z.to_nat c)) 0 h3 Hf3) as (fs & l & Hl & Ha); [lia|rewrite Z.sub_0_r; lia|].
  rewrite (wbind_run _ _ _ _ _ Hl). eexists _, (l ++ [TSetupComplete; TSetupPassed; TSetupTotal]).
  split; [unfold wret; by rewrite <- app_assoc|]. apply Forall_app. by repeat constructor.
Qed.

Lemma collect_run probe h :
  finished n h →
  ∃ r h' probed, collect E probe h = (Ok r, h') ∧ wr_results r = rs ++ probed ∧
    length probed = (if (probe : bool) then 1 else 0)%nat.
Proof.
  intros Hf. unfold collect.
  assert (∃ probed l, (if probe then wbind (tcall_export E TProbeResult) (λ v, wret (Some v)) else wret None) h = (Ok probed, l ++ h) ∧
    Forall accessor l ∧ length (match probed with Some v => [probe_result v] | None => [] end) = (if probe then 1 else 0)%nat)
    as (probed & l1 & H1 & Ha1 & Hlen).
  { destruct probe; [|by exists None, []; repeat constructor]. destruct (export_answers TProbeResult h) as (v & Hv & _).
    exists (Some v), [TProbeResult]. rewrite (wbind_run _ _ _ _ _ Hv). by repeat constructor. }
  rewrite (wbind_run _ _ _ _ _ H1). assert (finished n (l1 ++ h)) as Hf1 by (by apply finished_app).
  rewrite (wbind_run _ _ _ _ _ (export_run _ _ _ fi_quiet (fi_total _ Hf1))).
  assert (finished n (TResultsTotal :: l1 ++ h)) as Hf2 by (by apply finished_cons).
  destruct (export_answers TResultsPtr (TResultsTotal :: l1 ++ h)) as (ptr & Hp & Hptr). rewrite (wbind_run _ _ _ _ _ Hp).
  destruct (read_results ptr _ (TResultsPtr :: TResultsTotal :: l1 ++ h) 0 Hf2 Hptr) as (l2 & H2 & Ha2); [|lia|].
  { exists [TResultsPtr]. by repeat constructor. }
  rewrite Z.sub_0_r, drop_0 in H2. change (Z.of_nat 0) with 0 in H2. rewrite (wbind_run _ _ _ _ _ H2).
  destruct (setup_run (l2 ++ TResultsPtr :: TResultsTotal :: l1 ++ h)) as (su & l3 & H3 & Ha3).
  { apply finished_app; [done|]. by apply finished_cons. }
  rewrite (wbind_run _ _ _ _ _ H3). destruct (export_answers TScriptCompleted (l3 ++ l2 ++ TResultsPtr :: TResultsTotal :: l1 ++ h)) as (d & Hd & _).
  rewrite (wbind_run _ _ _ _ _ Hd). eexists _, _, _. split; [reflexivity|]. done.
Qed.

(** ** Running the script *)

Lemma store_run k bytes p h :
  te_answer E h (TAlloc k) = Some p → k = zlen bytes →
  tstore E p bytes (TAlloc k :: h) = (Ok tt, TStore p bytes :: TAlloc k :: h).
Proof.
  intros Hp ->. destruct (fi_alloc h _ p Hp). unfold tstore. by rewrite (proj2 (Z.leb_le 0 p)), (proj2 (Z.leb_le _ _)) by lia.
Qed.

(** Calls before the script runs. *)
Definition before_run (x : tcall) : Prop := match x with TRunScript _ _ | TResume => False | _ => True end.

Lemma stage_run file h :
  is_Some (decodeB64 (default [] (vf_dataB64 file))) →
  ∃ l, stage_file E file h = (Ok tt, l ++ h) ∧ Forall before_run l.
Proof.
  intros [bytes Hb]. unfold stage_file. destruct (export_answers (TAlloc (zlen (text_encode (vf_path file)))) h) as (p & Hp & Hpa).
  rewrite (wbind_run _ _ _ _ _ Hp), (wbind_run _ _ _ _ _ (store_run _ _ _ _ Hpa eq_refl)), Hb.
  set (h1 := TStore p _ :: _ :: h). destruct (zlen bytes =? 0).
  - rewrite (wbind_run _ _ _ _ _ (eq_refl (wret 0 h1))), (wbind_run _ _ _ _ _ (eq_refl (wret tt h1))).
    erewrite wbind_run by (apply export_run; [apply fi_quiet|apply fi_stage]). eexists [_; _; _]. split; [reflexivity|by repeat constructor].
  - destruct (export_answers (TAlloc (zlen bytes)) h1) as (d & Hd & Hda).
    rewrite (wbind_run _ _ _ _ _ Hd), (wbind_run _ _ _ _ _ (store_run _ _ _ _ Hda eq_refl)).
    erewrite wbind_run by (apply export_run; [apply fi_quiet|apply fi_stage]). eexists [_; _; _; _; _]. split; [reflexivity|by repeat constructor].
Qed.

Lemma stage_all_run files h :
  Forall (λ f, is_Some (decodeB64 (default [] (vf_dataB64 f)))) files →
  ∃ us l, wmap (stage_file E) files h = (Ok us, l ++ h) ∧ Forall before_run l.
Proof.
  intros Hf. revert h. induction Hf as [|f files Hf _ IH]; intros h; [by exists [], []|]. cbn [wmap].
  destruct (stage_run f h Hf) as (l1 & H1 & Ha1). rewrite (wbind_run _ _ _ _ _ H1).
  destruct (IH (l1 ++ h)) as (us & l2 & H2 & Ha2). rewrite (wbind_run _ _ _ _ _ H2).
  exists (tt :: us), (l2 ++ l1). split; [unfold wret; by rewrite app_assoc|by apply Forall_app].
Qed.

Lemma resumes_before l : Forall before_run l → resumes l = 0%nat.
Proof. induction 1 as [|x l Hx _ IH]; [done|]. by destruct x. Qed.

Lemma begin_run bytes files probe :
  Forall (λ f, is_Some (decodeB64 (default [] (vf_dataB64 f)))) files →
  ∃ h, begin_script E bytes files probe [] = (Ok (0 <? n)%nat, h) ∧ started h ∧ resumes h = 0%nat.
Proof.
  intros Hf. unfold begin_script. destruct (export_answers (TAlloc (zlen bytes)) []) as (p & Hp & Hpa).
  rewrite (wbind_run _ _ _ _ _ Hp), (wbind_run _ _ _ _ _ (store_run _ _ _ _ Hpa eq_refl)).
  destruct (stage_all_run files [TStore p bytes; TAlloc (zlen bytes)] Hf) as (us & l & Hl & Ha). rewrite (wbind_run _ _ _ _ _ Hl).
  assert (∃ z l1, (if probe then tcall_export E TRequestProbe else wret 0) (l ++ [TStore p bytes; TAlloc (zlen bytes)]) = (Ok z, l1) ∧
    Forall before_run l1) as (z & l1 & Hz & Ha1).
  { assert (Forall before_run (l ++ [TStore p bytes; TAlloc (zlen bytes)])) as Hb by (apply Forall_app; by repeat constructor).
    destruct probe; [|by eexists _, _]. destruct (export_answers TRequestProbe (l ++ [TStore p bytes; TAlloc (zlen bytes)])) as (z & Hz & _).
    exists z, (TRequestProbe :: l ++ [TStore p bytes; TAlloc (zlen bytes)]). split; [done|by constructor]. }
  rewrite (wbind_run _ _ _ _ _ Hz). unfold at_line. rewrite (wbind_run _ _ _ _ _ (export_run _ _ _ fi_quiet (fi_run _ _ _))).
  assert (resumes l1 = 0%nat) as Hr by (by apply resumes_before). unfold after_status.
  destruct (0 <? n)%nat; simpl.
  - rewrite (wbind_run _ _ _ _ _ (export_run _ _ _ fi_quiet (fi_wait _))). simpl. eexists. split; [reflexivity|].
    split; [by eexists _, _; right; left|done].
  - eexists. split; [reflexivity|]. split; [by eexists _, _; left|done].
Qed.

Lemma resume_run h :
  started h → (resumes h < n)%nat →
  ∃ h', resume_script E h = (Ok (S (resumes h) <? n)%nat, h') ∧ started h' ∧ resumes h' = S (resumes h).
Proof.
  intros (p & k & Hs) Hr. unfold resume_script, at_line. rewrite (wbind_run _ _ _ _ _ (export_run _ _ _ fi_quiet (fi_resume h))).
  unfold after_status. destruct (S (resumes h) <? n)%nat; simpl.
  - rewrite (wbind_run _ _ _ _ _ (export_run _ _ _ fi_quiet (fi_wait _))). simpl. eexists. split; [reflexivity|].
    split; [exists p, k; by right; right|done].
  - eexists. split; [reflexivity|]. split; [exists p, k; by right|done].
Qed.
End report.

(** ** A whole job *)

Section job.
Context (E : tengine) (engine_bytes : bool) (exported : nat → string → bool)
        (invoke : nat → string → list wasm_value → native → outcome * native).
#[local] Abbreviation trun := (TestsWorker.trun E engine_bytes exported invoke).
#[local] Abbreviation treachable := (TestsWorker.treachable E engine_bytes exported invoke).

(** The reply to a finished run. *)
Definition reports (spec : test_spec) (rs : list test_result) (s s' : tworker) : Prop :=
  ∃ r probed, replies s' = replies s ++ [Done (ts_file spec) (WastReport r)] ∧
    wr_results r = rs ++ probed ∧ length probed = (if ts_probe spec then 1 else 0)%nat ∧ workerRunning s' = false.

Context (n : nat) (rs : list test_result) (c : Z) `{!Finishes E n rs c}.

Lemma continue_over m spec s h : m (thist s) = (Ok false, h) → finished n h → reports spec rs s (continue E m spec s).
Proof.
  intros Hm Hf. unfold continue. rewrite Hm. destruct (collect_run E n rs c (ts_probe spec) h Hf) as (r & h1 & probed & -> & Hr & Hl).
  by exists r, probed.
Qed.

Lemma ticks_run b spec m s :
  tpc_at s = TWaiting → job s = Some (b, spec) → started (thist s) → (0 < m)%nat → (resumes (thist s) + m)%nat = n →
  ∃ s', trun (replicate m VTick) s = Some s' ∧ reports spec rs s s'.
Proof.
  revert s. induction m as [|m IH]; intros s Hpc Hj Hs Hm Hn; [lia|]. cbn [replicate TestsWorker.trun].
  destruct (resume_run E n rs c (thist s) Hs ltac:(lia)) as (h & Hh & Hs' & Hr).
  assert (TestsWorker.tstep E engine_bytes exported invoke VTick s = Some (continue E (resume_script E) spec s)) as ->
    by (simpl; by rewrite Hj, Hpc). simpl.
  destruct (Nat.ltb_spec (S (resumes (thist s))) n) as [Hlt|Hge].
  - assert (continue E (resume_script E) spec s = set_tpc TWaiting (set_thist h s)) as -> by (unfold continue; by rewrite Hh).
    by apply (IH (set_tpc TWaiting (set_thist h s))); simpl; try lia.
  - assert (m = 0)%nat as -> by lia. eexists. split; [reflexivity|]. eapply continue_over; [exact Hh|]. split; [done|lia].
Qed.

(** C8: A WAST job the engine can finish is reported, and exactly: for every engine that needs [n] timed
    waits for the script, an idle worker that is sent the job compiles (unless it has already), instantiates,
    resumes [n] times and replies [done] with precisely the results the engine recorded in its 256-byte
    records (verdict, name and error text), followed by the probe's when it was asked for; then it is
    free again. *)
Theorem wast_job_reported spec s :
  treachable s → job s = None → runtimePaused s = false →
  ts_error spec = None → ts_mode spec = WastStream → zlen (text_encode (ts_wastText spec)) = ts_sourceBytes spec →
  Forall (λ f, is_Some (decodeB64 (default [] (vf_dataB64 f)))) (ts_vfsFiles spec) →
  ∃ s', trun (VJob true spec :: (if cached s then [] else [VCompiled true]) ++ VInstantiated true :: replicate n VTick) s = Some s' ∧
    reports spec rs s s'.
Proof.
  intros Hreach Hj Hp He Hm Hlen Hfiles.
  destruct (treachable_served E engine_bytes exported invoke s Hreach) as [Ho]. rewrite Hj in Ho. destruct Ho as (Hrun & _ & _).
  destruct (begin_run E n rs c (text_encode (ts_wastText spec)) (ts_vfsFiles spec) (ts_probe spec) Hfiles) as (h & Hb & Hs & Hr).
  set (s1 := mkTWorker false (pendingRuntimeSignal s) true true (Some (true, spec)) (thist s) (fixture s) TInstantiating (replies s) (taken s ++ [spec])).
  assert (∃ s', trun (VInstantiated true :: replicate n VTick) s1 = Some s' ∧ reports spec rs s s') as (s' & Hs' & Hrep).
  { cbn [TestsWorker.trun TestsWorker.tstep job tpc_at s1]. cbn [mbind option_bind]. set (s2 := continue _ _ _ _).
    destruct (Nat.ltb_spec 0 n) as [Hn|Hn].
    - assert (s2 = set_tpc TWaiting (set_thist h s1)) as -> by (unfold s2, continue; simpl thist; by rewrite Hb).
      by apply (ticks_run true spec n (set_tpc TWaiting (set_thist h s1))); simpl; try lia.
    - exists s2. replace (replicate n VTick) with (@nil tevent) by (by replace n with 0%nat by lia). split; [done|].
      apply (continue_over (begin_script E _ _ _) spec (set_thist [] s1) h); [exact Hb|]. split; [done|lia]. }
  exists s'. split; [|done]. cbn [TestsWorker.trun TestsWorker.tstep]. unfold on_job. rewrite Hrun, Hp. cbn [mbind option_bind].
  unfold TestsWorker.start_job. rewrite He, Hm. unfold start_wast. rewrite Hlen, Z.eqb_refl. simpl negb. cbv iota.
  simpl cached. destruct (cached s) eqn:Hc; simpl app; [|cbn [TestsWorker.trun TestsWorker.tstep job tpc_at mbind option_bind]]; exact Hs'.
Qed.
End job.

(** ** An example *)

Definition demo_results : list test_result := [(true, codes "f", []); (false, [233; 33], codes "trap")].

Definition demo_records : list Z := demo_results ≫= encode_record.

(** Room for everything allocated so far, behind the records. *)
Fixpoint demo_room (h : list tcall) : Z :=
  match h with [] => 0 | TAlloc k :: h0 => Z.max 0 k + demo_room h0 | _ :: h0 => demo_room h0 end.

Definition demo_answer (h : list tcall) (x : tcall) : Z :=
  match x with
  | TAlloc _ => 512 + demo_room h
  | TRunScript _ _ => 1
  | TResume => if (S (resumes h) <? 1)%nat then 1 else 0
  | TWaitKind => 2
  | TResultsTotal => 2
  | TFailureCount => 1
  | _ => 0
  end.

Definition demo_test_engine : tengine :=
  mkTEngine (λ h x, Some (demo_answer h x)) (λ _ _, []) (λ h, demo_records ++ replicate (Z.to_nat (demo_room h)) 0) false.

Lemma demo_room_nonneg h : 0 ≤ demo_room h.
Proof. induction h as [|x h IH]; simpl; [lia|]. destruct x; lia. Qed.

Lemma demo_memory_length h : zlen (te_memory demo_test_engine h) = 512 + demo_room h.
Proof.
  pose proof (demo_room_nonneg h). cbn [te_memory demo_test_engine]. rewrite zlen_app. replace (zlen demo_records) with 512 by (by vm_compute).
  unfold zlen. rewrite length_replicate. lia.
Qed.

#[local] Instance demo_finishes : Finishes demo_test_engine 1 demo_results 1.
Proof.
  constructor; try done.
  - intros h k p [= <-]. rewrite demo_memory_length. simpl. pose proof (demo_room_nonneg h). lia.
  - intros h ptr i r _ [= <-] Hr l _. destruct (zlookup_Some_range _ _ _ Hr) as [H0 H1]. change (zlen demo_results) with 2 in H1.
    set (r0 := (true, codes "f", []) : test_result). set (r1 := (false, [233; 33], codes "trap") : test_result).
    assert (te_memory demo_test_engine (l ++ h) = encode_record r0 ++ encode_record r1 ++ replicate (Z.to_nat (demo_room (l ++ h))) 0) as ->.
    { cbn [te_memory demo_test_engine]. change demo_records with (encode_record r0 ++ encode_record r1 ++ []). by rewrite app_nil_r, <- app_assoc. }
    assert (i = 0 ∨ i = 1) as [-> | ->] by lia; injection Hr as <-.
    + by exists [], (encode_record r1 ++ replicate (Z.to_nat (demo_room (l ++ h))) 0).
    + by exists (encode_record r0), (replicate (Z.to_nat (demo_room (l ++ h))) 0).
  - repeat constructor; vm_compute; done.
  - intros h i p _ Hi [= <-]. rewrite demo_memory_length. simpl. pose proof (demo_room_nonneg h). lia.
Qed.

Lemma wast_job_reported_witness :
  ∃ s', trun demo_test_engine false (λ _ _, false) (λ _ _ _ s, (Threw, s))
          [VJob true plain_spec; VCompiled true; VInstantiated true; VTick] tinitial = Some s' ∧
        reports plain_spec demo_results tinitial s'.
Proof.
  apply (wast_job_reported demo_test_engine false (λ _ _, false) (λ _ _ _ s, (Threw, s)) 1 demo_results 1 plain_spec tinitial);
    [apply treach_init|done..|by vm_compute|constructor].
Defined.
