(* ===== verification/Loader.v ===== *)
(** * The offline page's loader (src/html-rt/src/loader.js)

    In the offline page the installed files come from a compressed tar archive:
    a zlib module inflates it (reading it through [input_chunk] and allocating
    with [wasmalloc]), a reader derived from tarballjs checks each header, and
    [boot] fills the file table.  The zlib module, the walk of tarballjs over
    the archive and [fetch] are parameters. *)

From stdpp Require Import base numbers list strings gmap.
From Stdlib Require Import ZArith Lia.
From S2P Require Import Prelude JsNum TermModel Utf8.

#[local] Open Scope Z_scope.
#[local] Open Scope waste_scope.

Abbreviation text := (list Z) (only parsing).

Inductive load_error : Type :=
| OutOfBounds            (* a view past the end of the buffer *)
| BadText | InvalidNumber | TruncatedFile | InvalidChecksum | UnsupportedType
| UnsafeOrDuplicate | UnsafeVfsPath | GrowFailed | Missing.

(** ** Tar headers *)

(** [new Uint8Array(buffer, offset, n)]. *)
Definition view (buffer : list Z) (offset n : Z) : result load_error (list Z) :=
  if (0 <=? offset) && (0 <=? n) && (offset + n <=? zlen buffer)
  then Ok (take (Z.to_nat n) (drop (Z.to_nat offset) buffer)) else Err OutOfBounds.

Inductive entry_type : Type := TFile | TDirectory.

Definition is_octal (c : Z) : bool := (48 <=? c) && (c <=? 55).
Definition octal_value (l : text) : Z := foldl (λ acc c, acc * 8 + (c - 48)) 0 l.

(** The header bytes with the checksum field read as spaces. *)
Definition checksum_bytes (header : list Z) : list Z :=
  imap (λ i b, if bool_decide (148 ≤ i < 156)%nat then 32 else b) header.
Definition checksum (header : list Z) : Z := foldr Z.add 0 (checksum_bytes header).

(** [new TextDecoder("utf-8", {fatal: true}).decode(bytes)], as a string. *)
Definition decode_field (bytes : list Z) : option text := units <$> decode_fatal false bytes.

Definition readString (buffer : list Z) (offset size : Z) : result load_error text :=
  let* bytes := view buffer offset size in of_option BadText (decode_field (until_nul bytes)).

Definition readFileName (buffer : list Z) (offset : Z) : result load_error text :=
  let* name := readString buffer offset 100 in
  let* prefix := readString buffer (offset + 345) 155 in
  Ok (if bool_decide (prefix = []) then name else prefix ++ [47] ++ name).

(** [number] inside [_readFileSize]. *)
Definition number (buffer : list Z) (at_ n : Z) : result load_error Z :=
  let* s := readString buffer at_ n in
  let value := js_trim s in
  if negb (bool_decide (value = [])) && forallb is_octal value then Ok (octal_value value) else Err InvalidNumber.

(** The member's data in whole 512-byte blocks. *)
Definition padded (size : Z) : Z := (size + 511) / 512 * 512.

Definition readFileSize (buffer : list Z) (offset : Z) : result load_error Z :=
  let* size := number buffer (offset + 124) 12 in
  if negb (size <=? 2^53 - 1) || (zlen buffer <? offset + 512 + padded size) then Err TruncatedFile
  else
    let* header := view buffer offset 512 in
    let* expected := number buffer (offset + 148) 8 in
    if checksum header =? expected then Ok size else Err InvalidChecksum.

Definition readFileType (buffer : list Z) (offset : Z) : result load_error entry_type :=
  let* bytes := view buffer (offset + 156) 1 in
  match bytes with
  | [t] => if (t =? 0) || (t =? 48) then Ok TFile else if t =? 53 then Ok TDirectory else Err UnsupportedType
  | _ => Err OutOfBounds
  end.

(** ** Filling the file table *)

Record entry : Type := mkEntry { e_name : text; e_type : entry_type; e_size : Z }.

(** [name.replace(/^\.\//, "")], and without a directory's trailing slash. *)
Definition strip_dot (name : text) : text :=
  match name with 46 :: 47 :: rest => rest | _ => name end.
Definition strip_slash (name : text) : text :=
  if bool_decide (last name = Some 47) then removelast name else name.
Definition clean_name (e : entry) : text :=
  match e_type e with TDirectory => strip_slash (strip_dot (e_name e)) | TFile => strip_dot (e_name e) end.

Definition bad_segment (part : text) : bool := bool_decide (part ∈ [[]; [46]; [46; 46]]).
Definition bad_char (c : Z) : bool := (0 <=? c) && (c <=? 31) || (c =? 92).

Definition unsafe_name (name : text) : bool :=
  bool_decide (head name = Some 47) || existsb bad_segment (split_on 47 name) || existsb bad_char name.

(** [g.tar_hash] and [g.tar_meta]: the raw name the blob is read by, the type and the size. *)
Abbreviation tar_table := (gmap (list Z) entry) (only parsing).

Definition unpack_entry (e : entry) (s : tar_table * Z) : result load_error (tar_table * Z) :=
  let name := clean_name e in
  if bool_decide (name ∈ [[]; [46]]) then Ok s
  else if unsafe_name name || bool_decide (is_Some (s.1 !! name)) then Err UnsafeOrDuplicate
  else Ok (<[name := e]> s.1, s.2 + 1).

(** The loop of [boot] over the entries of the archive, with [fileCount]. *)
Definition unpack (entries : list entry) : result load_error (tar_table * Z) :=
  foldM unpack_entry entries (∅, 0).

(** ** Inflating *)

(** The state of [zlibaux_decompress]: the input read so far, the bump pointer,
    the pages of the module's memory and the output. *)
Record inflate : Type := mkInflate {
  inputOffset : Z; memoryHead : Z; pages : Z; outputChunks : list (list Z) }.

Section zlib.
Context (compressed : list Z) (max_pages : Z).

(** [(size + 15) & ~15]. *)
Definition round16 (size : Z) : Z := Z.land (to_int32 (size + 15)) (Z.lnot 15).

(** [memory.grow] throws past the maximum. *)
Definition wasmalloc (size : Z) (s : inflate) : result load_error (Z * inflate) :=
  let size := round16 size in
  let needed := Z.shiftr (to_uint32 (memoryHead s + size + 65535)) 16 in
  if (pages s <? needed) && (max_pages <? needed) then Err GrowFailed
  else Ok (memoryHead s, mkInflate (inputOffset s) (memoryHead s + size) (Z.max (pages s) needed) (outputChunks s)).

(** The bytes stored at [buf], and their number. *)
Definition input_chunk (buflen : Z) (s : inflate) : list Z * Z * inflate :=
  let remaining := zlen compressed - inputOffset s in
  if remaining <=? 0 then ([], 0, s)
  else
    let n := Z.min remaining buflen in
    (take (Z.to_nat n) (drop (Z.to_nat (inputOffset s)) compressed), n,
     mkInflate (inputOffset s + n) (memoryHead s) (pages s) (outputChunks s)).

Definition output_chunk (bytes : list Z) (s : inflate) : inflate :=
  mkInflate (inputOffset s) (memoryHead s) (pages s) (outputChunks s ++ [bytes]).
End zlib.

(** ** The installed file tree *)

Record vfs_entry : Type := mkVfsEntry { v_role : text; v_path : text }.

Definition no_content (e : vfs_entry) : bool :=
  bool_decide (v_role e ∈ [codes "directory"; codes "interpreter"]).
Definition unsafe_path (p : text) : bool :=
  negb (bool_decide (head p = Some 47)) || existsb (λ part, bool_decide (part = [46; 46])) (split_on 47 p).

Section vfs.
(** [loadBinary], or the staging server's [fetch]. *)
Context (load : text → option (list Z)).

Definition load_entry (index : Z) (e : vfs_entry) (files : list (Z * list Z)) : result load_error (list (Z * list Z)) :=
  if no_content e then Ok files
  else if unsafe_path (v_path e) then Err UnsafeVfsPath
  else let* bytes := of_option Missing (load (drop 1 (v_path e))) in Ok (files ++ [(index, bytes)]).

Definition load_files (entries : list vfs_entry) : result load_error (list (Z * list Z)) :=
  foldM (λ x, load_entry x.1 x.2) (imap (λ i e, (Z.of_nat i, e)) entries) [].
End vfs.

(** Where the development page finds generated files. *)
Definition staging_data_root : text := codes "../../../build/html-rt/".
Definition stagingDataPath (filename : text) : text :=
  if bool_decide (filename = codes "launch.wast") then staging_data_root ++ codes "bash/launch.wast"
  else if bool_decide (filename = codes "payload.json") then staging_data_root ++ codes "tests/payload.json"
  else if bool_decide (filename = codes "waste-wast.wasm") then staging_data_root ++ filename
  else if bool_decide (filename = codes "vfs-manifest.json") then staging_data_root ++ codes "bash/vfs-manifest.json"
  else if bool_decide (filename = codes "browser-corpus-expected-failures.txt") then codes "../../../src/html-rt/test/" ++ filename
  else filename.
