(* ===== verification/LoaderTheorems.v ===== *)
(** * Theorems on the loader: headers, the file table, the inflater's buffers *)

From stdpp Require Import base numbers list strings gmap.
From Stdlib Require Import ZArith Lia.
From S2P Require Import Prelude JsNum TermModel Utf8 Loader.

#[local] Open Scope Z_scope.
#[local] Open Scope waste_scope.

(** ** Views *)

Lemma view_Ok buf off n l :
  view buf off n = Ok l → 0 ≤ off ∧ 0 ≤ n ∧ off + n ≤ zlen buf ∧ l = take (Z.to_nat n) (drop (Z.to_nat off) buf).
Proof. unfold view. destruct (_ && _) eqn:H; [|done]. b2p. intros [= <-]. auto. Qed.

Lemma view_in buf off n :
  0 ≤ off → 0 ≤ n → off + n ≤ zlen buf → view buf off n = Ok (take (Z.to_nat n) (drop (Z.to_nat off) buf)).
Proof.
  intros H1 H2 H3. unfold view.
  by rewrite (proj2 (Z.leb_le _ _) H1), (proj2 (Z.leb_le _ _) H2), (proj2 (Z.leb_le _ _) H3).
Qed.

(** The window of a concatenation. *)
Lemma view_app a b c off n : zlen a = off → zlen b = n → view (a ++ b ++ c) off n = Ok b.
Proof.
  intros <- <-. rewrite view_in; unfold zlen; rewrite ?length_app; try lia.
  by rewrite !Nat2Z.id, drop_app_length, take_app_length.
Qed.

Lemma view_insert_out buf k b off n :
  (Z.of_nat k < off ∨ off + n ≤ Z.of_nat k) → view (<[k := b]> buf) off n = view buf off n.
Proof.
  intros Hk. unfold view. rewrite zlen_insert. destruct (_ && _) eqn:H; [|done]. b2p. f_equal.
  destruct Hk as [Hk|Hk].
  - by rewrite drop_insert_lt by lia.
  - rewrite drop_insert_ge by lia. by rewrite take_insert_ge by lia.
Qed.

Lemma view_insert_in buf off n i b l :
  0 ≤ i < n → view buf off n = Ok l → view (<[Z.to_nat (off + i) := b]> buf) off n = Ok (<[Z.to_nat i := b]> l).
Proof.
  intros Hi (H1 & H2 & H3 & ->)%view_Ok. rewrite view_in by (rewrite ?zlen_insert; lia).
  f_equal. rewrite drop_insert_ge by lia. rewrite take_insert_lt by lia. f_equal. lia.
Qed.

(** ** The checksum *)

Lemma sum_app (a b : list Z) : foldr Z.add 0 (a ++ b) = foldr Z.add 0 a + foldr Z.add 0 b.
Proof. induction a as [|x a IH]; simpl; lia. Qed.

Lemma sum_insert_one (l : list Z) i x y :
  l !! i = Some x → foldr Z.add 0 (<[i := y]> l) = foldr Z.add 0 l - x + y.
Proof.
  revert i. induction l as [|a l IH]; intros [|i]; simpl; try done.
  - intros [= ->]. lia.
  - intros H. rewrite (IH i H). lia.
Qed.

Lemma checksum_insert h i x y :
  h !! i = Some x → ¬ (148 ≤ i < 156)%nat → checksum (<[i := y]> h) = checksum h - x + y.
Proof.
  intros Hx Hi. unfold checksum.
  assert (checksum_bytes (<[i := y]> h) = <[i := y]> (checksum_bytes h)) as ->.
  { unfold checksum_bytes. apply list_eq. intros k. rewrite list_lookup_imap.
    destruct (decide (i = k)) as [<-|Hne].
    - pose proof (lookup_lt_Some _ _ _ Hx). rewrite !list_lookup_insert_eq by (by rewrite ?length_imap).
      simpl. by rewrite bool_decide_eq_false_2.
    - rewrite !list_lookup_insert_ne by done. by rewrite list_lookup_imap. }
  apply sum_insert_one. unfold checksum_bytes. rewrite list_lookup_imap, Hx. simpl. by rewrite bool_decide_eq_false_2.
Qed.

Lemma readFileSize_Ok buf off size :
  readFileSize buf off = Ok size →
  off + 512 + padded size ≤ zlen buf ∧ number buf (off + 124) 12 = Ok size ∧
  ∃ header, view buf off 512 = Ok header ∧ number buf (off + 148) 8 = Ok (checksum header).
Proof.
  unfold readFileSize. destruct (number buf (off + 124) 12) as [s|]; [|done]. cbn [rbind].
  destruct (_ || _) eqn:H; [done|]. b2p. destruct (view buf off 512) as [h|]; [|done]. cbn [rbind].
  destruct (number buf (off + 148) 8) as [e|]; [|done]. cbn [rbind].
  destruct (checksum h =? e) eqn:Hc; [|done]. b2p. intros [= <-]. subst e. split; [lia|]. split; [done|]. by exists h.
Qed.

(** C40: Damage to an archive is noticed: if a tar header is accepted, then the same header with any
    one byte outside the checksum field changed is refused, even where that byte is part of the size. *)
Theorem tar_corruption_detected buf off size i b0 b :
  readFileSize buf off = Ok size →
  0 ≤ i < 512 → ¬ (148 ≤ i < 156) → zlookup buf (off + i) = Some b0 → b ≠ b0 →
  ∃ e, readFileSize (<[Z.to_nat (off + i) := b]> buf) off = Err e.
Proof.
  intros Hok Hi Hf Hb0 Hne. apply readFileSize_Ok in Hok as (_ & _ & h & Hh & Hsum).
  destruct (readFileSize (<[Z.to_nat (off + i) := b]> buf) off) as [size'|e] eqn:Hbad; [exfalso|eauto].
  apply readFileSize_Ok in Hbad as (_ & _ & h' & Hh' & Hsum').
  pose proof (view_Ok _ _ _ _ Hh) as (Ho & _ & Hl & Htake).
  rewrite (view_insert_in _ _ _ _ _ _ Hi Hh) in Hh'. injection Hh' as <-.
  unfold number, readString in Hsum, Hsum'. rewrite view_insert_out in Hsum' by lia. rewrite Hsum in Hsum'.
  injection Hsum' as Heq. rewrite (checksum_insert _ _ b0) in Heq; [lia| |lia].
  unfold zlookup in Hb0. case (Z.ltb_spec (off + i) 0) in Hb0; [lia|].
  rewrite Htake, lookup_take_lt, lookup_drop by lia. rewrite <- Hb0. f_equal. lia.
Qed.

(** ** A ustar header *)

(** [n] octal digits of [z], as tar writes numbers. *)
Fixpoint octal_digits (n : nat) (z : Z) : list Z :=
  match n with O => [] | S n => octal_digits n (z / 8) ++ [48 + z mod 8] end.

Definition pad (n : nat) (l : list Z) : list Z := l ++ replicate (n - length l) 0.

(** The fields the reader uses, in place; [chk] is the checksum field. *)
Definition ustar_front (name : list Z) (size : Z) : list Z :=
  pad 100 name ++ replicate 24 0 ++ (octal_digits 11 size ++ [0]) ++ replicate 12 0.
Definition ustar_back (type : Z) (prefix : list Z) : list Z :=
  [type] ++ replicate 188 0 ++ pad 155 prefix ++ replicate 12 0.

Definition ustar_sum (name prefix : list Z) (type size : Z) : Z :=
  foldr Z.add 0 (ustar_front name size) + 256 + foldr Z.add 0 (ustar_back type prefix).

Definition ustar (name prefix : list Z) (type size : Z) : list Z :=
  ustar_front name size ++ (octal_digits 6 (ustar_sum name prefix type size) ++ [0; 32]) ++ ustar_back type prefix.

Lemma octal_digits_length n z : length (octal_digits n z) = n.
Proof. revert z. induction n as [|n IH]; intros z; simpl; [done|]. rewrite length_app, IH. simpl. lia. Qed.

Lemma octal_digits_octal n z : Forall (λ c, 48 ≤ c ≤ 55) (octal_digits n z).
Proof.
  revert z. induction n as [|n IH]; intros z; simpl; [constructor|]. apply Forall_app. split; [apply IH|].
  repeat constructor; pose proof (Z.mod_pos_bound z 8); lia.
Qed.

Lemma octal_digits_value n z : octal_value (octal_digits n z) = z mod 8 ^ Z.of_nat n.
Proof.
  revert z. induction n as [|n IH]; intros z; [by rewrite Z.mod_1_r|].
  cbn [octal_digits]. unfold octal_value in *. rewrite foldl_app, IH. simpl foldl.
  replace (8 ^ Z.of_nat (S n)) with (8 * 8 ^ Z.of_nat n) by (rewrite Nat2Z.inj_succ, Z.pow_succ_r; lia).
  rewrite Z.rem_mul_r by (try apply Z.pow_nonzero; try apply Z.pow_pos_nonneg; lia). lia.
Qed.

Lemma until_nul_stop a b : Forall (λ c, c ≠ 0) a → until_nul (a ++ 0 :: b) = a.
Proof. induction 1 as [|c a Hc _ IH]; simpl; [done|]. by rewrite (proj2 (Z.eqb_neq _ _) Hc), IH. Qed.

Lemma until_nul_all a : Forall (λ c, c ≠ 0) a → until_nul a = a.
Proof. induction 1 as [|c a Hc _ IH]; simpl; [done|]. by rewrite (proj2 (Z.eqb_neq _ _) Hc), IH. Qed.

Lemma until_nul_pad n l : Forall (λ c, c ≠ 0) l → until_nul (pad n l) = l.
Proof.
  intros H. unfold pad. destruct (n - length l)%nat; simpl; [by rewrite app_nil_r, until_nul_all|by apply until_nul_stop].
Qed.

Lemma not_space c : 48 ≤ c ≤ 55 → is_js_space c = false.
Proof.
  intros H. assert (c ∈ seqZ 48 8) as Hc by (apply elem_of_seqZ; lia).
  repeat (apply elem_of_cons in Hc as [->|Hc]; [by vm_compute|]). by apply elem_of_nil in Hc.
Qed.

Lemma trim_digits l : Forall (λ c, 48 ≤ c ≤ 55) l → js_trim l = l.
Proof.
  intros H. assert (∀ l, Forall (λ c, 48 ≤ c ≤ 55) l → skip_space l = l) as Hs.
  { intros l' H'. destruct H' as [|c l' Hc _]; [done|]. simpl. by rewrite not_space. }
  unfold js_trim. rewrite (Hs l H), (Hs (rev l)), rev_involutive; [done|]. by apply Forall_rev.
Qed.

Lemma pad_length n l : (length l ≤ n)%nat → length (pad n l) = n.
Proof. intros H. unfold pad. rewrite length_app, length_replicate. lia. Qed.

Lemma checksum_split a c b :
  length a = 148%nat → length c = 8%nat →
  checksum (a ++ c ++ b) = foldr Z.add 0 a + 256 + foldr Z.add 0 b.
Proof.
  intros Ha Hc. unfold checksum, checksum_bytes. rewrite !imap_app, !sum_app, Ha, Hc.
  assert (∀ (l : list Z) f, (∀ i b, l !! i = Some b → f i b = b) → imap f l = l) as Hid.
  { intros l f Hf. apply list_eq. intros i. rewrite list_lookup_imap. destruct (l !! i) eqn:Hi; simpl; [by rewrite Hf|done]. }
  rewrite (Hid a), (Hid b).
  - do 9 (destruct c as [|? c]; try done). simpl. lia.
  - intros i x _. unfold compose. case_bool_decide; [lia|done].
  - intros i x Hi%lookup_lt_Some. unfold compose. case_bool_decide; [lia|done].
Qed.

Lemma sum_bounds l : Forall is_byte l → 0 ≤ foldr Z.add 0 l ≤ 255 * zlen l.
Proof. unfold zlen, is_byte. induction 1; simpl; lia. Qed.

(** A text a header field can hold: no NUL, and no byte order mark in front. *)
Definition field_text (t : list Z) : Prop := Forall scalar t ∧ Forall (λ c, c ≠ 0) t ∧ head t ≠ Some 65279.

Lemma pad_bytes n l : Forall is_byte l → Forall is_byte (pad n l).
Proof. intros H. apply Forall_app. split; [done|]. apply Forall_replicate. unfold is_byte. lia. Qed.

Section roundtrip.
Context (name_text prefix_text : list Z) (type size : Z) (before rest : list Z).
Context (Hname : field_text name_text) (Hprefix : field_text prefix_text).
#[local] Abbreviation name := (encode_points name_text).
#[local] Abbreviation prefix := (encode_points prefix_text).
Context (Hnl : (length name ≤ 100)%nat) (Hpl : (length prefix ≤ 155)%nat).
Context (Hsize : 0 ≤ size < 8 ^ 11) (Htype : 0 ≤ type ≤ 127).

Lemma front_length : length (ustar_front name size) = 148%nat.
Proof. unfold ustar_front. rewrite !length_app, pad_length, octal_digits_length by done. done. Qed.

Lemma back_length : length (ustar_back type prefix) = 356%nat.
Proof. unfold ustar_back. rewrite !length_app, pad_length by done. done. Qed.

Lemma ustar_length : length (ustar name prefix type size) = 512%nat.
Proof. unfold ustar. by rewrite !length_app, front_length, back_length, octal_digits_length. Qed.

Lemma ustar_sum_bounds : 0 ≤ ustar_sum name prefix type size < 8 ^ 6.
Proof.
  unfold ustar_sum.
  assert (∀ n, Forall is_byte (replicate n 0)) as Hzero by (intros n; apply Forall_replicate; unfold is_byte; lia).
  destruct Hname as [Hn _], Hprefix as [Hp _]. apply encode_points_bytes in Hn, Hp.
  assert (Forall is_byte (ustar_front name size)) as H1%sum_bounds.
  { unfold ustar_front. rewrite !Forall_app. split; [by apply pad_bytes|]. split; [done|]. split; [|done].
    split; [|repeat constructor; unfold is_byte; lia].
    eapply Forall_impl; [apply octal_digits_octal|]. unfold is_byte. simpl. lia. }
  assert (Forall is_byte (ustar_back type prefix)) as H2%sum_bounds.
  { unfold ustar_back. rewrite !Forall_app. split; [apply Forall_singleton; unfold is_byte; lia|]. split; [done|].
    split; [by apply pad_bytes|done]. }
  unfold zlen in *. rewrite front_length in H1. rewrite back_length in H2. lia.
Qed.

(** A text field read back. *)
Lemma readString_field buf a b c off n t :
  buf = a ++ b ++ c → zlen a = off → zlen b = n → until_nul b = encode_points t → field_text t → readString buf off n = Ok (units t).
Proof.
  intros -> Ha Hb Hl (Hs & _ & Hbom). unfold readString. rewrite (view_app _ _ _ _ _ Ha Hb). simpl. rewrite Hl.
  unfold decode_field. by rewrite decode_fatal_field.
Qed.

Lemma number_field buf a b c off n k z tail :
  buf = a ++ b ++ c → zlen a = off → zlen b = n → b = octal_digits k z ++ 0 :: tail → 0 ≤ z < 8 ^ Z.of_nat k → (0 < k)%nat →
  number buf off n = Ok z.
Proof.
  intros Hbuf Ha Hb Heq Hz Hk. pose proof (octal_digits_octal k z) as Hoct.
  assert (encode_points (octal_digits k z) = octal_digits k z) as Henc.
  { apply encode_points_ascii. eapply Forall_impl; [exact Hoct|]. simpl. lia. }
  unfold number. rewrite (readString_field buf a b c off n (octal_digits k z)); try done.
  - cbn [rbind]. rewrite units_plain by (eapply Forall_impl; [exact Hoct|]; simpl; lia). rewrite trim_digits by done.
    assert (forallb is_octal (octal_digits k z) = true) as ->.
    { apply forallb_forall. intros c' Hc'%list_elem_of_In. rewrite Forall_forall in Hoct. specialize (Hoct c' Hc').
      unfold is_octal. by rewrite (proj2 (Z.leb_le _ _) (proj1 Hoct)), (proj2 (Z.leb_le _ _) (proj2 Hoct)). }
    rewrite bool_decide_eq_false_2.
    + simpl. f_equal. rewrite octal_digits_value. by apply Z.mod_small.
    + intros Hnil. pose proof (octal_digits_length k z) as Hlen. rewrite Hnil in Hlen. simpl in Hlen. lia.
  - rewrite Heq, Henc. apply until_nul_stop. eapply Forall_impl; [exact Hoct|]. simpl. lia.
  - split; [|split].
    + eapply Forall_impl; [exact Hoct|]. unfold scalar. simpl. lia.
    + eapply Forall_impl; [exact Hoct|]. simpl. lia.
    + destruct Hoct as [|d l Hd]; [done|]. simpl. intros [= ->]. lia.
Qed.

Definition archive : list Z := before ++ ustar name prefix type size ++ rest.

Lemma readFileName_ustar :
  readFileName archive (zlen before) = Ok (units (if bool_decide (prefix_text = []) then name_text else prefix_text ++ [47] ++ name_text)).
Proof.
  assert (Forall (λ b, b ≠ 0) name ∧ Forall (λ b, b ≠ 0) prefix) as [Hn0 Hp0].
  { destruct Hname as (? & ? & _), Hprefix as (? & ? & _). split; by apply encode_nonzero. }
  unfold readFileName.
  rewrite (readString_field archive before (pad 100 name)
    (replicate 24 0 ++ (octal_digits 11 size ++ [0]) ++ replicate 12 0 ++
     (octal_digits 6 (ustar_sum name prefix type size) ++ [0; 32]) ++ ustar_back type prefix ++ rest) _ _ name_text).
  - cbn [rbind].
    rewrite (readString_field archive
      (before ++ ustar_front name size ++ (octal_digits 6 (ustar_sum name prefix type size) ++ [0; 32]) ++ [type] ++ replicate 188 0)
      (pad 155 prefix) (replicate 12 0 ++ rest) _ _ prefix_text); [| | | | |done].
    + cbn [rbind]. destruct prefix_text as [|c t]; [done|]. rewrite !bool_decide_eq_false_2; [by rewrite !units_app|done|].
      change (units (c :: t)) with (units1 c ++ units t). unfold units1. by destruct (65535 <? c).
    + unfold archive, ustar, ustar_back. by rewrite <- !app_assoc.
    + unfold zlen. rewrite !length_app, front_length, octal_digits_length. simpl. lia.
    + unfold zlen. by rewrite pad_length.
    + by apply until_nul_pad.
  - unfold archive, ustar, ustar_front. by rewrite <- !app_assoc.
  - done.
  - unfold zlen. by rewrite pad_length.
  - by apply until_nul_pad.
  - done.
Qed.

Lemma readFileSize_ustar :
  padded size ≤ zlen rest → readFileSize archive (zlen before) = Ok size.
Proof.
  intros Hrest. unfold readFileSize.
  rewrite (number_field archive (before ++ pad 100 name ++ replicate 24 0) (octal_digits 11 size ++ [0])
    (replicate 12 0 ++ (octal_digits 6 (ustar_sum name prefix type size) ++ [0; 32]) ++ ustar_back type prefix ++ rest)
    _ _ 11 size []); try done; try lia.
  - cbn [rbind]. unfold archive at 1. rewrite zlen_app, zlen_app. unfold zlen at 2. rewrite ustar_length.
    destruct (_ || _) eqn:Hc; [exfalso; apply orb_true_iff in Hc as [Hc|Hc]; b2p; lia|].
    rewrite (view_app before (ustar name prefix type size) rest); [|done|unfold zlen; by rewrite ustar_length]. cbn [rbind].
    rewrite (number_field archive (before ++ ustar_front name size)
      (octal_digits 6 (ustar_sum name prefix type size) ++ [0; 32]) (ustar_back type prefix ++ rest)
      _ _ 6 (ustar_sum name prefix type size) [32]); try done; try lia.
    + cbn [rbind]. unfold ustar. rewrite checksum_split by (rewrite ?length_app, ?octal_digits_length; apply front_length || done).
      by rewrite Z.eqb_refl.
    + unfold archive, ustar. by rewrite <- !app_assoc.
    + unfold zlen. rewrite !length_app, front_length. lia.
    + apply ustar_sum_bounds.
  - unfold archive, ustar, ustar_front. by rewrite <- !app_assoc.
  - unfold zlen. rewrite !length_app, pad_length, length_replicate by done. lia.
Qed.

Lemma readFileType_ustar :
  readFileType archive (zlen before) =
  if (type =? 0) || (type =? 48) then Ok TFile else if type =? 53 then Ok TDirectory else Err UnsupportedType.
Proof.
  unfold readFileType.
  assert (archive = (before ++ ustar_front name size ++ (octal_digits 6 (ustar_sum name prefix type size) ++ [0; 32])) ++
    [type] ++ (replicate 188 0 ++ pad 155 prefix ++ replicate 12 0) ++ rest) as ->.
  { unfold archive, ustar, ustar_back. by rewrite <- !app_assoc. }
  rewrite view_app; [done| |done]. unfold zlen. rewrite !length_app, front_length, octal_digits_length. simpl. lia.
Qed.
End roundtrip.


Definition sample_archive : list Z := ustar (encode_points [233; 46; 116]) [] 48 3 ++ pad 512 (codes "abc").


Lemma tar_corruption_detected_witness :
  ∃ e, readFileSize (<[Z.to_nat (0 + 5) := 66]> sample_archive) 0 = Err e.
Proof.
  apply (tar_corruption_detected sample_archive 0 3 5 0 66); [by vm_compute|lia|lia|by vm_compute|lia].
Defined.

(** ** The file table *)

Definition kept (l : list entry) : list entry := filter (λ e, clean_name e ∉ [[]; [46]]) l.
Definition kept_names (l : list entry) : list (list Z) := clean_name <$> kept l.

(** A relative path that stays below its root. *)
Definition safe_name (n : list Z) : Prop :=
  head n ≠ Some 47 ∧ Forall (λ part, part ≠ [] ∧ part ≠ [46] ∧ part ≠ [46; 46]) (split_on 47 n) ∧
  Forall (λ c, c ≠ 92 ∧ (c < 0 ∨ 31 < c)) n.

Lemma existsb_Forall {A} (f : A → bool) l : existsb f l = false ↔ Forall (λ a, f a = false) l.
Proof.
  induction l as [|a l IH]; simpl; [by split; [constructor|]|]. rewrite orb_false_iff, Forall_cons, IH. done.
Qed.

Lemma unsafe_name_spec n : unsafe_name n = false ↔ safe_name n.
Proof.
  unfold unsafe_name, safe_name. rewrite !orb_false_iff, bool_decide_eq_false, !existsb_Forall.
  assert (∀ part, bad_segment part = false ↔ part ≠ [] ∧ part ≠ [46] ∧ part ≠ [46; 46]) as Hs.
  { intros part. unfold bad_segment. rewrite bool_decide_eq_false. set_solver. }
  assert (∀ c, bad_char c = false ↔ c ≠ 92 ∧ (c < 0 ∨ 31 < c)) as Hc.
  { intros c. unfold bad_char. rewrite orb_false_iff, andb_false_iff, Z.eqb_neq, !Z.leb_gt. tauto. }
  rewrite !Forall_forall. setoid_rewrite Hs. setoid_rewrite Hc. tauto.
Qed.

Lemma kept_snoc l e :
  kept (l ++ [e]) = kept l ++ (if bool_decide (clean_name e ∈ [[]; [46]]) then [] else [e]).
Proof.
  unfold kept. rewrite filter_app. f_equal. rewrite filter_cons, filter_nil.
  case_bool_decide as H; destruct (decide _); done.
Qed.

Lemma kept_cases l e :
  kept (l ++ [e]) = kept l ∨ (clean_name e ∉ [[]; [46]]) ∧ kept (l ++ [e]) = kept l ++ [e].
Proof. rewrite kept_snoc. case_bool_decide; [left; by rewrite app_nil_r|right; done]. Qed.

(** What the loop has built after the entries [l]. *)
Definition unpacked (l : list entry) (r : result load_error (gmap (list Z) entry * Z)) : Prop :=
  match r with
  | Ok (m, n) => Forall safe_name (kept_names l) ∧ NoDup (kept_names l) ∧ n = zlen (kept l) ∧
      ∀ k e, m !! k = Some e ↔ e ∈ kept l ∧ clean_name e = k
  | Err e => e = UnsafeOrDuplicate ∧ ¬ (Forall safe_name (kept_names l) ∧ NoDup (kept_names l))
  end.

Lemma unpacked_keep l e m n :
  (clean_name e ∉ [[]; [46]]) → kept (l ++ [e]) = kept l ++ [e] → unpacked l (Ok (m, n)) →
  unpacked (l ++ [e]) (if unsafe_name (clean_name e) || bool_decide (is_Some (m !! clean_name e)) then Err UnsafeOrDuplicate
                       else Ok (<[clean_name e := e]> m, n + 1)).
Proof.
  intros Hne Hk (H1 & H2 & -> & H4). unfold unpacked, kept_names in *. rewrite Hk, fmap_app. simpl.
  destruct (unsafe_name (clean_name e)) eqn:Hu; simpl.
  { split; [done|]. rewrite Forall_app, Forall_singleton. intros [[_ Hs] _]. apply unsafe_name_spec in Hs. congruence. }
  apply unsafe_name_spec in Hu. case_bool_decide as Hin.
  { split; [done|]. intros [_ Hnd]. apply NoDup_app in Hnd as (_ & Hnd & _). destruct Hin as [e' [He' Hc]%H4].
    apply (Hnd (clean_name e)); [|set_solver]. rewrite <- Hc. by apply list_elem_of_fmap_2. }
  assert (clean_name e ∉ clean_name <$> kept l) as Hfresh.
  { intros (e' & He & He')%list_elem_of_fmap. apply Hin. exists e'. by apply H4. }
  split; [apply Forall_app; by rewrite Forall_singleton|]. split.
  { apply NoDup_app. split; [done|]. split; [|apply NoDup_singleton]. set_solver. }
  split; [rewrite zlen_app; done|]. intros k e'. destruct (decide (clean_name e = k)) as [<-|Hne'].
  - rewrite lookup_insert_eq. split; [intros [= <-]; set_solver|]. rewrite elem_of_app, list_elem_of_singleton.
    intros [[He| ->] Hc]; [|done]. exfalso. apply Hfresh. rewrite <- Hc. by apply list_elem_of_fmap_2.
  - rewrite lookup_insert_ne by done. rewrite H4, elem_of_app, list_elem_of_singleton. naive_solver.
Qed.

Lemma unpack_unpacked l : unpacked l (unpack l).
Proof.
  induction l as [|e l IH] using rev_ind.
  { unfold unpack. simpl. split; [constructor|]. split; [constructor|]. split; [done|]. intros k e.
    rewrite lookup_empty. unfold kept. rewrite filter_nil. set_solver. }
  unfold unpack in *. rewrite foldM_snoc. destruct (foldM unpack_entry l (∅, 0)) as [[m n]|e'] eqn:Hf; simpl in *.
  - unfold unpack_entry. simpl. case_bool_decide as Hb.
    + assert (kept (l ++ [e]) = kept l) as Hk by (rewrite kept_snoc, bool_decide_eq_true_2; [apply app_nil_r|done]).
      unfold unpacked, kept_names in *. by rewrite Hk.
    + apply unpacked_keep; try done. by rewrite kept_snoc, bool_decide_eq_false_2.
  - destruct IH as [-> Hn]. split; [done|]. intros [H1 H2]. apply Hn. unfold kept_names in *.
    destruct (kept_cases l e) as [Hk|[_ Hk]]; rewrite Hk in *; [done|].
    rewrite fmap_app in *. apply Forall_app in H1 as [? _]. by apply NoDup_app in H2 as [? _].
Qed.

(** C11: The offline page accepts an archive exactly when the names of its entries (less "./" and a
    directory's final slash, the root left out) are distinct relative paths that cannot leave the
    root and hold no control character or backslash; the table then maps each name to its entry,
    and to nothing else, and the count is the number of entries. *)
Theorem unpack_exact entries :
  match unpack entries with
  | Ok (m, n) => Forall safe_name (kept_names entries) ∧ NoDup (kept_names entries) ∧ n = zlen (kept entries) ∧
      ∀ k e, m !! k = Some e ↔ e ∈ kept entries ∧ clean_name e = k
  | Err e => e = UnsafeOrDuplicate ∧ ¬ (Forall safe_name (kept_names entries) ∧ NoDup (kept_names entries))
  end.
Proof. apply unpack_unpacked. Qed.

(** ** Inflating *)

Lemma round16_spec size :
  0 ≤ size < 2^31 - 15 → size ≤ round16 size < size + 16 ∧ round16 size mod 16 = 0.
Proof.
  intros H. unfold round16. rewrite to_int32_id by lia. change 15 with (Z.ones 4). rewrite <- Z.ldiff_land, Z.ldiff_ones_r by lia.
  rewrite Z.shiftr_div_pow2, Z.shiftl_mul_pow2 by lia. change (Z.ones 4) with 15. change (2^4) with 16.
  split; [Z.to_euclidean_division_equations; lia|by apply Z.mod_mul].
Qed.

Section inflate.
Context (compressed : list Z) (max_pages : Z).

(** A run of allocations: the blocks that were given out. *)
Fixpoint allocations (sizes : list Z) (s : inflate) : result load_error (list (Z * Z) * inflate) :=
  match sizes with
  | [] => Ok ([], s)
  | size :: rest =>
    let* '(p, s1) := wasmalloc max_pages size s in
    let* '(blocks, s2) := allocations rest s1 in
    Ok ((p, size) :: blocks, s2)
  end.

(** Blocks in order, without overlap, from [lo] to [hi]. *)
Fixpoint apart (lo hi : Z) (blocks : list (Z * Z)) : Prop :=
  match blocks with
  | [] => lo ≤ hi
  | (p, size) :: rest => lo ≤ p ∧ apart (p + size) hi rest
  end.

Lemma apart_weaken lo lo' hi blocks : lo' ≤ lo → apart lo hi blocks → apart lo' hi blocks.
Proof. destruct blocks as [|[p n] l]; simpl; [lia|]. intros H [? ?]. split; [lia|done]. Qed.

Definition room (sizes : list Z) : Z := foldr (λ n acc, n + 16 + acc) 0 sizes.

Lemma wasmalloc_ok size s :
  0 ≤ size < 2^31 - 15 → 0 ≤ memoryHead s → memoryHead s ≤ 65536 * pages s → memoryHead s + size + 16 ≤ 2^32 - 65536 →
  match wasmalloc max_pages size s with
  | Ok (p, s') => p = memoryHead s ∧ p + size ≤ memoryHead s' ≤ p + size + 16 ∧ memoryHead s' ≤ 65536 * pages s'
  | Err e => e = GrowFailed ∧ 65536 * max_pages < memoryHead s + size + 16
  end.
Proof.
  intros Hs Hh Hp Hb. destruct (round16_spec size Hs) as [H16 _]. unfold wasmalloc.
  rewrite to_uint32_id by lia. rewrite Z.shiftr_div_pow2 by lia. change (2^16) with 65536.
  set (needed := (memoryHead s + round16 size + 65535) / 65536).
  assert (memoryHead s + round16 size ≤ 65536 * needed < memoryHead s + round16 size + 65536)
    by (unfold needed; Z.to_euclidean_division_equations; lia).
  case (Z.ltb_spec (pages s) needed); case (Z.ltb_spec max_pages needed); intros H1 H2; simpl;
    (split; [done|]); try split; lia.
Qed.

Lemma allocations_ok sizes s :
  Forall (λ n, 0 ≤ n < 2^31 - 15) sizes → 0 ≤ memoryHead s → memoryHead s ≤ 65536 * pages s →
  memoryHead s + room sizes ≤ 2^32 - 65536 → memoryHead s + room sizes ≤ 65536 * max_pages →
  ∃ blocks s', allocations sizes s = Ok (blocks, s') ∧ blocks.*2 = sizes ∧ apart (memoryHead s) (65536 * pages s') blocks.
Proof.
  intros Hall. revert s. induction Hall as [|n sizes Hn Hall IH]; intros s Hh Hp Hb Hm; simpl in *; [by eexists _, _|].
  assert (0 ≤ room sizes) as Hr by (clear -Hall; induction Hall; simpl; lia).
  pose proof (wasmalloc_ok n s Hn Hh Hp ltac:(lia)) as Hw.
  destruct (wasmalloc max_pages n s) as [[p s1]|e]; [|lia]. destruct Hw as (-> & Hs1 & Hp1). cbn [rbind].
  destruct (IH s1) as (blocks & s2 & -> & Hsz & Hap); try lia. cbn [rbind].
  eexists _, _. split; [done|]. split; [cbn; by f_equal|]. simpl. split; [done|].
  eapply apart_weaken; [|exact Hap]. lia.
Qed.

(** Reads of the zlib module: the chunks and counts it got. *)
Fixpoint reads (lens : list Z) (s : inflate) : list (list Z * Z) * inflate :=
  match lens with
  | [] => ([], s)
  | n :: rest =>
    let '(chunk, count, s1) := input_chunk compressed n s in
    let '(chunks, s2) := reads rest s1 in ((chunk, count) :: chunks, s2)
  end.

Lemma input_chunk_spec n s :
  0 ≤ n → 0 ≤ inputOffset s ≤ zlen compressed →
  let '(chunk, count, s') := input_chunk compressed n s in
  count = zlen chunk ∧ count ≤ n ∧ inputOffset s' = inputOffset s + count ∧ inputOffset s' ≤ zlen compressed ∧
  take (Z.to_nat (inputOffset s')) compressed = take (Z.to_nat (inputOffset s)) compressed ++ chunk ∧
  (count = 0 → 0 < n → inputOffset s = zlen compressed).
Proof.
  intros Hn Ho. unfold input_chunk. case (Z.leb_spec (zlen compressed - inputOffset s) 0); intros Hr.
  - split; [done|]. split; [done|]. split; [lia|]. split; [lia|]. split; [by rewrite app_nil_r|]. lia.
  - cbn [inputOffset]. set (k := Z.min _ _).
    split; [unfold zlen in *; rewrite length_take, length_drop; lia|]. split; [lia|]. split; [done|]. split; [lia|].
    split; [|lia]. rewrite Z2Nat.inj_add by lia. by rewrite take_take_drop.
Qed.

Lemma reads_spec lens s :
  Forall (λ n, 0 ≤ n) lens → 0 ≤ inputOffset s ≤ zlen compressed →
  let '(chunks, s') := reads lens s in
  take (Z.to_nat (inputOffset s')) compressed = take (Z.to_nat (inputOffset s)) compressed ++ concat chunks.*1 ∧
  Forall2 (λ c n, c.2 = zlen c.1 ∧ c.2 ≤ n ∧ (c.2 = 0 → 0 < n → inputOffset s' = zlen compressed)) chunks lens ∧
  inputOffset s ≤ inputOffset s' ≤ zlen compressed.
Proof.
  intros Hall. revert s. induction Hall as [|n lens Hn Hall IH]; intros s Ho; simpl.
  { split; [by rewrite app_nil_r|]. split; [constructor|lia]. }
  pose proof (input_chunk_spec n s Hn Ho) as Hc. destruct (input_chunk compressed n s) as [[chunk count] s1].
  destruct Hc as (Hcount & Hle & Hoff & Hend & Htake & Hzero).
  assert (0 ≤ count) by (subst; apply zlen_nonneg).
  specialize (IH s1 ltac:(lia)). destruct (reads lens s1) as [chunks s2]. destruct IH as (IH1 & IH2 & IH3).
  split; [simpl; by rewrite IH1, Htake, app_assoc|]. split; [|lia]. constructor; [|done]. simpl.
  split; [done|]. split; [done|]. intros H0 Hpos. specialize (Hzero H0 Hpos). lia.
Qed.
End inflate.

(** The zlib module gets the compressed file exactly once and in order: however it sizes its
    buffers, the chunks it was given are a prefix of the file, each as long as its count says and no
    longer than its buffer, and the first answer of 0 to a real request means the file was all given. *)
Theorem inflate_input_exact compressed lens head pages :
  Forall (λ n, 0 ≤ n) lens →
  let '(chunks, s) := reads compressed lens (mkInflate 0 head pages []) in
  concat chunks.*1 = take (Z.to_nat (inputOffset s)) compressed ∧
  Forall2 (λ c n, c.2 = zlen c.1 ∧ c.2 ≤ n ∧ (c.2 = 0 → 0 < n → concat chunks.*1 = compressed)) chunks lens.
Proof.
  intros Hall. pose proof (zlen_nonneg compressed). pose proof (reads_spec compressed lens (mkInflate 0 head pages []) Hall) as H1.
  destruct (reads compressed lens _) as [chunks s]. simpl in H1. destruct H1 as (H1 & H2 & H3); [lia|].
  split; [by symmetry|]. eapply Forall2_impl; [exact H2|]. simpl. intros c n (? & ? & Hz). split; [done|]. split; [done|].
  intros Hz0 Hpos. rewrite <- H1, Hz by done. apply take_ge. unfold zlen. lia.
Qed.

Lemma inflate_input_exact_witness :
  let '(chunks, s) := reads [1; 2; 3] [2; 2; 2] (mkInflate 0 1024 2 []) in
  concat chunks.*1 = take (Z.to_nat (inputOffset s)) [1; 2; 3] ∧
  Forall2 (λ c n, c.2 = zlen c.1 ∧ c.2 ≤ n ∧ (c.2 = 0 → 0 < n → concat chunks.*1 = [1; 2; 3])) chunks [2; 2; 2].
Proof. apply (inflate_input_exact [1; 2; 3] [2; 2; 2] 1024 2). repeat constructor; lia. Defined.

(** The memory handed to the zlib module is sound: while the requests fit below 4 GiB (less a
    page) and the module's maximum, every allocation succeeds, the blocks are as large as asked,
    never overlap, start at the heap base or above and end within the grown memory. *)
Theorem inflate_blocks_apart max_pages sizes s :
  Forall (λ n, 0 ≤ n < 2^31 - 15) sizes → 0 ≤ memoryHead s → memoryHead s ≤ 65536 * pages s →
  memoryHead s + room sizes ≤ 2^32 - 65536 → memoryHead s + room sizes ≤ 65536 * max_pages →
  ∃ blocks s', allocations max_pages sizes s = Ok (blocks, s') ∧ blocks.*2 = sizes ∧
    apart (memoryHead s) (65536 * pages s') blocks.
Proof. apply allocations_ok. Qed.

Lemma inflate_blocks_apart_witness :
  ∃ blocks s', allocations 65536 [100; 70000; 0] (mkInflate 0 1024 1 []) = Ok (blocks, s') ∧ blocks.*2 = [100; 70000; 0] ∧
    apart 1024 (65536 * pages s') blocks.
Proof.
  apply (inflate_blocks_apart 65536 [100; 70000; 0] (mkInflate 0 1024 1 [])); [repeat constructor; lia|simpl; lia..].
Defined.

(** ** The installed files *)

Lemma load_files_snoc load l e :
  load_files load (l ++ [e]) = rbind (load_files load l) (load_entry load (zlen l) e).
Proof. unfold load_files. rewrite imap_app. simpl. by rewrite foldM_snoc, Nat.add_0_r. Qed.

(** The files handed to the engine are exactly the entries of the manifest that have content,
    each under its own index and with the bytes stored under its path; an entry whose path is not
    absolute or climbs with ".." stops the load. *)
Lemma load_files_exact load entries :
  match load_files load entries with
  | Ok files => ∀ i b, (i, b) ∈ files ↔ ∃ e, zlookup entries i = Some e ∧ no_content e = false ∧
      unsafe_path (v_path e) = false ∧ load (drop 1 (v_path e)) = Some b
  | Err e => ∃ bad, bad ∈ entries ∧ no_content bad = false ∧
      (unsafe_path (v_path bad) = true ∨ load (drop 1 (v_path bad)) = None)
  end.
Proof.
  induction entries as [|e l IH] using rev_ind.
  { simpl. intros i b. unfold zlookup. split; [by intros ?%elem_of_nil|]. intros (e & He & _). by destruct (i <? 0). }
  rewrite load_files_snoc. destruct (load_files load l) as [files|er]; simpl.
  2: { destruct IH as (bad & Hin & Hbad). exists bad. split; [set_solver|done]. }
  assert (∀ i e', zlookup (l ++ [e]) i = Some e' ↔ zlookup l i = Some e' ∨ i = zlen l ∧ e' = e) as Hsnoc.
  { intros i e'. unfold zlookup, zlen. case (Z.ltb_spec i 0); intros Hi; [split; [done|intros [?|[? ?]]; [done|lia]]|].
    rewrite lookup_app_Some, list_lookup_singleton_Some. split.
    - intros [?|(? & ? & ->)]; [by left|right]. split; [lia|done].
    - intros [?|[-> ->]]; [by left|right]. split; [lia|]. split; [lia|done]. }
  unfold load_entry. destruct (no_content e) eqn:Hc.
  { intros i b. rewrite IH. setoid_rewrite Hsnoc. naive_solver congruence. }
  destruct (unsafe_path (v_path e)) eqn:Hu; [exists e; split; [set_solver|auto]|].
  destruct (load (drop 1 (v_path e))) as [bytes|] eqn:Hl; simpl; [|exists e; split; [set_solver|auto]].
  intros i b. rewrite elem_of_app, list_elem_of_singleton, IH. setoid_rewrite Hsnoc. naive_solver congruence.
Qed.
