(* ===== verification/Boot.v ===== *)
(** * Starting the page (src/html-rt/src/loader.js)

    The asynchronous functions of the loader, as programs that call browser
    services.  A program ([prog]) is a tree of calls; a browser answers each call
    from the history so far, whatever it likes, and a run yields the outcome
    and the history.  [fetch], [Blob], object URLs, script and worker creation,
    [WebAssembly.compile] and the running zlib module are such services; the walk of
    tarballjs over an archive and [JSON.parse] are parameters. *)

From stdpp Require Import base numbers list strings gmap.
From Stdlib Require Import ZArith Lia.
From S2P Require Import Prelude JsNum TermModel Utf8 Loader.

#[local] Open Scope Z_scope.
#[local] Open Scope waste_scope.

(** ** Programs *)

(** A [Response]: its [ok] flag, and its body unless reading it fails. *)
Record response : Type := mkResponse { r_ok : bool; r_body : option (list Z) }.

(** A call of the zlib module to one of its imports. *)
Inductive zcall : Type := ZMalloc (size : Z) | ZInput (buflen : Z) | ZOutput (bytes : list Z).

(** What the application gets: the mode and the unpacked files. *)
Record globals : Type := mkGlobals { is_staging : bool; tar_hash : gmap (list Z) (list Z) }.

Inductive fx : Type :=
| Fetch (url : list Z)
| CreateURL (parts : list (list Z))        (* [URL.createObjectURL(new Blob(parts))] *)
| RevokeURL (url : Z)
| NewWorker (url : Z)
| AppendStyle (css : list Z)
| AppendScript (url : Z)                   (* the script element, until [onload] or [onerror] *)
| Progress (message : list Z) (detail : option Z)
| CompileZlib (bytes : list Z)
| RunZlib (compiled : bool) (bytes : list Z)
| Callback (g : globals).

(** The answers; [None] and [false] are rejections or exceptions. *)
Definition reply (c : fx) : Type :=
  match c with
  | Fetch _ => option response
  | CreateURL _ => Z
  | NewWorker _ => option Z
  | AppendScript _ | CompileZlib _ | Callback _ => bool
  | RunZlib _ _ => option (list zcall)
  | RevokeURL _ | AppendStyle _ | Progress _ _ => unit
  end.

Inductive boot_error : Type :=
| FetchFailed | NoDecompressor | ZlibUnavailable | CompileFailed | InflateFailed | BadJSON | NotUnpacked (name : list Z)
| LoadError (e : load_error) | ScriptFailed (name : list Z) | WorkerFailed | CallbackFailed.

Inductive prog (A : Type) : Type :=
| Ret (a : A)
| Raise (e : boot_error)
| Call (c : fx) (k : reply c → prog A).
Arguments Ret {A} a.
Arguments Raise {A} e.
Arguments Call {A} c k.

#[export] Instance prog_ret : MRet prog := @Ret.

#[export] Instance prog_bind : MBind prog := λ A B f,
  fix go (p : prog A) : prog B :=
    match p with Ret a => f a | Raise e => Raise e | Call c k => Call c (λ r, go (k r)) end.

Definition call (c : fx) : prog (reply c) := Call c Ret.

(** [try { p } finally { f }], for an [f] that does not throw. *)
Fixpoint finally {A} (p : prog A) (f : prog unit) : prog A :=
  match p with
  | Ret a => f;; Ret a
  | Raise e => f;; Raise e
  | Call c k => Call c (λ r, finally (k r) f)
  end.

Fixpoint pfor {A} (f : A → prog unit) (l : list A) : prog unit :=
  match l with [] => mret tt | a :: l' => f a;; pfor f l' end.

Fixpoint pmap {A B} (f : A → prog B) (l : list A) : prog (list B) :=
  match l with [] => mret [] | a :: l' => b ← f a; bs ← pmap f l'; mret (b :: bs) end.

Definition require {A} (e : boot_error) (o : option A) : prog A := match o with Some a => mret a | None => Raise e end.
Definition check_result {A} (r : result load_error A) : prog A := match r with Ok a => mret a | Err e => Raise (LoadError e) end.

(** A call with its answer, and a browser. *)
Definition event : Type := sigT reply.
Definition browser : Type := list event → ∀ c, reply c.

(** The outcome, with the history (oldest first) continued. *)
Fixpoint run {A} (B : browser) (p : prog A) (h : list event) : result boot_error A * list event :=
  match p with
  | Ret a => (Ok a, h)
  | Raise e => (Err e, h)
  | Call c k => let r := B h c in run B (k r) (h ++ [existT c r])
  end.

(** ** Loading files *)

Definition body (r : option response) : prog (list Z) :=
  r ← require FetchFailed r; require FetchFailed (r_body r).

(** [(await fetch(url)).arrayBuffer()]. *)
Definition fetch_body (url : list Z) : prog (list Z) := r ← call (Fetch url); body r.

(** [text()] of a response or a blob, as a string. *)
Definition text_of (bytes : list Z) : list Z := units (decode_once false bytes).

Section loader.
(** [JSON.parse] of the mount metadata. *)
Context (parse_manifest : list Z → option (list vfs_entry)) {J : Type} (parse : list Z → option J).

Definition member (g : globals) (filename : list Z) : prog (list Z) := require (NotUnpacked filename) (tar_hash g !! filename).

Definition loadBinary (g : globals) (filename : list Z) : prog (list Z) :=
  if is_staging g then fetch_body (stagingDataPath filename) else member g filename.

Definition loadText (g : globals) (filename : list Z) : prog (list Z) :=
  if is_staging g then b ← fetch_body (stagingDataPath filename); mret (text_of b)
  else b ← member g filename; mret (text_of b).

Definition loadJSON (g : globals) (filename : list Z) : prog J :=
  if is_staging g then b ← fetch_body (stagingDataPath filename); require BadJSON (parse (text_of b))
  else b ← member g filename; require BadJSON (parse (text_of b)).

(** One entry of the installed tree. *)
Definition vfs_file (g : globals) (index : Z) (e : vfs_entry) (files : list (Z * list Z)) : prog (list (Z * list Z)) :=
  if no_content e then mret files
  else if unsafe_path (v_path e) then Raise (LoadError UnsafeVfsPath)
  else
    let name := drop 1 (v_path e) in
    b ← (if is_staging g then fetch_body (codes "../../vfs/" ++ name) else loadBinary g name);
    mret (files ++ [(index, b)]).

Fixpoint vfs_loop (g : globals) (index : Z) (entries : list vfs_entry) (files : list (Z * list Z)) : prog (list (Z * list Z)) :=
  match entries with
  | [] => mret files
  | e :: l => files' ← vfs_file g index e files; vfs_loop g (index + 1) l files'
  end.

(** The body of [loadInstalledVfs]: the inventory and the files by their index in it. *)
Definition load_vfs (g : globals) : prog (list Z * list (Z * list Z)) :=
  inventory ← loadBinary g (codes "vfs-manifest.json");
  entries ← require BadJSON (parse_manifest (text_of inventory));
  files ← vfs_loop g 0 entries [];
  mret (inventory, files).
End loader.

(** ** Scripts and workers *)

(** [JSON.stringify(WASTE_CONFIG)], in the prologue of a development worker. *)
Definition config_prologue (config : list Z) : list Z := codes "globalThis.WASTE_CONFIG = Object.freeze(" ++ config ++ codes ");" ++ [10].

Definition start_worker (parts : list (list Z)) : prog Z :=
  url ← call (CreateURL parts); w ← call (NewWorker url); w ← require WorkerFailed w; call (RevokeURL url);; mret w.

Definition createWorker (config : list Z) (g : globals) (filename : list Z) : prog Z :=
  if is_staging g then source ← loadText g filename; start_worker [config_prologue config; source]
  else
    let filename := if bool_decide (filename = codes "worker.js") then codes "root/app/worker.js" else filename in
    b ← member g filename; start_worker [text_of b].

Definition webapp_files : list (list Z) :=
  codes <$> ["root/app/terminal/model.js"; "root/app/terminal/glf.js"; "root/app/terminal/renderer.js";
             "root/app/terminal/render-test.js"; "root/app/test-suite.js"; "root/app/app.js"]%string.

Definition load_script (g : globals) (filename : list Z) : prog unit :=
  source ← loadText g filename;
  url ← call (CreateURL [source]);
  finally (loaded ← call (AppendScript url); if (loaded : bool) then mret tt else Raise (ScriptFailed filename))
          (call (RevokeURL url)).

Definition loadWebappFiles (g : globals) : prog unit :=
  css ← loadText g (codes "root/app/style.css");
  call (AppendStyle css);;
  pfor (load_script g) webapp_files.

(** ** Booting *)

Section boot.
(** The page's constants, the reader of tar archives, and the zlib module's memory. *)
Context (zlibUrl : option (list Z)) (manifestUrls : list (list Z))
        (untar : list Z → result load_error (list entry)) (getFileBlob : list Z → list Z → list Z)
        (heap_base start_pages max_pages : Z).

Definition zlib_call (compressed : list Z) (c : zcall) (s : inflate) : result load_error inflate :=
  match c with
  | ZMalloc size => let* r := wasmalloc max_pages size s in Ok r.2
  | ZInput n => Ok (input_chunk compressed n s).2
  | ZOutput bytes => Ok (output_chunk bytes s)
  end.

(** [zlibaux_decompress]: the output of the module, which calls the imports as it likes. *)
Definition zlibaux_decompress (compiled : bool) (compressed : list Z) : prog (list Z) :=
  url ← require NoDecompressor zlibUrl;
  zlibBytes ← fetch_body url;
  calls ← call (RunZlib compiled zlibBytes);
  calls ← require InflateFailed calls;
  s ← check_result (foldM (zlib_call compressed) calls (mkInflate 0 heap_base start_pages []));
  mret (concat (outputChunks s)).

Definition progress (message : list Z) (detail : option Z) : prog unit := call (Progress message detail).
Definition run_callback (g : globals) : prog unit :=
  done ← call (Callback g); if (done : bool) then mret tt else Raise CallbackFailed.

(** [(n / 1024) | 0]. *)
Definition kilobytes (n : Z) : Z := to_int32 (n / 1024).

(** [Promise.all] of the fetches: all are made, and one failure is enough. *)
Definition fetch_all (urls : list (list Z)) : prog (list (list Z)) :=
  answers ← pmap (λ u, call (Fetch u)) urls;
  require FetchFailed (mapM (λ r, r ← r; r_body r) answers).

Definition ellipsis (s : string) : list Z := codes s ++ [8230].

(** The zlib module of the page, compiled. *)
Definition load_zlib : prog unit :=
  url ← require NoDecompressor zlibUrl;
  r ← call (Fetch url);
  r ← require FetchFailed r;
  if r_ok r then
    b ← require FetchFailed (r_body r);
    ok ← call (CompileZlib b);
    if (ok : bool) then mret tt else Raise CompileFailed
  else Raise ZlibUnavailable.

(** The archive's members under their names in the file table. *)
Definition table_of (archive : list Z) (table : gmap (list Z) entry) : gmap (list Z) (list Z) :=
  (λ e, getFileBlob archive (e_name e)) <$> table.

Definition boot (staging : bool) : prog unit :=
  if staging then progress (ellipsis "Loading") None;; run_callback (mkGlobals true ∅)
  else
    progress (ellipsis "Loading zlib-wasm") None;;
    load_zlib;;
    progress (ellipsis "Loading compressed app") None;;
    buffers ← fetch_all manifestUrls;
    let compressed := concat buffers in
    progress (ellipsis "Decompressing app") (Some (kilobytes (zlen compressed)));;
    archive ← zlibaux_decompress true compressed;
    let size := kilobytes (zlen archive) in
    progress (ellipsis "Unpacking") (Some size);;
    entries ← check_result (untar archive);
    unpacked ← check_result (unpack entries);
    progress (codes "Loaded " ++ dec_text unpacked.2 ++ codes " files") (Some size);;
    progress (ellipsis "Starting Bash") None;;
    run_callback (mkGlobals false (table_of archive unpacked.1)).
End boot.

(** ** A load that callers share

    [installedVfsLoading]: the first caller starts the load, later ones get the same promise; a rejected
    load is forgotten (its [catch] runs before any later event), so that the next caller
    starts over. *)

Record shared (A : Type) : Type := mkShared {
  sl_variable : option nat;                          (* the promise kept, as a number of a load *)
  sl_loads : list (option (result boot_error A));    (* every load started; [None] while it runs *)
  sl_callers : list nat }.                           (* the load each caller waits for *)
Arguments mkShared {A}.
Arguments sl_variable {A}.
Arguments sl_loads {A}.
Arguments sl_callers {A}.

Section shared.
Context {A : Type}.

Definition no_loads : shared A := mkShared None [] [].

(** A call: the load that is kept, or a new one. *)
Definition join_load (s : shared A) : shared A :=
  match sl_variable s with
  | Some i => mkShared (Some i) (sl_loads s) (sl_callers s ++ [i])
  | None => mkShared (Some (length (sl_loads s))) (sl_loads s ++ [None]) (sl_callers s ++ [length (sl_loads s)])
  end.

(** Load [i] ends. *)
Definition load_settled (i : nat) (r : result boot_error A) (s : shared A) : option (shared A) :=
  match sl_loads s !! i with
  | Some None =>
    Some (mkShared (match r with Ok _ => sl_variable s | Err _ => None end) (<[i := Some r]> (sl_loads s)) (sl_callers s))
  | _ => None
  end.

Inductive shared_reachable : shared A → Prop :=
| shared_init : shared_reachable no_loads
| shared_call s : shared_reachable s → shared_reachable (join_load s)
| shared_settle s i r s' : shared_reachable s → load_settled i r s = Some s' → shared_reachable s'.
End shared.

(** A call of [loadInstalledVfs]: its body is [load_vfs]. *)
Definition loadInstalledVfs : shared (list Z * list (Z * list Z)) → shared (list Z * list (Z * list Z)) := join_load.
