(* ===== verification/BootTheorems.v ===== *)
(** * Theorems on starting the page

    [accepts p r t]: the program [p] can make the calls [t] and end with [r].  Every
    run is one ([run_accepts]), and the rules below take a program apart. *)

From stdpp Require Import base numbers list strings gmap.
From Stdlib Require Import ZArith Lia.
From S2P Require Import Prelude JsNum TermModel Utf8 Loader LoaderTheorems Boot.

#[local] Open Scope Z_scope.
#[local] Open Scope waste_scope.

Definition ev (c : fx) (r : reply c) : event := existT c r.

(** ** The calls of a program *)

Fixpoint accepts {A} (p : prog A) (r : result boot_error A) (t : list event) : Prop :=
  match p with
  | Ret a => r = Ok a ∧ t = []
  | Raise e => r = Err e ∧ t = []
  | Call c k => ∃ a t', t = ev c a :: t' ∧ accepts (k a) r t'
  end.

Lemma run_accepts {A} B (p : prog A) h : ∃ t, (run B p h).2 = h ++ t ∧ accepts p (run B p h).1 t.
Proof.
  revert h. induction p as [a|e|c k IH]; intros h; simpl; [exists []; by rewrite app_nil_r..|].
  destruct (IH (B h c) (h ++ [existT c (B h c)])) as (t & Ht & Ha). exists (ev c (B h c) :: t).
  rewrite Ht, <- app_assoc. split; [done|]. by exists (B h c), t.
Qed.

Lemma accepts_bind {A B} (p : prog A) (f : A → prog B) r t :
  accepts (p ≫= f) r t →
  (∃ a t1 t2, t = t1 ++ t2 ∧ accepts p (Ok a) t1 ∧ accepts (f a) r t2) ∨ (∃ e, r = Err e ∧ accepts p (Err e) t).
Proof.
  revert t. induction p as [a|e|c k IH]; intros t; simpl.
  - intros H. left. by exists a, [], t.
  - intros [-> ->]. right. by exists e.
  - intros (a & t' & -> & H). destruct (IH a t' H) as [(b & t1 & t2 & -> & H1 & H2)|(e & -> & H1)].
    + left. exists b, (ev c a :: t1), t2. split; [done|]. split; [by exists a, t1|done].
    + right. exists e. split; [done|]. by exists a, t'.
Qed.

Lemma accepts_finally {A} (p : prog A) f r t :
  accepts (finally p f) r t →
  ∃ r1 t1 t2, t = t1 ++ t2 ∧ accepts p r1 t1 ∧
    (accepts f (Ok tt) t2 ∧ r = r1 ∨ ∃ e, accepts f (Err e) t2 ∧ r = Err e).
Proof.
  revert t. induction p as [a|e|c k IH]; intros t; simpl.
  - intros H. exists (Ok a), [], t. split; [done|]. split; [done|].
    apply accepts_bind in H as [([] & t1 & t2 & -> & H1 & [-> ->])|(e & -> & H1)]; [left; by rewrite app_nil_r|eauto].
  - intros H. exists (Err e), [], t. split; [done|]. split; [done|].
    apply accepts_bind in H as [([] & t1 & t2 & -> & H1 & [-> ->])|(e' & -> & H1)]; [left; by rewrite app_nil_r|eauto].
  - intros (a & t' & -> & H). destruct (IH a t' H) as (r1 & t1 & t2 & -> & H1 & H2).
    exists r1, (ev c a :: t1), t2. split; [done|]. split; [by exists a, t1|done].
Qed.

Lemma accepts_call c r t : accepts (call c) r t → ∃ a, r = Ok a ∧ t = [ev c a].
Proof. intros (a & t' & -> & -> & ->). eauto. Qed.

Lemma accepts_require {A} e (o : option A) r t :
  accepts (require e o) r t → t = [] ∧ r = match o with Some a => Ok a | None => Err e end.
Proof. destruct o; by intros [-> ->]. Qed.

Lemma accepts_check {A} (o : result load_error A) r t :
  accepts (check_result o) r t → t = [] ∧ r = match o with Ok a => Ok a | Err e => Err (LoadError e) end.
Proof. destruct o; by intros [-> ->]. Qed.

(** Take the hypothesis [H] on a sequence apart: it went on with [a], or ended there. *)
Tactic Notation "accepts_seq" hyp(H) "as" simple_intropattern(a) simple_intropattern(H1) :=
  let t1 := fresh "t" in let t2 := fresh "t" in let e := fresh "e" in
  apply accepts_bind in H as [(a & t1 & t2 & -> & H1 & H)|(e & -> & H1)].

Tactic Notation "accepts_seq" hyp(H) "as" simple_intropattern(a) simple_intropattern(H1) "at" ident(t1) :=
  let t2 := fresh "t" in let e := fresh "e" in
  apply accepts_bind in H as [(a & t1 & t2 & -> & H1 & H)|(e & -> & H1)].

(** ** Scripts *)

(** The three calls for one script. *)
Definition script_trace (x : list Z * Z * bool) : list event :=
  [ev (CreateURL [x.1.1]) x.1.2; ev (AppendScript x.1.2) x.2; ev (RevokeURL x.1.2) tt].

Lemma load_script_accepts g f r t :
  is_staging g = false → accepts (load_script g f) r t →
  match tar_hash g !! f with
  | None => r = Err (NotUnpacked f) ∧ t = []
  | Some b => ∃ u ok, t = script_trace (text_of b, u, ok) ∧ r = if (ok : bool) then Ok tt else Err (ScriptFailed f)
  end.
Proof.
  intros Hg H. unfold load_script, loadText, member in H. rewrite Hg in H.
  destruct (tar_hash g !! f) as [b|]; simpl in H; [|done].
  destruct H as (u & t' & -> & ok & t1 & -> & H). exists u, ok. destruct ok; simpl in H; destruct H as ([] & t2 & -> & -> & ->); done.
Qed.

Definition loaded (x : list Z * Z * bool) : Prop := x.2 = true.

(** How a list of scripts ends: all loaded, one missing, or one that failed. *)
Definition scripts_end (g : globals) (fs : list (list Z)) (l : list (list Z * Z * bool)) (r : result boot_error unit) : Prop :=
  match r with
  | Ok _ => length l = length fs ∧ Forall loaded l
  | Err e =>
    (∃ f, fs !! length l = Some f ∧ e = NotUnpacked f ∧ tar_hash g !! f = None ∧ Forall loaded l) ∨
    (∃ l' x f, l = l' ++ [x] ∧ fs !! length l' = Some f ∧ e = ScriptFailed f ∧ x.2 = false ∧ Forall loaded l')
  end.

Lemma scripts_end_cons g f fs x l r : loaded x → scripts_end g fs l r → scripts_end g (f :: fs) (x :: l) r.
Proof.
  intros Hx. destruct r as [[]|e]; simpl; [intros [-> H]; split; [done|by constructor]|].
  intros [(f' & H1 & H2 & H3 & H4)|(l' & y & f' & -> & H1 & H2 & H3 & H4)].
  - left. exists f'. do 3 (split; [done|]). by constructor.
  - right. exists (x :: l'), y, f'. do 4 (split; [done|]). by constructor.
Qed.

Lemma scripts_accepts g fs r t :
  is_staging g = false → accepts (pfor (load_script g) fs) r t →
  ∃ l, t = l ≫= script_trace ∧ Forall2 (λ f x, text_of <$> (tar_hash g !! f) = Some x.1.1) (take (length l) fs) l ∧
    scripts_end g fs l r.
Proof.
  intros Hg. revert t. induction fs as [|f fs IH]; intros t; simpl; [intros [-> ->]; by exists []|]. intros H.
  accepts_seq H as [] H1; apply load_script_accepts in H1; try done; destruct (tar_hash g !! f) as [b|] eqn:Hf.
  - destruct H1 as (u & [] & -> & He); [|done]. destruct (IH _ H) as (l & -> & H2 & H3).
    exists ((text_of b, u, true) :: l). split; [done|]. split; [simpl; constructor; [by rewrite Hf|done]|]. by apply scripts_end_cons.
  - by destruct H1.
  - destruct H1 as (u & ok & -> & He). destruct ok; [done|]. injection He as ->.
    exists [(text_of b, u, false)]. split; [done|]. split; [simpl; constructor; [by rewrite Hf|constructor]|].
    right. exists [], (text_of b, u, false), f. by repeat split.
  - destruct H1 as [[= ->] ->]. exists []. split; [done|]. split; [constructor|]. left. exists f. by repeat split.
Qed.

(** The application's scripts are loaded one after the other, in order. Whatever the browser
    answers, every object URL that is made for a script is revoked before the next call, also when
    the script fails to load; the scripts appended are the first ones of the list, each with the text of
    its file; the function succeeds exactly when all six have loaded, app.js last; otherwise
    it stops at the first script that failed or that is not in the package, and names it. *)
Theorem webapp_scripts_in_order B g css h :
  is_staging g = false → tar_hash g !! codes "root/app/style.css" = Some css →
  ∃ l, (run B (loadWebappFiles g) h).2 = h ++ ev (AppendStyle (text_of css)) tt :: (l ≫= script_trace) ∧
    Forall2 (λ f x, text_of <$> (tar_hash g !! f) = Some x.1.1) (take (length l) webapp_files) l ∧
    scripts_end g webapp_files l (run B (loadWebappFiles g) h).1.
Proof.
  intros Hg Hcss. destruct (run_accepts B (loadWebappFiles g) h) as (t & -> & H). revert H.
  generalize (run B (loadWebappFiles g) h).1 as r. intros r H.
  unfold loadWebappFiles in H. accepts_seq H as c H1; unfold loadText, member in H1; rewrite Hg, Hcss in H1;
    destruct H1 as [[= ->] ->].
  accepts_seq H as [] H1; apply accepts_call in H1 as ([] & He & ->); [|done].
  destruct (scripts_accepts g webapp_files r _ Hg H) as (l & -> & H2 & H3). exists l. by rewrite app_nil_l.
Qed.

(** ** Booting *)

(** The messages shown and the calls of the application's callback. *)
Definition message_of (e : event) : option (list Z) := match e with existT (Progress m _) _ => Some m | _ => None end.
Definition messages (t : list event) : list (list Z) := omap message_of t.
Definition callback_of (e : event) : option globals := match e with existT (Callback g) _ => Some g | _ => None end.
Definition callbacks (t : list event) : list globals := omap callback_of t.

(** The stages in order; [n] files were found. *)
Definition stages (n : Z) : list (list Z) :=
  [ellipsis "Loading zlib-wasm"; ellipsis "Loading compressed app"; ellipsis "Decompressing app"; ellipsis "Unpacking";
   codes "Loaded " ++ dec_text n ++ codes " files"; ellipsis "Starting Bash"].

(** Neither shows a message nor calls back. *)
Definition silent (t : list event) : Prop := messages t = [] ∧ callbacks t = [].

Lemma silent_nil : silent [].
Proof. done. Qed.
Lemma silent_app t1 t2 : silent t1 → silent t2 → silent (t1 ++ t2).
Proof. unfold silent, messages, callbacks. rewrite !omap_app. intros [-> ->] [-> ->]. done. Qed.
Lemma silent_fetch u r : silent [ev (Fetch u) r].
Proof. done. Qed.

Ltac silence := repeat apply silent_app; first [assumption|by split].

Section boot.
Context (zlibUrl : option (list Z)) (manifestUrls : list (list Z))
        (untar : list Z → result load_error (list entry)) (getFileBlob : list Z → list Z → list Z)
        (heap_base start_pages max_pages : Z).

Lemma body_accepts r o t : accepts (body r) o t → t = [] ∧ o = match (r ≫= r_body) with Some b => Ok b | None => Err FetchFailed end.
Proof. destruct r as [[ok [b|]]|]; simpl; by intros [-> ->]. Qed.

Lemma fetch_body_accepts u o t : accepts (fetch_body u) o t → silent t.
Proof.
  intros H. unfold fetch_body in H. accepts_seq H as r H1; apply accepts_call in H1 as (a & He & ->); [|done].
  apply body_accepts in H as [-> _]. by rewrite app_nil_r.
Qed.

Lemma load_zlib_accepts o t : accepts (load_zlib zlibUrl) o t → silent t.
Proof.
  intros H. unfold load_zlib in H. accepts_seq H as url H1; apply accepts_require in H1 as [-> He]; [|done].
  accepts_seq H as r H1; apply accepts_call in H1 as (a & He' & ->); [|done].
  accepts_seq H as r' H1; apply accepts_require in H1 as [-> He'']; [|done].
  destruct (r_ok r'); [|by destruct H as [_ ->]].
  accepts_seq H as b H1; apply accepts_require in H1 as [-> He3]; [|done].
  accepts_seq H as ok H1; apply accepts_call in H1 as (a' & He4 & ->); [|done].
  destruct ok; by destruct H as [_ ->].
Qed.

(** The answers to a list of fetches. *)
Lemma fetches_accepts urls o t :
  accepts (pmap (λ u, call (Fetch u)) urls) o t →
  ∃ rs, o = Ok rs ∧ silent t ∧ Forall2 (λ u r, ev (Fetch u) r ∈ t) urls rs.
Proof.
  revert o t. induction urls as [|u urls IH]; intros o t; cbn [pmap]; [intros [-> ->]; exists []; by repeat split|].
  intros H. accepts_seq H as r H1; apply accepts_call in H1 as (a & He & ->); [|done]. injection He as <-.
  accepts_seq H as rs H1; apply IH in H1 as (rs' & He & Hs & Hf); [|done]. injection He as <-. destruct H as [-> ->].
  exists (r :: rs). split; [done|]. rewrite app_nil_r. split; [by apply silent_app|]. constructor; [by left|].
  eapply Forall2_impl; [exact Hf|]. intros u' r' Hin. by right.
Qed.

Lemma fetch_all_accepts urls o t :
  accepts (fetch_all urls) o t →
  silent t ∧ match o with
    | Ok bs => Forall2 (λ u b, ∃ ok, ev (Fetch u) (Some (mkResponse ok (Some b))) ∈ t) urls bs
    | Err e => e = FetchFailed
    end.
Proof.
  intros H. unfold fetch_all in H. accepts_seq H as rs H1; apply fetches_accepts in H1 as (rs' & He & Hs & Hf); [|done].
  injection He as <-. apply accepts_require in H as [-> ->]. rewrite app_nil_r. split; [done|].
  destruct (mapM _ rs) as [bs|] eqn:Hm; [|done]. apply mapM_Some in Hm. revert bs Hm. induction Hf as [|u r us rs Hr _ IH]; intros bs Hm.
  - apply Forall2_nil_inv_l in Hm as ->. constructor.
  - apply Forall2_cons_inv_l in Hm as (b & bs' & Hb & Hbs & ->). constructor; [|by apply IH].
    destruct r as [[ok bd]|]; [|done]. simpl in Hb. subst bd. by exists ok.
Qed.

Lemma decompress_accepts compiled compressed o t :
  accepts (zlibaux_decompress zlibUrl heap_base start_pages max_pages compiled compressed) o t →
  silent t ∧ ∀ archive, o = Ok archive → ∃ calls s,
    foldM (zlib_call max_pages compressed) calls (mkInflate 0 heap_base start_pages []) = Ok s ∧ archive = concat (outputChunks s).
Proof.
  intros H. unfold zlibaux_decompress in H. accepts_seq H as url H1; apply accepts_require in H1 as [-> He]; [|done].
  accepts_seq H as b H1; apply fetch_body_accepts in H1; [|done].
  accepts_seq H as calls H2; apply accepts_call in H2 as (a & He' & ->); [|done].
  accepts_seq H as calls' H2; apply accepts_require in H2 as [-> He2]; [|split; [silence|done]].
  accepts_seq H as s H2; apply accepts_check in H2 as [-> He3]; [|split; [silence|done]].
  destruct H as [-> ->]. split; [silence|]. intros archive [= <-]. exists calls', s.
  destruct (foldM _ _ _); [|done]. by injection He3 as ->.
Qed.

(** The files of [g] come from the archive that was fetched in [t], which has [n] of them. *)
Definition from_archive (n : Z) (t : list event) (g : globals) : Prop :=
  ∃ buffers calls s entries table,
    Forall2 (λ u b, ∃ ok, ev (Fetch u) (Some (mkResponse ok (Some b))) ∈ t) manifestUrls buffers ∧
    foldM (zlib_call max_pages (concat buffers)) calls (mkInflate 0 heap_base start_pages []) = Ok s ∧
    untar (concat (outputChunks s)) = Ok entries ∧ unpack entries = Ok (table, n) ∧
    g = mkGlobals false (table_of getFileBlob (concat (outputChunks s)) table).

(** How a boot ends: stopped before the application, or with one call of it. *)
Definition boot_end (r : result boot_error unit) (t : list event) : Prop :=
  (∃ n, messages t `prefix_of` stages n) ∧
  (callbacks t = [] ∧ r ≠ Ok tt ∨
   ∃ t' g ok n, t = t' ++ [ev (Callback g) ok] ∧ callbacks t' = [] ∧ messages t' = stages n ∧ from_archive n t' g ∧
     r = if (ok : bool) then Ok tt else Err CallbackFailed).

Lemma messages_app t1 t2 : messages (t1 ++ t2) = messages t1 ++ messages t2.
Proof. apply omap_app. Qed.
Lemma callbacks_app t1 t2 : callbacks (t1 ++ t2) = callbacks t1 ++ callbacks t2.
Proof. apply omap_app. Qed.

(** A boot so far: some stages shown, no callback. *)
Definition reached (k : nat) (n : Z) (t : list event) : Prop := messages t = take k (stages n) ∧ callbacks t = [].

Lemma reached_stop k n t e : reached k n t → boot_end (Err e) t.
Proof. intros [H1 H2]. split; [exists n; rewrite H1; apply prefix_take|]. by left. Qed.

Lemma reached_silent k n t t' : reached k n t → silent t' → reached k n (t ++ t').
Proof. intros [H1 H2] [H3 H4]. split; [rewrite messages_app, H1, H3|rewrite callbacks_app, H2, H4]; by rewrite app_nil_r. Qed.

Lemma reached_stage k n t m d :
  reached k n t → stages n !! k = Some m → reached (S k) n (t ++ [ev (Progress m d) tt]).
Proof.
  intros [H1 H2] Hm. split; [|by rewrite callbacks_app, H2]. rewrite messages_app, H1. by rewrite (take_S_r _ _ _ Hm).
Qed.

(** The next stage is shown. *)
Lemma stage_accepts k n m d t0 (p : prog unit) r t :
  reached k n t0 → stages n !! k = Some m → accepts (progress m d;; p) r t →
  ∃ t', t = ev (Progress m d) tt :: t' ∧ accepts p r t' ∧ reached (S k) n (t0 ++ [ev (Progress m d) tt]).
Proof.
  intros H0 Hm H. accepts_seq H as [] H1; apply accepts_call in H1 as ([] & He & ->); [|done].
  eexists. split; [done|]. split; [done|]. by apply reached_stage.
Qed.

Lemma reached_any k n n' t : (k ≤ 4)%nat → reached k n t → reached k n' t.
Proof. intros Hk [H1 H2]. split; [|done]. rewrite H1. destruct k as [|[|[|[|[|k]]]]]; [done..|lia]. Qed.

Lemma callback_accepts g r t :
  accepts (run_callback g) r t → ∃ ok, t = [ev (Callback g) ok] ∧ r = if (ok : bool) then Ok tt else Err CallbackFailed.
Proof. intros (ok & t' & -> & H). exists ok. destruct ok; destruct H as [-> ->]; done. Qed.

(** The last part: the archive is there. *)
Lemma unpacking_accepts buffers calls s r t0 t :
  reached 4 0 t0 →
  Forall2 (λ u b, ∃ ok, ev (Fetch u) (Some (mkResponse ok (Some b))) ∈ t0) manifestUrls buffers →
  foldM (zlib_call max_pages (concat buffers)) calls (mkInflate 0 heap_base start_pages []) = Ok s →
  let archive := concat (outputChunks s) in
  accepts (entries ← check_result (untar archive);
    unpacked ← check_result (unpack entries);
    progress (codes "Loaded " ++ dec_text unpacked.2 ++ codes " files") (Some (kilobytes (zlen archive)));;
    progress (ellipsis "Starting Bash") None;;
    run_callback (mkGlobals false (table_of getFileBlob archive unpacked.1))) r t →
  boot_end r (t0 ++ t).
Proof.
  intros H0 Hb Hs archive H. accepts_seq H as entries H1; apply accepts_check in H1 as [-> He].
  2:{ rewrite app_nil_r. by eapply reached_stop. }
  destruct (untar archive) as [entries'|] eqn:Hu; [|done]. injection He as ->.
  accepts_seq H as [table n] H1; apply accepts_check in H1 as [-> He].
  2:{ rewrite app_nil_r. by eapply reached_stop. }
  destruct (unpack entries') as [[table' n']|] eqn:Hun; [|done]. injection He as <- <-.
  apply (reached_any 4 0 n) in H0; [|lia]. cbn [fst snd] in H.
  destruct (stage_accepts 4 n _ _ t0 _ _ _ H0 eq_refl H) as (u1 & -> & H2 & R1).
  destruct (stage_accepts 5 n _ _ _ _ _ _ R1 eq_refl H2) as (u2 & -> & H3 & [R2 R3]). clear H H2.
  set (g := mkGlobals false _) in *. apply callback_accepts in H3 as (ok & -> & ->).
  set (t' := (t0 ++ [_]) ++ [ev (Progress (ellipsis "Starting Bash") None) tt]) in R2, R3.
  match goal with |- boot_end _ ?x => replace x with (t' ++ [ev (Callback g) ok]) by (unfold t'; rewrite <- !app_assoc; done) end.
  split; [exists n; by rewrite messages_app, R2|]. right. exists t', g, ok, n. do 3 (split; [done|]). split; [|done].
  exists buffers, calls, s, entries', table. split; [|done].
  eapply Forall2_impl; [exact Hb|]. intros u b [ok' Hin]. exists ok'. unfold t'. rewrite !elem_of_app. auto.
Qed.

Lemma boot_accepts r t :
  accepts (boot zlibUrl manifestUrls untar getFileBlob heap_base start_pages max_pages false) r t → boot_end r t.
Proof.
  intros H. unfold boot in H.
  destruct (stage_accepts 0 0 _ _ [] _ _ _ ltac:(done) eq_refl H) as (u1 & -> & H1 & R). clear H.
  set (tr := [] ++ [_]) in R. change (boot_end r (tr ++ u1)). clearbody tr.
  accepts_seq H1 as [] Hz at tz; apply load_zlib_accepts in Hz; [|eapply reached_stop, reached_silent; eauto].
  apply (reached_silent _ _ _ _ R) in Hz. rewrite app_assoc. set (tr1 := tr ++ tz) in *. clearbody tr1. clear R.
  destruct (stage_accepts 1 0 _ _ _ _ _ _ Hz eq_refl H1) as (u2 & -> & H2 & R). clear H1 Hz.
  rewrite cons_middle, app_assoc. set (tr2 := tr1 ++ _) in *. clearbody tr2.
  accepts_seq H2 as buffers Hf at tf; apply fetch_all_accepts in Hf as [Hf Hb]; [|eapply reached_stop, reached_silent; eauto].
  apply (reached_silent _ _ _ _ R) in Hf. rewrite app_assoc.
  assert (Forall2 (λ u b, ∃ ok, ev (Fetch u) (Some (mkResponse ok (Some b))) ∈ tr2 ++ tf) manifestUrls buffers) as Hb'.
  { eapply Forall2_impl; [exact Hb|]. intros u b [ok Hin]. exists ok. apply elem_of_app. by right. }
  set (tr3 := tr2 ++ tf) in *. clearbody tr3. clear Hb R.
  destruct (stage_accepts 2 0 _ _ _ _ _ _ Hf eq_refl H2) as (u3 & -> & H3 & R). clear H2 Hf.
  rewrite cons_middle, app_assoc. set (tr4 := tr3 ++ _) in *.
  accepts_seq H3 as archive Hd; apply decompress_accepts in Hd as [Hd Hs]; [|eapply reached_stop, reached_silent; eauto].
  apply (reached_silent _ _ _ _ R) in Hd. rewrite app_assoc. destruct (Hs archive eq_refl) as (calls & s & Hfold & ->). clear Hs R.
  destruct (stage_accepts 3 0 _ _ _ _ _ _ Hd eq_refl H3) as (u5 & -> & H4 & R). clear H3 Hd.
  rewrite cons_middle, app_assoc. eapply unpacking_accepts; [exact R| |exact Hfold|exact H4].
  eapply Forall2_impl; [exact Hb'|]. intros u b [ok Hin]. exists ok. unfold tr4. rewrite !elem_of_app. auto.
Qed.

End boot.

(** A package with all six scripts, in a browser that loads the first two only. *)
Definition demo_globals : globals :=
  mkGlobals false (list_to_map ((λ f, (f, codes "x")) <$> codes "root/app/style.css" :: webapp_files)).
Definition demo_browser : browser := λ h c,
  match c with
  | Fetch _ => None | CreateURL _ => zlen h | NewWorker _ => Some 1 | AppendScript url => url <? 8 | CompileZlib _ => true
  | RunZlib _ _ => None | Callback _ => true | RevokeURL _ | AppendStyle _ | Progress _ _ => tt
  end.

Lemma webapp_scripts_in_order_witness :
  ∃ l, (run demo_browser (loadWebappFiles demo_globals) []).2 = [] ++ ev (AppendStyle (text_of (codes "x"))) tt :: (l ≫= script_trace) ∧
    Forall2 (λ f x, text_of <$> (tar_hash demo_globals !! f) = Some x.1.1) (take (length l) webapp_files) l ∧
    scripts_end demo_globals webapp_files l (run demo_browser (loadWebappFiles demo_globals) []).1.
Proof. apply (webapp_scripts_in_order demo_browser demo_globals (codes "x") []); [done|by vm_compute]. Defined.

(** ** The installed tree *)

Section vfs.
Context (B : browser) (parse_manifest : list Z → option (list vfs_entry)) (g : globals) (Hg : is_staging g = false).

Lemma run_bind {A C} (p : prog A) (f : A → prog C) h :
  run B (p ≫= f) h = match run B p h with (Ok a, h') => run B (f a) h' | (Err e, h') => (Err e, h') end.
Proof. revert h. induction p as [a|e|c k IH]; intros h; [done..|]. simpl. apply IH. Qed.

(** The entries of the offline package are loaded without the browser, as [load_files] says. *)
Lemma vfs_loop_run i entries files h :
  ∃ r, run B (vfs_loop g i entries files) h = (r, h) ∧
    match foldM (λ x, load_entry (λ n, tar_hash g !! n) x.1 x.2) (imap (λ j e, (i + Z.of_nat j, e)) entries) files with
    | Ok l => r = Ok l
    | Err _ => ∃ e, r = Err e
    end.
Proof.
  revert i files. induction entries as [|e entries IH]; intros i files; [by exists (Ok files)|].
  cbn [vfs_loop]. rewrite (run_bind (vfs_file g i e files) (vfs_loop g (i + 1) entries)). simpl imap. rewrite Z.add_0_r. cbn [foldM fst snd].
  assert (imap ((λ j e, (i + Z.of_nat j, e)) ∘ S) entries = imap (λ j e, (i + 1 + Z.of_nat j, e)) entries) as ->
    by (apply imap_ext; intros; simpl; f_equal; lia).
  unfold vfs_file, load_entry at 1. destruct (no_content e); [apply IH|]. destruct (unsafe_path (v_path e)); [by eexists; split; [|eexists]|].
  unfold loadBinary, member. rewrite Hg. destruct (tar_hash g !! drop 1 (v_path e)) as [b|]; simpl; [apply IH|].
  by eexists; split; [|eexists].
Qed.

(** The installed file tree of the offline page is read from the package alone: no request is made; the
    load succeeds exactly when the mount metadata is there and can be parsed, and every entry with content
    has an absolute path without ".." whose file is in the package; the files are then those
    entries, each under its own index and with the bytes of its path. *)
Theorem installed_tree_exact h :
  ∃ r, run B (load_vfs parse_manifest g) h = (r, h) ∧
    match tar_hash g !! codes "vfs-manifest.json" with
    | None => r = Err (NotUnpacked (codes "vfs-manifest.json"))
    | Some inventory =>
      match parse_manifest (text_of inventory) with
      | None => r = Err BadJSON
      | Some entries =>
        match r with
        | Ok (inv, files) => inv = inventory ∧ ∀ i b, (i, b) ∈ files ↔ ∃ e, zlookup entries i = Some e ∧ no_content e = false ∧
            unsafe_path (v_path e) = false ∧ tar_hash g !! drop 1 (v_path e) = Some b
        | Err _ => ∃ bad, bad ∈ entries ∧ no_content bad = false ∧
            (unsafe_path (v_path bad) = true ∨ tar_hash g !! drop 1 (v_path bad) = None)
        end
      end
    end.
Proof.
  unfold load_vfs, loadBinary, member. rewrite Hg.
  destruct (tar_hash g !! codes "vfs-manifest.json") as [inventory|]; [|by eexists].
  change (require _ (Some inventory)) with (Ret inventory). cbn [mbind prog_bind]. destruct (parse_manifest (text_of inventory)) as [entries|]; [|by eexists].
  change (require BadJSON (Some entries)) with (Ret entries). cbn [mbind prog_bind].
  rewrite (run_bind (vfs_loop g 0 entries []) (λ files, Ret (inventory, files))). destruct (vfs_loop_run 0 entries [] h) as (r & -> & Hr).
  pose proof (load_files_exact (λ n, tar_hash g !! n) entries) as Hex. unfold load_files in Hex.
  assert (imap (λ i e, (Z.of_nat i, e)) entries = imap (λ j e, (0 + Z.of_nat j, e)) entries) as Hi by (by apply imap_ext).
  rewrite Hi in Hex. destruct (foldM _ _ _) as [files|e].
  - subst r. eexists. split; [reflexivity|]. done.
  - destruct Hr as [e' ->]. eexists. by split.
Qed.
End vfs.

(** A directory and a file, both listed in the mount metadata. *)
Definition demo_tree : globals := mkGlobals false (list_to_map [(codes "vfs-manifest.json", codes "[]"); (codes "etc/motd", codes "hi")]).
Definition demo_entries : list vfs_entry := [mkVfsEntry (codes "directory") (codes "/etc"); mkVfsEntry (codes "file") (codes "/etc/motd")].

Lemma installed_tree_exact_witness :
  (run demo_browser (load_vfs (λ _, Some demo_entries) demo_tree) []).1 = Ok (codes "[]", [(1, codes "hi")]) ∧
  ∃ r, run demo_browser (load_vfs (λ _, Some demo_entries) demo_tree) [] = (r, []).
Proof.
  split; [by vm_compute|]. destruct (installed_tree_exact demo_browser (λ _, Some demo_entries) demo_tree eq_refl []) as (r & Hr & _).
  by exists r.
Defined.

(** ** A shared load *)

(** Only the last load has not failed, and it is the one that is kept. *)
Record shared_ok {A} (s : shared A) : Prop := {
  sh_failed : ∀ i x, sl_loads s !! i = Some x → (S i < length (sl_loads s))%nat → ∃ e, x = Some (Err e);
  sh_variable : ∀ i, sl_variable s = Some i → S i = length (sl_loads s);
  sh_none : sl_variable s = None → ∀ x, last (sl_loads s) = Some x → ∃ e, x = Some (Err e);
  sh_kept : ∀ i x, sl_variable s = Some i → sl_loads s !! i = Some x → ∀ e, x ≠ Some (Err e);
  sh_callers : Forall (λ i, (i < length (sl_loads s))%nat) (sl_callers s) }.

Lemma shared_call_ok {A} (s : shared A) : shared_ok s → shared_ok (join_load s).
Proof.
  intros [H1 H2 H3 H4 H5]. unfold join_load. destruct (sl_variable s) as [i|] eqn:Hv.
  - constructor; simpl; try done. apply Forall_app. split; [done|]. apply Forall_singleton. rewrite <- (H2 i eq_refl). lia.
  - constructor; simpl.
    + intros i x Hi. rewrite length_app. simpl. intros Hlt. apply lookup_snoc_Some in Hi as [[Hi Hx]|[-> _]]; [|lia].
      destruct (decide (S i < length (sl_loads s))%nat) as [Hl|Hl]; [by apply (H1 i x)|].
      apply (H3 eq_refl). rewrite last_lookup. replace (Nat.pred (length (sl_loads s))) with i by lia. done.
    + intros i [= <-]. rewrite length_app. simpl. lia.
    + done.
    + intros i x [= <-] Hx. rewrite lookup_app_r, Nat.sub_diag in Hx by lia. injection Hx as <-. done.
    + rewrite length_app. simpl. apply Forall_app. split; [|apply Forall_singleton; lia].
      eapply Forall_impl; [exact H5|]. simpl. intros j Hj. lia.
Qed.

(** Only the last load can be running. *)
Lemma shared_running {A} (s : shared A) i : shared_ok s → sl_loads s !! i = Some None → sl_variable s = Some i ∧ S i = length (sl_loads s).
Proof.
  intros [H1 H2 H3 H4 H5] Hi. pose proof (lookup_lt_Some _ _ _ Hi) as Hlt.
  assert (S i = length (sl_loads s)) as Hl.
  { destruct (decide (S i < length (sl_loads s))%nat) as [Hl|Hl]; [|lia]. by destruct (H1 i None Hi Hl). }
  split; [|done]. destruct (sl_variable s) as [j|] eqn:Hv; [pose proof (H2 j eq_refl); f_equal; lia|].
  destruct (H3 eq_refl None) as [e He]; [|done]. rewrite last_lookup. by replace (Nat.pred (length (sl_loads s))) with i by lia.
Qed.

Lemma shared_settle_ok {A} (s s' : shared A) i r : shared_ok s → load_settled i r s = Some s' → shared_ok s'.
Proof.
  intros Hok Hs. unfold load_settled in Hs. destruct (sl_loads s !! i) as [[|]|] eqn:Hi; [done| |done]. injection Hs as <-.
  destruct (shared_running s i Hok Hi) as [Hv Hl]. destruct Hok as [H1 H2 H3 H4 H5].
  constructor; simpl; rewrite ?length_insert; try done.
  - intros j x Hj Hlt. rewrite list_lookup_insert_ne in Hj by lia. by apply (H1 j x).
  - destruct r; [done|discriminate].
  - intros Hn x Hx. rewrite last_lookup, length_insert in Hx. replace (Nat.pred (length (sl_loads s))) with i in Hx by lia.
    rewrite list_lookup_insert_eq in Hx by lia. injection Hx as <-. destruct r as [|e]; [congruence|by exists e].
  - intros j x Hj Hx e. destruct r as [a|e']; [|done]. assert (j = i) as -> by congruence.
    rewrite list_lookup_insert_eq in Hx by lia. by injection Hx as <-.
Qed.

Lemma shared_reachable_ok {A} (s : shared A) : shared_reachable s → shared_ok s.
Proof.
  induction 1 as [|s _ IH|s i r s' _ IH Hs]; [by constructor; simpl|by apply shared_call_ok|by eapply shared_settle_ok].
Qed.

(** Callers share one load: in every order of calls and outcomes at most one load runs at a time, and every
    call while it runs waits for that same load; once a load has succeeded no other is ever started and
    every later caller gets its result; a load that failed is not handed out again. *)
Theorem one_shared_load {A} (s : shared A) :
  shared_reachable s →
  (∀ i j, sl_loads s !! i = Some None → sl_loads s !! j = Some None → i = j) ∧
  (∀ i x, sl_loads s !! i = Some x → (∀ e, x ≠ Some (Err e)) →
     S i = length (sl_loads s) ∧ join_load s = mkShared (Some i) (sl_loads s) (sl_callers s ++ [i])) ∧
  (∀ i e, last (sl_callers (join_load s)) = Some i → sl_loads (join_load s) !! i ≠ Some (Some (Err e))).
Proof.
  intros Hr. pose proof (shared_reachable_ok s Hr) as Hok. pose proof Hok as [H1 H2 H3 H4 H5].
  split; [|split].
  - intros i j Hi Hj. apply shared_running in Hi as [_ Hi], Hj as [_ Hj]; [lia|done..].
  - intros i x Hi Hx. pose proof (lookup_lt_Some _ _ _ Hi) as Hlt.
    assert (S i = length (sl_loads s)) as Hl.
    { destruct (decide (S i < length (sl_loads s))%nat) as [Hl|Hl]; [|lia]. destruct (H1 i x Hi Hl) as [e ->]. by destruct (Hx e). }
    split; [done|]. unfold join_load. destruct (sl_variable s) as [j|] eqn:Hv.
    + pose proof (H2 j eq_refl). by replace j with i by lia.
    + destruct (H3 eq_refl x) as [e ->]; [|by destruct (Hx e)]. rewrite last_lookup. by replace (Nat.pred (length (sl_loads s))) with i by lia.
  - intros i e Hi Hx. pose proof (shared_call_ok s Hok) as [_ _ _ K4 _].
    assert (sl_variable (join_load s) = Some i) as Hv.
    { unfold join_load in *. destruct (sl_variable s); simpl in *; rewrite last_snoc in Hi; congruence. }
    by apply (K4 i _ Hv Hx e).
Qed.

(** A failed load, then one that succeeds for two callers. *)
Lemma one_shared_load_witness :
  let s := join_load (join_load (default no_loads (load_settled 0 (Err FetchFailed) (join_load no_loads)))) in
  sl_callers s = [0%nat; 1%nat; 1%nat] ∧
  (∀ i j, sl_loads (A := unit) s !! i = Some None → sl_loads s !! j = Some None → i = j).
Proof.
  intros s. split; [done|]. apply (one_shared_load s). apply shared_call, shared_call.
  apply (shared_settle (join_load no_loads) 0 (Err FetchFailed)); [apply shared_call, shared_init|done].
Defined.
