(* ===== verification/TestControls.v ===== *)
(** * The test controls of the page (src/html-rt/src/test-suite.js)

    The constructor of [WasteTestSuite], the suite the page shares
    ([installedBrowserSuite]), and the controls: [showInstalledTests] as a machine
    whose steps are its awaits, with the batch it runs, and the handlers of the
    four buttons.  A disabled button takes no clicks. *)

From stdpp Require Import base numbers list strings gmap.
From Stdlib Require Import ZArith Lia.
From S2P Require Import Prelude JsNum TermModel Utf8 TestSuite Boot.

#[local] Open Scope Z_scope.
#[local] Open Scope waste_scope.

(** ** The suite *)

(** A test of the manifest with its [executionSpec]; [None] is a missing field or one that is no array. *)
Record exec_spec : Type := mkSpec { spec_mode : text; spec_modules : option (list text); spec_steps : option (list text) }.
Record manifest_test : Type := mkManifestTest { mt_id : text; mt_spec : option exec_spec }.

Record suite : Type := mkSuite {
  su_wasm : list Z; su_vfs : list Z * list (Z * list Z); su_expected : text; browserNativeSpecs : gmap text exec_spec }.

(** The fixtures a browser-native test needs are there. *)
Definition native_spec (spec : exec_spec) : bool :=
  bool_decide (spec_mode spec = browser_native_mode) &&
  match spec_modules spec with Some (_ :: _) => true | _ => false end &&
  match spec_steps spec with Some _ => true | None => false end.

Definition add_spec (t : manifest_test) (specs : gmap text exec_spec) : gmap text exec_spec :=
  match mt_spec t with
  | Some spec => if native_spec spec then <[mt_id t := spec]> specs else specs
  | None => specs
  end.

Section suite.
(** [JSON.parse], to the paths of the inventory and to the tests of the manifest. *)
Context (parse_inventory : text → option (list text)) (parse_tests : text → option (list manifest_test)).

Definition manifest_path : text := codes "/root/test/manifest.json".

(** The bytes of the manifest, if it is listed and loaded. *)
Definition manifest_file (paths : list text) (files : list (Z * list Z)) : option (list Z) :=
  i ← fst <$> list_find (λ p, p = manifest_path) paths;
  x ← list_find (λ f : Z * list Z, f.1 = Z.of_nat i) files;
  Some x.2.2.

(** [new WasteTestSuite(...)]; [None] is an exception of the parser. *)
Definition new_suite (wasm : list Z) (vfs : list Z * list (Z * list Z)) (expected : text) : option suite :=
  paths ← parse_inventory (text_of vfs.1);
  match manifest_file paths vfs.2 with
  | None => Some (mkSuite wasm vfs expected ∅)
  | Some bytes =>
    tests ← parse_tests (text_of bytes);
    Some (mkSuite wasm vfs expected (foldl (λ m t, add_spec t m) ∅ tests))
  end.

(** The load of [installedBrowserSuite], from the three files it awaits together. *)
Definition load_suite (r : result boot_error (list Z * (list Z * list (Z * list Z)) * text)) : result boot_error suite :=
  let* '(wasm, vfs, expected) := r in of_option BadJSON (new_suite wasm vfs expected).
End suite.

(** [browserTestSuite] and [browserTestSuiteLoading]. *)
Record suite_vars : Type := mkSuiteVars { browserTestSuite : option suite; suite_loading : shared suite }.

(** A call: the suite at once, or the load this caller waits for. *)
Definition installedBrowserSuite (v : suite_vars) : suite_vars * (suite + nat) :=
  match browserTestSuite v with
  | Some s => (v, inl s)
  | None =>
    let l := join_load (suite_loading v) in
    (mkSuiteVars None l, inr (default 0%nat (sl_variable l)))
  end.

(** The load ends: it sets the variable, or its callers forget it. *)
Definition suite_settled (i : nat) (r : result boot_error suite) (v : suite_vars) : option suite_vars :=
  l ← load_settled i r (suite_loading v);
  Some (mkSuiteVars (match r with Ok s => Some s | Err _ => browserTestSuite v end) l).

(** ** The form *)

(** The fields, with [Number(value)] of the two numeric ones. *)
Record fields : Type := mkFields { f_group : text; f_files : text; f_jobs : num; f_timeout : num }.

(** [split(/\s+/)] with its empty pieces dropped. *)
Fixpoint words (word l : text) : list text :=
  match l with
  | [] => if bool_decide (word = []) then [] else [word]
  | c :: l' =>
    if is_js_space c then (if bool_decide (word = []) then words [] l' else word :: words [] l')
    else words (word ++ [c]) l'
  end.

(** A number that is not an integer is as invalid as 0. *)
Definition as_int (n : num) : Z := match n with NInt z => z | _ => 0 end.

Definition browserSuiteOptions (f : fields) : options :=
  mkOptions (as_int (f_jobs f)) (Some (as_int (f_timeout f))) []
    (mkSelection (if bool_decide (f_group f = []) then [] else [f_group f]) (words [] (js_trim (f_files f))) [] []) false false.

(** ** The controls *)

(** [showInstalledTests] between its awaits. *)
Inductive phase : Type :=
| Idle
| AwaitSuite (execute : bool)
| AwaitList (execute : bool)
| AwaitRun (selected : list test) (p : pool).

Record controls : Type := mkControls {
  c_phase : phase; buttons_disabled : bool; cancel_disabled : bool; download_disabled : bool;
  c_status : text; c_output : text; group_options : list text; c_fields : fields;
  browserTestResults : option report;
  saved : list report;      (* the files offered for download *)
  urls : nat }.             (* object URLs not revoked yet *)

(** The page after [index.html] and the handlers are in place. *)
Definition UI_TIMEOUT_MS : Z := 60000.
Definition new_controls : controls :=
  mkControls Idle false true true (codes "Ready") [] []
    (mkFields [] [] (NInt SUITE_GUEST_DEFAULT_JOBS) (NInt UI_TIMEOUT_MS)) None [] 0.

Inductive control_event : Type :=
| Click (execute : bool)                                    (* #suite-list, #suite-run *)
| SuiteLoaded (r : result text unit)                        (* [installedBrowserSuite()] settles *)
| TestsListed (r : result text (list test)) (busy : bool)   (* [suite.list()] settles; another batch runs *)
| PoolEvent (e : pool_event)
| RunOver                                                   (* [Promise.all] of the jobs *)
| Edit (f : fields)
| CancelClick | DownloadClick | RevokeTimer.

(** The page while it starts to show tests. *)
Definition begin (execute : bool) (s : controls) : controls :=
  mkControls (AwaitSuite execute) true (cancel_disabled s) true (codes "Reading installed tests" ++ [8230]) []
    (group_options s) (c_fields s) None (saved s) (urls s).

(** The [finally]. *)
Definition finish_show (s : controls) : controls :=
  mkControls Idle false true (download_disabled s) (c_status s) (c_output s) (group_options s) (c_fields s)
    (browserTestResults s) (saved s) (urls s).

Definition set_phase (ph : phase) (s : controls) : controls :=
  mkControls ph (buttons_disabled s) (cancel_disabled s) (download_disabled s) (c_status s) (c_output s) (group_options s)
    (c_fields s) (browserTestResults s) (saved s) (urls s).
Definition set_text (status output : text) (s : controls) : controls :=
  mkControls (c_phase s) (buttons_disabled s) (cancel_disabled s) (download_disabled s) status output (group_options s)
    (c_fields s) (browserTestResults s) (saved s) (urls s).
Definition set_groups (l : list text) (s : controls) : controls :=
  mkControls (c_phase s) (buttons_disabled s) (cancel_disabled s) (download_disabled s) (c_status s) (c_output s) l
    (c_fields s) (browserTestResults s) (saved s) (urls s).

(** The [catch]: the error's message, then the [finally]. *)
Definition failed_show (m : text) (s : controls) : controls := finish_show (set_text m (c_output s) s).

(** [[...new Set(l)]]. *)
Definition distinct (l : list text) : list text :=
  foldl (λ acc x, if bool_decide (x ∈ acc) then acc else acc ++ [x]) [] l.

Definition fill_groups (tests : list test) (s : controls) : controls :=
  match group_options s with [] => set_groups (distinct (group <$> tests)) s | _ => s end.

(** A line of the list, without its end. *)
Definition list_item (t : test) : text :=
  (if skipped t then codes "SKIP" else if expectedFailure t then codes "XFAIL?" else codes "PASS?") ++ [32] ++
  identity t ++ (if skipped t then codes ": " ++ skipReason t else []).

Fixpoint join_lines (l : list text) : text :=
  match l with [] => [] | [x] => x | x :: l' => x ++ [10] ++ join_lines l' end.

(** What [run] does up to its first worker: the tests of the batch. *)
Definition begin_run (busy : bool) (o : options) (tests : list test) : result suite_error (list test) :=
  if busy then Err AlreadyRunning else let* _ := run_options_ok o tests in select tests (sel o).

(** A result of [run], with the assertion counts of a complete report. *)
Record result_line : Type := mkLine { rl_index : nat; rl_status : status; rl_counts : option (Z * Z) }.

Definition counts (r : TestSuite.response) : option (Z * Z) :=
  if rs_cancelled r || rs_timedOut r || rs_error r then None
  else _ ← report_ok r; total ← rs_total r; Some (rs_passed r, total).

(** The record that a step of the pool makes, if it makes one. *)
Definition pool_result (tests : list test) (e : pool_event) (p : pool) : option result_line :=
  match e with
  | Turn j =>
    match workers p !! j with
    | Some Ready =>
      t ← tests !! next p;
      if negb (bool_decide (skipReason t = [])) then Some (mkLine (next p) SKIP None)
      else if cancelled p then Some (mkLine (next p) CANCELLED None) else None
    | Some (Busy i q) =>
      t ← tests !! i; s ← head (settled q);
      Some (mkLine i (classify t (answer s)) (counts (answer s)))
    | _ => None
    end
  | _ => None
  end.

Definition result_text (t : test) (x : result_line) : text :=
  status_text (rl_status x) ++ [32] ++ identity t ++
  match rl_counts x with Some (n, m) => codes " (" ++ num_text n ++ [47] ++ num_text m ++ codes ")" | None => [] end ++ [10].

(** [records.filter(Boolean).length]. *)
Definition recorded_count (p : pool) : Z := zlen (filter (λ r, is_Some r) (records p)).

Definition completed_text (n m : Z) : text := num_text n ++ [47] ++ num_text m ++ codes " completed".

(** The callback of [run]. *)
Definition on_result (tests : list test) (x : result_line) (p : pool) (s : controls) : controls :=
  set_text (completed_text (recorded_count p) (zlen tests))
    (c_output s ++ match tests !! rl_index x with Some t => result_text t x | None => [] end) s.

Definition pool_event_step (e : pool_event) (s : controls) : controls :=
  match c_phase s with
  | AwaitRun tests p =>
    let p' := pool_step tests e p in
    let s' := set_phase (AwaitRun tests p') s in
    match pool_result tests e p with Some x => on_result tests x p' s' | None => s' end
  | _ => s
  end.

Definition summary_text (sm : summary) : text :=
  num_text (n_pass sm) ++ codes " PASS, " ++ num_text (n_fail sm) ++ codes " FAIL, " ++ num_text (n_xfail sm) ++
  codes " XFAIL, " ++ num_text (n_xpass sm) ++ codes " XPASS, " ++ num_text (n_skip sm) ++ codes " SKIP".

(** The records of a pool whose jobs are over, in the order of the tests. *)
Definition final_records (tests : list test) (p : pool) : list test_record :=
  omap id (zip_with (λ t (r : option status), mkRecord t <$> r) tests (records p)).

Definition report_summary (r : report) : summary :=
  match r with RunReport sm _ _ => sm | _ => mkSummary 0 0 0 0 0 end.

(** Every job has returned. *)
Definition is_over (w : job) : bool := match w with Over => true | _ => false end.

Definition run_over (s : controls) : controls :=
  match c_phase s with
  | AwaitRun tests p =>
    if forallb is_over (workers p) then
      let r := run_report (final_records tests p) (cancelled p) in
      finish_show (mkControls Idle (buttons_disabled s) (cancel_disabled s) false (summary_text (report_summary r)) (c_output s)
                     (group_options s) (c_fields s) (Some r) (saved s) (urls s))
    else s
  | _ => s
  end.

Section controls.
(** The message of the decoder's error. *)
Context (decode_error : text).

(** The tests are listed: show them, or begin the batch. *)
Definition tests_listed (execute busy : bool) (tests : list test) (s0 : controls) : controls :=
  let s := fill_groups tests s0 in
  let o := browserSuiteOptions (c_fields s) in
  if execute then
    let s1 := mkControls (c_phase s) (buttons_disabled s) false (download_disabled s) (c_status s) (c_output s) (group_options s)
                (c_fields s) (browserTestResults s) (saved s) (urls s) in
    match begin_run busy o tests with
    | Ok selected => set_phase (AwaitRun selected (pool_start selected o)) s1
    | Err e => failed_show (message decode_error (Own e)) s1
    end
  else
    match select tests (sel o) with
    | Ok selected => finish_show (set_text (num_text (zlen selected) ++ codes " installed tests") (join_lines (list_item <$> selected)) s)
    | Err e => failed_show (message decode_error (Own e)) s
    end.

Definition control_step (e : control_event) (s : controls) : controls :=
  match e with
  | Click execute => if buttons_disabled s then s else begin execute s
  | SuiteLoaded r =>
    match c_phase s with
    | AwaitSuite execute => match r with Ok _ => set_phase (AwaitList execute) s | Err m => failed_show m s end
    | _ => s
    end
  | TestsListed r busy =>
    match c_phase s with
    | AwaitList execute => match r with Ok tests => tests_listed execute busy tests s | Err m => failed_show m s end
    | _ => s
    end
  | PoolEvent e => pool_event_step e s
  | RunOver => run_over s
  | Edit f => mkControls (c_phase s) (buttons_disabled s) (cancel_disabled s) (download_disabled s) (c_status s) (c_output s)
                (group_options s) f (browserTestResults s) (saved s) (urls s)
  | CancelClick => if cancel_disabled s then s else pool_event_step Cancel s
  | DownloadClick =>
    if download_disabled s then s
    else match browserTestResults s with
         | Some r => mkControls (c_phase s) (buttons_disabled s) (cancel_disabled s) (download_disabled s) (c_status s) (c_output s)
                       (group_options s) (c_fields s) (browserTestResults s) (saved s ++ [r]) (S (urls s))
         | None => s
         end
  | RevokeTimer => mkControls (c_phase s) (buttons_disabled s) (cancel_disabled s) (download_disabled s) (c_status s) (c_output s)
                     (group_options s) (c_fields s) (browserTestResults s) (saved s) (Nat.pred (urls s))
  end.

Definition run_controls (es : list control_event) (s : controls) : controls := foldl (λ s e, control_step e s) s es.
End controls.
