(* ===== verification/ControlTheorems.v ===== *)
(** * Theorems on the test controls

    The buttons, the displayed text and the downloadable report agree with
    the batch in every order of clicks, edits and answers. *)

From stdpp Require Import base numbers list strings gmap.
From Stdlib Require Import ZArith Lia.
From S2P Require Import Prelude JsNum TermModel Utf8 TestSuite TestSuiteTheorems Boot BootTheorems TestControls.

#[local] Open Scope Z_scope.
#[local] Open Scope waste_scope.

(** ** The suite and the form *)

(** The variable holds the suite of the load that is kept. *)
Definition suite_vars_ok (v : suite_vars) : Prop :=
  shared_ok (suite_loading v) ∧
  ∀ s, browserTestSuite v = Some s → ∃ i, sl_variable (suite_loading v) = Some i ∧ sl_loads (suite_loading v) !! i = Some (Some (Ok s)).

Lemma installed_suite_ok v : suite_vars_ok v → suite_vars_ok (installedBrowserSuite v).1.
Proof.
  intros H. unfold installedBrowserSuite. destruct (browserTestSuite v) as [s|] eqn:Hs; [done|]. destruct H as [H1 H2].
  by split; [apply shared_call_ok|].
Qed.

Lemma suite_settled_ok v v' i r : suite_vars_ok v → suite_settled i r v = Some v' → suite_vars_ok v'.
Proof.
  intros [H1 H2] Hs. unfold suite_settled in Hs. destruct (load_settled i r (suite_loading v)) as [l|] eqn:Hl; [|done]. injection Hs as <-.
  split; [by eapply shared_settle_ok|]. simpl. unfold load_settled in Hl.
  destruct (sl_loads (suite_loading v) !! i) as [[|]|] eqn:Hi; [done| |done]. injection Hl as <-. simpl.
  destruct (shared_running _ _ H1 Hi) as [Hv Hlen]. intros s Hb. destruct r as [s'|e].
  - injection Hb as ->. exists i. split; [done|]. rewrite list_lookup_insert_eq; [done|by eapply lookup_lt_Some].
  - destruct (H2 s Hb) as (j & Hj & Hjl). assert (j = i) as -> by congruence. congruence.
Qed.

(** The words of a field are its maximal pieces without spaces. *)
Lemma words_spec word l :
  Forall (λ c, is_js_space c = false) word →
  Forall (λ w, w ≠ [] ∧ Forall (λ c, is_js_space c = false) w) (words word l) ∧
  concat (words word l) = word ++ filter (λ c, is_js_space c = false) l.
Proof.
  revert word. induction l as [|c l IH]; intros word Hw; simpl.
  { case_bool_decide; subst; [done|]. simpl. rewrite !app_nil_r. by repeat constructor. }
  destruct (is_js_space c) eqn:Hc; simpl.
  - rewrite filter_cons, decide_False by congruence. destruct (IH [] ltac:(constructor)) as [H1 H2].
    case_bool_decide as He; subst; [done|]. simpl. rewrite H2. split; [by constructor|done].
  - rewrite filter_cons, decide_True by done. destruct (IH (word ++ [c])) as [H1 H2]; [apply Forall_app; by repeat constructor|].
    split; [done|]. by rewrite H2, <- app_assoc.
Qed.

(** A browser-native test is the last one of its name with a usable spec. *)
Lemma specs_lookup tests m id spec :
  foldl (λ m t, add_spec t m) m tests !! id = Some spec ↔
  match last (omap (λ t, if bool_decide (mt_id t = id) then s ← mt_spec t; if native_spec s then Some s else None else None) tests) with
  | Some s => s = spec
  | None => m !! id = Some spec
  end.
Proof.
  induction tests as [|t tests IH] using rev_ind; [done|].
  rewrite foldl_snoc, omap_app, last_app. unfold add_spec at 1. simpl.
  case_bool_decide as Hid; [|destruct (mt_spec t) as [s|]; [destruct (native_spec s); [rewrite lookup_insert_ne by done|]|]; apply IH].
  destruct (mt_spec t) as [s|]; simpl; [|apply IH]. destruct (native_spec s); simpl; [|apply IH].
  rewrite <- Hid, lookup_insert_eq. naive_solver.
Qed.

(** ** What a step of the pool records *)

Lemma over_iff p : forallb is_over (workers p) = true ↔ pool_over p.
Proof.
  unfold pool_over. induction (workers p) as [|w l IH]; simpl; [done|].
  rewrite andb_true_iff, Forall_cons, IH. by destruct w; naive_solver.
Qed.

Lemma pool_result_step tests e p :
  pool_ok tests p →
  match pool_result tests e p with
  | Some x => records p !! rl_index x = Some None ∧ records (pool_step tests e p) = <[rl_index x := Some (rl_status x)]> (records p)
  | None => records (pool_step tests e p) = records p
  end.
Proof.
  intros Hp. destruct e as [j|j e|]; simpl; [|by destruct (workers p !! j) as [[]|]|done].
  destruct (workers p !! j) as [[|i q|]|] eqn:Hj; try done.
  - unfold consume_next. destruct (tests !! next p) as [t|] eqn:Ht; simpl; [|done]. pose proof (lookup_lt_Some _ _ _ Ht) as Hlt.
    pose proof (po_above _ _ Hp (next p) ltac:(lia)) as Hnone.
    case_bool_decide; simpl; [destruct (cancelled p); simpl|]; by rewrite ?Hnone.
  - destruct (po_job _ _ Hp _ _ _ Hj) as [Hq Hnone]. destruct (tests !! i) as [t|]; simpl; [|done].
    destruct (settled q) as [|s l]; simpl; done.
Qed.

(** One more record. *)
Lemma recorded_insert (l : list (option status)) i s :
  l !! i = Some None → zlen (filter (λ r, is_Some r) (<[i := Some s]> l)) = zlen (filter (λ r, is_Some r) l) + 1.
Proof.
  unfold zlen. revert i. induction l as [|a l IH]; intros [|i]; simpl; try done.
  - intros [= ->]. rewrite filter_cons, decide_False by (by intros [? ?]). simpl. lia.
  - intros H. specialize (IH i H). rewrite !filter_cons. case_decide; simpl in *; lia.
Qed.

Lemma filter_full (l : list (option status)) : Forall is_Some l → filter (λ r, is_Some r) l = l.
Proof. induction 1 as [|r l Hr _ IH]; [done|]. by rewrite filter_cons, decide_True, IH. Qed.

Lemma filter_start n : filter (λ r : option status, is_Some r) (replicate n None) = [].
Proof. induction n as [|n IH]; [done|]. simpl. rewrite filter_cons, decide_False; [done|]. by intros [? ?]. Qed.

Definition records_of (tests : list test) (l : list (option status)) : list test_record :=
  omap id (zip_with (λ t (r : option status), mkRecord t <$> r) tests l).

Lemma records_of_insert tests l i t s :
  tests !! i = Some t → l !! i = Some None → records_of tests (<[i := Some s]> l) ≡ₚ mkRecord t s :: records_of tests l.
Proof.
  unfold records_of. revert l i. induction tests as [|a tests IH]; intros [|b l] [|i]; simpl; try done.
  - by intros [= ->] [= ->].
  - intros Ht Hl. specialize (IH l i Ht Hl). destruct b as [b|]; simpl; rewrite IH; [apply Permutation_swap|done].
Qed.

Lemma records_of_full tests l : length l = length tests → Forall is_Some l → rec_test <$> records_of tests l = tests.
Proof.
  unfold records_of. revert l. induction tests as [|t tests IH]; intros [|r l]; simpl; try done.
  intros [= Hl] H. inversion H as [|? ? [s ->] Hs]; subst. simpl. by rewrite IH.
Qed.

Lemma records_of_start tests : records_of tests (replicate (length tests) None) = [].
Proof. unfold records_of. induction tests as [|t tests IH]; simpl; done. Qed.

(** ** What is on display *)

Definition line_record (tests : list test) (x : result_line) : option test_record :=
  t ← tests !! rl_index x; Some (mkRecord t (rl_status x)).
Definition line_text (tests : list test) (x : result_line) : text :=
  match tests !! rl_index x with Some t => result_text t x | None => [] end.

(** The page shows one line for each record the batch has made. *)
Record on_display (tests : list test) (rs : list (option status)) (shown : list result_line) (output : text) : Prop := {
  od_text : output = concat (line_text tests <$> shown);
  od_records : omap (line_record tests) shown ≡ₚ records_of tests rs;
  od_count : zlen shown = zlen (filter (λ r, is_Some r) rs) }.

Lemma display_more tests rs shown output x :
  length rs = length tests → rs !! rl_index x = Some None → on_display tests rs shown output →
  on_display tests (<[rl_index x := Some (rl_status x)]> rs) (shown ++ [x]) (output ++ line_text tests x).
Proof.
  intros Hlen Hx [-> H2 H3]. destruct (lookup_lt_is_Some_2 tests (rl_index x)) as [t Ht]; [rewrite <- Hlen; by eapply lookup_lt_Some|].
  constructor.
  - by rewrite fmap_app, concat_app; simpl; rewrite app_nil_r.
  - rewrite (records_of_insert tests rs _ t) by done. rewrite omap_app, H2. simpl. unfold line_record at 1. rewrite Ht. simpl.
    by rewrite Permutation_app_comm.
  - rewrite recorded_insert by done. rewrite <- H3. unfold zlen. rewrite length_app. simpl. lia.
Qed.

(** A batch of the page. *)
Definition batch (tests : list test) (p : pool) : Prop :=
  tests ≠ [] ∧ ∃ o es, 1 ≤ jobs o ∧ p = run_pool tests es (pool_start tests o).

Lemma batch_step tests e p : batch tests p → batch tests (pool_step tests e p).
Proof. intros (H & o & es & Hj & ->). split; [done|]. exists o, (es ++ [e]). split; [done|]. unfold run_pool. by rewrite foldl_snoc. Qed.

Lemma batch_ok tests p : batch tests p → pool_ok tests p.
Proof. intros (_ & o & es & _ & ->). apply reachable_ok. Qed.

Lemma batch_over tests p : batch tests p → pool_over p → Forall is_Some (records p).
Proof. intros (Hne & o & es & Hj & ->) Hover. by apply over_recorded. Qed.

(** ** The controls *)

Definition shows_run (tests : list test) (p : pool) (s : controls) : Prop :=
  ∃ shown, on_display tests (records p) shown (c_output s) ∧
    (shown ≠ [] → c_status s = completed_text (zlen shown) (zlen tests)).

(** A finished batch: its report, its lines in the order the tests ended, and its summary. *)
Definition shows_report (r : report) (s : controls) : Prop :=
  ∃ tests recs was_cancelled shown, tests ≠ [] ∧ rec_test <$> recs = tests ∧ r = run_report recs was_cancelled ∧
    omap (line_record tests) shown ≡ₚ recs ∧ zlen shown = zlen tests ∧
    c_output s = concat (line_text tests <$> shown) ∧ c_status s = summary_text (summarise (rec_status <$> recs)).

Definition controls_ok (s : controls) : Prop :=
  match c_phase s with
  | Idle => buttons_disabled s = false ∧ cancel_disabled s = true ∧
      match browserTestResults s with Some r => download_disabled s = false ∧ shows_report r s | None => download_disabled s = true end
  | AwaitSuite _ | AwaitList _ =>
      buttons_disabled s = true ∧ cancel_disabled s = true ∧ download_disabled s = true ∧ browserTestResults s = None ∧ c_output s = []
  | AwaitRun tests p =>
      buttons_disabled s = true ∧ cancel_disabled s = false ∧ download_disabled s = true ∧ browserTestResults s = None ∧
      batch tests p ∧ shows_run tests p s
  end.

Lemma fill_groups_ok tests s : controls_ok s → controls_ok (fill_groups tests s) ∧ c_phase (fill_groups tests s) = c_phase s.
Proof. intros H. unfold fill_groups. by destruct (group_options s). Qed.

Lemma run_options_jobs o tests u : run_options_ok o tests = Ok u → 1 ≤ jobs o.
Proof. unfold run_options_ok. destruct (decide (1 ≤ jobs o)) as [|H]; [done|]. by rewrite (proj2 (Z.leb_gt _ _)) by lia. Qed.

Lemma select_nonempty tests sl l : select tests sl = Ok l → l ≠ [].
Proof. unfold select. repeat case_match; intros; simplify_eq; done. Qed.

Lemma pool_event_ok e s : controls_ok s → controls_ok (pool_event_step e s).
Proof.
  intros H. unfold pool_event_step. destruct (c_phase s) as [| | |tests p] eqn:Hph; [done..|].
  unfold controls_ok in H. rewrite Hph in H. destruct H as (H1 & H2 & H3 & H4 & Hb & shown & Hd & Hst).
  pose proof (batch_ok _ _ Hb) as Hp. pose proof (pool_result_step tests e p Hp) as Hr. pose proof (batch_step _ e _ Hb) as Hb'.
  destruct (pool_result tests e p) as [x|]; unfold controls_ok; simpl; do 5 (split; [done|]).
  - destruct Hr as [Hn Hr]. exists (shown ++ [x]). simpl. unfold recorded_count. rewrite Hr. fold (line_text tests x).
    pose proof (display_more _ _ _ _ _ (po_length _ _ Hp) Hn Hd) as Hd'. split; [done|]. intros _. by rewrite (od_count _ _ _ _ Hd').
  - exists shown. by rewrite Hr.
Qed.

Lemma run_over_ok s : controls_ok s → controls_ok (run_over s).
Proof.
  intros H. unfold run_over. destruct (c_phase s) as [| | |tests p] eqn:Hph; [done..|].
  destruct (forallb is_over (workers p)) eqn:Hover; [|done]. apply over_iff in Hover.
  unfold controls_ok in H. rewrite Hph in H. destruct H as (H1 & H2 & H3 & H4 & Hb & shown & Hd & Hst).
  pose proof (batch_over _ _ Hb Hover) as Hall. pose proof (po_length _ _ (batch_ok _ _ Hb)) as Hlen.
  unfold controls_ok. simpl. do 3 (split; [done|]).
  exists tests, (final_records tests p), (cancelled p), shown. split; [apply Hb|].
  split; [by apply records_of_full|]. split; [done|]. split; [apply Hd|]. split; [|split; [apply Hd|done]].
  rewrite (od_count _ _ _ _ Hd), filter_full by done. unfold zlen. by rewrite Hlen.
Qed.

Lemma tests_listed_ok m execute busy tests s :
  c_phase s = AwaitList execute → controls_ok s → controls_ok (tests_listed m execute busy tests s).
Proof.
  intros Hph H. destruct (fill_groups_ok tests s H) as [Hf Hfp]. unfold tests_listed.
  set (s' := fill_groups tests s) in *. clearbody s'. unfold controls_ok in Hf. rewrite Hfp, Hph in Hf.
  destruct Hf as (H1 & H2 & H3 & H4 & H5). destruct execute.
  - unfold begin_run. destruct busy; [unfold controls_ok; simpl; by rewrite H4|].
    destruct (run_options_ok _ tests) as [u|] eqn:Ho; simpl; [|unfold controls_ok; simpl; by rewrite H4].
    destruct (select tests _) as [sel|] eqn:Hs; simpl; [|unfold controls_ok; simpl; by rewrite H4].
    unfold controls_ok. simpl. do 4 (split; [done|]). split.
    + split; [by eapply select_nonempty|]. eexists _, []. split; [by eapply run_options_jobs|done].
    + exists []. split; [|done]. simpl. rewrite H5. constructor; [done|by rewrite records_of_start|].
      by rewrite filter_start.
  - destruct (select tests _); unfold controls_ok; simpl; by rewrite H4.
Qed.

Lemma control_step_ok m e s : controls_ok s → controls_ok (control_step m e s).
Proof.
  intros H. destruct e as [execute|r|r busy|e| |f| | |]; simpl.
  - destruct (buttons_disabled s) eqn:Hb; [done|]. unfold controls_ok in *. simpl. destruct (c_phase s); naive_solver.
  - destruct (c_phase s) eqn:Hph; [done| |done..]. unfold controls_ok in H. rewrite Hph in H. destruct H as (H1 & H2 & H3 & H4 & H5).
    destruct r; unfold controls_ok; simpl; by rewrite H4.
  - destruct (c_phase s) as [| |execute|] eqn:Hph; [done..| |done]. destruct r; [by apply tests_listed_ok|].
    unfold controls_ok in H. rewrite Hph in H. destruct H as (H1 & H2 & H3 & H4 & H5). unfold controls_ok; simpl. by rewrite H4.
  - by apply pool_event_ok.
  - by apply run_over_ok.
  - exact H.
  - destruct (cancel_disabled s); [done|]. by apply pool_event_ok.
  - destruct (download_disabled s) eqn:Hd; [done|]. destruct (browserTestResults s) eqn:Hr; [|done].
    unfold controls_ok in *. simpl. by rewrite Hr, Hd in H.
  - exact H.
Qed.

Lemma run_controls_ok m es s : controls_ok s → controls_ok (run_controls m es s).
Proof. revert s. induction es as [|e es IH]; intros s H; [done|]. simpl. by apply IH, control_step_ok. Qed.

Lemma reachable_controls m es : controls_ok (run_controls m es new_controls).
Proof. by apply run_controls_ok. Qed.


(** ** The controls come back *)

Lemma pool_events_phase m tests es p s :
  c_phase s = AwaitRun tests p → c_phase (run_controls m (PoolEvent <$> es) s) = AwaitRun tests (run_pool tests es p).
Proof.
  revert p s. induction es as [|e es IH]; intros p s Hph; [done|]. simpl. apply IH.
  unfold pool_event_step. rewrite Hph. by destruct (pool_result tests e p).
Qed.

(** A batch of the page cannot lock the controls: from every state of a running batch, turns of its loops and
    expiries of its timers alone end it, whatever its workers do; then the buttons are enabled, and a report
    with exactly the selected tests is on offer and can be saved. *)
Theorem controls_come_back m es tests p :
  c_phase (run_controls m es new_controls) = AwaitRun tests p →
  ∃ es', Forall own_event es' ∧
    let s := run_controls m ((PoolEvent <$> es') ++ [RunOver]) (run_controls m es new_controls) in
    c_phase s = Idle ∧ buttons_disabled s = false ∧
    ∃ recs c, browserTestResults s = Some (run_report recs c) ∧ rec_test <$> recs = tests ∧
      saved (control_step m DownloadClick s) = saved s ++ [run_report recs c].
Proof.
  intros Hph. pose proof (reachable_controls m es) as H. set (s0 := run_controls m es new_controls) in *. clearbody s0.
  assert (batch tests p) as Hb by (unfold controls_ok in H; rewrite Hph in H; naive_solver).
  destruct (finish_from tests (work tests p) p (batch_ok _ _ Hb) ltac:(lia)) as (es' & Hown & _ & Hover).
  exists es'. split; [done|]. simpl. unfold run_controls. rewrite foldl_snoc. fold (run_controls m (PoolEvent <$> es') s0).
  pose proof (pool_events_phase m tests es' p s0 Hph) as Hph'. pose proof (run_controls_ok m (PoolEvent <$> es') s0 H) as H1.
  set (s1 := run_controls m _ s0) in *. clearbody s1. set (p1 := run_pool tests es' p) in *.
  assert (batch tests p1) as Hb1 by (unfold controls_ok in H1; rewrite Hph' in H1; naive_solver).
  simpl. unfold run_over. rewrite Hph', (proj2 (over_iff p1) Hover). simpl. do 2 (split; [done|]).
  exists (final_records tests p1), (cancelled p1). split; [done|]. split; [|done].
  apply records_of_full; [apply (po_length _ _ (batch_ok _ _ Hb1))|by apply (batch_over tests)].
Qed.

(** A click on run, and two tests of which one is skipped. *)
Definition demo_clicks : list control_event := [Click true; SuiteLoaded (Ok tt); TestsListed (Ok sample_tests) false].

Lemma controls_come_back_witness :
  ∃ p, c_phase (run_controls [] demo_clicks new_controls) = AwaitRun sample_tests p ∧
  ∃ es', Forall own_event es' ∧
    c_phase (run_controls [] ((PoolEvent <$> es') ++ [RunOver]) (run_controls [] demo_clicks new_controls)) = Idle.
Proof.
  eexists. split; [by vm_compute|].
  destruct (controls_come_back [] demo_clicks sample_tests (pool_start sample_tests (browserSuiteOptions (c_fields new_controls))) ltac:(by vm_compute))
    as (es' & H1 & H2 & _). by exists es'.
Defined.

Example demo_batch :
  let s := run_controls [] (demo_clicks ++ (PoolEvent <$> sample_events) ++ [RunOver]) new_controls in
  c_output s = codes "SKIP b" ++ [10] ++ codes "TIMEOUT a" ++ [10] ∧ c_status s = codes "0 PASS, 1 FAIL, 0 XFAIL, 0 XPASS, 1 SKIP".
Proof. by vm_compute. Qed.
