(* ===== verification/SuiteShared.v ===== *)
(** * The controller shared by the page and the guest (src/html-rt/src/test-suite.js)

    One [WasteTestSuite] serves the page's controls and the guest's batch commands.  Both
    end in [run], which [running] keeps apart; a command holds [guestPending] from its
    first line to its answer.  The machine cuts [guestCommand] at its awaits and
    joins it with the controls of [TestControls]; the answer of a command is that of
    [TestSuite.guestCommand] for the outcomes its awaits had. *)

From stdpp Require Import base numbers list strings gmap.
From Stdlib Require Import ZArith Lia.
From S2P Require Import Prelude JsNum TermModel Utf8 TestSuite Boot TestControls.

#[local] Open Scope Z_scope.
#[local] Open Scope waste_scope.

Inductive owner : Type := PageBatch | GuestBatch.

#[export] Instance owner_eq_dec : EqDecision owner.
Proof. solve_decision. Defined.

(** A command between its awaits. *)
Inductive guest_phase : Type :=
| GIdle
| GList (bytes : list Z) (o : options)
| GRun (bytes : list Z) (o : options) (catalogue selected : list test) (p : pool).

Record suite_state : Type := mkSuiteState {
  ctl : controls; guest : guest_phase;
  g_cancelled : bool;                               (* [guestPending.cancelled] *)
  running : option owner;                           (* [this.running], by who set it *)
  received : list (list Z);                         (* the commands, oldest first *)
  replies : list (list Z * result thrown (list Z)) }.   (* the answers with their commands *)

Definition new_suite_state : suite_state := mkSuiteState new_controls GIdle false None [] [].

Definition is_pending (g : guest_phase) : bool := match g with GIdle => false | _ => true end.
Definition is_running (s : suite_state) : bool := bool_decide (is_Some (running s)).

Definition set_ctl (c : controls) (r : option owner) (s : suite_state) : suite_state :=
  mkSuiteState c (guest s) (g_cancelled s) r (received s) (replies s).
Definition set_guest (g : guest_phase) (r : option owner) (s : suite_state) : suite_state :=
  mkSuiteState (ctl s) g (g_cancelled s) r (received s) (replies s).

(** What [running] becomes when the page's [run] begins or ends. *)
Definition after_page (before after : phase) (r : option owner) : option owner :=
  match before, after with
  | AwaitRun _ _, AwaitRun _ _ => r
  | AwaitRun _ _, _ => None
  | _, AwaitRun _ _ => Some PageBatch
  | _, _ => r
  end.

Section shared_suite.
Context (decode_error : text) (stringify : report → text).

Definition command_reply (bytes : list Z) (a : awaited) : list Z * result thrown (list Z) :=
  (bytes, guestCommand decode_error stringify bytes a).

(** The command ends: its answer, and the [finally]. *)
Definition guest_done (bytes : list Z) (a : awaited) (r : option owner) (s : suite_state) : suite_state :=
  mkSuiteState (ctl s) GIdle false r (received s) (replies s ++ [command_reply bytes a]).

(** The enumeration and the batch of a command that got to neither. *)
Definition no_outcome (busy : bool) : awaited := mkAwaited busy (Err []) false (Err []) false.

(** A command arrives. One that is refused leaves a pending command alone. *)
Definition guest_begin (bytes : list Z) (s0 : suite_state) : suite_state :=
  let s := mkSuiteState (ctl s0) (guest s0) (g_cancelled s0) (running s0) (received s0 ++ [bytes]) (replies s0) in
  if is_running s || is_pending (guest s) then
    mkSuiteState (ctl s) (guest s) (g_cancelled s) (running s) (received s) (replies s ++ [command_reply bytes (no_outcome true)])
  else
    match parse_request bytes with
    | Err _ => guest_done bytes (no_outcome false) (running s) s
    | Ok o => set_guest (GList bytes o) (running s) s
    end.

(** Whether a command goes on to [run], and not to a listing or an error. *)
Definition goes_on (o : options) (tests : list test) (was_cancelled : bool) : bool :=
  negb was_cancelled && match select tests (sel o) with Ok _ => true | Err _ => false end &&
  forallb (λ x, existsb (λ t, groupMatch t x.1) tests) (timeoutGroups o) && negb (want_list o).

(** [this.list(pending)] settles. *)
Definition guest_listed (r : result text (list test)) (s : suite_state) : suite_state :=
  match guest s with
  | GList bytes o =>
    let a run := mkAwaited false r (g_cancelled s) run (g_cancelled s) in
    match r with
    | Err _ => guest_done bytes (a (Err [])) (running s) s
    | Ok tests =>
      if goes_on o tests (g_cancelled s) then
        match begin_run (is_running s) o tests with
        | Err e => guest_done bytes (a (Err (message decode_error (Own e)))) (running s) s
        | Ok selected => set_guest (GRun bytes o tests selected (pool_start selected o)) (Some GuestBatch) s
        end
      else guest_done bytes (a (Err [])) (running s) s
    end
  | _ => s
  end.

Definition guest_pool (e : pool_event) (s : suite_state) : suite_state :=
  match guest s with
  | GRun bytes o tests selected p => set_guest (GRun bytes o tests selected (pool_step selected e p)) (running s) s
  | _ => s
  end.

(** [run] returns: its [finally], and the answer. *)
Definition guest_over (s : suite_state) : suite_state :=
  match guest s with
  | GRun bytes o tests selected p =>
    if forallb is_over (workers p) then
      guest_done bytes (mkAwaited false (Ok tests) false (Ok (final_records selected p, cancelled p)) (g_cancelled s)) None s
    else s
  | _ => s
  end.

(** [suite.cancel()]: the pending command and the batch that runs, whoever started it. *)
Definition suite_cancel (s : suite_state) : suite_state :=
  let c := pool_event_step Cancel (ctl s) in
  let g := match guest s with GRun bytes o tests selected p => GRun bytes o tests selected (pool_step selected Cancel p) | g => g end in
  mkSuiteState c g (is_pending (guest s)) (running s) (received s) (replies s).

Inductive suite_event : Type :=
| PageEvent (e : control_event)
| GuestCommand (bytes : list Z)
| GuestListed (r : result text (list test))
| GuestPool (e : pool_event)
| GuestOver
| GuestCancel.      (* [guest-suite-cancel], which the page only heeds for a pending command *)

Definition suite_step (e : suite_event) (s : suite_state) : suite_state :=
  let page e := let c := control_step decode_error e (ctl s) in set_ctl c (after_page (c_phase (ctl s)) (c_phase c) (running s)) s in
  match e with
  | PageEvent CancelClick => if cancel_disabled (ctl s) then s else suite_cancel s
  | PageEvent (PoolEvent Cancel) | GuestPool Cancel => s
  | PageEvent (TestsListed r _) => page (TestsListed r (is_running s))
  | PageEvent e => page e
  | GuestCommand bytes => guest_begin bytes s
  | GuestListed r => guest_listed r s
  | GuestPool e => guest_pool e s
  | GuestOver => guest_over s
  | GuestCancel => if is_pending (guest s) then suite_cancel s else s
  end.

Definition run_suite (es : list suite_event) (s : suite_state) : suite_state := foldl (λ s e, suite_step e s) s es.
End shared_suite.
