(* ===== verification/SuiteSharedTheorems.v ===== *)
(** * Theorems on the shared controller *)

From stdpp Require Import base numbers list strings gmap.
From Stdlib Require Import ZArith Lia.
From S2P Require Import Prelude JsNum TermModel Utf8 TestSuite TestSuiteTheorems Boot TestControls ControlTheorems SuiteShared.

#[local] Open Scope Z_scope.
#[local] Open Scope waste_scope.

(** ** A command that does not run a batch *)

(** Its answer does not depend on the batch. *)
Lemma answer_without_run decode_error stringify bytes o tests c run run' :
  parse_request bytes = Ok o → goes_on o tests c = false →
  guestCommand decode_error stringify bytes (mkAwaited false (Ok tests) c run c) =
  guestCommand decode_error stringify bytes (mkAwaited false (Ok tests) c run' c).
Proof.
  intros Hp Hg. unfold guestCommand, command_body. cbn [aw_busy aw_list aw_cancelled_list aw_run aw_cancelled]. rewrite Hp. cbn [own foreign rbind].
  unfold goes_on in Hg. destruct c; [done|]. destruct (select tests (sel o)) as [selected|]; [|done]. cbn [own rbind negb andb] in *.
  assert (∀ l, existsb (λ x : text * Z, negb (existsb (λ t, groupMatch t x.1) tests)) l = negb (forallb (λ x, existsb (λ t, groupMatch t x.1) tests) l)) as H.
  { intros l. induction l as [|x l IH]; [done|]. simpl. by rewrite IH, negb_andb. }
  rewrite H. destruct (forallb _ (timeoutGroups o)); [|done]. cbn [negb andb] in *. by destruct (want_list o).
Qed.

(** ** The page's part *)

(** The page's batch begins only when the enumeration ends and nothing runs. *)
Lemma page_begins m e c tests p :
  (∀ t q, c_phase c ≠ AwaitRun t q) → c_phase (control_step m e c) = AwaitRun tests p → ∃ r, e = TestsListed r false.
Proof.
  intros Hn H. destruct e as [execute|r|r busy|e| |f| | |]; simpl in H; try (by destruct (Hn tests p)).
  - destruct (buttons_disabled c); [by destruct (Hn tests p)|done].
  - destruct (c_phase c) eqn:Hph; try (by destruct (Hn tests p)); try congruence. by destruct r.
  - exists r. destruct busy; [|done]. exfalso. destruct (c_phase c) eqn:Hph; try congruence. destruct r as [l|]; [|done].
    unfold tests_listed in H. destruct execute; [done|]. by destruct (select l _).
  - unfold pool_event_step in H. destruct (c_phase c) eqn:Hph; congruence.
  - unfold run_over in H. destruct (c_phase c) eqn:Hph; congruence.
  - destruct (cancel_disabled c); [congruence|]. unfold pool_event_step in H. destruct (c_phase c) eqn:Hph; congruence.
  - destruct (download_disabled c); [congruence|]. destruct (browserTestResults c); simpl in H; congruence.
Qed.

(** ** The invariant *)

Definition page_runs (s : suite_state) : Prop := ∃ tests p, c_phase (ctl s) = AwaitRun tests p.
Definition guest_runs (s : suite_state) : Prop := match guest s with GRun _ _ _ _ _ => True | _ => False end.
Definition pending_bytes (g : guest_phase) : list (list Z) :=
  match g with GIdle => [] | GList bytes _ | GRun bytes _ _ _ _ => [bytes] end.

(** The outcomes an answer was made from: a batch has one record for each selected test. *)
Definition truthful (bytes : list Z) (a : awaited) : Prop :=
  match aw_run a with
  | Ok (recs, _) => ∃ o tests selected, parse_request bytes = Ok o ∧ aw_list a = Ok tests ∧ select tests (sel o) = Ok selected ∧ rec_test <$> recs = selected
  | Err _ => True
  end.

Section shared_suite.
Context (decode_error : text) (stringify : report → text).
#[local] Abbreviation step := (suite_step decode_error stringify).

Definition true_reply (x : list Z * result thrown (list Z)) : Prop :=
  ∃ a, x = command_reply decode_error stringify x.1 a ∧ truthful x.1 a.

Record suite_ok (s : suite_state) : Prop := {
  ss_controls : controls_ok (ctl s);
  ss_page : running s = Some PageBatch ↔ page_runs s;
  ss_guest : running s = Some GuestBatch ↔ guest_runs s;
  ss_command : match guest s with
    | GIdle => True
    | GList bytes o => parse_request bytes = Ok o
    | GRun bytes o tests selected p => parse_request bytes = Ok o ∧ select tests (sel o) = Ok selected ∧ batch selected p
    end;
  ss_ledger : received s ≡ₚ (replies s).*1 ++ pending_bytes (guest s);
  ss_replies : Forall true_reply (replies s) }.

Lemma not_running s : suite_ok s → is_running s = false → running s = None ∧ ¬ page_runs s ∧ ¬ guest_runs s.
Proof.
  intros [_ H1 H2 _ _ _] H. unfold is_running in H. apply bool_decide_eq_false in H.
  assert (running s = None) as Hn by (destruct (running s); [destruct H; by eexists|done]).
  rewrite Hn in H1, H2. split; [done|]. split; intros Hr; [by apply H1 in Hr|by apply H2 in Hr].
Qed.

(** A step of the page other than a cancel. *)
Lemma page_step_ok e s :
  suite_ok s → (∀ r, e = TestsListed r false → is_running s = false) →
  suite_ok (set_ctl (control_step decode_error e (ctl s)) (after_page (c_phase (ctl s)) (c_phase (control_step decode_error e (ctl s))) (running s)) s).
Proof.
  intros Hs Hlist. pose proof Hs as [H1 H2 H3 H4 H5 H6].
  pose proof (control_step_ok decode_error e (ctl s) H1) as Hc. pose proof (page_begins decode_error e (ctl s)) as Hb.
  set (c := control_step decode_error e (ctl s)) in *. clearbody c. unfold page_runs in H2.
  constructor; cbn [ctl running guest received replies set_ctl]; try done; unfold page_runs, guest_runs in *; cbn [ctl guest set_ctl].
  - destruct (c_phase (ctl s)) as [| | |tests p] eqn:Hph; destruct (c_phase c) as [| | |tests' p'] eqn:Hph'; cbn [after_page];
      try (split; [intros H; try done; apply H2 in H as (? & ? & ?); done|by intros (? & ? & ?)]);
      try (split; [intros _; by eexists _, _|done]).
    split; [intros _; by eexists _, _|]. intros _. apply H2. by eexists _, _.
  - destruct (c_phase (ctl s)) as [| | |tests p] eqn:Hph; destruct (c_phase c) as [| | |tests' p'] eqn:Hph'; cbn [after_page]; try done.
    all: try (destruct (Hb tests' p') as [r Hr]; [done|done|]; destruct (not_running s Hs (Hlist r Hr)) as (_ & _ & Hg); split; [done|];
              intros Hg'; by destruct Hg).
    all: assert (running s = Some PageBatch) as Hrun by (apply H2; by eexists _, _); rewrite Hrun in H3; split; [done|]; intros Hg; apply H3 in Hg; done.
Qed.

(** The command ends, and whoever it was that ran does too. *)
Lemma guest_done_ok bytes a r s :
  suite_ok s → pending_bytes (guest s) = [bytes] → truthful bytes a → r = (if bool_decide (running s = Some GuestBatch) then None else running s) →
  suite_ok (guest_done decode_error stringify bytes a r s).
Proof.
  intros [H1 H2 H3 H4 H5 H6] Hp Ha ->. constructor; cbn [ctl running guest received replies guest_done]; try done.
  - unfold page_runs in *. cbn [ctl guest_done]. case_bool_decide as Hr; [|exact H2]. rewrite Hr in H2.
    split; [done|]. intros Hpage. by apply H2 in Hpage.
  - unfold guest_runs. cbn [guest guest_done]. case_bool_decide; done.
  - rewrite H5, Hp, fmap_app. cbn [fmap list_fmap command_reply fst pending_bytes]. by rewrite app_nil_r.
  - apply Forall_app. split; [done|]. apply Forall_singleton. by exists a.
Qed.

Lemma truthful_error bytes busy r c m c' : truthful bytes (mkAwaited busy r c (Err m) c').
Proof. done. Qed.

Lemma guest_begin_ok bytes s : suite_ok s → suite_ok (guest_begin decode_error stringify bytes s).
Proof.
  intros [H1 H2 H3 H4 H5 H6]. unfold guest_begin. cbn [running guest is_running].
  destruct (is_running _ || is_pending (guest s)) eqn:Hbusy.
  - constructor; cbn [ctl running guest received replies]; try done.
    + rewrite H5, fmap_app, <- !app_assoc. apply Permutation_app_head. cbn [fmap list_fmap command_reply fst]. apply Permutation_app_comm.
    + apply Forall_app. split; [done|]. apply Forall_singleton. by eexists.
  - apply orb_false_iff in Hbusy as [Hrun Hpend]. destruct (guest s) as [| |] eqn:Hg; [|done..].
    unfold is_running in Hrun. cbn [running] in Hrun. apply bool_decide_eq_false in Hrun.
    assert (running s = None) as Hnone by (destruct (running s); [destruct Hrun; by eexists|done]).
    destruct (parse_request bytes) as [o|] eqn:Hparse.
    + constructor; cbn [ctl running guest received replies set_guest]; try done.
      * rewrite Hnone. unfold guest_runs. cbn. done.
      * cbn [pending_bytes] in *. rewrite H5. by rewrite app_nil_r.
    + constructor; cbn [ctl running guest received replies guest_done]; try done.
      * rewrite Hnone. unfold guest_runs. cbn. done.
      * cbn [pending_bytes] in *. rewrite H5, fmap_app, !app_nil_r. done.
      * apply Forall_app. split; [done|]. apply Forall_singleton. by eexists.
Qed.

Lemma guest_listed_ok r s : suite_ok s → suite_ok (guest_listed decode_error stringify r s).
Proof.
  intros Hs. unfold guest_listed. destruct (guest s) as [|bytes o|] eqn:Hg; [done| |done].
  assert (running s ≠ Some GuestBatch) as Hng by (intros Hr; apply (ss_guest _ Hs) in Hr; unfold guest_runs in Hr; by rewrite Hg in Hr).
  assert (∀ run, suite_ok (guest_done decode_error stringify bytes (mkAwaited false r (g_cancelled s) (Err run) (g_cancelled s)) (running s) s)) as Hdone.
  { intros run. apply guest_done_ok; [done|by rewrite Hg|done|]. by rewrite bool_decide_eq_false_2. }
  destruct r as [tests|m]; [|apply Hdone]. destruct (goes_on o tests (g_cancelled s)); [|apply Hdone].
  destruct (begin_run (is_running s) o tests) as [selected|e] eqn:Hb; [|apply Hdone].
  unfold begin_run in Hb. destruct (is_running s) eqn:Hrun; [done|]. destruct (not_running s Hs Hrun) as (Hnone & Hnp & _).
  destruct (run_options_ok o tests) as [u|] eqn:Ho; [|done]. cbn [rbind] in Hb. destruct Hs as [H1 H2 H3 H4 H5 H6]. rewrite Hg in H4, H5.
  constructor; cbn [ctl running guest received replies set_guest]; try done.
  split; [done|]. split; [done|]. split; [by eapply select_nonempty|]. exists o, []. split; [by eapply run_options_jobs|done].
Qed.

Lemma guest_pool_ok e s : suite_ok s → suite_ok (guest_pool e s).
Proof.
  intros [H1 H2 H3 H4 H5 H6]. unfold guest_pool. destruct (guest s) as [| |bytes o tests selected p] eqn:Hg; [by constructor; rewrite ?Hg..|].
  unfold guest_runs in H3. rewrite Hg in H3. destruct H4 as (Hp & Hsel & Hb).
  constructor; cbn [ctl running guest received replies set_guest]; try done. split; [done|]. split; [done|]. by apply batch_step.
Qed.

Lemma guest_over_ok s : suite_ok s → suite_ok (guest_over decode_error stringify s).
Proof.
  intros Hs. unfold guest_over. destruct (guest s) as [| |bytes o tests selected p] eqn:Hg; [done..|].
  destruct (forallb is_over (workers p)) eqn:Hover; [|done]. apply over_iff in Hover.
  pose proof (ss_command _ Hs) as Hc. rewrite Hg in Hc. destruct Hc as (Hp & Hsel & Hb).
  apply guest_done_ok; [done|by rewrite Hg| |].
  - exists o, tests, selected. cbn [aw_list]. do 3 (split; [done|]). apply records_of_full; [apply (po_length _ _ (batch_ok _ _ Hb))|by apply (batch_over selected)].
  - assert (running s = Some GuestBatch) as -> by (apply (ss_guest _ Hs); unfold guest_runs; by rewrite Hg). done.
Qed.

Lemma cancel_phase c : (∃ t p, c_phase (pool_event_step Cancel c) = AwaitRun t p) ↔ ∃ t p, c_phase c = AwaitRun t p.
Proof. unfold pool_event_step. destruct (c_phase c) as [| | |tests p] eqn:Hph; [by rewrite Hph..|]. cbn. split; intros _; by eexists _, _. Qed.

Lemma suite_cancel_ok s : suite_ok s → suite_ok (suite_cancel s).
Proof.
  intros [H1 H2 H3 H4 H5 H6]. constructor; cbn [ctl running guest received replies suite_cancel]; try done.
  - by apply pool_event_ok.
  - unfold page_runs in *. cbn [ctl suite_cancel]. by rewrite cancel_phase.
  - unfold guest_runs in *. cbn [guest suite_cancel]. by destruct (guest s).
  - destruct (guest s) as [| |bytes o tests selected p]; [done..|]. destruct H4 as (Hp & Hsel & Hb). split; [done|]. split; [done|]. by apply batch_step.
  - by destruct (guest s).
Qed.

Lemma suite_step_ok e s : suite_ok s → suite_ok (step e s).
Proof.
  intros Hs. destruct e as [e|bytes|r|e| |]; cbn [suite_step].
  - destruct e as [execute|r|r busy|e| |f| | |]; try (apply page_step_ok; [done|discriminate]).
    + apply page_step_ok; [done|]. intros r' [= -> Hb]. done.
    + destruct e; [apply page_step_ok; [done|discriminate]..|done].
    + destruct (cancel_disabled (ctl s)); [done|]. by apply suite_cancel_ok.
  - by apply guest_begin_ok.
  - by apply guest_listed_ok.
  - destruct e; [by apply guest_pool_ok..|done].
  - by apply guest_over_ok.
  - destruct (is_pending (guest s)); [|done]. by apply suite_cancel_ok.
Qed.

Lemma new_suite_ok : suite_ok new_suite_state.
Proof. constructor; try done. split; [done|]. by intros (? & ? & ?). Qed.

Lemma run_suite_ok es s : suite_ok s → suite_ok (run_suite decode_error stringify es s).
Proof. revert s. induction es as [|e es IH]; intros s Hs; [done|]. simpl. by apply IH, suite_step_ok. Qed.

End shared_suite.

(** ** A command's batch ends *)

Lemma guest_pool_events decode_error stringify bytes o tests selected es p s :
  Forall own_event es → guest s = GRun bytes o tests selected p →
  let s' := run_suite decode_error stringify (GuestPool <$> es) s in
  guest s' = GRun bytes o tests selected (run_pool selected es p) ∧ replies s' = replies s ∧ g_cancelled s' = g_cancelled s.
Proof.
  revert p s. induction es as [|e es IH]; intros p s Hown Hg; [done|]. inversion Hown as [|? ? He Hes]; subst.
  cbn [fmap list_fmap run_suite foldl]. destruct e as [j|j ev|]; [| |done]; cbn [suite_step];
    unfold guest_pool; rewrite Hg; apply (IH _ (set_guest _ _ s)); done.
Qed.

(** From every state of a running command, turns of its loops and its timers alone bring its answer, with one record
    for each test it selected. *)
Lemma guest_batch_ends decode_error stringify es bytes o tests selected p :
  let s := run_suite decode_error stringify es new_suite_state in
  guest s = GRun bytes o tests selected p →
  ∃ es' recs c, Forall own_event es' ∧ rec_test <$> recs = selected ∧
    let s' := run_suite decode_error stringify ((GuestPool <$> es') ++ [GuestOver]) s in
    guest s' = GIdle ∧ running s' = None ∧
    replies s' = replies s ++ [command_reply decode_error stringify bytes (mkAwaited false (Ok tests) false (Ok (recs, c)) (g_cancelled s))].
Proof.
  intros s Hg. pose proof (run_suite_ok decode_error stringify es _ (new_suite_ok _ _)) as Hs. fold s in Hs. clearbody s.
  pose proof (ss_command _ _ _ Hs) as Hc. rewrite Hg in Hc. destruct Hc as (_ & _ & Hb).
  destruct (finish_from selected (work selected p) p (batch_ok _ _ Hb) ltac:(lia)) as (es' & Hown & _ & Hover).
  destruct (guest_pool_events decode_error stringify bytes o tests selected es' p s Hown Hg) as (H1 & H2 & H3).
  set (s1 := run_suite _ _ (GuestPool <$> es') s) in *. set (p1 := run_pool selected es' p) in *.
  exists es', (final_records selected p1), (cancelled p1). split; [done|].
  pose proof (run_suite_ok decode_error stringify (GuestPool <$> es') s Hs) as Hs1. fold s1 in Hs1.
  pose proof (ss_command _ _ _ Hs1) as Hc1. rewrite H1 in Hc1. destruct Hc1 as (_ & _ & Hb1).
  split; [apply records_of_full; [apply (po_length _ _ (batch_ok _ _ Hb1))|by apply (batch_over selected)]|].
  unfold run_suite. rewrite foldl_snoc. fold (run_suite decode_error stringify (GuestPool <$> es') s). fold s1.
  cbn [suite_step]. unfold guest_over. rewrite H1, (proj2 (over_iff p1) Hover). cbn [guest running replies guest_done]. by rewrite H2, H3.
Qed.

(** A Ctrl-C for a command that is still enumerating stops the page's batch too. *)
Example guest_cancel_stops_page :
  let es := GuestCommand sample_request :: (PageEvent <$> demo_clicks) ++ [GuestCancel] in
  match c_phase (ctl (run_suite [] (λ _, []) es new_suite_state)) with AwaitRun _ p => cancelled p = true | _ => False end.
Proof. by vm_compute. Qed.
