(* ===== verification/RenderTest.v ===== *)
(** * Setting up and testing the renderer (src/html-rt/src/terminal/renderer.js, render-test.js)

    How the renderer gets its drawing context, links its shaders and follows the
    pixel ratio; and the render diagnostic, which draws a fixed scene off screen
    at three sizes and reads the pixels back.  What the graphics API answers is a
    parameter: the outcomes of its calls and the pixels it returns. *)

From stdpp Require Import base numbers list strings gmap.
From Stdlib Require Import ZArith Lia.
From S2P Require Import Prelude JsNum TermModel Utf8 GlfData Renderer.

#[local] Open Scope Z_scope.
#[local] Open Scope waste_scope.

(** ** The drawing context *)

Inductive context_kind : Type := WebGL2 | Context2D.

#[export] Instance context_kind_eq_dec : EqDecision context_kind.
Proof. solve_decision. Defined.

(** What the browser does on the first request of a kind. *)
Inductive offer : Type := Offered | Refused | Throws.

(** [canvas.getContext(kind)]: a canvas keeps the kind of its first context, and answers [null] for any other. *)
Definition getContext (offers : context_kind → offer) (kind : context_kind) (mode : option context_kind) :
    result unit (bool * option context_kind) :=
  match mode with
  | Some k => Ok (bool_decide (k = kind), mode)
  | None => match offers kind with Offered => Ok (true, Some kind) | Refused => Ok (false, None) | Throws => Err tt end
  end.

Record drawing : Type := mkDrawing { has_gl : bool; has_ctx : bool; use_webgl : bool }.

(** The part of [init] that chooses; [init_ok] is whether [initWebGL] returns. An exception of the
    last request leaves the constructor. *)
Definition init (offers : context_kind → offer) (has_glf init_ok : bool) : result unit drawing :=
  let '(gl, mode) := match getContext offers WebGL2 None with Ok r => r | Err _ => (false, None) end in
  let tried := gl && has_glf in
  let useWebGL := tried && init_ok in
  let gl := if tried then init_ok else gl in
  if useWebGL then Ok (mkDrawing gl false true)
  else let* '(ctx, _) := getContext offers Context2D mode in Ok (mkDrawing gl ctx false).

(** Whether a frame reaches the canvas: [renderCanvas] returns at once without a context. *)
Definition draws_frames (d : drawing) : bool := use_webgl d || has_ctx d.

(** *** Shaders *)

Inductive gl_call : Type :=
| CreateProgram | CreateShader (vertex : bool) | CompileShader (vertex : bool) | DeleteShader (vertex : bool)
| AttachShader (vertex : bool) | LinkProgram.

Definition or_text (message default : list Z) : list Z := match message with [] => default | _ => message end.

(** The inner [compile], for a compiler that answers with a log on failure. *)
Definition compile (compiler : bool → option (list Z)) (vertex : bool) : result (list Z) unit * list gl_call :=
  match compiler vertex with
  | None => (Ok tt, [CreateShader vertex; CompileShader vertex])
  | Some log => (Err (or_text log (codes "terminal shader compilation failed")),
                 [CreateShader vertex; CompileShader vertex; DeleteShader vertex])
  end.

Definition link (compiler : bool → option (list Z)) (linker : option (list Z)) : result (list Z) unit * list gl_call :=
  let '(v, l1) := compile compiler true in
  match v with
  | Err m => (Err m, CreateProgram :: l1)
  | Ok _ =>
    let '(f, l2) := compile compiler false in
    match f with
    | Err m => (Err m, CreateProgram :: l1 ++ AttachShader true :: l2)
    | Ok _ =>
      let l := CreateProgram :: l1 ++ AttachShader true :: l2 ++ [AttachShader false; LinkProgram] in
      match linker with
      | None => (Ok tt, l)
      | Some log => (Err (or_text log (codes "terminal program link failed")), l)
      end
    end
  end.

(** *** The pixel ratio *)

(** A renderer with the media queries it listens to, by the ratio they are about. *)
Record watched : Type := mkWatched { w_renderer : renderer; w_queries : list num }.

Definition ratio_or_1 (ratio : num) : num := match ratio with NInt 0 | NNonFinite => NInt 1 | _ => ratio end.

Definition watchPixelRatio (ratio : num) (w : watched) : watched :=
  mkWatched (w_renderer w) (w_queries w ++ [ratio_or_1 ratio]).

(** The change event of a query, which fires once, when the ratio has become [ratio]. *)
Definition ratio_changed (f : font) (i : nat) (ratio : num) (b : option box) (t : term) (w : watched) : result render_fault watched :=
  match w_queries w !! i with
  | None => Ok w
  | Some _ =>
    let* r := resize_canvas f ratio b t (w_renderer w) in
    Ok (watchPixelRatio ratio (mkWatched r (delete i (w_queries w))))
  end.

(** ** The scene of the diagnostic *)

Definition ascii : list Z := seqZ 33 94.

(** [CSI] with these parameters and final byte. *)
Definition csi_text (s : string) : list Z := 27 :: codes s.

(** [model.active.cells[i].fg = colour]. *)
Definition set_cell_fg (i : Z) (colour : string) : term → result fault term :=
  with_cells (λ cs, let* c := get_cell i cs in
    let a := look c in put_cell i (mkCell (code c) (mkAttrs colour (bg a) (bold a) (underline a) (inverse a))) cs).

Definition scene : result fault term :=
  let* t := write (codes "Il1| O0 []{}() /\" ++ [13; 10]) (constructor 80 24) in
  let* t := write (take 64 ascii ++ [13; 10] ++ drop 64 ascii) t in
  let* t := write (csi_text "[5;1H" ++ csi_text "[38;2;0;255;0mGREEN" ++ csi_text "[0m") t in
  let* t := write (csi_text "[6;1H" ++ csi_text "[48;2;255;0;0m " ++ csi_text "[48;2;0;0;255m " ++ csi_text "[0m") t in
  let* t := write (csi_text "[7;1H" ++ csi_text "[38;2;255;255;255m") t in
  set_cell_fg (6 * 80) "#ffffff" t.

(** ** Reading pixels *)

Definition COLS : Z := 80.
Definition ROWS : Z := 24.

(** A buffer of [readPixels]: its bytes, bottom row first, and the geometry of the canvas. *)
Record shot : Type := mkShot { px : Z → Z; px_width : Z; px_height : Z; px_cw : Z; px_ch : Z }.

Definition px_length (s : shot) : Z := px_width s * px_height s * 4.

(** [pixels.subarray(offset, offset + 3)], for an offset that is not negative. *)
Definition subarray3 (s : shot) (offset : Z) : list Z :=
  px s <$> filter (λ k, k < px_length s) (seqZ offset 3).

Definition pixel_offset (s : shot) (x y dx dy : Z) : Z :=
  ((px_height s - 1 - y * px_ch s - dy) * px_width s + x * px_cw s + dx) * 4.

Definition cell_pixels (s : shot) (x y : Z) : list (list Z) :=
  dy ← seqZ 0 (px_ch s); dx ← seqZ 0 (px_cw s); [subarray3 s (pixel_offset s x y dx dy)].

Definition lit (rgb : list Z) : bool := existsb (λ v, 32 <? v) rgb.

Definition mask (s : shot) (x y : Z) : list bool := lit <$> cell_pixels s x y.

(** A test of the three channels. *)
Definition channels3 (f : Z → Z → Z → bool) (rgb : list Z) : bool :=
  match rgb with [r; g; b] => f r g b | _ => false end.

Definition glyph_columns : list Z := [0; 1; 2; 3; 5; 6; 8; 9; 10; 11; 12; 13; 15; 16].

(** The checks on one shot, in order; [no_error] is [gl.getError] and [isContextLost], [dims] the backing size. *)
Definition blank_check (s : shot) : bool :=
  forallb (λ x, forallb (λ rgb, negb (lit rgb)) (cell_pixels s x 10)) [0; 20; 79].
Definition glyphs_check (s : shot) : bool := forallb (λ x, existsb lit (cell_pixels s x 0)) glyph_columns.
Definition ascii_check (s : shot) : bool :=
  forallb (λ i, existsb lit (cell_pixels s (if i <? 64 then i else i - 64) (if i <? 64 then 1 else 2))) (seqZ 0 94).
Definition shapes_check (s : shot) : bool := bool_decide (NoDup ((λ x, mask s x 0) <$> [0; 1; 2; 3])).
Definition zero_check (s : shot) : bool := negb (bool_decide (mask s 5 0 = mask s 6 0)).
Definition green_check (s : shot) : bool :=
  existsb (channels3 (λ r g b, (128 <? g) && (r <? 8) && (b <? 8))) (cell_pixels s 0 4).
Definition paper_check (s : shot) : bool :=
  forallb (channels3 (λ r g b, (247 <? r) && (g <? 8) && (b <? 8))) (cell_pixels s 0 5) &&
  forallb (channels3 (λ r g b, (247 <? b) && (r <? 8) && (g <? 8))) (cell_pixels s 1 5).
Definition cursor_check (s : shot) : bool := forallb (λ rgb, forallb (λ v, 247 <? v) rgb) (cell_pixels s 0 6).

#[export] Instance snapshot_eq_dec : EqDecision snapshot_t.
Proof. solve_decision. Defined.

(** ** The diagnostic *)

(** [window.devicePixelRatio]: the device's, or a value defined over it. *)
Inductive ratio_property : Type := Accessor | Value (v : num).
Record window : Type := mkWindow { device : num; own_ratio : option ratio_property }.
Definition devicePixelRatio (w : window) : num := match own_ratio w with Some (Value v) => v | _ => device w end.
Definition define_ratio (p : option ratio_property) (w : window) : window := mkWindow (device w) p.

(** What the diagnostic changes: the window, the patched [createTexture], the screens in the document, the textures
    made, the checks; and its renderer. *)
Record world : Type := mkWorld {
  win : window; patched : bool; screens : nat; textures : nat; checks : list (list Z * bool);
  test_renderer : option renderer; context_lost : bool }.

(** The answers of the graphics API: the class exists, the context the new canvas gets, and for each size
    the error state and the pixels. *)
Record graphics : Type := mkGraphics {
  g_class : bool; g_webgl : bool; g_no_error : nat → bool; g_pixels : nat → Z → Z; fault_text : render_fault → list Z }.

Definition M (A : Type) : Type := world → result (list Z) A * world.

#[export] Instance M_ret : MRet M := λ A a w, (Ok a, w).
#[export] Instance M_bind : MBind M := λ A B f m w, match m w with (Ok a, w') => f a w' | (Err e, w') => (Err e, w') end.

Definition throw {A} (e : list Z) : M A := λ w, (Err e, w).
Definition modify (f : world → world) : M unit := λ w, (Ok tt, f w).
Definition gets {A} (f : world → A) : M A := λ w, (Ok (f w), w).

Definition add_check (c : list Z * bool) (w : world) : world :=
  mkWorld (win w) (patched w) (screens w) (textures w) (checks w ++ [c]) (test_renderer w) (context_lost w).
Definition check (name : list Z) (pass : bool) : M unit := modify (add_check (name, pass)).

Definition set_win (v : window) (w : world) : world :=
  mkWorld v (patched w) (screens w) (textures w) (checks w) (test_renderer w) (context_lost w).
Definition set_patched (b : bool) (w : world) : world :=
  mkWorld (win w) b (screens w) (textures w) (checks w) (test_renderer w) (context_lost w).
Definition set_screens (n : nat) (w : world) : world :=
  mkWorld (win w) (patched w) n (textures w) (checks w) (test_renderer w) (context_lost w).
Definition set_test_renderer (r : option renderer) (w : world) : world :=
  mkWorld (win w) (patched w) (screens w) (textures w) (checks w) r (context_lost w).
Definition set_lost (b : bool) (w : world) : world :=
  mkWorld (win w) (patched w) (screens w) (textures w) (checks w) (test_renderer w) b.

Section test.
Context (G : graphics).

Definition lift_render {A} (r : result render_fault A) : M A :=
  match r with Ok a => mret a | Err e => throw (fault_text G e) end.
Definition lift_model {A} (r : result fault A) : M A :=
  match r with Ok a => mret a | Err _ => throw [] end.

Definition sizes : list (Z * Z) := [(640, 1); (800, 1); (640, 2)].

Definition label (width ratio : Z) : list Z := dec_text width ++ codes "px / DPR " ++ dec_text ratio ++ codes ": ".

(** One size: resize, read the pixels back, check them. *)
Definition check_size (t before : term) (k : nat) (size : Z * Z) (r : renderer) : M renderer :=
  let '(width, ratio) := size in
  modify (λ w, set_win (define_ratio (Some (Value (NInt ratio))) (win w)) w);;
  w ← gets id;
  r ← lift_render (resize_canvas glf (devicePixelRatio (win w)) (page_box width 600) t r);
  modify (set_test_renderer (Some r));;
  let s := mkShot (g_pixels G k) (canvas_width r) (canvas_height r) (r_cellWidth r) (r_cellHeight r) in
  let named name := label width ratio ++ codes name in
  check (named "WebGL has no error") (g_no_error G k);;
  check (named "blank cells remain black") (blank_check s);;
  check (named "visible glyphs") (glyphs_check s);;
  check (named "printable ASCII") (ascii_check s);;
  check (named "I/l/1/bar have different shapes") (shapes_check s);;
  check (named "O/zero have different shapes") (zero_check s);;
  check (named "colored foreground") (green_check s);;
  check (named "red/blue backgrounds") (paper_check s);;
  check (named "cursor") (cursor_check s);;
  check (named "grid and contents unchanged")
    ((columns t =? COLS) && (rows t =? ROWS) && bool_decide (snapshot t = snapshot before));;
  check (named "backing dimensions")
    ((canvas_width r =? r_cellWidth r * COLS) && (canvas_height r =? r_cellHeight r * ROWS) &&
     bool_decide (r_ratio r = NInt ratio) && (canvas_width r =? width * ratio));;
  mret r.

Fixpoint check_sizes (t before : term) (k : nat) (l : list (Z * Z)) (r : renderer) : M renderer :=
  match l with [] => mret r | size :: l' => r ← check_size t before k size r; check_sizes t before (S k) l' r end.

(** The body of the [try]. *)
Definition test_body (live_webgl : bool) : M unit :=
  check (codes "Production terminal uses WebGL") live_webgl;;
  (if g_class G then mret tt else throw (codes "WebGL2RenderingContext is not defined"));;
  modify (set_patched true);;
  t ← lift_model scene;
  w ← gets id;
  r ← lift_render (new_renderer glf (g_webgl G) (devicePixelRatio (win w)) (page_box 640 600) t);
  modify (set_test_renderer (Some r));;
  (if useWebGL r then mret tt else throw (codes "WebGL2 renderer unavailable (fallback is not a pass)"));;
  r ← check_sizes t t 0 sizes r;
  w ← gets id;
  check (codes "No glyph textures created") (Nat.eqb (textures w) 0).

Record test_report : Type := mkTestReport {
  rt_checks : list (list Z * bool); pixelChecksPassed : bool; restoredDevicePixelRatio : bool; rt_ok : bool }.

(** The [finally], with the descriptor saved at the start. *)
Definition restore (descriptor : option ratio_property) (w : world) : world :=
  let w := set_patched false w in
  let w := set_win (define_ratio descriptor (win w)) w in
  let w := match test_renderer w with Some r => if useWebGL r then set_lost true w else w | None => w end in
  set_screens (Nat.pred (screens w)) w.

Definition WasteTerminalRenderTest (live_webgl : bool) (w0 : world) : test_report * world :=
  let original := devicePixelRatio (win w0) in
  let w1 := set_screens (S (screens w0)) (mkWorld (win w0) (patched w0) (screens w0) 0 [] None false) in
  let '(r, w2) := test_body live_webgl w1 in
  let w3 := match r with Ok _ => w2 | Err e => add_check (e, false) w2 end in
  let w4 := restore (own_ratio (win w0)) w3 in
  let passed := negb (bool_decide (checks w4 = [])) && forallb snd (checks w4) in
  let restored := bool_decide (devicePixelRatio (win w4) = original) in
  (mkTestReport (checks w4) passed restored (passed && restored), w4).
End test.
