(* ===== verification/RenderTestTheorems.v ===== *)
(** * Theorems on the renderer's setup and the render diagnostic *)

From stdpp Require Import base numbers list strings gmap.
From Stdlib Require Import ZArith Lia.
From S2P Require Import Prelude JsNum TermModel Utf8 GlfData Renderer RendererTheorems RenderTest.

#[local] Open Scope Z_scope.
#[local] Open Scope waste_scope.

(** ** The drawing context *)

(** Without WebGL the 2D context draws, if the browser has one. *)
Lemma fallback_draws offers has_glf init_ok :
  offers WebGL2 ≠ Offered → offers Context2D = Offered → init offers has_glf init_ok = Ok (mkDrawing false true false).
Proof. intros H1 H2. unfold init. simpl. destruct (offers WebGL2); [done|simpl; by rewrite H2..]. Qed.

(** A WebGL context whose programs cannot be set up leaves no context to fall back to: the canvas stays blank. *)
Lemma late_failure_is_blank offers :
  offers WebGL2 = Offered → ∃ d, init offers true false = Ok d ∧ draws_frames d = false.
Proof. intros H. unfold init. simpl. rewrite H. simpl. by eexists. Qed.

(** Linking succeeds exactly when both shaders compile and the program links; a shader that does not compile is deleted. *)
Lemma link_exact compiler linker :
  let '(r, l) := link compiler linker in
  (r = Ok tt ↔ (∀ v, compiler v = None) ∧ linker = None) ∧ (∀ v, DeleteShader v ∈ l ↔ CompileShader v ∈ l ∧ compiler v ≠ None).
Proof.
  unfold link, compile. destruct (compiler true) eqn:Ht; [|destruct (compiler false) eqn:Hf; [|destruct linker]]; simpl.
  all: split; [split; [try done|intros [H1 H2]; try done; try (pose proof (H1 true); congruence); try (pose proof (H1 false); congruence)]|].
  all: try (intros _; split; [by intros []|done]).
  all: intros []; rewrite !elem_of_cons, ?elem_of_nil, ?Ht, ?Hf; naive_solver.
Qed.

(** However often the ratio changes, one query is armed, for the ratio of the last change. *)
Lemma one_query f ratio b t w w' q :
  w_queries w = [q] → ratio_changed f 0 ratio b t w = Ok w' → w_queries w' = [ratio_or_1 ratio].
Proof.
  intros Hq. unfold ratio_changed. rewrite Hq. simpl. destruct (resize_canvas _ _ _ _ _); [|done]. simpl. by intros [= <-].
Qed.

(** ** Restoring the page *)

(** What the body never changes, and the checks it only adds to. *)
Definition kept (w w' : world) : Prop :=
  device (win w') = device (win w) ∧ screens w' = screens w ∧ textures w' = textures w ∧ checks w `prefix_of` checks w'.

#[export] Instance kept_preorder : PreOrder kept.
Proof.
  split; [intros w; by repeat split|]. intros w1 w2 w3 (H1 & H2 & H3 & H4) (K1 & K2 & K3 & K4).
  split; [congruence|]. split; [congruence|]. split; [congruence|]. by etransitivity.
Qed.

Definition keeps {A} (m : M A) : Prop := ∀ w, kept w (m w).2.

Create HintDb render.

Lemma rt_keeps_bind {A B} (m : M A) (f : A → M B) : keeps m → (∀ a, keeps (f a)) → keeps (m ≫= f).
Proof.
  intros Hm Hf w. unfold mbind, M_bind. specialize (Hm w). destruct (m w) as [[a|e] w']; [|done]. simpl in *. etransitivity; [done|apply Hf].
Qed.
Lemma rt_keeps_ret {A} (a : A) : keeps (mret a).
Proof. intros w. done. Qed.
Lemma rt_keeps_throw {A} e : keeps (@throw A e).
Proof. intros w. done. Qed.
Lemma keeps_gets {A} (f : world → A) : keeps (gets f).
Proof. intros w. done. Qed.
Lemma keeps_check n b : keeps (check n b).
Proof. intros w. repeat split. simpl. by eexists. Qed.
Lemma keeps_win p : keeps (modify (λ w, set_win (define_ratio p (win w)) w)).
Proof. intros w. done. Qed.
Lemma keeps_patched b : keeps (modify (set_patched b)).
Proof. intros w. done. Qed.
Lemma keeps_renderer r : keeps (modify (set_test_renderer r)).
Proof. intros w. done. Qed.
Lemma keeps_render G {A} (r : result render_fault A) : keeps (lift_render G r).
Proof. destruct r; [apply rt_keeps_ret|apply rt_keeps_throw]. Qed.
Lemma keeps_model {A} (r : result fault A) : keeps (lift_model r).
Proof. destruct r; [apply rt_keeps_ret|apply rt_keeps_throw]. Qed.
Lemma keeps_if {A} (b : bool) (m m' : M A) : keeps m → keeps m' → keeps (if b then m else m').
Proof. by destruct b. Qed.

#[export] Hint Resolve rt_keeps_bind rt_keeps_ret rt_keeps_throw keeps_gets keeps_check keeps_win keeps_patched keeps_renderer
  keeps_render keeps_model keeps_if : render.

Lemma keeps_check_size G t before k size r : keeps (check_size G t before k size r).
Proof. destruct size. unfold check_size. auto 60 with render. Qed.
#[export] Hint Resolve keeps_check_size : render.

Lemma keeps_check_sizes G t before k l r : keeps (check_sizes G t before k l r).
Proof. revert k r. induction l as [|size l IH]; intros k r; simpl; auto with render. Qed.
#[export] Hint Resolve keeps_check_sizes : render.

Lemma keeps_test_body G live : keeps (test_body G live).
Proof. unfold test_body. auto 30 with render. Qed.

(** ** The checks of one size *)

Definition size_shot (G : graphics) (k : nat) (r : renderer) : shot :=
  mkShot (g_pixels G k) (canvas_width r) (canvas_height r) (r_cellWidth r) (r_cellHeight r).

Definition size_checks (G : graphics) (t before : term) (k : nat) (width ratio : Z) (r : renderer) : list bool :=
  let s := size_shot G k r in
  [g_no_error G k; blank_check s; glyphs_check s; ascii_check s; shapes_check s; zero_check s; green_check s; paper_check s; cursor_check s;
   (columns t =? COLS) && (rows t =? ROWS) && bool_decide (snapshot t = snapshot before);
   (canvas_width r =? r_cellWidth r * COLS) && (canvas_height r =? r_cellHeight r * ROWS) &&
     bool_decide (r_ratio r = NInt ratio) && (canvas_width r =? width * ratio)].

Lemma check_size_run G t before k width ratio r w :
  match resize_canvas glf (NInt ratio) (page_box width 600) t r with
  | Err e => (check_size G t before k (width, ratio) r w).1 = Err (fault_text G e)
  | Ok r' => ∃ w', check_size G t before k (width, ratio) r w = (Ok r', w') ∧
      snd <$> checks w' = (snd <$> checks w) ++ size_checks G t before k width ratio r' ∧ textures w' = textures w
  end.
Proof.
  unfold check_size, mbind, M_bind, gets, modify. cbn [fst snd id set_win win define_ratio devicePixelRatio own_ratio].
  destruct (resize_canvas _ _ _ _ _) as [r'|e]; cbn -[size_checks size_shot blank_check glyphs_check ascii_check shapes_check zero_check green_check paper_check cursor_check label]; [|done].
  eexists. split; [reflexivity|]. cbn -[blank_check glyphs_check ascii_check shapes_check zero_check green_check paper_check cursor_check label COLS ROWS].
  rewrite !fmap_app, <- !app_assoc. done.
Qed.

(** A run of the sizes that ends has made eleven checks for each. *)
Lemma check_sizes_count G t before l k r w r' w' :
  check_sizes G t before k l r w = (Ok r', w') → length (checks w') = (length (checks w) + 11 * length l)%nat ∧ textures w' = textures w.
Proof.
  revert k r w. induction l as [|[width ratio] l IH]; intros k r w; cbn [check_sizes]; [intros [= -> ->]; simpl; lia|].
  unfold mbind, M_bind at 1. pose proof (check_size_run G t before k width ratio r w) as H.
  destruct (resize_canvas _ _ _ _ _) as [r1|e].
  - destruct H as (w1 & -> & Hc & Ht). intros H. apply IH in H as [H1 H2]. apply (f_equal length) in Hc. rewrite length_app, !length_fmap in Hc.
    simpl in *. lia.
  - destruct (check_size _ _ _ _ _ _ _) as [[?|?] ?]; [by simpl in H|done].
Qed.

(** A resize sets the geometry, and keeps the kind of context. *)
Lemma resize_fields f ratio b t r r' :
  resize_canvas f ratio b t r = Ok r' →
  cell_size ratio b (columns t) (rows t) = Ok (r_cellWidth r', r_cellHeight r') ∧ r_ratio r' = ratio ∧ useWebGL r' = useWebGL r ∧
  canvas_width r' = r_cellWidth r' * columns t ∧ canvas_height r' = r_cellHeight r' * rows t.
Proof.
  unfold resize_canvas, render. destruct (cell_size _ _ _ _) as [[w h]|]; [|done]. cbn [rbind dirty].
  destruct (draw_frame _ _ _) as [[o c]|]; [|done]. cbn [rbind]. by intros [= <-].
Qed.

Lemma rt_bind_ok {A B} (m : M A) (f : A → M B) w b w' :
  (m ≫= f) w = (Ok b, w') → ∃ a w1, m w = (Ok a, w1) ∧ f a w1 = (Ok b, w').
Proof. unfold mbind, M_bind. destruct (m w) as [[a|e] w1]; [by exists a, w1|done]. Qed.

Lemma rt_ret_ok {A} (a b : A) w w' : (mret a : M A) w = (Ok b, w') → a = b ∧ w' = w.
Proof. unfold mret, M_ret. intros H. split; congruence. Qed.
Lemma throw_ok {A} e (b : A) w w' : (throw e : M A) w = (Ok b, w') → False.
Proof. unfold throw. congruence. Qed.
Lemma check_ok n b w w' r : check n b w = (r, w') → w' = add_check (n, b) w.
Proof. unfold check, modify. congruence. Qed.
Lemma modify_run {B} g (f : () → M B) w : (modify g ≫= f) w = f tt (g w).
Proof. reflexivity. Qed.
Lemma check_run {B} n b (f : () → M B) w : (check n b ≫= f) w = f tt (add_check (n, b) w).
Proof. reflexivity. Qed.
Lemma gets_run {A B} (g : world → A) (f : A → M B) w : (gets g ≫= f) w = f (g w) w.
Proof. reflexivity. Qed.

(** What a run of the body that ends has done. *)
Lemma test_body_ok G live w w' :
  test_body G live w = (Ok tt, w') →
  g_webgl G = true ∧ g_class G = true ∧ length (checks w') = (length (checks w) + 35)%nat ∧
  (Forall (λ c, c.2 = true) (checks w') → live = true).
Proof.
  unfold test_body. rewrite check_run. intros H. apply rt_bind_ok in H as (? & w2 & H1 & H).
  destruct (g_class G); [apply rt_ret_ok in H1 as [_ ->]|destruct (throw_ok _ _ _ _ H1)]. rewrite modify_run in H.
  apply rt_bind_ok in H as (t & w3 & H1 & H). destruct scene as [t'|]; [apply rt_ret_ok in H1 as [<- ->]|destruct (throw_ok _ _ _ _ H1)].
  rewrite gets_run in H. apply rt_bind_ok in H as (r & w4 & H1 & H).
  destruct (new_renderer _ _ _ _ _) as [r0|] eqn:Hr; [apply rt_ret_ok in H1 as [<- ->]|destruct (throw_ok _ _ _ _ H1)]. rewrite modify_run in H.
  apply rt_bind_ok in H as (? & w5 & H1 & H). destruct (useWebGL r0) eqn:Hu; [apply rt_ret_ok in H1 as [_ ->]|destruct (throw_ok _ _ _ _ H1)].
  apply rt_bind_ok in H as (r' & w6 & Hs & H). rewrite gets_run in H. apply check_ok in H as ->.
  match type of Hs with check_sizes _ _ _ _ _ _ ?v = _ => set (w7 := v) in * end.
  assert (checks w7 = checks w ++ [(codes "Production terminal uses WebGL", live)]) as Hv by reflexivity. clearbody w7.
  pose proof (keeps_check_sizes G t' t' 0 sizes r0 w7) as (_ & _ & _ & Hpre). rewrite Hs in Hpre. cbn [snd] in Hpre.
  apply check_sizes_count in Hs as [Hl _]. rewrite Hv in *.
  split; [by rewrite <- Hu; apply resize_fields in Hr as (_ & _ & -> & _)|]. split; [done|].
  cbn [checks add_check]. split.
  - rewrite length_app, Hl, length_app. cbn [length sizes]. lia.
  - intros [Hall _]%Forall_app. destruct Hpre as [rest Hrest]. rewrite Hrest, !Forall_app in Hall. destruct Hall as [[_ Hall] _]. by inversion Hall.
Qed.

Lemma restore_run d w :
  let w' := restore d w in
  win w' = mkWindow (device (win w)) d ∧ patched w' = false ∧ screens w' = Nat.pred (screens w) ∧ checks w' = checks w.
Proof. unfold restore. cbn [test_renderer set_win set_patched]. destruct (test_renderer w) as [r|]; [destruct (useWebGL r)|]; by repeat split. Qed.

Lemma render_test_spec G live w0 :
  patched w0 = false →
  let '(report, w) := WasteTerminalRenderTest G live w0 in
  win w = win w0 ∧ patched w = false ∧ screens w = screens w0 ∧ restoredDevicePixelRatio report = true ∧ rt_checks report ≠ [] ∧
  (rt_ok report = true →
   live = true ∧ g_class G = true ∧ g_webgl G = true ∧ length (rt_checks report) = 35%nat ∧ Forall (λ c, c.2 = true) (rt_checks report)).
Proof.
  intros Hp. unfold WasteTerminalRenderTest.
  set (w1 := set_screens (S (screens w0)) _). pose proof (keeps_test_body G live w1) as Hk. pose proof (test_body_ok G live w1) as Hok.
  destruct (test_body G live w1) as [r w2]. cbn [snd] in Hk. destruct Hk as (Hdev & Hscr & _ & _).
  set (w3 := match r with Ok _ => w2 | Err e => add_check (e, false) w2 end).
  destruct (restore_run (own_ratio (win w0)) w3) as (Hwin & Hpat & Hsc & Hch).
  set (w4 := restore _ w3) in *. clearbody w4.
  assert (device (win w3) = device (win w0) ∧ screens w3 = S (screens w0) ∧ checks w3 ≠ []) as (Hd3 & Hs3 & Hc3).
  { unfold w3. destruct r as [[]|e]; cbn [add_check win screens checks]; split; [done| |done|]; (split; [done|]).
    - destruct (Hok w2 eq_refl) as (_ & _ & Hl & _). by destruct (checks w2).
    - by destruct (checks w2). }
  rewrite Hwin, Hd3, Hpat, Hsc, Hs3, Hch. cbn [rt_checks rt_ok restoredDevicePixelRatio Nat.pred].
  assert (mkWindow (device (win w0)) (own_ratio (win w0)) = win w0) as -> by (by destruct (win w0)).
  rewrite bool_decide_eq_true_2 by done. rewrite bool_decide_eq_false_2 by done. do 4 (split; [done|]). split; [done|].
  rewrite andb_true_r. cbn [negb andb]. intros Hall.
  assert (Forall (λ c : list Z * bool, c.2 = true) (checks w3)) as HF by (apply Forall_forall; intros c Hc; apply (proj1 (forallb_forall _ _) Hall); by apply list_elem_of_In).
  unfold w3 in HF. destruct r as [[]|e].
  - destruct (Hok w2 eq_refl) as (H1 & H2 & H3 & H4). split; [by apply H4|]. done.
  - exfalso. cbn [add_check checks] in HF. apply Forall_app in HF as [_ HF]. by inversion HF.
Qed.

(** C26: The render diagnostic leaves the page as it found it, whatever the graphics API answers and wherever it throws:
    the pixel ratio is restored with its descriptor, createTexture is not patched and the document has the same
    elements; the report always has a check. It is ok only when nothing was thrown, the page's renderer
    and the diagnostic's own use WebGL, and all 35 checks, eleven for each of the three sizes, passed: a fallback
    or an early end is not a pass. *)
Theorem render_test_restores G live w0 :
  patched w0 = false →
  let '(report, w) := WasteTerminalRenderTest G live w0 in
  win w = win w0 ∧ patched w = false ∧ screens w = screens w0 ∧ restoredDevicePixelRatio report = true ∧ rt_checks report ≠ [] ∧
  (rt_ok report = true →
   live = true ∧ g_class G = true ∧ g_webgl G = true ∧ length (rt_checks report) = 35%nat ∧ Forall (λ c, c.2 = true) (rt_checks report)).
Proof. apply render_test_spec. Qed.

(** A page whose browser has no WebGL 2. *)
Definition no_graphics : graphics := mkGraphics false false (λ _, true) (λ _ _, 0) (λ _, []).
Definition plain_page : world := mkWorld (mkWindow (NInt 1) (Some Accessor)) false 0 0 [] None false.

Lemma render_test_restores_witness : screens (WasteTerminalRenderTest no_graphics true plain_page).2 = 0%nat.
Proof.
  pose proof (render_test_restores no_graphics true plain_page eq_refl) as H.
  destruct (WasteTerminalRenderTest no_graphics true plain_page) as [report w]. destruct H as (_ & _ & H & _). exact H.
Defined.

(** ** A display that shows the frame *)

Definition rgb_list (c : Z * Z * Z) : list Z := [c.1.1; c.1.2; c.2].

(** The colour shown at a column and a row of the canvas, from the top left. *)
Abbreviation image := (Z → Z → Z * Z * Z) (only parsing).

(** The buffer that [gl.readPixels] fills: four bytes for each pixel, the bottom row first. *)
Definition readPixels (img : image) (cw ch : Z) : Z → Z := λ k,
  let p := k / 4 in
  nth (Z.to_nat (k mod 4)) (rgb_list (img (p mod (cw * COLS)) (ch * ROWS - 1 - p / (cw * COLS)))) 0.

Definition image_shot (img : image) (cw ch : Z) : shot := mkShot (readPixels img cw ch) (cw * COLS) (ch * ROWS) cw ch.

(** Blank cells have the colour of their paper; any other cell has some pixel of the ink. *)
Definition drawn (t : term) (img : image) (cw ch : Z) : Prop := ∀ x y, 0 ≤ x < COLS → 0 ≤ y < ROWS →
  let i := y * COLS + x in let c := cell_of t i in
  if code c =? 32 then ∀ dx dy, 0 ≤ dx < cw → 0 ≤ dy < ch → img (x * cw + dx) (y * ch + dy) = color (paper t i c)
  else ∃ dx dy, 0 ≤ dx < cw ∧ 0 ≤ dy < ch ∧ img (x * cw + dx) (y * ch + dy) = color (ink t i c).

(** Some pixel is lit in one of two cells of the first row and not in the other. *)
Definition lit_at (img : image) (cw : Z) (x dx dy : Z) : bool := lit (rgb_list (img (x * cw + dx) dy)).
Definition unlike (img : image) (cw ch x x' : Z) : Prop :=
  ∃ dx dy, 0 ≤ dx < cw ∧ 0 ≤ dy < ch ∧ lit_at img cw x dx dy ≠ lit_at img cw x' dx dy.

(** The bytes that the checks read of a pixel lie inside the buffer, and are its colour. *)
Lemma image_pixel img cw ch x y dx dy :
  0 < cw → 0 < ch → 0 ≤ x < COLS → 0 ≤ y < ROWS → 0 ≤ dx < cw → 0 ≤ dy < ch →
  subarray3 (image_shot img cw ch) (pixel_offset (image_shot img cw ch) x y dx dy) = rgb_list (img (x * cw + dx) (y * ch + dy)).
Proof.
  unfold COLS, ROWS. intros Hcw Hch Hx Hy Hdx Hdy. unfold subarray3, pixel_offset, px_length, image_shot, COLS, ROWS. cbn [px px_width px_height px_cw px_ch].
  set (col := x * cw + dx). set (row := y * ch + dy).
  assert (0 ≤ col < cw * 80) as Hcol by (unfold col; nia). assert (0 ≤ row < ch * 24) as Hrow by (unfold row; nia).
  replace ((ch * 24 - 1 - y * ch - dy) * (cw * 80) + x * cw + dx) with ((ch * 24 - 1 - row) * (cw * 80) + col) by (unfold col, row; ring).
  set (p := (ch * 24 - 1 - row) * (cw * 80) + col).
  assert (0 ≤ p < (ch * 24) * (cw * 80)) as Hp by (unfold p; nia).
  assert (p / (cw * 80) = ch * 24 - 1 - row) as Hdiv by (symmetry; apply Z.div_unique with col; unfold p; lia).
  assert (p mod (cw * 80) = col) as Hmod by (symmetry; apply Z.mod_unique with (ch * 24 - 1 - row); unfold p; lia).
  assert (∀ j, 0 ≤ j < 4 → readPixels img cw ch (p * 4 + j) = nth (Z.to_nat j) (rgb_list (img col row)) 0) as Hb.
  { intros j Hj. unfold readPixels, COLS, ROWS. cbv zeta.
    replace ((p * 4 + j) / 4) with p by (apply Z.div_unique with j; lia). replace ((p * 4 + j) mod 4) with j by (apply Z.mod_unique with p; lia).
    rewrite Hdiv, Hmod. by replace (ch * 24 - 1 - (ch * 24 - 1 - row)) with row by lia. }
  assert (seqZ (p * 4) 3 = [p * 4 + 0; p * 4 + 1; p * 4 + 2]) as ->.
  { unfold seqZ. change (Z.to_nat 3) with 3%nat. cbn [seq fmap list_fmap]. f_equal; [lia|]. f_equal; [lia|]. f_equal. lia. }
  rewrite !filter_cons, !decide_True by lia. cbn [fmap list_fmap]. by rewrite !Hb by lia.
Qed.

(** The pixels of a cell are its pixels on the canvas. *)
Lemma in_cell_pixels img cw ch x y v :
  0 < cw → 0 < ch → 0 ≤ x < COLS → 0 ≤ y < ROWS →
  v ∈ cell_pixels (image_shot img cw ch) x y ↔ ∃ dx dy, 0 ≤ dx < cw ∧ 0 ≤ dy < ch ∧ v = rgb_list (img (x * cw + dx) (y * ch + dy)).
Proof.
  intros Hcw Hch Hx Hy. unfold cell_pixels. cbn [px_ch px_cw image_shot]. rewrite list_elem_of_bind. setoid_rewrite list_elem_of_bind. split.
  - intros (dy & (dx & Hv & Hdx%elem_of_seqZ) & Hdy%elem_of_seqZ). apply list_elem_of_singleton in Hv as ->.
    exists dx, dy. split; [lia|]. split; [lia|]. apply image_pixel; lia.
  - intros (dx & dy & Hdx & Hdy & ->). exists dy. split; [|apply elem_of_seqZ; lia]. exists dx. split; [|apply elem_of_seqZ; lia].
    apply list_elem_of_singleton. symmetry. apply image_pixel; lia.
Qed.

Lemma grid_eq {A} (f g : Z → Z → A) (l l' : list Z) :
  (dy ← l; dx ← l'; [f dy dx]) = (dy ← l; dx ← l'; [g dy dx]) → ∀ dy dx, dy ∈ l → dx ∈ l' → f dy dx = g dy dx.
Proof.
  assert (∀ (h : Z → A), (dx ← l'; [h dx]) = h <$> l') as Hrow by (intros h; induction l' as [|a l' IH']; [done|]; rewrite bind_cons, IH'; done).
  induction l as [|a l IH]; intros H dy dx Hdy Hdx; [by apply elem_of_nil in Hdy|].
  rewrite !bind_cons, !Hrow in H. apply app_inj_1 in H as [H1 H2]; [|by rewrite !length_fmap].
  apply elem_of_cons in Hdy as [->|Hdy]; [|by apply IH].
  apply list_elem_of_lookup in Hdx as [i Hi]. apply (f_equal (λ m, m !! i)) in H1. rewrite !list_lookup_fmap, Hi in H1. by injection H1.
Qed.

Lemma fmap_of_bind {A B C} (f : B → C) (g : A → list B) l : f <$> (l ≫= g) = x ← l; f <$> g x.
Proof. induction l as [|a l IH]; [done|]. by rewrite !bind_cons, fmap_app, IH. Qed.

Lemma unlike_masks img cw ch x x' :
  0 < cw → 0 < ch → 0 ≤ x < COLS → 0 ≤ x' < COLS → unlike img cw ch x x' → mask (image_shot img cw ch) x 0 ≠ mask (image_shot img cw ch) x' 0.
Proof.
  intros Hcw Hch Hx Hx' (dx & dy & Hdx & Hdy & Hd) H. apply Hd.
  assert (∀ z, mask (image_shot img cw ch) z 0 = (dy ← seqZ 0 ch; dx ← seqZ 0 cw; [lit (subarray3 (image_shot img cw ch) (pixel_offset (image_shot img cw ch) z 0 dx dy))])) as Hm.
  { intros z. unfold mask, cell_pixels. cbn [px_ch px_cw image_shot]. rewrite fmap_of_bind. apply list_bind_ext; [|done]. intros dy'. by rewrite fmap_of_bind. }
  rewrite !Hm in H. apply (grid_eq _ _ _ _) with (dy := dy) (dx := dx) in H; [|apply elem_of_seqZ; lia..].
  rewrite !image_pixel in H by (unfold ROWS; lia). exact H.
Qed.

(** The cells of the scene are what the checks look for. *)
Definition blank_with (p : list Z → bool) (t : term) (x y : Z) : bool :=
  let c := cell_of t (y * COLS + x) in (code c =? 32) && p (rgb_list (color (paper t (y * COLS + x) c))).
Definition glyph_with (p : list Z → bool) (t : term) (x y : Z) : bool :=
  let c := cell_of t (y * COLS + x) in negb (code c =? 32) && p (rgb_list (color (ink t (y * COLS + x) c))).

Definition scene_check (t : term) : bool :=
  (columns t =? COLS) && (rows t =? ROWS) &&
  forallb (λ x, blank_with (λ v, negb (lit v)) t x 10) [0; 20; 79] &&
  forallb (λ x, glyph_with lit t x 0) glyph_columns &&
  forallb (λ i, glyph_with lit t (if i <? 64 then i else i - 64) (if i <? 64 then 1 else 2)) (seqZ 0 94) &&
  glyph_with (channels3 (λ r g b, (128 <? g) && (r <? 8) && (b <? 8))) t 0 4 &&
  blank_with (channels3 (λ r g b, (247 <? r) && (g <? 8) && (b <? 8))) t 0 5 &&
  blank_with (channels3 (λ r g b, (247 <? b) && (r <? 8) && (g <? 8))) t 1 5 &&
  blank_with (forallb (λ v, 247 <? v)) t 0 6.

Lemma scene_ok : match scene with Ok t => scene_check t = true | Err _ => False end.
Proof. by vm_compute. Qed.

Section shown.
Context (t : term) (img : image) (cw ch : Z) (Hcw : 0 < cw) (Hch : 0 < ch) (Hdrawn : drawn t img cw ch).

Lemma shown_blank p x y :
  0 ≤ x < COLS → 0 ≤ y < ROWS → blank_with p t x y = true → forallb p (cell_pixels (image_shot img cw ch) x y) = true.
Proof.
  intros Hx Hy Hb. specialize (Hdrawn x y Hx Hy). unfold blank_with in Hb. cbv zeta in *. apply andb_true_iff in Hb as [Hc Hp]. rewrite Hc in Hdrawn.
  apply forallb_forall. intros v Hv. apply list_elem_of_In, in_cell_pixels in Hv as (dx & dy & Hdx & Hdy & ->); [|lia..]. by rewrite Hdrawn.
Qed.

Lemma shown_glyph p x y :
  0 ≤ x < COLS → 0 ≤ y < ROWS → glyph_with p t x y = true → existsb p (cell_pixels (image_shot img cw ch) x y) = true.
Proof.
  intros Hx Hy Hb. specialize (Hdrawn x y Hx Hy). unfold glyph_with in Hb. cbv zeta in *. apply andb_true_iff in Hb as [Hc Hp].
  apply negb_true_iff in Hc. rewrite Hc in Hdrawn. destruct Hdrawn as (dx & dy & Hdx & Hdy & Himg). apply existsb_exists. eexists. split; [|exact Hp].
  apply list_elem_of_In, in_cell_pixels; [lia..|]. exists dx, dy. by rewrite Himg.
Qed.
End shown.

Lemma forallb_weaken {A} (f g : A → bool) l : (∀ a, a ∈ l → f a = true → g a = true) → forallb f l = true → forallb g l = true.
Proof. intros H Hf. apply forallb_forall. intros a Ha. apply H; [by apply list_elem_of_In|]. by apply (proj1 (forallb_forall _ _) Hf). Qed.

(** The six checks on colours. *)
Lemma shown_checks t img cw ch :
  0 < cw → 0 < ch → scene_check t = true → drawn t img cw ch → let s := image_shot img cw ch in
  blank_check s = true ∧ glyphs_check s = true ∧ ascii_check s = true ∧ green_check s = true ∧ paper_check s = true ∧ cursor_check s = true.
Proof.
  intros Hcw Hch H Hs s. unfold scene_check in H. repeat (apply andb_true_iff in H as [H ?]). unfold COLS, ROWS in *. repeat split.
  - eapply forallb_weaken; [|eassumption]. intros x Hx. apply (shown_blank t); [done..| |unfold ROWS; lia].
    assert (Forall (λ x, 0 ≤ x < COLS) [0; 20; 79]) as Hg by (unfold COLS; repeat constructor; lia).
    by apply (proj1 (Forall_forall _ _) Hg).
  - eapply forallb_weaken; [|eassumption]. intros x Hx. apply (shown_glyph t); [done..| |unfold ROWS; lia].
    assert (Forall (λ x, 0 ≤ x < COLS) glyph_columns) as Hg by (unfold glyph_columns, COLS; repeat constructor; lia).
    by apply (proj1 (Forall_forall _ _) Hg).
  - eapply forallb_weaken; [|eassumption]. intros i Hi%elem_of_seqZ. apply (shown_glyph t); [done..|unfold COLS; case_match; lia|unfold ROWS; case_match; lia].
  - apply (shown_glyph t); done.
  - unfold paper_check. apply andb_true_iff. split; apply (shown_blank t); done.
  - apply (shown_blank t); done.
Qed.

(** ** Resizing to the three sizes *)

(** Cell sizes of the three sizes, in device pixels. *)
Definition geometry : list (Z * Z) := [(8, 19); (10, 24); (16, 38)].

Lemma size_cells k size : sizes !! k = Some size →
  ∃ cw ch l, geometry !! k = Some (cw, ch) ∧ cell_size (NInt size.2) (page_box size.1 600) COLS ROWS = Ok (cw, ch) ∧
    glyph_layout cw ch (NInt size.2) = Ok l ∧ cw * COLS = size.1 * size.2.
Proof.
  destruct k as [|[|[|k]]]; intros [= <-].
  - eexists 8, 19, _. split; [done|]. split; [by vm_compute|]. split; [by vm_compute|done].
  - eexists 10, 24, _. split; [done|]. split; [by vm_compute|]. split; [by vm_compute|done].
  - eexists 16, 38, _. split; [done|]. split; [by vm_compute|]. split; [by vm_compute|done].
Qed.

Lemma resize_succeeds ratio b t r cw ch l :
  columns t = COLS → rows t = ROWS → coherent glf (glyphRanges r) → useWebGL r = true →
  cell_size ratio b COLS ROWS = Ok (cw, ch) → glyph_layout cw ch ratio = Ok l →
  ∃ r', resize_canvas glf ratio b t r = Ok r' ∧ coherent glf (glyphRanges r') ∧ useWebGL r' = true ∧
    r_cellWidth r' = cw ∧ r_cellHeight r' = ch ∧ r_ratio r' = ratio ∧ canvas_width r' = cw * COLS ∧ canvas_height r' = ch * ROWS.
Proof.
  intros Hc Hr Hco Hu Hcs Hl. unfold resize_canvas. rewrite Hc, Hr, Hcs. cbn [rbind]. unfold render, draw_frame.
  cbn [dirty useWebGL r_cellWidth r_cellHeight r_ratio glyphRanges]. rewrite Hu, Hl. cbn [rbind].
  destruct (renderWebGL_spec glf l t _ Hco) as (cache & -> & Hcache). cbn [rbind].
  eexists. split; [reflexivity|]. cbn [emit set_dirty glyphRanges useWebGL r_cellWidth r_cellHeight r_ratio canvas_width canvas_height]. done.
Qed.

(** At every size the pixels are those of an image that shows the scene, in which the look-alike characters differ. *)
Definition good_display (G : graphics) (t : term) : Prop := ∀ k cw ch, geometry !! k = Some (cw, ch) →
  ∃ img, g_pixels G k = readPixels img cw ch ∧ drawn t img cw ch ∧
    (∀ x x', 0 ≤ x < 4 → 0 ≤ x' < 4 → x ≠ x' → unlike img cw ch x x') ∧ unlike img cw ch 5 6.

Lemma geometry_big k cw ch : geometry !! k = Some (cw, ch) → 8 ≤ cw ∧ 0 < ch.
Proof. destruct k as [|[|[|k]]]; [by intros [= <- <-]..|done]. Qed.

Lemma unlike_checks img cw ch :
  0 < cw → 0 < ch → (∀ x x', 0 ≤ x < 4 → 0 ≤ x' < 4 → x ≠ x' → unlike img cw ch x x') → unlike img cw ch 5 6 →
  shapes_check (image_shot img cw ch) = true ∧ zero_check (image_shot img cw ch) = true.
Proof.
  intros Hcw Hch H1 H2.
  assert (∀ x x', 0 ≤ x < 4 → 0 ≤ x' < 4 → x ≠ x' → mask (image_shot img cw ch) x 0 ≠ mask (image_shot img cw ch) x' 0) as H
    by (intros x x' Hx Hx' Hne; apply unlike_masks; try (unfold COLS; lia); by apply H1).
  split; [|unfold zero_check; apply negb_true_iff, bool_decide_eq_false_2; apply unlike_masks; try (unfold COLS; lia); done].
  unfold shapes_check. apply bool_decide_eq_true_2. cbn [fmap list_fmap].
  repeat constructor; rewrite ?elem_of_cons, ?elem_of_nil; intros Hin; repeat (destruct Hin as [Hin|Hin]; [by apply H in Hin; lia|]); done.
Qed.

Definition all_pass (w : world) : Prop := Forall (λ b, b = true) (snd <$> checks w).

Lemma sizes_pass G t r w :
  scene_check t = true → good_display G t → (∀ k, g_no_error G k = true) → coherent glf (glyphRanges r) → useWebGL r = true → all_pass w →
  ∃ r' w', check_sizes G t t 0 sizes r w = (Ok r', w') ∧ all_pass w' ∧ textures w' = textures w.
Proof.
  intros Hok Hgood Herr. assert (columns t = COLS ∧ rows t = ROWS) as [Hc Hr].
  { unfold scene_check in Hok. repeat (apply andb_true_iff in Hok as [Hok ?]). split; by apply Z.eqb_eq. }
  assert (∀ l k, (∀ i, l !! i = sizes !! (k + i)%nat) → ∀ r w, coherent glf (glyphRanges r) → useWebGL r = true → all_pass w →
    ∃ r' w', check_sizes G t t k l r w = (Ok r', w') ∧ all_pass w' ∧ textures w' = textures w) as H; [|by apply H].
  induction l as [|[width ratio] l IH]; intros k Hl r0 w0 Hco Hu Hall; [by exists r0, w0|].
  pose proof (Hl 0%nat) as Hk. rewrite Nat.add_0_r in Hk. simpl in Hk. symmetry in Hk. destruct (size_cells k _ Hk) as (cw & ch & lay & Hg & Hcs & Hlay & Hw).
  destruct (resize_succeeds (NInt ratio) (page_box width 600) t r0 cw ch lay Hc Hr Hco Hu Hcs Hlay) as (r1 & Hres & Hco1 & Hu1 & Hcw & Hch & Hra & Hcanw & Hcanh).
  pose proof (check_size_run G t t k width ratio r0 w0) as Hrun. rewrite Hres in Hrun. destruct Hrun as (w1 & Hrun & Hchecks & Htex).
  destruct (IH (S k)) with (r := r1) (w := w1) as (r' & w' & H1 & H2 & H3); try done.
  { intros i. specialize (Hl (S i)). simpl in Hl. by rewrite Nat.add_succ_r in Hl. }
  - unfold all_pass. rewrite Hchecks. apply Forall_app. split; [done|].
    destruct (geometry_big k cw ch Hg) as [Hcw8 Hch0]. destruct (Hgood k cw ch Hg) as (img & Hpx & Hshow & Hshape & Hzero).
    assert (size_shot G k r1 = image_shot img cw ch) as Hshot by (unfold size_shot, image_shot; by rewrite Hcw, Hch, Hcanw, Hcanh, Hpx).
    destruct (unlike_checks img cw ch) as [Hs1 Hs2]; [lia|lia|done..|].
    unfold size_checks. cbv zeta. rewrite Hshot. destruct (shown_checks t img cw ch ltac:(lia) ltac:(lia) Hok Hshow) as (-> & -> & -> & -> & -> & ->).
    rewrite Hs1, Hs2, Herr, Hc, Hr, Hcanw, Hcanh, Hcw, Hch, Hra, !Z.eqb_refl, !bool_decide_eq_true_2 by done.
    cbn [andb]. replace (cw * COLS =? width * ratio) with true by (symmetry; by apply Z.eqb_eq). repeat constructor.
  - exists r', w'. split; [|split; [done|congruence]]. cbn [check_sizes]. unfold mbind, M_bind. by rewrite Hrun.
Qed.

Lemma coherent_empty f : coherent f ∅.
Proof. done. Qed.

Lemma add_pass n b w : b = true → all_pass w → all_pass (add_check (n, b) w).
Proof. intros ->. unfold all_pass. cbn [checks add_check]. rewrite fmap_app, Forall_app. intros H. split; [done|by constructor]. Qed.

Lemma ret_run {A B} (a : A) (f : A → M B) w : (mret a ≫= f) w = f a w.
Proof. reflexivity. Qed.

(** The body, once the scene is drawn. *)
Lemma body_pass G t w ratio cw ch l :
  scene = Ok t → g_class G = true → g_webgl G = true → scene_check t = true → good_display G t → (∀ k, g_no_error G k = true) →
  devicePixelRatio (win w) = ratio → cell_size ratio (page_box 640 600) COLS ROWS = Ok (cw, ch) → glyph_layout cw ch ratio = Ok l →
  all_pass w → textures w = 0%nat →
  ∃ w', test_body G true w = (Ok tt, w') ∧ all_pass w'.
Proof.
  intros Hscene Hclass Hgl Hok Hgood Herr Hratio Hcell Hlay Hall Htex. unfold test_body. rewrite Hscene, Hclass, Hgl. clear Hscene.
  assert (columns t = COLS ∧ rows t = ROWS) as [Hc Hr].
  { unfold scene_check in Hok. repeat (apply andb_true_iff in Hok as [Hok ?]). split; by apply Z.eqb_eq. }
  rewrite check_run. cbv beta iota. rewrite ret_run, modify_run. cbv beta. cbn [lift_model]. rewrite ret_run, gets_run.
  replace (devicePixelRatio (win _)) with ratio.
  destruct (resize_succeeds ratio (page_box 640 600) t (mkRenderer 8 19 (NInt 1) true false ∅ 0 0 (NInt 0) (NInt 0) true []) cw ch l)
    as (r & Hnew & Hco & Hu & _); [exact Hc|exact Hr|apply coherent_empty|reflexivity|exact Hcell|exact Hlay|].
  unfold new_renderer. rewrite Hnew. cbn [lift_render]. rewrite ret_run, modify_run, Hu. cbv beta iota. rewrite ret_run.
  set (w1 := set_test_renderer _ _).
  destruct (sizes_pass G t r w1 Hok Hgood Herr Hco Hu) as (r' & w' & Hs & Hp & Ht); [apply add_pass; [reflexivity|exact Hall]|].
  unfold mbind at 1, M_bind at 1. rewrite Hs, gets_run.
  eexists. split; [reflexivity|]. apply add_pass; [|exact Hp]. apply Nat.eqb_eq. unfold id. rewrite Ht. exact Htex.
Qed.

(** C25: A correct display passes the diagnostic. If the canvas gets a WebGL context without errors, and at each size readPixels
    returns, bottom row first, an image that shows the model's cells (the paper everywhere on blank cells, the ink somewhere on
    the others) and in which the look-alike characters differ, then the report is ok: the escape
    sequences of the test draw the scene its checks look for, the bytes the checks read are the pixels of the cells they
    name, never outside the buffer, and the renderer sizes the canvas as they expect. *)
Theorem correct_display_passes G w0 t ratio cw ch l :
  scene = Ok t → g_class G = true → g_webgl G = true → (∀ k, g_no_error G k = true) → good_display G t →
  devicePixelRatio (win w0) = ratio → cell_size ratio (page_box 640 600) COLS ROWS = Ok (cw, ch) → glyph_layout cw ch ratio = Ok l →
  rt_ok (WasteTerminalRenderTest G true w0).1 = true.
Proof.
  intros Hscene Hclass Hgl Herr Hgood Hratio Hcell Hlay. unfold WasteTerminalRenderTest.
  set (w1 := set_screens (S (screens w0)) _). pose proof scene_ok as Hok. rewrite Hscene in Hok.
  destruct (body_pass G t w1 ratio cw ch l Hscene Hclass Hgl Hok Hgood Herr Hratio Hcell Hlay) as (w2 & Hb & Hp);
    [constructor|reflexivity|]. clear Hscene.
  pose proof (keeps_test_body G true w1) as (Hdev & _). pose proof (test_body_ok G true w1 w2 Hb) as (_ & _ & Hlen & _). rewrite Hb in *. cbn [snd] in Hdev.
  destruct (restore_run (own_ratio (win w0)) w2) as (Hwin & _ & _ & Hch). set (w4 := restore _ w2) in *. clearbody w4.
  cbn [fst rt_ok]. rewrite Hwin, Hch, Hdev. rewrite bool_decide_eq_false_2 by (by intros H0; rewrite H0 in Hlen).
  assert (mkWindow (device (win w1)) (own_ratio (win w0)) = win w0) as -> by (by destruct (win w0)).
  rewrite bool_decide_eq_true_2 by reflexivity. cbn [negb andb]. rewrite andb_true_r. apply forallb_forall. intros c Hc%list_elem_of_In.
  unfold all_pass in Hp. rewrite Forall_fmap in Hp. exact (proj1 (Forall_forall _ _) Hp c Hc).
Qed.

(** *** A display that paints characters by the bits of their codes *)

Definition painted (t : term) (cw ch : Z) : image := λ col row,
  let i := row / ch * COLS + col / cw in let c := cell_of t i in
  if (code c =? 32) || negb ((row mod ch =? 0) && Z.testbit (code c) (col mod cw)) then color (paper t i c) else color (ink t i c).

Lemma painted_drawn t cw ch :
  8 ≤ cw → 0 < ch → (∀ i, 0 ≤ i < COLS * ROWS → 32 ≤ code (cell_of t i) < 128) → drawn t (painted t cw ch) cw ch.
Proof.
  intros Hcw Hch Hcode x y Hx Hy. cbv zeta. set (i := y * COLS + x).
  assert (∀ dx dy, 0 ≤ dx < cw → 0 ≤ dy < ch → painted t cw ch (x * cw + dx) (y * ch + dy) =
    if (code (cell_of t i) =? 32) || negb ((dy =? 0) && Z.testbit (code (cell_of t i)) dx) then color (paper t i (cell_of t i)) else color (ink t i (cell_of t i))) as Hpix.
  { intros dx dy Hdx Hdy. unfold painted.
    replace ((y * ch + dy) / ch) with y by (apply Z.div_unique with dy; lia). replace ((y * ch + dy) mod ch) with dy by (apply Z.mod_unique with y; lia).
    replace ((x * cw + dx) / cw) with x by (apply Z.div_unique with dx; lia). by replace ((x * cw + dx) mod cw) with dx by (apply Z.mod_unique with x; lia). }
  destruct (code (cell_of t i) =? 32) eqn:Hc; [intros dx dy Hdx Hdy; by rewrite Hpix|].
  apply Z.eqb_neq in Hc. specialize (Hcode i ltac:(unfold i, COLS, ROWS in *; lia)).
  assert (∃ b, 0 ≤ b < cw ∧ Z.testbit (code (cell_of t i)) b = true) as (b & Hb & Hbit).
  { exists (Z.log2 (code (cell_of t i))). split; [|apply Z.bit_log2; lia]. split; [apply Z.log2_nonneg|].
    assert (Z.log2 (code (cell_of t i)) < 7); [|lia]. apply Z.log2_lt_pow2; lia. }
  exists b, 0. split; [done|]. split; [lia|]. by rewrite Hpix, Hbit by lia.
Qed.

(** The codes of the scene, and a pixel that tells two cells of its first row apart. *)
Definition apart (t : term) (cw ch x x' : Z) : bool :=
  existsb (λ dx, xorb (lit_at (painted t cw ch) cw x dx 0) (lit_at (painted t cw ch) cw x' dx 0)) (seqZ 0 8).

Definition scene_painted (t : term) : bool :=
  forallb (λ i, let c := code (cell_of t i) in (32 <=? c) && (c <? 128)) (seqZ 0 (COLS * ROWS)) &&
  forallb (λ g, apart t g.1 g.2 5 6 && forallb (λ x, forallb (λ x', (x =? x') || apart t g.1 g.2 x x') (seqZ 0 4)) (seqZ 0 4)) geometry.

Lemma scene_painted_ok : match scene with Ok t => scene_painted t = true | Err _ => False end.
Proof. by vm_compute. Qed.

Lemma apart_unlike t cw ch x x' : 8 ≤ cw → 0 < ch → apart t cw ch x x' = true → unlike (painted t cw ch) cw ch x x'.
Proof.
  intros Hcw Hch H. apply existsb_exists in H as (dx & Hdx & H). apply list_elem_of_In, elem_of_seqZ in Hdx.
  exists dx, 0. split; [lia|]. split; [lia|]. intros Heq. rewrite Heq, xorb_nilpotent in H. discriminate.
Qed.

Lemma forallb_seqZ f n i : forallb f (seqZ 0 n) = true → 0 ≤ i < n → f i = true.
Proof. intros H Hi. apply (proj1 (forallb_forall _ _) H), list_elem_of_In, elem_of_seqZ. lia. Qed.

Definition painting_graphics (t : term) : graphics :=
  mkGraphics true true (λ _, true) (λ k, match geometry !! k with Some (cw, ch) => readPixels (painted t cw ch) cw ch | None => λ _, 0 end) (λ _, []).

Lemma painting_good t : scene_painted t = true → good_display (painting_graphics t) t.
Proof.
  intros Hp. apply andb_true_iff in Hp as [Hcodes Hshapes]. intros k cw ch Hk. destruct (geometry_big k cw ch Hk) as [Hcw Hch].
  exists (painted t cw ch). split; [cbn [painting_graphics g_pixels]; by rewrite Hk|].
  pose proof (proj1 (forallb_forall _ _) Hshapes (cw, ch)) as H. specialize (H ltac:(apply list_elem_of_In; by eapply list_elem_of_lookup_2)).
  cbn [fst snd] in H. apply andb_true_iff in H as [H56 H]. split; [|split; [|by apply apart_unlike]].
  - apply painted_drawn; [done..|]. intros i Hi. pose proof (forallb_seqZ _ _ i Hcodes Hi) as Hc. cbv zeta in Hc.
    apply andb_true_iff in Hc as [H1%Z.leb_le H2%Z.ltb_lt]. by split.
  - intros x x' Hx Hx' Hne. apply apart_unlike; [done..|]. pose proof (forallb_seqZ _ _ x' (forallb_seqZ _ _ x H Hx) Hx') as Hc. cbv beta in Hc.
    apply orb_true_iff in Hc as [Hc%Z.eqb_eq|Hc]; [congruence|done].
Qed.

Lemma correct_display_passes_witness :
  match scene with Ok t => rt_ok (WasteTerminalRenderTest (painting_graphics t) true plain_page).1 = true | Err _ => False end.
Proof.
  pose proof scene_painted_ok as Hp. destruct scene as [t|] eqn:Hscene; [|exact Hp].
  destruct (size_cells 0 (640, 1) eq_refl) as (cw & ch & l & Hg & Hcell & Hlay & _).
  apply (correct_display_passes (painting_graphics t) plain_page t (NInt 1) cw ch l);
    [exact Hscene|reflexivity|reflexivity|reflexivity|exact (painting_good t Hp)|reflexivity|exact Hcell|exact Hlay].
Defined.
