(* ===== verification/PageHost.v ===== *)
(** * The page with its test controller and its render diagnostic (src/html-rt/src/app.js, test-suite.js, terminal/render-test.js)

    [Page] takes the answers of batches and the verdict of the render diagnostic as
    given.  Here they come from [SuiteShared] and [RenderTest]: the one controller of the
    page serves the guest's batch requests, with a [job] for each batch of [Page], and every render
    request runs the diagnostic in the page's own window, with what the graphics
    answer to that run. *)

From stdpp Require Import base numbers list strings gmap.
From Stdlib Require Import ZArith Lia.
From S2P Require Import Prelude JsNum TermModel Utf8 Evidence Renderer RenderTest Worker TestSuite TestControls SuiteShared Page.

#[local] Open Scope Z_scope.
#[local] Open Scope waste_scope.

(** The promise chain of a batch request: [installedBrowserSuite] not settled yet, the command pending, its answer there,
    done (with that answer, if the controller was there). *)
Inductive job : Type :=
| JLoading (request : list Z)
| JPending (request : list Z)
| JAnswered (request : list Z) (answer : result thrown (list Z))
| JSettled (request : list Z) (answer : option (result thrown (list Z))).

Definition request_of (j : job) : list Z := match j with JLoading r | JPending r | JAnswered r _ | JSettled r _ => r end.

Record desk : Type := mkDesk {
  dk_page : page; dk_suite : suite_state; dk_jobs : list job;
  dk_window : world; dk_tests : nat }.   (* how many render tests there were *)

Inductive desk_event : Type :=
| DPage (e : Page.event)
| DSuiteReady (i : nat)                              (* [installedBrowserSuite] resolves for batch [i] *)
| DSuiteFailed (i : nat) (error : list Z)            (* or rejects *)
| DSuite (e : suite_event)
| DSettle (i : nat).                                 (* the rest of the chain *)

Section desk.
Context (G : nat → graphics) (report_json : test_report → list Z) (results_json : list (bool * list Z * list Z) → list Z)
  (error_text : exn → list Z) (decode_error : list Z) (stringify : report → list Z).

(** The render test of the page's renderer, now. *)
Definition diagnose (d : desk) (r : renderer) : test_report * world :=
  WasteTerminalRenderTest (G (dk_tests d)) (useWebGL r) (dk_window d).

Definition page_step (e : Page.event) (d : desk) : option (result fault page) :=
  Page.step (λ r, let report := (diagnose d r).1 in (rt_ok report, report_json report)) results_json error_text e (dk_page d).

Definition set_page (p : page) (d : desk) : desk := mkDesk p (dk_suite d) (dk_jobs d) (dk_window d) (dk_tests d).
Definition set_suite (s : suite_state) (js : list job) (d : desk) : desk := mkDesk (dk_page d) s js (dk_window d) (dk_tests d).

(** The answer the controller gave last, if it gave one in the step from [s] to [s']. *)
Definition new_answer (s s' : suite_state) : option (result thrown (list Z)) :=
  if bool_decide (length (replies s') = length (replies s)) then None else snd <$> last (replies s').

(** The pending command's promise settles. *)
Definition answer_pending (a : option (result thrown (list Z))) (j : job) : job :=
  match a, j with Some answer, JPending r => JAnswered r answer | _, _ => j end.

Definition outcome_of (answer : result thrown (list Z)) : list Z + list Z :=
  match answer with Ok bytes => inl bytes | Err t => inr (message decode_error t) end.

(** What a page event adds to the jobs and does to the window. *)
Definition new_jobs (e : Page.event) : list job :=
  match e with EWorker _ (OSuiteRequest _ request) => [JLoading request] | _ => [] end.
Definition is_diagnosis (e : Page.event) : bool := match e with EWorker _ (ORenderRequest _) => true | _ => false end.

Definition on_page (e : Page.event) (d : desk) : option (result fault desk) :=
  r ← page_step e d;
  Some (let* p := r in
    let w := if is_diagnosis e then (diagnose d (rend (scr (dk_page d)))).2 else dk_window d in
    (* the page asks the controller to cancel *)
    let asked := negb (bool_decide (suiteCancels (hst p) = suiteCancels (hst (dk_page d)))) in
    let s := if asked then suite_cancel (dk_suite d) else dk_suite d in
    Ok (mkDesk p s (dk_jobs d ++ new_jobs e) w (dk_tests d + if is_diagnosis e then 1 else 0)%nat)).

Definition desk_step (e : desk_event) (d : desk) : option (result fault desk) :=
  match e with
  | DPage (EBatch _ _) => None
  | DPage e => on_page e d
  | DSuiteReady i =>
    match dk_jobs d !! i with
    | Some (JLoading request) =>
      let s := suite_step decode_error stringify (GuestCommand request) (dk_suite d) in
      let j := match new_answer (dk_suite d) s with Some a => JAnswered request a | None => JPending request end in
      Some (Ok (set_suite s (<[i := j]> (dk_jobs d)) d))
    | _ => None
    end
  | DSuiteFailed i error =>
    match dk_jobs d !! i with
    | Some (JLoading request) =>
      r ← page_step (EBatch i (inr error)) d;
      Some (let* p := r in Ok (mkDesk p (dk_suite d) (<[i := JSettled request None]> (dk_jobs d)) (dk_window d) (dk_tests d)))
    | _ => None
    end
  | DSuite (GuestCommand _) | DSuite GuestCancel => None
  | DSuite e =>
    let s := suite_step decode_error stringify e (dk_suite d) in
    Some (Ok (set_suite s (answer_pending (new_answer (dk_suite d) s) <$> dk_jobs d) d))
  | DSettle i =>
    match dk_jobs d !! i with
    | Some (JAnswered request a) =>
      r ← page_step (EBatch i (outcome_of a)) d;
      Some (let* p := r in Ok (mkDesk p (dk_suite d) (<[i := JSettled request (Some a)]> (dk_jobs d)) (dk_window d) (dk_tests d)))
    | _ => None
    end
  end.

Definition new_desk (r : renderer) (w : world) : desk := mkDesk (initial_page r) new_suite_state [] w 0.

(** The states the page and its helpers can reach. *)
Inductive desk_reachable (r : renderer) (w : world) : desk → Prop :=
| desk_start : desk_reachable r w (new_desk r w)
| desk_next d e d' : desk_reachable r w d → desk_step e d = Some (Ok d') → desk_reachable r w d'.
End desk.
