(* ===== verification/PageHostTheorems.v ===== *)
(** * Theorems on the page with its controller and diagnostic

    Every answer the guest gets to a batch is that of its own request, and a good
    verdict of the render test was earned in a window that is left as it was. *)

From stdpp Require Import base numbers list strings gmap.
From Stdlib Require Import ZArith Lia.
From S2P Require Import Prelude JsNum TermModel Utf8 Evidence Renderer RenderTest RenderTestTheorems Worker TestSuite TestControls SuiteShared SuiteSharedTheorems Page PageTheorems ShellRequests PageHost.

#[local] Open Scope Z_scope.
#[local] Open Scope waste_scope.

(** ** Posts that are no answers of the two kinds *)

Definition quiet (m : posted) : Prop :=
  match m with PMsg (MSuiteResponse _ _) | PMsg (MRenderResponse _ _) => False | _ => True end.

Definition grows (p p' : page) : Prop := ∃ l, posts (wk p') = posts (wk p) ++ l ∧ Forall (λ x, quiet x.2) l.

#[export] Instance grows_preorder : PreOrder grows.
Proof.
  split; [intros p; exists []; by rewrite app_nil_r|]. intros p q t (l1 & H1 & F1) (l2 & H2 & F2).
  exists (l1 ++ l2). by rewrite H2, H1, app_assoc, Forall_app.
Qed.

Lemma grows_same p p' : posts (wk p') = posts (wk p) → grows p p'.
Proof. intros H. exists []. by rewrite app_nil_r. Qed.
Lemma grows_post v m p : quiet m → grows p (post_to v m p).
Proof. intros H. exists [(v, m)]. split; [done|by apply Forall_singleton]. Qed.
Lemma grows_current m p : quiet m → grows p (post_current m p).
Proof. unfold post_current. destruct (Page.current (wk p)); [apply grows_post|done]. Qed.
Lemma grows_requester q m p : quiet m → grows p (post_requester q m p).
Proof. unfold post_requester. case_bool_decide; [|done]. destruct q; [apply grows_post|done]. Qed.
Lemma grows_terminate p : grows p (terminate p).
Proof. unfold terminate. destruct (Page.current (wk p)); by apply grows_same. Qed.
Lemma grows_reply i ok p : grows p (reply_clip i ok p).
Proof.
  unfold reply_clip. destruct (clips (hst p) !! i) as [c|]; [|done]. destruct (c_replied c); [done|].
  etrans; [|apply grows_requester; exact I]. by apply grows_same.
Qed.
Lemma grows_cancel p : grows p (cancel_clipboard p).
Proof. unfold cancel_clipboard. destruct (cancelClipboard (hst p)); [apply grows_reply|done]. Qed.
Lemma grows_stop p : grows p (terminate (post_current (PMsg MStop) p)).
Proof. trans (post_current (PMsg MStop) p); [by apply grows_current|apply grows_terminate]. Qed.
Lemma grows_finish p : grows p (Page.finish p).
Proof.
  unfold Page.finish. destruct (cancel_throws p); [apply grows_cancel|]. set (p2 := set_scr _ _).
  trans (cancel_clipboard p); [apply grows_cancel|]. trans p2; [by apply grows_same|].
  trans (terminate (post_current (PMsg MStop) p2)); [apply grows_stop|by apply grows_same].
Qed.
Lemma grows_append text p p' : appendRaw text p = Ok p' → grows p p'.
Proof. intros H%solo_append. apply grows_same; by rewrite H. Qed.
Lemma grows_append_finish line p p' : (let* p1 := append line p in Ok (Page.finish p1)) = Ok p' → grows p p'.
Proof.
  unfold append. destruct (appendRaw (line ++ [10]) p) as [p1|] eqn:Ha; [|done]. simpl. intros [= <-].
  etrans; [by eapply grows_append|apply grows_finish].
Qed.
Lemma grows_output text p p' : on_output text p = Ok p' → grows p p'.
Proof.
  unfold on_output. destruct (appendRaw text p) as [p1|] eqn:Ha; [|done]. simpl. apply grows_append in Ha.
  destruct (_ && _); intros [= <-]; [|done]. etrans; [exact Ha|by apply grows_same].
Qed.

Lemma grows_message rt rj et v o p p' :
  match o with ORenderRequest _ => False | _ => True end → Page.onmessage rt rj et v o p = Ok p' → grows p p'.
Proof.
  intros Ho. destruct o; simpl; try done; try (by intros [= <-]; apply grows_same); try apply grows_output; try apply grows_append_finish.
  - destruct (_ =? _); intros [= <-]; by apply grows_same.
  - intros [= <-]. unfold requestHostClipboard. destruct (cancel_throws p); [apply grows_cancel|].
    etrans; [apply grows_cancel|by apply grows_same].
  - intros [= <-]. unfold sendTerminalResize. etrans; [|by apply grows_current]. by apply grows_same.
  - destruct (startedAt _); [|intros [= <-]; by apply grows_same]. intros H. apply grows_append in H. etrans; [|exact H]. by apply grows_same.
  - destruct (dn_mount_error d); [apply grows_append_finish|]. simpl. intros [= <-]. apply grows_finish.
Qed.

(** The events that may post an answer. *)
Definition answering (e : Page.event) : bool := match e with EBatch _ _ | EWorker _ (ORenderRequest _) => true | _ => false end.

Lemma grows_step rt rj et e p p' : answering e = false → Page.step rt rj et e p = Some (Ok p') → grows p p'.
Proof.
  intros Ha H. revert H. destruct e; simpl; try done; try (case_bool_decide as Hb; [|done]);
    try (intros [= <-]; first [by apply grows_current|apply grows_finish|by apply grows_same]).
  - intros [= <-]. unfold startShell. destruct (cancel_throws p); [apply grows_cancel|].
    etrans; [apply grows_cancel|]. etrans; [apply grows_stop|]. by apply grows_same.
  - intros [= <-]. by destruct ok; apply grows_same.
  - intros [= <-]. destruct ok; [|by apply grows_same]. unfold start_created. etrans; [|by apply grows_post]. by apply grows_same.
  - intros [= H]. eapply grows_message; [|exact H]. by destruct o.
  - intros [= H]. by eapply grows_append_finish.
  - destruct (timers p); [done|]. intros [= <-]. unfold sendInputBytes. etrans; [|by apply grows_current]. by apply grows_same.
  - intros [= <-]. unfold clipboard_settled. destruct (clips (hst p) !! i) as [c|]; [|done].
    destruct (negb (c_waiting c)); [done|]. destruct o; [|destruct (_ || _)]; (etrans; [|apply grows_reply]); by apply grows_same.
  - intros [= <-]. unfold reply_upload. destruct (uploads (hst p) !! i) as [u|]; [|done]. destruct (up_replied u); [done|].
    etrans; [|apply grows_requester; by destruct result]. by apply grows_same.
  - intros [= <-]. unfold cancel_looked_at. destruct (cancels (hst p)) as [|[v id] l]; by apply grows_same.
  - intros [= <-]. destruct (handleTerminalKeydown _ _).1; [by apply grows_current|done].
  - intros [= <-]. unfold run_evidence. destruct (Page.current (wk p)); [|done]. unfold sendInputBytes. simpl.
    etrans; [|by apply grows_current]. by apply grows_same.
Qed.

(** ** Batches keep their requester and number *)

Definition tag (b : batch) : option Z * Z := (b_requester b, b_id b).

Definition new_tags (p : page) (e : Page.event) : list (option Z * Z) :=
  match e with EWorker _ (OSuiteRequest id _) => [(Page.current (wk p), id)] | _ => [] end.

Lemma tags_step rt rj et e p p' :
  Page.step rt rj et e p = Some (Ok p') → tag <$> batches (hst p') = (tag <$> batches (hst p)) ++ new_tags p e.
Proof.
  intros H. destruct (batch_event e) eqn:Hb.
  - destruct e; try discriminate Hb; simpl in H; try (case_bool_decide; [|done]).
    + destruct o; try discriminate Hb; simpl in H.
      * destruct (_ =? _); injection H as [= <-]; cbn [hst set_hst batches set_cancels new_tags]; by rewrite app_nil_r.
      * injection H as [= <-]. cbn [hst set_hst batches set_batches new_tags]. by rewrite fmap_app.
    + injection H as [= <-]. cbn [new_tags]. rewrite app_nil_r. unfold batch_settled. destruct (batches (hst p) !! i) as [b|] eqn:Hi; [|done].
      destruct (b_settled b); [done|]. set (b1 := mkBatch _ _ _ true).
      assert (tag <$> <[i := b1]> (batches (hst p)) = tag <$> batches (hst p)) as He.
      { rewrite list_fmap_insert. apply list_insert_id. by rewrite list_lookup_fmap, Hi. }
      destruct (batch_reply outcome); [rewrite hst_post_requester|]; exact He.
    + injection H as [= <-]. cbn [new_tags]. rewrite app_nil_r. unfold cancel_looked_at. by destruct (cancels (hst p)) as [|[v id] l].
  - apply same_batches_step in H as (-> & _); [|done]. destruct e as [| | |w o| | | | | | | | | | | | | |]; simpl; try by rewrite app_nil_r.
    destruct o; simpl; try by rewrite app_nil_r. done.
Qed.

(** ** The invariant *)

Section desk.
Context (G : nat → graphics) (report_json : test_report → list Z) (results_json : list (bool * list Z * list Z) → list Z)
  (error_text : exn → list Z) (decode_error : list Z) (stringify : report → list Z).
#[local] Abbreviation step := (desk_step G report_json results_json error_text decode_error stringify).
#[local] Abbreviation reachable := (desk_reachable G report_json results_json error_text decode_error stringify).
#[local] Abbreviation truthful_reply := (true_reply decode_error stringify).

(** The requests the controller was given, and the one it has not answered. *)
Definition handed (j : job) : option (list Z) :=
  match j with JPending r | JAnswered r _ | JSettled r (Some _) => Some r | _ => None end.
Definition pending (j : job) : option (list Z) := match j with JPending r => Some r | _ => None end.

Definition job_ok (j : job) : Prop :=
  match j with JAnswered r a | JSettled r (Some a) => truthful_reply (r, a) | _ => True end.

(** An answer to a batch: the controller's for that request, or, when there was no controller, an error. *)
Definition answer_for (j : job) (bytes : list Z) : Prop :=
  match j with
  | JSettled _ (Some a) => batch_reply (outcome_of decode_error a) = Ok bytes
  | JSettled _ None => ∃ error, batch_reply (inr error) = Ok bytes
  | _ => False
  end.

(** The verdict word and the text of one run of the diagnostic, which is good only if it was earned. *)
Definition verdict_ok (window0 : window) (bytes : list Z) : Prop :=
  ∃ k live w, let report := (WasteTerminalRenderTest (G k) live w).1 in
    win w = window0 ∧ bytes = le32 (if rt_ok report then 1 else 0) ++ text_encode (report_json report) ∧
    (rt_ok report = true → live = true ∧ g_webgl (G k) = true ∧ length (rt_checks report) = 35%nat ∧ Forall (λ c, c.2 = true) (rt_checks report)).

Definition post_ok (window0 : window) (tags : list (option Z * Z)) (jobs : list job) (x : Z * posted) : Prop :=
  match x.2 with
  | PMsg (MSuiteResponse id bytes) => ∃ i j, tags !! i = Some (Some x.1, id) ∧ jobs !! i = Some j ∧ answer_for j bytes
  | PMsg (MRenderResponse _ bytes) => verdict_ok window0 bytes
  | _ => True
  end.

Definition tags_of (d : desk) : list (option Z * Z) := tag <$> batches (hst (dk_page d)).

Record desk_ok (w0 : world) (d : desk) : Prop := {
  do_len : length (dk_jobs d) = length (tags_of d);
  do_suite : suite_ok decode_error stringify (dk_suite d);
  do_pending : omap pending (dk_jobs d) = pending_bytes (guest (dk_suite d));
  do_handed : received (dk_suite d) ≡ₚ omap handed (dk_jobs d);
  do_jobs : Forall job_ok (dk_jobs d);
  do_posts : Forall (post_ok (win w0) (tags_of d) (dk_jobs d)) (posts (wk (dk_page d)));
  do_window : win (dk_window d) = win w0 ∧ patched (dk_window d) = false ∧ screens (dk_window d) = screens w0 }.

Lemma quiet_ok window0 tags jobs x : quiet x.2 → post_ok window0 tags jobs x.
Proof. unfold quiet, post_ok. destruct x.2 as [|m]; [done|]. by destruct m. Qed.

(** Settled jobs stay, tags are only added. *)
Lemma post_ok_mono window0 tags jobs tags' jobs' x :
  tags `prefix_of` tags' → (∀ i r a, jobs !! i = Some (JSettled r a) → jobs' !! i = Some (JSettled r a)) →
  post_ok window0 tags jobs x → post_ok window0 tags' jobs' x.
Proof.
  intros Ht Hj. unfold post_ok. destruct x.2 as [|m]; [done|]. destruct m; try done.
  intros (i & j & H1 & H2 & H3). exists i, j. split; [by eapply prefix_lookup_Some|]. split; [|done].
  destruct j as [| | |r a]; try done. by apply Hj.
Qed.

(** ** What the controller's steps do to the commands *)

Definition answers_pending (s s' : suite_state) : Prop :=
  received s' = received s ∧
  (replies s' = replies s ∧ pending_bytes (guest s') = pending_bytes (guest s) ∨
   ∃ b a, replies s' = replies s ++ [(b, a)] ∧ pending_bytes (guest s) = [b] ∧ pending_bytes (guest s') = []).

Lemma same_commands s s' :
  received s' = received s → replies s' = replies s → pending_bytes (guest s') = pending_bytes (guest s) → answers_pending s s'.
Proof. intros H1 H2 H3. split; [done|by left]. Qed.

Lemma guest_done_answers bytes a r s :
  pending_bytes (guest s) = [bytes] → answers_pending s (guest_done decode_error stringify bytes a r s).
Proof. intros H. split; [done|]. right. unfold guest_done, command_reply. cbn. by eexists _, _. Qed.

Lemma cancel_commands s : answers_pending s (suite_cancel s).
Proof. apply same_commands; [done..|]. unfold suite_cancel. cbn. by destruct (guest s). Qed.

Lemma listed_commands r s : answers_pending s (guest_listed decode_error stringify r s).
Proof.
  unfold guest_listed. destruct (guest s) as [|bytes o|] eqn:Hg; [by apply same_commands| |by apply same_commands].
  assert (pending_bytes (guest s) = [bytes]) as Hp by (by rewrite Hg).
  destruct r as [tests|e]; [|by apply guest_done_answers]. destruct (goes_on _ _ _); [|by apply guest_done_answers].
  destruct (begin_run _ _ _); [|by apply guest_done_answers]. by apply same_commands.
Qed.

Lemma over_commands s : answers_pending s (guest_over decode_error stringify s).
Proof.
  unfold guest_over. destruct (guest s) as [| |bytes o tests selected p] eqn:Hg; [by apply same_commands..|].
  destruct (forallb _ _); [|by apply same_commands]. apply guest_done_answers. by rewrite Hg.
Qed.

Lemma suite_commands e s :
  match e with GuestCommand _ => False | _ => True end → answers_pending s (suite_step decode_error stringify e s).
Proof.
  intros He. destruct e as [e|bytes|r|e| |]; try done; cbn [suite_step].
  - destruct e; try (by apply same_commands); [destruct e; by apply same_commands|].
    destruct (cancel_disabled (ctl s)); [by apply same_commands|apply cancel_commands].
  - apply listed_commands.
  - assert (answers_pending s (guest_pool e s)) as H by (unfold guest_pool; destruct (guest s) eqn:Hg; apply same_commands; cbn; by rewrite ?Hg).
    destruct e; try exact H; by apply same_commands.
  - apply over_commands.
  - destruct (is_pending (guest s)); [apply cancel_commands|by apply same_commands].
Qed.

(** A command is answered at once or becomes the pending one. *)
Lemma command_step bytes s :
  let s' := suite_step decode_error stringify (GuestCommand bytes) s in
  received s' = received s ++ [bytes] ∧
  ((∃ a, replies s' = replies s ++ [(bytes, a)] ∧ pending_bytes (guest s') = pending_bytes (guest s)) ∨
   (replies s' = replies s ∧ pending_bytes (guest s) = [] ∧ pending_bytes (guest s') = [bytes])).
Proof.
  cbn [suite_step]. unfold guest_begin. cbn [guest running is_running]. destruct (is_running _ || is_pending _) eqn:E.
  - split; [done|]. left. unfold command_reply. cbn. by eexists.
  - apply orb_false_iff in E as [_ E]. cbn in E. assert (guest s = GIdle) as Hg by (by destruct (guest s)).
    destruct (parse_request bytes) as [o|e]; (split; [done|]).
    + right. by rewrite Hg.
    + left. unfold guest_done, command_reply. cbn. rewrite Hg. by eexists.
Qed.

Lemma new_answer_none s s' : replies s' = replies s → new_answer s s' = None.
Proof. intros H. unfold new_answer. by rewrite H, bool_decide_eq_true_2. Qed.

Lemma new_answer_some s s' b a : replies s' = replies s ++ [(b, a)] → new_answer s s' = Some a.
Proof.
  intros H. unfold new_answer. rewrite bool_decide_eq_false_2 by (rewrite H, length_app; cbn; lia). by rewrite H, last_snoc.
Qed.

(** ** Every step keeps the invariant *)

Lemma cancel_same s :
  received (suite_cancel s) = received s ∧ pending_bytes (guest (suite_cancel s)) = pending_bytes (guest s).
Proof. split; [done|]. unfold suite_cancel. cbn. by destruct (guest s). Qed.

Lemma settle_jobs js s s' :
  answers_pending s s' → omap pending js = pending_bytes (guest s) →
  let js' := answer_pending (new_answer s s') <$> js in
  omap pending js' = pending_bytes (guest s') ∧ omap handed js' = omap handed js ∧ length js' = length js ∧
  (suite_ok decode_error stringify s' → Forall job_ok js → Forall job_ok js') ∧
  ∀ i r a, js !! i = Some (JSettled r a) → js' !! i = Some (JSettled r a).
Proof.
  intros [_ H] Hp js'.
  assert (length js' = length js ∧ omap handed js' = omap handed js ∧ ∀ i r a, js !! i = Some (JSettled r a) → js' !! i = Some (JSettled r a)) as (Hl & Hh & Hs).
  { split_and!; [apply length_fmap| |].
    - unfold js'. clear. induction js as [|j js IH]; [done|]. rewrite fmap_cons. cbn [omap list_omap].
      destruct (new_answer s s') as [a|], j; cbn [answer_pending handed]; rewrite IH; done.
    - intros i r a Hi. unfold js'. rewrite list_lookup_fmap, Hi. cbn. by destruct (new_answer s s'). }
  destruct H as [[Hr Hpb]|(b & a & Hr & Hb & Hb')].
  - assert (js' = js) as -> by (unfold js'; rewrite (new_answer_none s s' Hr); rewrite <- (list_fmap_id js) at 2; apply list_fmap_ext; by intros ? []). rewrite Hpb. by split_and!.
  - pose proof (new_answer_some s s' b a Hr) as Hn. split_and!; try done.
    + rewrite Hb'. unfold js'. rewrite Hn. clear. induction js as [|j js IH]; [done|]. rewrite fmap_cons. cbn [omap list_omap].
      rewrite IH. by destruct j.
    + intros Hok HF. apply Forall_forall. intros j' Hj'. unfold js' in Hj'. rewrite Hn in Hj'.
      apply list_elem_of_fmap in Hj' as (j & -> & Hj). rewrite Forall_forall in HF. pose proof (HF j Hj) as Hjo.
      destruct j as [r|r|r a0|r a0]; cbn [answer_pending]; try exact Hjo.
      assert (r ∈ omap pending js) as Hin by (apply list_elem_of_omap; by exists (JPending r)).
      rewrite Hp, Hb in Hin. apply list_elem_of_singleton in Hin as ->. cbn [job_ok].
      pose proof (ss_replies _ _ _ Hok) as Hrep. rewrite Hr in Hrep. apply Forall_app in Hrep as [_ Hrep]. exact (proj1 (Forall_singleton _ _) Hrep).
Qed.

Lemma omap_insert_add {A} (f : job → option A) (js : list job) (i : nat) j j' a :
  js !! i = Some j → f j = None → f j' = Some a → omap f (<[i := j']> js) ≡ₚ omap f js ++ [a].
Proof.
  intros Hi Hf Hf'. rewrite <- (omap_insert_drop f (<[i := j']> js) i j' j a).
  - rewrite list_insert_insert_eq, (list_insert_id js i j Hi). apply Permutation_cons_append.
  - apply list_lookup_insert_eq. by eapply lookup_lt_Some.
  - done.
  - done.
Qed.

Lemma omap_pending_insert (js : list job) (i : nat) r :
  js !! i = Some (JLoading r) → omap pending js = [] → omap pending (<[i := JPending r]> js) = [r].
Proof.
  intros Hi Hn. apply Permutation_length_1_inv. rewrite (omap_insert_add pending js i (JLoading r) (JPending r) r); [|done..]. by rewrite Hn.
Qed.

Lemma settled_insert (js : list job) (i : nat) j j' :
  js !! i = Some j → (∀ r a, j ≠ JSettled r a) → ∀ k r a, js !! k = Some (JSettled r a) → <[i := j']> js !! k = Some (JSettled r a).
Proof.
  intros Hi Hj k r a Hk. destruct (decide (i = k)) as [->|Hne]; [rewrite Hk in Hi; injection Hi as <-; by destruct (Hj r a)|].
  by rewrite list_lookup_insert_ne.
Qed.

Lemma posts_mono w0 d tags' jobs' :
  desk_ok w0 d → tags_of d `prefix_of` tags' → (∀ i r a, dk_jobs d !! i = Some (JSettled r a) → jobs' !! i = Some (JSettled r a)) →
  Forall (post_ok (win w0) tags' jobs') (posts (wk (dk_page d))).
Proof. intros Hd Ht Hj. eapply Forall_impl; [apply (do_posts _ _ Hd)|]. intros x. by apply post_ok_mono. Qed.

Lemma new_desk_ok r w0 : patched w0 = false → desk_ok w0 (new_desk r w0).
Proof. intros Hp. constructor; try done. apply new_suite_ok. Qed.

(** The messages of a page event other than the end of a batch. *)
Lemma page_posts w0 d e p' :
  desk_ok w0 d → match e with EBatch _ _ => False | _ => True end →
  page_step G report_json results_json error_text e d = Some (Ok p') →
  Forall (post_ok (win w0) (tag <$> batches (hst p')) (dk_jobs d ++ new_jobs e)) (posts (wk p')).
Proof.
  intros Hd He H. pose proof (tags_step _ _ _ _ _ _ H) as Ht.
  assert (Forall (post_ok (win w0) (tag <$> batches (hst p')) (dk_jobs d ++ new_jobs e)) (posts (wk (dk_page d)))) as Hold.
  { apply posts_mono; [done|rewrite Ht; by eexists|]. intros i r a. apply lookup_app_l_Some. }
  destruct (answering e) eqn:Ha.
  - destruct e as [| | |v o| | | | | | | | | | | | | |]; try done. destruct o; try done.
    all: unfold page_step in H; cbn [Page.step] in H; case_bool_decide; [|done]; cbn [Page.onmessage] in H; injection H as <-.
    all: unfold post_current in Hold |- *; destruct (Page.current (wk (dk_page d))); [|exact Hold].
    all: cbn [post_to set_wk wk posts] in Hold |- *; apply Forall_app; split; [exact Hold|apply Forall_singleton; cbn [post_ok snd]].
    all: destruct (do_window _ _ Hd) as (Hw & Hpat & _).
    all: exists (dk_tests d), (useWebGL (rend (scr (dk_page d)))), (dk_window d).
    all: unfold render_reply, diagnose.
    all: pose proof (render_test_spec (G (dk_tests d)) (useWebGL (rend (scr (dk_page d)))) (dk_window d) Hpat) as Hspec.
    all: destruct (WasteTerminalRenderTest _ _ _) as [report w']; cbn [fst]; split; [exact Hw|]; split; [done|].
    all: intros Hok; apply Hspec in Hok; tauto.
  - apply grows_step in H as (l & Hl & Hq); [|done]. rewrite Hl. apply Forall_app. split; [exact Hold|].
    eapply Forall_impl; [exact Hq|]. intros x. apply quiet_ok.
Qed.

Lemma on_page_ok w0 d e d' :
  desk_ok w0 d → match e with EBatch _ _ => False | _ => True end →
  on_page G report_json results_json error_text e d = Some (Ok d') → desk_ok w0 d'.
Proof.
  intros Hd He H. unfold on_page in H. destruct (page_step _ _ _ _ e d) as [[p|]|] eqn:Hp; [|done..].
  cbn [mbind option_bind rbind] in H. injection H as <-. pose proof (page_posts _ _ _ _ Hd He Hp) as Hposts.
  apply tags_step in Hp. set (s := if negb _ then _ else _).
  assert (received s = received (dk_suite d) ∧ pending_bytes (guest s) = pending_bytes (guest (dk_suite d)) ∧ suite_ok decode_error stringify s) as (Hr & Hpb & Hs).
  { unfold s. destruct (negb _); [|split_and!; try done; apply Hd]. destruct (cancel_same (dk_suite d)) as [H1 H2].
    split_and!; [done..|]. apply suite_cancel_ok, Hd. }
  constructor; cbn [dk_page dk_suite dk_jobs dk_window].
  - unfold tags_of. cbn [dk_page]. rewrite Hp, !length_app, (do_len _ _ Hd). f_equal.
    destruct e as [| | |v o| | | | | | | | | | | | | |]; try done. by destruct o.
  - exact Hs.
  - rewrite omap_app, Hpb, (do_pending _ _ Hd). destruct e as [| | |v o| | | | | | | | | | | | | |]; try apply app_nil_r. destruct o; apply app_nil_r.
  - rewrite omap_app, Hr, (do_handed _ _ Hd). destruct e as [| | |v o| | | | | | | | | | | | | |]; cbn; rewrite ?app_nil_r; try done.
    destruct o; cbn; by rewrite app_nil_r.
  - apply Forall_app. split; [apply Hd|]. destruct e as [| | |v o| | | | | | | | | | | | | |]; try constructor. destruct o; by repeat constructor.
  - exact Hposts.
  - destruct (do_window _ _ Hd) as (H1 & H2 & H3). destruct (is_diagnosis e); [|done]. unfold diagnose.
    pose proof (render_test_spec (G (dk_tests d)) (useWebGL (rend (scr (dk_page d)))) (dk_window d) H2) as Hspec.
    destruct (WasteTerminalRenderTest _ _ _) as [report w']. cbn [snd]. destruct Hspec as (-> & -> & -> & _). done.
Qed.

(** The end of the promise chain of batch [i]. *)
Lemma settle_ok w0 d i j j' o p' :
  desk_ok w0 d → dk_jobs d !! i = Some j → (∀ r a, j ≠ JSettled r a) → pending j = None → pending j' = None → handed j' = handed j →
  job_ok j' → (∀ bytes, batch_reply o = Ok bytes → answer_for j' bytes) →
  page_step G report_json results_json error_text (EBatch i o) d = Some (Ok p') →
  desk_ok w0 (mkDesk p' (dk_suite d) (<[i := j']> (dk_jobs d)) (dk_window d) (dk_tests d)).
Proof.
  intros Hd Hi Hj Hpj Hpj' Hh Hjo Ha H. pose proof (tags_step _ _ _ _ _ _ H) as Ht. cbn [new_tags] in Ht. rewrite app_nil_r in Ht.
  constructor; cbn [dk_page dk_suite dk_jobs dk_window].
  - unfold tags_of. cbn [dk_page]. rewrite length_insert, Ht. apply Hd.
  - apply Hd.
  - rewrite (omap_insert_same pending _ i j j' Hi) by congruence. apply Hd.
  - rewrite (omap_insert_same handed _ i j j' Hi Hh). apply Hd.
  - apply Forall_insert; [apply Hd|done].
  - unfold tags_of. cbn [dk_page]. rewrite Ht.
    assert (Forall (post_ok (win w0) (tags_of d) (<[i := j']> (dk_jobs d))) (posts (wk (dk_page d)))) as Hold.
    { apply posts_mono; [done..|]. by apply settled_insert with j. }
    unfold page_step in H. cbn [Page.step] in H. injection H as <-. unfold batch_settled in *.
    destruct (batches (hst (dk_page d)) !! i) as [b|] eqn:Hb; [|exact Hold]. destruct (b_settled b); [exact Hold|].
    destruct (batch_reply o) as [bytes|] eqn:Ho; [|exact Hold]. unfold post_requester.
    case_bool_decide; [|exact Hold]. destruct (b_requester b) as [v|] eqn:Hq; [|exact Hold].
    cbn [post_to set_wk wk posts set_hst]. apply Forall_app. split; [exact Hold|]. apply Forall_singleton. cbn [post_ok snd fst].
    exists i, j'. split_and!; [|by apply list_lookup_insert_eq; eapply lookup_lt_Some|by apply Ha].
    rewrite list_lookup_fmap, Hb. cbn. unfold tag. by rewrite Hq.
  - apply Hd.
Qed.

Lemma desk_step_ok w0 d e d' : desk_ok w0 d → step e d = Some (Ok d') → desk_ok w0 d'.
Proof.
  intros Hd H. destruct e as [e|i|i error|e|i]; cbn [desk_step] in H.
  - destruct e; try done; by eapply on_page_ok; [exact Hd| |exact H].
  - destruct (dk_jobs d !! i) as [[r|r|r a|r a]|] eqn:Hi; try done.
    set (s' := suite_step decode_error stringify (GuestCommand r) (dk_suite d)) in *.
    destruct (command_step r (dk_suite d)) as [Hrec Hcase]. fold s' in Hrec, Hcase.
    assert (suite_ok decode_error stringify s') as Hs by apply suite_step_ok, Hd.
    set (j' := match new_answer (dk_suite d) s' with Some a => JAnswered r a | None => JPending r end).
    assert (d' = set_suite s' (<[i := j']> (dk_jobs d)) d) as -> by (by injection H as <-). clear H.
    assert (handed j' = Some r ∧ job_ok j' ∧ omap pending (<[i := j']> (dk_jobs d)) = pending_bytes (guest s')) as (Hh & Hjo & Hpend).
    { destruct Hcase as [(a & Hrep & Hpb)|(Hrep & Hpb & Hpb')]; unfold j'.
      - rewrite (new_answer_some _ _ _ _ Hrep). split_and!; [done| |].
        + cbn [job_ok]. pose proof (ss_replies _ _ _ Hs) as HF. rewrite Hrep in HF. apply Forall_app in HF as [_ HF]. exact (proj1 (Forall_singleton _ _) HF).
        + rewrite (omap_insert_same pending _ i (JLoading r) _ Hi) by done. rewrite Hpb. apply Hd.
      - rewrite (new_answer_none _ _ Hrep). split_and!; [done..|]. rewrite Hpb'. apply omap_pending_insert; [done|]. by rewrite (do_pending _ _ Hd). }
    constructor; cbn [dk_page dk_suite dk_jobs dk_window set_suite].
    + unfold tags_of. cbn [dk_page]. rewrite length_insert. apply Hd.
    + exact Hs.
    + exact Hpend.
    + rewrite Hrec, (do_handed _ _ Hd). symmetry. by apply (omap_insert_add handed _ i (JLoading r)).
    + apply Forall_insert; [apply Hd|done].
    + apply posts_mono; [done..|]. by apply settled_insert with (JLoading r).
    + apply Hd.
  - destruct (dk_jobs d !! i) as [[r|r|r a|r a]|] eqn:Hi; try done.
    destruct (page_step _ _ _ _ _ d) as [[p|]|] eqn:Hp; [|done..]. cbn [mbind option_bind rbind] in H. injection H as <-.
    apply (settle_ok w0 d i (JLoading r) (JSettled r None) (inr error)); try done. intros bytes Hb. by exists error.
  - assert (match e with GuestCommand _ => False | _ => True end ∧
      d' = (let s := suite_step decode_error stringify e (dk_suite d) in set_suite s (answer_pending (new_answer (dk_suite d) s) <$> dk_jobs d) d)) as [He ->]
      by (destruct e; try done; by injection H as <-). clear H. cbv zeta. set (s' := suite_step _ _ e (dk_suite d)).
    pose proof (suite_commands e (dk_suite d) He) as Hc. fold s' in Hc. assert (suite_ok decode_error stringify s') as Hs by apply suite_step_ok, Hd.
    destruct (settle_jobs (dk_jobs d) _ _ Hc (do_pending _ _ Hd)) as (H1 & H2 & H3 & H4 & H5).
    constructor; cbn [dk_page dk_suite dk_jobs dk_window set_suite].
    + unfold tags_of. cbn [dk_page]. rewrite H3. apply Hd.
    + exact Hs.
    + exact H1.
    + rewrite H2, (proj1 Hc). apply Hd.
    + apply H4; [done|apply Hd].
    + by apply posts_mono.
    + apply Hd.
  - destruct (dk_jobs d !! i) as [[r|r|r a|r a]|] eqn:Hi; try done.
    destruct (page_step _ _ _ _ _ d) as [[p|]|] eqn:Hp; [|done..]. cbn [mbind option_bind rbind] in H. injection H as <-.
    pose proof (do_jobs _ _ Hd) as HF. rewrite Forall_forall in HF.
    apply (settle_ok w0 d i (JAnswered r a) (JSettled r (Some a)) (outcome_of decode_error a)); try done.
    apply (HF (JAnswered r a)). by eapply list_elem_of_lookup_2.
Qed.

Lemma desk_reachable_ok r w0 d : patched w0 = false → reachable r w0 d → desk_ok w0 d.
Proof. intros Hp H. induction H as [|d e d' _ IH H]; [by apply new_desk_ok|by eapply desk_step_ok]. Qed.

End desk.

(** ** A session *)

Definition small_step : desk_event → desk → option (result fault desk) :=
  desk_step (λ _, no_graphics) (λ _, codes "{}") (λ _, []) (λ _, []) [] (λ _, []).

Fixpoint small_desk (l : list desk_event) (d : desk) : option desk :=
  match l with
  | [] => Some d
  | e :: l' => match small_step e d with Some (Ok d') => small_desk l' d' | _ => None end
  end.

Definition small_renderer : renderer := mkRenderer 8 19 (NInt 1) false false ∅ 640 456 (NInt 640) (NInt 456) true [].

Lemma small_desk_reachable l d d' :
  desk_reachable (λ _, no_graphics) (λ _, codes "{}") (λ _, []) (λ _, []) [] (λ _, []) small_renderer plain_page d → small_desk l d = Some d' →
  desk_reachable (λ _, no_graphics) (λ _, codes "{}") (λ _, []) (λ _, []) [] (λ _, []) small_renderer plain_page d'.
Proof.
  revert d. induction l as [|e l IH]; intros d Hd H; cbn [small_desk] in H; [by injection H as <-|].
  destruct (small_step e d) as [[d1|]|] eqn:He; try done. apply (IH d1); [|done]. by eapply desk_next.
Qed.

(** A start, a malformed batch request, its answer, and a render test without WebGL. *)
Definition small_session : option desk :=
  small_desk [DPage EStart; DPage (EStartLoaded 0 true); DPage (EStartCreated 0 true); DPage (EWorker 1 (OSuiteRequest 5 [9]));
              DSuiteReady 0; DSettle 0; DPage (EWorker 1 (ORenderRequest 6))] (new_desk small_renderer plain_page).

Lemma small_session_reachable d :
  small_session = Some d →
  desk_reachable (λ _, no_graphics) (λ _, codes "{}") (λ _, []) (λ _, []) [] (λ _, []) small_renderer plain_page d.
Proof. unfold small_session. apply small_desk_reachable, desk_start. Qed.

(** The first answers of the two kinds. *)
Definition suite_answer (d : desk) : option (Z * Z * list Z) :=
  head (omap (λ x, match x.2 with PMsg (MSuiteResponse id bytes) => Some (x.1, id, bytes) | _ => None end) (posts (wk (dk_page d)))).
Definition render_answer (d : desk) : option (Z * Z * list Z) :=
  head (omap (λ x, match x.2 with PMsg (MRenderResponse id bytes) => Some (x.1, id, bytes) | _ => None end) (posts (wk (dk_page d)))).

Lemma suite_answer_posted d w id bytes : suite_answer d = Some (w, id, bytes) → (w, PMsg (MSuiteResponse id bytes)) ∈ posts (wk (dk_page d)).
Proof.
  intros ([v m] & Hin & H)%head_Some_elem_of%list_elem_of_omap. destruct m as [|m]; [done|]. destruct m; try done. by injection H as -> -> ->.
Qed.
Lemma render_answer_posted d w id bytes : render_answer d = Some (w, id, bytes) → (w, PMsg (MRenderResponse id bytes)) ∈ posts (wk (dk_page d)).
Proof.
  intros ([v m] & Hin & H)%head_Some_elem_of%list_elem_of_omap. destruct m as [|m]; [done|]. destruct m; try done. by injection H as -> -> ->.
Qed.

Lemma small_session_posts :
  match small_session with Some d => is_Some (suite_answer d) ∧ is_Some (render_answer d) | None => False end.
Proof. vm_compute. by split; eexists. Qed.

