(* ===== verification/Command.v ===== *)
(** * The command host (src/html-rt/command/waste.mjs, waste.worker.mjs)

    An application runs commands either on a runtime of its own or through a
    worker.  This file has the startup vector and the options record that
    [run] passes to the engine, the worker's message port
    ([installWasteWorker]), the proxy on the application's side
    ([createWasteWorker]) and the two joined by their message channels.  The
    engine itself is a parameter: it takes input items when it likes, and ends
    a run with success or failure when it likes. *)

From stdpp Require Import base numbers list strings gmap.
From Stdlib Require Import ZArith Lia.
From S2P Require Import Prelude JsNum TermModel.

#[local] Open Scope Z_scope.
#[local] Open Scope waste_scope.

Inductive command_error : Type := VectorLimits | HasNul | InvalidLimit (index : Z) | InvalidInstructions.

(** ** The startup vector *)

(** [string]: UTF-8 text without NUL; texts are already encoded here. *)
Definition no_nul (t : list Z) : bool := negb (existsb (λ c, c =? 0) t).

Definition vector_size (path : list Z) (values : list (list Z)) : Z :=
  12 + zlen path + foldr (λ v n, 4 + zlen v + n) 0 values.

Definition length_prefixed (v : list Z) : list Z := le32 (zlen v) ++ v.

(** [env] is [None] where the caller gives no environment. *)
Definition commandVector (executable : list Z) (args : list (list Z)) (env : option (list (list Z))) :
    result command_error (list Z) :=
  let entries := default [] env in
  let values := args ++ entries in
  if negb (forallb no_nul (executable :: values)) then Err HasNul
  else if (131072 <? vector_size executable values) || (126 <? zlen args) || (255 <? zlen entries) then Err VectorLimits
  else Ok (le32 (zlen args) ++ le32 (match env with None => 4294967295 | Some _ => zlen entries end) ++
           le32 (zlen executable) ++ executable ++ concat (length_prefixed <$> values)).

(** The engine's side of the record (docs/embedding.md). *)
Fixpoint read_values (n : nat) (bytes : list Z) : option (list (list Z) * list Z) :=
  match n with
  | O => Some ([], bytes)
  | S n =>
    k ← get_le32 bytes;
    let body := drop 4 bytes in
    if zlen body <? k then None
    else '(vs, rest) ← read_values n (drop (Z.to_nat k) body); Some (take (Z.to_nat k) body :: vs, rest)
  end.

Definition parse_vector (bytes : list Z) : option (list Z * list (list Z) * option (list (list Z))) :=
  argc ← get_le32 bytes;
  envc ← get_le32 (drop 4 bytes);
  '(path, rest) ← (n ← get_le32 (drop 8 bytes);
                   let body := drop 12 bytes in
                   if zlen body <? n then None else Some (take (Z.to_nat n) body, drop (Z.to_nat n) body));
  '(args, rest) ← read_values (Z.to_nat argc) rest;
  if envc =? 4294967295 then if bool_decide (rest = []) then Some (path, args, None) else None
  else '(env, rest) ← read_values (Z.to_nat envc) rest; if bool_decide (rest = []) then Some (path, args, Some env) else None.

(** ** The options record *)

(** The seven 32-bit limits of [run], in order, and the instruction limit. *)
Record limits : Type := mkLimits { words : list Z; maxInstructions : Z }.

(** [maxInputBytes], [maxOutputBytes], [timeoutMs], [quantumMs], [maxMemoryPages], [maxProcesses], [maxFilesystemBytes]. *)
Definition defaults : limits := mkLimits [16777216; 16777216; 0; 16; 2048; 16; 134217728] 0.

Definition le64 (z : Z) : list Z := le32 (z mod 2^32) ++ le32 (z / 2^32).

Fixpoint put_words (i : Z) (l : list Z) : result command_error (list Z) :=
  match l with
  | [] => Ok []
  | value :: rest =>
    if (value <? (if i =? 2 then 0 else 1)) || (4294967295 <? value) then Err (InvalidLimit i)
    else let* tail := put_words (i + 1) rest in Ok (le32 value ++ tail)
  end.

Definition options_record (l : limits) : result command_error (list Z) :=
  let* body := put_words 0 (words l) in
  if (maxInstructions l <? 0) || (18446744073709551615 <? maxInstructions l) then Err InvalidInstructions
  else Ok (le32 64 ++ body ++ le64 (maxInstructions l) ++ replicate 24 0).

(** ** The worker's port *)

(** One element of the input queue, [{value, done}]. *)
Record item : Type := mkItem { it_value : list Z; it_done : bool }.

(** The engine's [next()]: not asked, waiting for [wake], or woken. *)
Inductive reader : Type := RIdle | RWaiting | RResumed.

Definition is_idle (r : reader) : bool := match r with RIdle => true | _ => false end.
Definition is_resumed (r : reader) : bool := match r with RResumed => true | _ => false end.

(** [active]: the current run; [s_taken] is what the engine took from the queue. *)
Record session : Type := mkSession {
  s_id : Z; s_aborted : bool; s_queue : list item; s_eof : bool; s_streaming : bool; s_sequence : Z; s_received : Z;
  s_maxInput : Z; s_inputError : bool; s_reader : reader; s_taken : list item }.

(** Messages to the worker; a field the code may find ill-typed is an option. *)
Inductive request : Type :=
| BadProtocol (id : option Z)
| Init (id : Z) (maxInput : option Z)
| CancelRun (id : Z)
| Input (id : Z) (sequence : option Z) (bytes : option (list Z)) (eof : bool)
| Run (id : Z) (streaming : bool) (maxInput : option Z) (has_job : bool)
| OtherRequest (id : Z).

Inductive reply : Type :=
| Ready
| Failed (id : Z)
| Ack (id sequence : Z)
| Result (id : Z).

Record port : Type := mkPort {
  runtime : bool; initializing : bool; active : option session; lastId : Z; defaultMax : option Z }.

Definition new_port : port := mkPort false false None 0 None.

Definition set_active (a : option session) (p : port) : port :=
  mkPort (runtime p) (initializing p) a (lastId p) (defaultMax p).

Definition wake (r : reader) : reader := match r with RWaiting => RResumed | _ => r end.

(** [active.abort.abort()]. *)
Definition abort_session (error : bool) (s : session) : session :=
  mkSession (s_id s) true (s_queue s) (s_eof s) (s_streaming s) (s_sequence s) (s_received s) (s_maxInput s)
    (s_inputError s || error) (s_reader s) (s_taken s).

(** A chunk in sequence: counted, limited, queued and acknowledged. *)
Definition accept_input (sequence : Z) (bytes : list Z) (eof : bool) (s : session) : session * list reply :=
  let received := s_received s + zlen bytes in
  if s_maxInput s <? received then
    (mkSession (s_id s) true (s_queue s) (s_eof s) (s_streaming s) sequence received (s_maxInput s) true (s_reader s) (s_taken s), [])
  else
    (mkSession (s_id s) (s_aborted s) (s_queue s ++ [mkItem bytes (eof && bool_decide (bytes = []))]) eof (s_streaming s)
       sequence received (s_maxInput s) (s_inputError s) (wake (s_reader s)) (s_taken s), [Ack (s_id s) sequence]).

Definition input_message (sequence : option Z) (bytes : option (list Z)) (eof : bool) (s : session) : session * list reply :=
  if negb (s_streaming s) || s_eof s then (s, [])
  else match sequence, bytes with
  | Some n, Some b => if n =? s_sequence s + 1 then accept_input n b eof s else (abort_session true s, [])
  | _, _ => (abort_session true s, [])
  end.

Definition MAX_SAFE : Z := 9007199254740991.
Definition MAX_INPUT_DEFAULT : Z := 16777216.

Definition run_message (id : Z) (streaming : bool) (maxInput : option Z) (has_job : bool) (p : port) : port * list reply :=
  if negb (runtime p) || bool_decide (is_Some (active p)) || (id <=? lastId p) then (p, [Failed id])
  else
    let limit := default MAX_INPUT_DEFAULT (match maxInput with Some n => Some n | None => defaultMax p end) in
    let s := mkSession id false [] false streaming 0 0 limit false RIdle [] in
    if has_job then (mkPort (runtime p) (initializing p) (Some s) id (defaultMax p), [])
    else (mkPort (runtime p) (initializing p) None id (defaultMax p), [Failed id]).

(** The port's [message] handler, up to its first [await]. *)
Definition on_message (m : request) (p : port) : port * list reply :=
  match m with
  | BadProtocol id => (p, [Failed (default 0 id)])
  | Init id maxInput =>
    if negb (id =? 0) || runtime p || initializing p then (p, [Failed id])
    else (mkPort (runtime p) true (active p) (lastId p) maxInput, [])
  | CancelRun id =>
    if (id <? 1) || (MAX_SAFE <? id) then (p, [Failed id])
    else match active p with
    | Some s => if s_id s =? id then (set_active (Some (abort_session false s)) p, []) else (p, [])
    | None => (p, [])
    end
  | Input id sequence bytes eof =>
    if (id <? 1) || (MAX_SAFE <? id) then (p, [Failed id])
    else match active p with
    | Some s =>
      if s_id s =? id then let '(s', out) := input_message sequence bytes eof s in (set_active (Some s') p, out) else (p, [])
    | None => (p, [])
    end
  | Run id streaming maxInput has_job =>
    if (id <? 1) || (MAX_SAFE <? id) then (p, [Failed id]) else run_message id streaming maxInput has_job p
  | OtherRequest id => if (id <? 1) || (MAX_SAFE <? id) then (p, [Failed id]) else (p, [])
  end.

(** What happens on the worker's side between messages. *)
Inductive engine_event : Type :=
| InitDone (ok : bool)      (* [createWaste] settles *)
| Next                      (* the engine calls [next()] *)
| Resume                    (* a woken [next()] tests its loop again *)
| Return                    (* the engine closes the iterator *)
| RunDone (ok : bool).      (* [runtime.run] settles *)

Definition set_reader (r : reader) (s : session) : session :=
  mkSession (s_id s) (s_aborted s) (s_queue s) (s_eof s) (s_streaming s) (s_sequence s) (s_received s) (s_maxInput s)
    (s_inputError s) r (s_taken s).

(** The loop of [next()]: wait, or take the first item; an empty queue at the end gives [{done: true}]. *)
Definition next_item (s : session) : session :=
  match s_queue s with
  | [] =>
    if s_eof s then
      mkSession (s_id s) (s_aborted s) [] (s_eof s) (s_streaming s) (s_sequence s) (s_received s) (s_maxInput s)
        (s_inputError s) RIdle (s_taken s ++ [mkItem [] true])
    else set_reader RWaiting s
  | i :: rest =>
    mkSession (s_id s) (s_aborted s) rest (s_eof s) (s_streaming s) (s_sequence s) (s_received s) (s_maxInput s)
      (s_inputError s) RIdle (s_taken s ++ [i])
  end.

Definition return_iterator (s : session) : session :=
  mkSession (s_id s) (s_aborted s) (s_queue s) true (s_streaming s) (s_sequence s) (s_received s) (s_maxInput s)
    (s_inputError s) (wake (s_reader s)) (s_taken s).

Definition engine_step (e : engine_event) (p : port) : option (port * list reply) :=
  match e with
  | InitDone ok =>
    if initializing p then
      Some (mkPort ok false (active p) (lastId p) (defaultMax p), [if ok then Ready else Failed 0])
    else None
  | Next =>
    match active p with
    | Some s => if s_streaming s && is_idle (s_reader s) then Some (set_active (Some (next_item s)) p, []) else None
    | None => None
    end
  | Resume =>
    match active p with
    | Some s => if is_resumed (s_reader s) then Some (set_active (Some (next_item s)) p, []) else None
    | None => None
    end
  | Return =>
    match active p with
    | Some s => if s_streaming s then Some (set_active (Some (return_iterator s)) p, []) else None
    | None => None
    end
  | RunDone ok =>
    match active p with
    | Some s => Some (set_active None p, [if s_inputError s then Failed (s_id s) else if ok then Result (s_id s) else Failed (s_id s)])
    | None => None
    end
  end.

(** ** The application's proxy *)

(** The loop that feeds a streamed input: not streaming, waiting for an item, for an acknowledgement
    ([last]: of the end of input), or over. *)
Inductive feed : Type := FOff | FNext | FAck (last : bool) | FStop.

Inductive outcome : Type := Resolved | Rejected.

(** One call of [run]; [c_sent] is what was sent, [c_settled] the state of [completion]. *)
Record call : Type := mkCall {
  c_id : Z; c_sequence : Z; c_feed : feed; c_inputError : bool; c_settled : option outcome; c_sent : list (list Z) }.

Record proxy : Type := mkProxy {
  disposed : bool; h_active : option call; nextId : Z; h_results : list (Z * outcome) }.

Definition set_call (c : option call) (h : proxy) : proxy := mkProxy (disposed h) c (nextId h) (h_results h).

(** The first settlement of a promise counts. *)
Definition settle (o : outcome) (c : call) : call :=
  mkCall (c_id c) (c_sequence c) (c_feed c) (c_inputError c)
    (match c_settled c with Some o' => Some o' | None => Some o end) (c_sent c).

Definition set_feed (f : feed) (c : call) : call :=
  mkCall (c_id c) (c_sequence c) f (c_inputError c) (c_settled c) (c_sent c).

Definition after_ack (c : call) : call :=
  match c_feed c with FAck last => set_feed (if last then FStop else FNext) c | _ => c end.

(** The proxy's [message] listener, after [ready]. *)
Definition proxy_message (r : reply) (h : proxy) : proxy :=
  match h_active h with
  | None => h
  | Some c =>
    match r with
    | Ready => h
    | Result id => if id =? c_id c then set_call (Some (settle (if c_inputError c then Rejected else Resolved) c)) h else h
    | Ack id n => if (id =? c_id c) && (n =? c_sequence c) then set_call (Some (after_ack c)) h else h
    | Failed id => if id =? c_id c then set_call (Some (settle Rejected c)) h else h
    end
  end.

Inductive user_event : Type :=
| CallRun (streaming : bool) (maxInput : option Z)
| Item (bytes : list Z)       (* the caller's iterator yields *)
| ItemDone
| ItemFail
| Abort                       (* the caller's abort signal *)
| Finally.                    (* [run] returns after [completion] settled *)

(** The feeding loop sends one chunk and waits. *)
Definition send_chunk (bytes : list Z) (last : bool) (c : call) : call * list request :=
  (mkCall (c_id c) (c_sequence c + 1) (FAck last) (c_inputError c) (c_settled c) (c_sent c ++ [bytes]),
   [Input (c_id c) (Some (c_sequence c + 1)) (Some bytes) last]).

Definition is_next (f : feed) : bool := match f with FNext => true | _ => false end.

Definition user_step (e : user_event) (h : proxy) : option (proxy * list request) :=
  match e, h_active h with
  | CallRun streaming maxInput, None =>
    if disposed h || (MAX_SAFE <? nextId h) then None
    else
      let c := mkCall (nextId h) 0 (if streaming then FNext else FOff) false None [] in
      Some (mkProxy (disposed h) (Some c) (nextId h + 1) (h_results h), [Run (nextId h) streaming maxInput true])
  | Item bytes, Some c =>
    if is_next (c_feed c) then let '(c', out) := send_chunk bytes false c in Some (set_call (Some c') h, out) else None
  | ItemDone, Some c =>
    if is_next (c_feed c) then let '(c', out) := send_chunk [] true c in Some (set_call (Some c') h, out) else None
  | ItemFail, Some c =>
    if is_next (c_feed c) then
      Some (set_call (Some (mkCall (c_id c) (c_sequence c) FStop true (c_settled c) (c_sent c))) h, [CancelRun (c_id c)])
    else None
  | Abort, Some c => Some (h, [CancelRun (c_id c)])
  | Finally, Some c =>
    match c_settled c with
    | Some o => Some (mkProxy (disposed h) None (nextId h) (h_results h ++ [(c_id c, o)]), [])
    | None => None
    end
  | _, _ => None
  end.

(** ** Both sides and their channels *)

Record system : Type := mkSystem { host : proxy; prt : port; to_port : list request; to_host : list reply }.

(** After the worker's [ready]. *)
Definition ready_system (defaultMax : option Z) : system :=
  mkSystem (mkProxy false None 1 []) (mkPort true false None 0 defaultMax) [] [].

Inductive sys_event : Type := User (e : user_event) | Engine (e : engine_event) | ToPort | ToHost.

Definition sys_step (e : sys_event) (s : system) : option system :=
  match e with
  | User e =>
    '(h, out) ← user_step e (host s); Some (mkSystem h (prt s) (to_port s ++ out) (to_host s))
  | Engine e =>
    '(p, out) ← engine_step e (prt s); Some (mkSystem (host s) p (to_port s) (to_host s ++ out))
  | ToPort =>
    match to_port s with
    | [] => None
    | m :: rest => let '(p, out) := on_message m (prt s) in Some (mkSystem (host s) p rest (to_host s ++ out))
    end
  | ToHost =>
    match to_host s with
    | [] => None
    | r :: rest => Some (mkSystem (proxy_message r (host s)) (prt s) (to_port s) rest)
    end
  end.

Inductive reachable (defaultMax : option Z) : system → Prop :=
| reach_ready : reachable defaultMax (ready_system defaultMax)
| reach_step s e s' : reachable defaultMax s → sys_step e s = Some s' → reachable defaultMax s'.
