(* ===== verification/CommandTheorems.v ===== *)
(** * Theorems on the command host *)

From stdpp Require Import base numbers list strings gmap.
From Stdlib Require Import ZArith Lia.
From S2P Require Import Prelude JsNum TermModel Command.

#[local] Open Scope Z_scope.
#[local] Open Scope waste_scope.

(** ** The startup vector *)

Lemma get_le32_app z rest : 0 ≤ z < 2^32 → get_le32 (le32 z ++ rest) = Some z.
Proof. apply get_le32_le32. Qed.

Lemma to_nat_zlen {A} (l : list A) : Z.to_nat (zlen l) = length l.
Proof. apply Nat2Z.id. Qed.

Lemma drop_le32 z (rest : list Z) : drop 4 (le32 z ++ rest) = rest.
Proof. done. Qed.

Lemma vector_size_bound path values : vector_size path values ≤ 131072 → zlen path ≤ 131072 ∧ Forall (λ v, zlen v ≤ 131072) values.
Proof.
  unfold vector_size. intros H. pose proof (zlen_nonneg path).
  assert (0 ≤ foldr (λ v n, 4 + zlen v + n) 0 values ∧
          Forall (λ v, zlen v ≤ foldr (λ v n, 4 + zlen v + n) 0 values) values) as [Hnn Hall].
  { clear. induction values as [|v l [IH1 IH2]]; simpl; [split; [lia|constructor]|]. pose proof (zlen_nonneg v).
    split; [lia|]. constructor; [lia|]. eapply Forall_impl; [exact IH2|]. simpl. lia. }
  split; [lia|]. eapply Forall_impl; [exact Hall|]. simpl. lia.
Qed.

Lemma read_values_app l rest :
  Forall (λ v, zlen v ≤ 131072) l → read_values (length l) (concat (length_prefixed <$> l) ++ rest) = Some (l, rest).
Proof.
  induction 1 as [|v l Hv _ IH]; [done|]. pose proof (zlen_nonneg v).
  assert (concat (length_prefixed <$> v :: l) ++ rest = le32 (zlen v) ++ v ++ concat (length_prefixed <$> l) ++ rest) as ->.
  { cbn [fmap list_fmap concat]. unfold length_prefixed at 1. by rewrite <- !app_assoc. }
  cbn [length read_values]. rewrite get_le32_app by lia. cbn [mbind option_bind].
  rewrite !drop_le32. case (Z.ltb_spec (zlen (v ++ concat (length_prefixed <$> l) ++ rest)) (zlen v)); intros Hz.
  { rewrite zlen_app in Hz. pose proof (zlen_nonneg (concat (length_prefixed <$> l) ++ rest)). lia. }
  rewrite to_nat_zlen, drop_app_length, take_app_length, IH. done.
Qed.


(** ** The worker protocol *)

(** Run and input messages for run [id]. *)
Definition data_of (id : Z) (m : request) : bool :=
  match m with Run i _ _ _ | Input i _ _ _ => i =? id | _ => false end.
Definition is_run (m : request) : bool := match m with Run _ _ _ _ => true | _ => false end.
Definition req_id (m : request) : Z :=
  match m with Run i _ _ _ | Input i _ _ _ | CancelRun i => i | _ => 0 end.
Definition ack_of (id : Z) (r : reply) : bool := match r with Ack i _ => i =? id | _ => false end.
Definition end_of (id : Z) (r : reply) : bool := match r with Result i | Failed i => i =? id | _ => false end.
Definition rep_id (r : reply) : Z := match r with Result i | Failed i | Ack i _ => i | Ready => 0 end.

Definition mine (id : Z) (l : list request) : list request := filter (λ m, data_of id m = true) l.
Definition acks (id : Z) (l : list reply) : list reply := filter (λ r, ack_of id r = true) l.
Definition ends (id : Z) (l : list reply) : list reply := filter (λ r, end_of id r = true) l.

Lemma keep_cons {A} (f : A → bool) a l :
  filter (λ x, f x = true) (a :: l) = if f a then a :: filter (λ x, f x = true) l else filter (λ x, f x = true) l.
Proof. rewrite filter_cons. by destruct (f a). Qed.

Lemma keep_none {A} (f : A → bool) l : (∀ a, a ∈ l → f a = false) → filter (λ x, f x = true) l = [].
Proof.
  induction l as [|a l IH]; intros H; [done|]. rewrite keep_cons, (H a ltac:(left)). apply IH. intros b Hb. apply H. by right.
Qed.

(** The bytes a session has been given. *)
Definition got (s : session) : list Z := concat (it_value <$> (s_taken s ++ s_queue s)).

Definition is_ack_feed (f : feed) : bool := match f with FAck _ => true | _ => false end.

Definition over_limit (s : session) : Prop := s_inputError s = true → s_maxInput s < s_received s.

(** Where the run of call [c] is, from the messages in flight for it. *)
Inductive phase (c : call) (p : port) : list request → list reply → list reply → Prop :=
| ph_wait st mx :
    active p = None → lastId p < c_id c → c_settled c = None → c_sent c = [] → c_sequence c = 0 → is_ack_feed (c_feed c) = false →
    (st = true ∨ c_feed c = FOff) → phase c p [Run (c_id c) st mx true] [] []
| ph_wait_sent mx b last :
    active p = None → lastId p < c_id c → c_settled c = None → c_sent c = [b] → c_sequence c = 1 → c_feed c = FAck last →
    phase c p [Run (c_id c) true mx true; Input (c_id c) (Some 1) (Some b) last] [] []
| ph_quiet s :
    active p = Some s → s_id s = c_id c → lastId p = c_id c → c_settled c = None → is_ack_feed (c_feed c) = false →
    (s_streaming s = true ∨ c_feed c = FOff) → s_sequence s = c_sequence c → got s = concat (c_sent c) → s_inputError s = false →
    phase c p [] [] []
| ph_sent s b last l :
    active p = Some s → s_id s = c_id c → lastId p = c_id c → c_settled c = None → c_feed c = FAck last → s_streaming s = true →
    s_sequence s + 1 = c_sequence c → c_sent c = l ++ [b] → got s = concat l → s_inputError s = false →
    phase c p [Input (c_id c) (Some (c_sequence c)) (Some b) last] [] []
| ph_acked s :
    active p = Some s → s_id s = c_id c → lastId p = c_id c → c_settled c = None → is_ack_feed (c_feed c) = true → s_streaming s = true →
    s_sequence s = c_sequence c → got s = concat (c_sent c) → s_inputError s = false →
    phase c p [] [Ack (c_id c) (c_sequence c)] []
| ph_stuck s l b :
    active p = Some s → s_id s = c_id c → lastId p = c_id c → c_settled c = None → is_ack_feed (c_feed c) = true →
    c_sent c = l ++ [b] → got s = concat l → (s_inputError s = true ∨ s_eof s = true) → over_limit s →
    phase c p [] [] []
| ph_over m a e :
    active p = None → lastId p = c_id c → (e ≠ [] ∨ c_settled c ≠ None) → Forall (λ x, is_run x = false) m → phase c p m a e.

Record sys_ok (s : system) : Prop := {
  ok_port : runtime (prt s) = true ∧ initializing (prt s) = false;
  ok_ids : 0 ≤ lastId (prt s) < nextId (host s) ∧ nextId (host s) ≤ MAX_SAFE + 1;
  ok_reqs : ∀ m, m ∈ to_port s → 1 ≤ req_id m < nextId (host s);
  ok_reps : ∀ r, r ∈ to_host s → rep_id r < nextId (host s);
  ok_runs : ∀ m, m ∈ to_port s → is_run m = true → ∃ c, h_active (host s) = Some c ∧ req_id m = c_id c;
  ok_idle : h_active (host s) = None → active (prt s) = None;
  ok_call : ∀ c, h_active (host s) = Some c → c_id c = nextId (host s) - 1 ∧ 1 ≤ c_id c ∧
    phase c (prt s) (mine (c_id c) (to_port s)) (acks (c_id c) (to_host s)) (ends (c_id c) (to_host s)) }.

Lemma req_none_above id l : (∀ m, m ∈ l → 1 ≤ req_id m < id) → mine id l = [].
Proof. intros H. apply keep_none. intros m Hm. specialize (H m Hm). destruct m; simpl in *; try done; apply Z.eqb_neq; lia. Qed.

Lemma acks_none_above id l : (∀ r, r ∈ l → rep_id r < id) → acks id l = [] ∧ ends id l = [].
Proof.
  intros H. split; apply keep_none; intros r Hr; specialize (H r Hr); destruct r; simpl in *; try done; apply Z.eqb_neq; lia.
Qed.

Lemma mine_app id l1 l2 : mine id (l1 ++ l2) = mine id l1 ++ mine id l2.
Proof. apply filter_app. Qed.

Ltac inv_phase H := inversion H; clear H; subst; simplify_eq.

(** *** Steps of the application *)

Lemma call_ok s c c' out :
  sys_ok s → h_active (host s) = Some c → c_id c' = c_id c → Forall (λ m, req_id m = c_id c ∧ is_run m = false) out →
  phase c' (prt s) (mine (c_id c) (to_port s) ++ mine (c_id c) out) (acks (c_id c) (to_host s)) (ends (c_id c) (to_host s)) →
  sys_ok (mkSystem (set_call (Some c') (host s)) (prt s) (to_port s ++ out) (to_host s)).
Proof.
  intros [Hport Hids Hreqs Hreps Hruns Hidle Hcall] Hc Hid Hout Hph. destruct (Hcall c Hc) as (Hn & H1 & _).
  rewrite Forall_forall in Hout. constructor; simpl; try done.
  - intros m [Hm|Hm]%elem_of_app; [by apply Hreqs|]. destruct (Hout m Hm) as [-> _]. lia.
  - intros m [Hm|Hm]%elem_of_app Hr; [|by destruct (Hout m Hm); congruence].
    destruct (Hruns m Hm Hr) as (c0 & Hc0 & Hi). exists c'. split; [done|]. congruence.
  - intros c0 [= <-]. rewrite Hid. split; [done|]. split; [done|]. by rewrite mine_app.
Qed.

(** Sending the next chunk. *)
Lemma phase_send c p m a e b last :
  c_feed c = FNext → phase c p m a e →
  phase (mkCall (c_id c) (c_sequence c + 1) (FAck last) (c_inputError c) (c_settled c) (c_sent c ++ [b])) p
    (m ++ [Input (c_id c) (Some (c_sequence c + 1)) (Some b) last]) a e.
Proof.
  intros Hf Hp. destruct Hp as [st mx Ha Hl Hs Hse Hsq Hk Hst|mx b0 last0 Ha Hl Hs Hse Hsq Hk|s Ha Hi Hl Hs Hk Hst Hsq Hg Her
    |s b0 last0 l Ha Hi Hl Hs Hk Hst Hsq Hse Hg Her|s Ha Hi Hl Hs Hk Hst Hsq Hg Her|s l b0 Ha Hi Hl Hs Hk Hse Hg Hd Ho
    |m a e Ha Hl He Hm]; try (rewrite Hf in Hk; done).
  - destruct Hst as [->|?]; [|congruence]. rewrite Hsq, Hse.
    by apply (ph_wait_sent (mkCall (c_id c) (0 + 1) (FAck last) (c_inputError c) (c_settled c) ([] ++ [b]))).
  - destruct Hst as [Hst|?]; [|congruence].
    apply (ph_sent (mkCall (c_id c) (c_sequence c + 1) (FAck last) (c_inputError c) (c_settled c) (c_sent c ++ [b]))
             p s b last (c_sent c)); simpl; first [done|lia].
  - apply ph_over; simpl; try done. apply Forall_app. split; [done|]. by repeat constructor.
Qed.

(** The feeding loop stops on an error of the iterator. *)
Lemma phase_stop c p m a e :
  c_feed c = FNext → phase c p m a e → phase (mkCall (c_id c) (c_sequence c) FStop true (c_settled c) (c_sent c)) p m a e.
Proof.
  intros Hf Hp. destruct Hp as [st mx Ha Hl Hs Hse Hsq Hk Hst|mx b0 last0 Ha Hl Hs Hse Hsq Hk|s Ha Hi Hl Hs Hk Hst Hsq Hg Her
    |s b0 last0 l Ha Hi Hl Hs Hk Hst Hsq Hse Hg Her|s Ha Hi Hl Hs Hk Hst Hsq Hg Her|s l b0 Ha Hi Hl Hs Hk Hse Hg Hd Ho
    |m a e Ha Hl He Hm]; try (rewrite Hf in Hk; done).
  - destruct Hst as [->|?]; [|congruence]. by apply (ph_wait (mkCall (c_id c) (c_sequence c) FStop true (c_settled c) (c_sent c)) p true); auto.
  - destruct Hst as [Hst|?]; [|congruence]. by apply (ph_quiet (mkCall (c_id c) (c_sequence c) FStop true (c_settled c) (c_sent c)) p s); auto.
  - by apply ph_over.
Qed.

Lemma mine_input id n b last : mine id [Input id n b last] = [Input id n b last].
Proof. unfold mine. rewrite keep_cons. simpl. by rewrite Z.eqb_refl. Qed.

Lemma user_ok e s h out :
  sys_ok s → user_step e (host s) = Some (h, out) → sys_ok (mkSystem h (prt s) (to_port s ++ out) (to_host s)).
Proof.
  intros Hok He. pose proof Hok as [Hport Hids Hreqs Hreps Hruns Hidle Hcall].
  destruct e as [st mx|b| | | |]; simpl in He; destruct (h_active (host s)) as [c|] eqn:Hc; try done.
  - (* CallRun *)
    destruct (_ || _) eqn:Hd; [done|]. b2p. injection He as <- <-. constructor; simpl; try done; try lia.
    + intros m [Hm| ->%list_elem_of_singleton]%elem_of_app; [specialize (Hreqs m Hm); lia|simpl; lia].
    + intros r Hr. specialize (Hreps r Hr). lia.
    + intros m [Hm| ->%list_elem_of_singleton]%elem_of_app Hr; [destruct (Hruns m Hm Hr) as (? & ? & ?); done|]. by eexists.
    + intros c [= <-]. simpl. split; [lia|]. split; [lia|]. destruct (acks_none_above (nextId (host s)) (to_host s) Hreps) as [-> ->].
      rewrite mine_app, (req_none_above (nextId (host s)) (to_port s) Hreqs). simpl. unfold mine. rewrite keep_cons. simpl.
      rewrite Z.eqb_refl. apply ph_wait; simpl; try done; [by apply Hidle|lia|by destruct st|destruct st; auto].
  - destruct (c_feed c) eqn:Hf; try done. injection He as <- <-. apply call_ok with c; try done; [by repeat constructor|].
    rewrite mine_input. apply phase_send; [done|]. by apply Hcall.
  - destruct (c_feed c) eqn:Hf; try done. injection He as <- <-. apply call_ok with c; try done; [by repeat constructor|].
    rewrite mine_input. apply phase_send; [done|]. by apply Hcall.
  - destruct (c_feed c) eqn:Hf; try done. injection He as <- <-. apply call_ok with c; try done; [by repeat constructor|].
    unfold mine at 2. rewrite keep_cons. simpl. rewrite app_nil_r. apply phase_stop; [done|]. by apply Hcall.
  - injection He as <- <-. replace (host s) with (set_call (Some c) (host s)) at 1 by (destruct (host s); simpl in *; by rewrite Hc).
    apply call_ok with c; try done; [by repeat constructor|]. unfold mine at 2. rewrite keep_cons. simpl. rewrite app_nil_r. by apply Hcall.
  - destruct (c_settled c) as [o|] eqn:Hs; [|done]. injection He as <- <-. destruct (Hcall c eq_refl) as (Hn & _ & Hp).
    assert (active (prt s) = None ∧ Forall (λ x, is_run x = false) (mine (c_id c) (to_port s))) as [Ha Hm].
    { inversion Hp; try congruence. done. }
    rewrite app_nil_r. constructor; simpl; try done.
    intros m Hm0 Hr. exfalso. destruct (Hruns m Hm0 Hr) as (c0 & [= <-] & Hi). rewrite Forall_forall in Hm.
    assert (m ∈ mine (c_id c) (to_port s)) as Hin.
    { apply list_elem_of_filter. split; [|done]. destruct m; simpl in *; try done. by apply Z.eqb_eq. }
    specialize (Hm m Hin). congruence.
Qed.

(** *** Steps of the engine *)

(** The session changed, but not what the phases see. *)
Record alike (s s' : session) : Prop := {
  al_id : s_id s' = s_id s; al_streaming : s_streaming s' = s_streaming s; al_sequence : s_sequence s' = s_sequence s;
  al_got : got s' = got s; al_error : s_inputError s' = s_inputError s; al_received : s_received s' = s_received s;
  al_max : s_maxInput s' = s_maxInput s; al_eof : s_eof s = true → s_eof s' = true }.

Lemma next_alike s : alike s (next_item s).
Proof.
  unfold next_item. destruct (s_queue s) as [|i q] eqn:Hq; [destruct (s_eof s) eqn:He|]; constructor; simpl; try done;
    unfold got; simpl; rewrite ?Hq, ?app_nil_r, ?fmap_app, ?concat_app; simpl; rewrite ?app_nil_r; try done.
  by rewrite <- app_assoc.
Qed.

Lemma return_alike s : alike s (return_iterator s).
Proof. by constructor. Qed.

Lemma abort_alike s : alike s (abort_session false s).
Proof. constructor; try done. simpl. by rewrite orb_false_r. Qed.

Lemma phase_alike c p s s' m a e :
  active p = Some s → alike s s' → phase c p m a e → phase c (set_active (Some s') p) m a e.
Proof.
  intros Hs [H1 H2 H3 H4 H5 H6 H7 H8] Hp.
  destruct Hp as [st mx Ha|mx b0 last0 Ha|s0 Ha Hi Hl Hse Hk Hst Hsq Hg Her
    |s0 b0 last0 l Ha Hi Hl Hse Hk Hst Hsq Hsent Hg Her|s0 Ha Hi Hl Hse Hk Hst Hsq Hg Her|s0 l b0 Ha Hi Hl Hse Hk Hsent Hg Hd Ho
    |m a e Ha]; try congruence; rewrite Hs in Ha; injection Ha as <-.
  - apply (ph_quiet _ _ s'); simpl; congruence.
  - apply (ph_sent _ _ s' b0 last0 l); simpl; congruence.
  - apply (ph_acked _ _ s'); simpl; congruence.
  - apply (ph_stuck _ _ s' l b0); simpl; try congruence.
    + rewrite H5. destruct Hd; auto.
    + unfold over_limit. rewrite H5, H6, H7. done.
Qed.

(** Only the port's session changed. *)
Lemma session_ok s s0 s1 :
  sys_ok s → active (prt s) = Some s0 → alike s0 s1 →
  sys_ok (mkSystem (host s) (set_active (Some s1) (prt s)) (to_port s) (to_host s)).
Proof.
  intros [Hport Hids Hreqs Hreps Hruns Hidle Hcall] Hs Hal. constructor; simpl; try done.
  - intros Hn. rewrite Hidle in Hs; done.
  - intros c Hc. destruct (Hcall c Hc) as (? & ? & Hp). do 2 (split; [done|]). by apply (phase_alike c _ s0).
Qed.

Lemma ends_app id l1 l2 : ends id (l1 ++ l2) = ends id l1 ++ ends id l2.
Proof. apply filter_app. Qed.
Lemma acks_app id l1 l2 : acks id (l1 ++ l2) = acks id l1 ++ acks id l2.
Proof. apply filter_app. Qed.

(** The run in the port is the one the application waits for. *)
Lemma active_call s s0 :
  sys_ok s → active (prt s) = Some s0 →
  ∃ c, h_active (host s) = Some c ∧ s_id s0 = c_id c ∧ lastId (prt s) = c_id c ∧ c_settled c = None ∧
       Forall (λ x, is_run x = false) (mine (c_id c) (to_port s)).
Proof.
  intros Hok Hs. pose proof (ok_idle _ Hok) as Hidle. pose proof (ok_call _ Hok) as Hcall.
  destruct (h_active (host s)) as [c|] eqn:Hc; [|rewrite Hidle in Hs; done]. exists c. split; [done|].
  destruct (Hcall c eq_refl) as (_ & _ & Hp). inversion Hp; simplify_eq; try congruence;
    repeat (split; [congruence|]); by repeat constructor.
Qed.

Lemma engine_ok e s p out :
  sys_ok s → engine_step e (prt s) = Some (p, out) → sys_ok (mkSystem (host s) p (to_port s) (to_host s ++ out)).
Proof.
  intros Hok He. destruct e as [ok| | | |ok]; simpl in He.
  { destruct (ok_port _ Hok) as [_ Hi]. by rewrite Hi in He. }
  1-3: (destruct (active (prt s)) as [s0|] eqn:Hs; [|done]; destruct (_ : bool) eqn:Hb in He; [|done]; injection He as <- <-;
        rewrite app_nil_r; apply (session_ok s s0); auto using next_alike, return_alike).
  destruct (active (prt s)) as [s0|] eqn:Hs; [|done]. injection He as <- <-.
  destruct (active_call s s0 Hok Hs) as (c & Hc & Hid & Hl & Hset & Hrun).
  destruct Hok as [Hport Hids Hreqs Hreps Hruns Hidle Hcall]. destruct (Hcall c Hc) as (Hn & H1 & _).
  set (r := if s_inputError s0 then _ else _).
  assert (rep_id r = c_id c ∧ end_of (c_id c) r = true) as [Hr Hend].
  { unfold r. destruct (s_inputError s0), ok; simpl; rewrite Hid, Z.eqb_refl; done. }
  constructor; simpl; try done.
  - intros r0 [Hr0| ->%list_elem_of_singleton]%elem_of_app; [by apply Hreps|]. lia.
  - intros c0 Hc0. rewrite Hc in Hc0. injection Hc0 as <-. do 2 (split; [done|]). rewrite ends_app, acks_app. apply ph_over; simpl; try done.
    left. unfold ends at 2. rewrite keep_cons, Hend. by destruct (ends _ _).
Qed.

(** *** Delivery to the worker *)

(** The port changed while handling the first message. *)
Lemma to_port_ok s m rest p out c :
  sys_ok s → to_port s = m :: rest → runtime p = true → initializing p = false → 0 ≤ lastId p < nextId (host s) →
  h_active (host s) = Some c → (∀ r, r ∈ out → rep_id r < nextId (host s)) →
  phase c p (mine (c_id c) rest) (acks (c_id c) (to_host s ++ out)) (ends (c_id c) (to_host s ++ out)) →
  sys_ok (mkSystem (host s) p rest (to_host s ++ out)).
Proof.
  intros [Hport Hids Hreqs Hreps Hruns Hidle Hcall] Hm Hr Hi Hl Hc Hout Hp. rewrite Hm in *. constructor; simpl; try done.
  - split; [lia|]. apply Hids.
  - intros m' Hm'. apply Hreqs. by right.
  - intros r [H|H]%elem_of_app; auto.
  - intros m' Hm'. apply Hruns. by right.
  - congruence.
  - intros c0 Hc0. rewrite Hc in Hc0. injection Hc0 as <-. destruct (Hcall c Hc) as (? & ? & _). auto.
Qed.

(** The first message was dropped, or changed only the session's flags. *)
Lemma to_port_idle s m rest p :
  sys_ok s → to_port s = m :: rest → (∀ c, h_active (host s) = Some c → data_of (c_id c) m = false) →
  (p = prt s ∨ ∃ s0 s1, active (prt s) = Some s0 ∧ alike s0 s1 ∧ p = set_active (Some s1) (prt s)) →
  sys_ok (mkSystem (host s) p rest (to_host s ++ [])).
Proof.
  intros Hok Hm Hd Hp. rewrite app_nil_r.
  assert (sys_ok (mkSystem (host s) p (to_port s) (to_host s))) as Hok'.
  { destruct Hp as [->|(s0 & s1 & Hs & Hal & ->)]; [by destruct s|]. by apply (session_ok s s0). }
  destruct Hok' as [Hport Hids Hreqs Hreps Hruns Hidle Hcall]. simpl in *. rewrite Hm in *. constructor; simpl; try done.
  - intros m' Hm'. apply Hreqs. by right.
  - intros m' Hm'. apply Hruns. by right.
  - intros c Hc. destruct (Hcall c Hc) as (? & ? & Hph). do 2 (split; [done|]).
    unfold mine in Hph at 1. by rewrite keep_cons, (Hd c Hc) in Hph.
Qed.

(** A chunk that arrives in sequence. *)
Lemma input_phase c p s b last l :
  active p = Some s → s_id s = c_id c → lastId p = c_id c → c_settled c = None → c_feed c = FAck last → s_streaming s = true →
  s_sequence s + 1 = c_sequence c → c_sent c = l ++ [b] → got s = concat l → s_inputError s = false →
  let '(s', out) := input_message (Some (c_sequence c)) (Some b) last s in
  phase c (set_active (Some s') p) [] (acks (c_id c) out) [] ∧ ends (c_id c) out = [] ∧ s_id s' = c_id c ∧
  (∀ r, r ∈ out → rep_id r = c_id c).
Proof.
  intros Ha Hi Hl Hs Hf Hst Hsq Hse Hg Her. unfold input_message. rewrite Hst. cbn [negb orb].
  destruct (s_eof s) eqn:He.
  { split; [|split; [done|split; [done|by intros r ?%elem_of_nil]]]. apply (ph_stuck _ _ s l b); simpl; auto; [by rewrite Hf|].
    unfold over_limit. congruence. }
  rewrite <- Hsq, Z.eqb_refl. unfold accept_input. case (Z.ltb_spec (s_maxInput s) (s_received s + zlen b)); intros Hlim.
  { split; [|split; [done|split; [done|by intros r ?%elem_of_nil]]].
    eapply (ph_stuck _ _ _ l b); simpl; auto; [by rewrite Hf|]. unfold over_limit. simpl. done. }
  assert (ack_of (c_id c) (Ack (s_id s) (s_sequence s + 1)) = true) as Hack by (simpl; rewrite Hi; apply Z.eqb_refl).
  unfold acks. rewrite keep_cons, Hack. split; [|split; [done|split; [done|by intros r ->%list_elem_of_singleton]]].
  rewrite Hi, Hsq. eapply ph_acked; simpl; try done; [by rewrite Hf|].
  unfold got in *. simpl. rewrite app_assoc, fmap_app, concat_app, Hg, Hse, concat_app. done.
Qed.

(** The start of a run. *)
Lemma run_phase c p mx st :
  active p = None → runtime p = true → lastId p < c_id c →
  ∃ s, run_message (c_id c) st mx true p = (mkPort (runtime p) (initializing p) (Some s) (c_id c) (defaultMax p), []) ∧
    s_id s = c_id c ∧ s_streaming s = st ∧ s_sequence s = 0 ∧ got s = [] ∧ s_inputError s = false.
Proof.
  intros Ha Hr Hl. unfold run_message. rewrite Ha, Hr. simpl. case (Z.leb_spec (c_id c) (lastId p)); [lia|]. intros _. by eexists.
Qed.

Lemma deliver_port s m rest p out :
  sys_ok s → to_port s = m :: rest → on_message m (prt s) = (p, out) → sys_ok (mkSystem (host s) p rest (to_host s ++ out)).
Proof.
  intros Hok Hm Hon. pose proof Hok as [[Hrt Hin] [Hids Hmax] Hreqs Hreps Hruns Hidle Hcall].
  assert (1 ≤ req_id m < nextId (host s)) as Hid by (apply Hreqs; rewrite Hm; left).
  assert (∀ id, (id <? 1) || (MAX_SAFE <? id) = true → id = req_id m → False) as Hvalid.
  { intros id Hb ->. apply orb_true_iff in Hb as [Hb|Hb]; b2p; lia. }
  destruct m as [i|i mx|i|i n b last|i st mx job|i]; simpl in Hid, Hon; try lia;
    (destruct (_ || _) eqn:Hv in Hon; [exfalso; by eapply Hvalid|]); clear Hvalid Hv.
  - (* CancelRun *)
    destruct (active (prt s)) as [s0|] eqn:Hs; [|injection Hon as <- <-; apply (to_port_idle s (CancelRun i)); auto].
    destruct (s_id s0 =? i); injection Hon as <- <-; apply (to_port_idle s (CancelRun i)); auto.
    right. exists s0, (abort_session false s0). auto using abort_alike.
  - (* Input *)
    destruct (h_active (host s)) as [c|] eqn:Hc.
    2: { rewrite (Hidle eq_refl) in Hon. injection Hon as <- <-. eapply to_port_idle; eauto. congruence. }
    destruct (Hcall c eq_refl) as (Hn & H1 & Hp). destruct (decide (i = c_id c)) as [->|Hne].
    2: { assert (p = prt s ∧ out = []) as [-> ->].
         { destruct (active (prt s)) as [s0|] eqn:Hs; [|by injection Hon as <- <-].
           destruct (active_call s s0 Hok Hs) as (c0 & Hc0 & Hi & _). rewrite Hc in Hc0. injection Hc0 as <-.
           rewrite Hi, (proj2 (Z.eqb_neq _ _)) in Hon by done. by injection Hon as <- <-. }
         eapply to_port_idle; eauto. rewrite Hc. intros c0 [= <-]. simpl. by apply Z.eqb_neq. }
    assert (mine (c_id c) (to_port s) = Input (c_id c) n b last :: mine (c_id c) rest) as Hmine.
    { rewrite Hm. unfold mine. rewrite keep_cons. simpl. by rewrite Z.eqb_refl. }
    rewrite Hmine in Hp.
    remember (Input (c_id c) n b last :: mine (c_id c) rest) as l0. remember (acks (c_id c) (to_host s)) as a0.
    remember (ends (c_id c) (to_host s)) as e0.
    destruct Hp as [? ? Ha|? ? ? Ha|s0 Ha|s0 b0 last0 l Ha Hi Hl Hs Hf Hst Hsq Hse Hg Her|s0 Ha|s0 ? ? Ha|m a e Ha Hl He Hrn];
      try (by simplify_eq).
    + injection Heql0 as <- <- <- Hrest. rewrite Ha, Hi, Z.eqb_refl in Hon.
      pose proof (input_phase c (prt s) s0 b0 last0 l Ha Hi Hl Hs Hf Hst Hsq Hse Hg Her) as Hip.
      destruct (input_message _ _ _ s0) as [s1 out1]. injection Hon as <- <-. destruct Hip as (Hph & Hen & Hid1 & Hout).
      apply (to_port_ok s (Input (c_id c) (Some (c_sequence c)) (Some b0) last0) rest _ _ c); simpl; auto.
      * intros r Hr. rewrite (Hout r Hr). lia.
      * rewrite acks_app, ends_app, <- Hrest, <- Heqa0, <- Heqe0, Hen. done.
    + rewrite Ha in Hon. injection Hon as <- <-.
      apply (to_port_ok s (Input (c_id c) n b last) rest _ _ c); simpl; auto; [by intros r ?%elem_of_nil|].
      rewrite app_nil_r. rewrite <- Heqa0, <- Heqe0. apply ph_over; try done. subst m. by inversion Hrn.
  - (* Run *)
    destruct (Hruns (Run i st mx job)) as (c & Hc & Hi); [rewrite Hm; left|done|]. simpl in Hi. subst i.
    destruct (Hcall c Hc) as (Hn & H1 & Hp).
    assert (mine (c_id c) (to_port s) = Run (c_id c) st mx job :: mine (c_id c) rest) as Hmine.
    { rewrite Hm. unfold mine. rewrite keep_cons. simpl. by rewrite Z.eqb_refl. }
    rewrite Hmine in Hp.
    remember (Run (c_id c) st mx job :: mine (c_id c) rest) as l0. remember (acks (c_id c) (to_host s)) as a0.
    remember (ends (c_id c) (to_host s)) as e0.
    destruct Hp as [st0 mx0 Ha Hl Hs Hse Hsq Hk Hst|mx0 b last Ha Hl Hs Hse Hsq Hk|s0 Ha|s0 b0 last0 l Ha|s0 Ha|s0 ? ? Ha|m a e Ha Hl He Hrn];
      try (by simplify_eq).
    + injection Heql0 as <- <- <- Hrest. destruct (run_phase c (prt s) mx0 st0 Ha Hrt Hl) as (s0 & Hrun & Q1 & Q2 & Q3 & Q4 & Q5).
      rewrite Hrun in Hon. injection Hon as <- <-.
      apply (to_port_ok s (Run (c_id c) st0 mx0 true) rest _ _ c); simpl; auto; [lia|by intros r ?%elem_of_nil|].
      rewrite app_nil_r, <- Hrest, <- Heqa0, <- Heqe0.
      apply (ph_quiet _ _ s0); simpl; try congruence. by rewrite Q4, Hse.
    + injection Heql0 as <- <- <- Hrest. destruct (run_phase c (prt s) mx0 true Ha Hrt Hl) as (s0 & Hrun & Q1 & Q2 & Q3 & Q4 & Q5).
      rewrite Hrun in Hon. injection Hon as <- <-.
      apply (to_port_ok s (Run (c_id c) true mx0 true) rest _ _ c); simpl; auto; [lia|by intros r ?%elem_of_nil|].
      rewrite app_nil_r, <- Hrest, <- Heqa0, <- Heqe0, <- Hsq.
      apply (ph_sent _ _ s0 b last []); simpl; try done; lia.
    + subst m. by inversion Hrn.
Qed.

(** *** Delivery to the application *)

Lemma to_host_ok s c c' r rest :
  sys_ok s → to_host s = r :: rest → h_active (host s) = Some c → c_id c' = c_id c →
  phase c' (prt s) (mine (c_id c) (to_port s)) (acks (c_id c) rest) (ends (c_id c) rest) →
  sys_ok (mkSystem (set_call (Some c') (host s)) (prt s) (to_port s) rest).
Proof.
  intros [Hport Hids Hreqs Hreps Hruns Hidle Hcall] Hr Hc Hid Hp. rewrite Hr in *. constructor; simpl; try done.
  - intros r' Hr'. apply Hreps. by right.
  - intros m Hm Hrun. destruct (Hruns m Hm Hrun) as (c0 & Hc0 & Hi). exists c'. split; [done|]. congruence.
  - intros c0 [= <-]. destruct (Hcall c Hc) as (? & ? & _). rewrite Hid. auto.
Qed.

Lemma set_same h c : h_active h = Some c → set_call (Some c) h = h.
Proof. intros H. destruct h. simpl in *. by rewrite H. Qed.

(** A reply for another run changes nothing. *)
Lemma proxy_other r h c : h_active h = Some c → ack_of (c_id c) r = false → end_of (c_id c) r = false → proxy_message r h = h.
Proof. intros Hc Ha He. unfold proxy_message. rewrite Hc. destruct r; simpl in *; try done; by rewrite ?Ha, ?He. Qed.

Lemma phase_ack c p m n a e :
  phase c p m (Ack (c_id c) n :: a) e →
  phase (if n =? c_sequence c then after_ack c else c) p m a e ∧ c_id (after_ack c) = c_id c.
Proof.
  intros Hp. assert (c_id (after_ack c) = c_id c ∧ c_settled (after_ack c) = c_settled c) as [Hid Hse].
  { unfold after_ack. by destruct (c_feed c). }
  split; [|done]. remember (Ack (c_id c) n :: a) as a0.
  destruct Hp as [| | | |s Ha Hi Hl Hs Hk Hst Hsq Hg Her| |m a' e Ha Hl He Hm]; try done.
  - injection Heqa0 as -> <-. rewrite Z.eqb_refl. unfold after_ack in *. destruct (c_feed c) as [| |last|]; try done.
    apply (ph_quiet _ _ s); simpl; auto. by destruct last.
  - apply ph_over; try done; destruct (n =? c_sequence c); congruence.
Qed.

Lemma phase_end c p m a r e o :
  phase c p m a (r :: e) → phase (settle o c) p m a e.
Proof.
  intros Hp. remember (r :: e) as e0. destruct Hp as [| | | | | |m a e' Ha Hl He Hm]; try done.
  apply ph_over; try done. right. simpl. by destruct (c_settled c).
Qed.

Lemma deliver_host s r rest :
  sys_ok s → to_host s = r :: rest → sys_ok (mkSystem (proxy_message r (host s)) (prt s) (to_port s) rest).
Proof.
  intros Hok Hr. pose proof (ok_call _ Hok) as Hcall. destruct (h_active (host s)) as [c|] eqn:Hc.
  2: { unfold proxy_message. rewrite Hc. destruct Hok as [Hport Hids Hreqs Hreps Hruns Hidle Hcall']. rewrite Hr in *.
       constructor; simpl; try done; [|congruence]. intros r' Hr'. apply Hreps. by right. }
  destruct (Hcall c eq_refl) as (Hn & H1 & Hp). rewrite Hr in Hp. unfold acks, ends in Hp. rewrite !keep_cons in Hp.
  destruct (ack_of (c_id c) r) eqn:Ha.
  - destruct r as [|i|i n|i]; simpl in Ha; try done. apply Z.eqb_eq in Ha as ->. simpl in Hp.
    destruct (phase_ack _ _ _ _ _ _ Hp) as [Hp' Hid]. unfold proxy_message. rewrite Hc, Z.eqb_refl. simpl.
    destruct (n =? c_sequence c); [by apply (to_host_ok s c _ (Ack (c_id c) n))|].
    rewrite <- (set_same _ _ Hc). by apply (to_host_ok s c _ (Ack (c_id c) n)).
  - destruct (end_of (c_id c) r) eqn:He.
    + unfold proxy_message. rewrite Hc.
      destruct r as [|i|i n|i]; simpl in He; try done; apply Z.eqb_eq in He as ->; rewrite Z.eqb_refl;
        (eapply to_host_ok; [done|done|done|done|]; eapply phase_end; exact Hp).
    + rewrite (proxy_other _ _ _ Hc Ha He), <- (set_same _ _ Hc). by apply (to_host_ok s c _ r).
Qed.

Lemma sys_step_ok e s s' : sys_ok s → sys_step e s = Some s' → sys_ok s'.
Proof.
  intros Hok. destruct e as [e|e| |]; simpl.
  - destruct (user_step e (host s)) as [[h out]|] eqn:He; [|done]. intros [= <-]. by apply (user_ok e).
  - destruct (engine_step e (prt s)) as [[p out]|] eqn:He; [|done]. intros [= <-]. by apply (engine_ok e).
  - destruct (to_port s) as [|m rest] eqn:Hm; [done|]. destruct (on_message m (prt s)) as [p out] eqn:Hon. intros [= <-].
    by apply (deliver_port s m).
  - destruct (to_host s) as [|r rest] eqn:Hr; [done|]. intros [= <-]. by apply deliver_host.
Qed.

Lemma system_reachable_ok mx s : reachable mx s → sys_ok s.
Proof.
  induction 1 as [|s e s' _ IH Hs]; [|by eapply sys_step_ok].
  constructor; simpl; try done; by intros m ?%elem_of_nil.
Qed.

(** C9: Input streamed through the worker reaches the engine unchanged: in every interleaving of the
    application, the two message channels and the engine, the bytes the running session was given
    are a prefix of the bytes sent for that same run, all of them whenever the application may send
    more; a session only reports an input error when its byte limit was exceeded, never because
    chunks were lost, repeated or out of order. *)
Theorem worker_input_faithful mx s c s0 :
  reachable mx s → h_active (host s) = Some c → active (prt s) = Some s0 →
  s_id s0 = c_id c ∧ concat (it_value <$> (s_taken s0 ++ s_queue s0)) `prefix_of` concat (c_sent c) ∧
  (c_feed c = FNext → concat (it_value <$> (s_taken s0 ++ s_queue s0)) = concat (c_sent c)) ∧
  (s_inputError s0 = true → s_maxInput s0 < s_received s0).
Proof.
  intros Hok%system_reachable_ok Hc Hs. destruct (ok_call _ Hok c Hc) as (_ & _ & Hp).
  inversion Hp as [? ? Ha|? ? ? Ha|s1 Ha Hi Hl Hse Hk Hst Hsq Hg Her|s1 b last l Ha Hi Hl Hse Hf Hst Hsq Hsent Hg Her
    |s1 Ha Hi Hl Hse Hk Hst Hsq Hg Her|s1 l b Ha Hi Hl Hse Hk Hsent Hg Hd Ho|m a e Ha]; rewrite Ha in Hs; simplify_eq;
    unfold got in *; (split; [done|]).
  - rewrite Hg. split; [done|]. split; [done|congruence].
  - rewrite Hg, Hsent, concat_app. split; [by apply prefix_app_r|]. split; congruence.
  - rewrite Hg. split; [done|]. split; [done|congruence].
  - rewrite Hg, Hsent, concat_app. split; [by apply prefix_app_r|]. split; [intros Hf; by rewrite Hf in Hk|done].
Qed.

(** A run is never refused or mixed up: when the worker takes a run message it is idle and the
    run starts; while a run is on, the session is the one the application waits for and no reply
    has settled it; and once the application's call is settled the worker is idle again, so
    the next call can start at once. *)
Theorem worker_run_accepted mx s :
  reachable mx s →
  (∀ id st m job rest, to_port s = Run id st m job :: rest →
     ∃ s0, active (on_message (Run id st m job) (prt s)).1 = Some s0 ∧ s_id s0 = id ∧ (on_message (Run id st m job) (prt s)).2 = []) ∧
  (∀ s0, active (prt s) = Some s0 → ∃ c, h_active (host s) = Some c ∧ c_id c = s_id s0 ∧ c_settled c = None) ∧
  (∀ c o, h_active (host s) = Some c → c_settled c = Some o → active (prt s) = None).
Proof.
  intros Hok%system_reachable_ok. split; [|split].
  - intros id st m job rest Hm. pose proof (ok_reqs _ Hok) as Hreqs. pose proof (ok_ids _ Hok) as [_ Hmax].
    destruct (ok_runs _ Hok (Run id st m job)) as (c & Hc & Hi); [rewrite Hm; left|done|]. simpl in Hi. subst id.
    destruct (ok_call _ Hok c Hc) as (Hn & H1 & Hp). destruct (ok_port _ Hok) as [Hrt _].
    assert (mine (c_id c) (to_port s) = Run (c_id c) st m job :: mine (c_id c) rest) as Hmine.
    { rewrite Hm. unfold mine. rewrite keep_cons. simpl. by rewrite Z.eqb_refl. }
    rewrite Hmine in Hp. assert (active (prt s) = None ∧ lastId (prt s) < c_id c ∧ job = true) as (Ha & Hl & ->).
    { inversion Hp as [| | | | | |? ? ? ? ? ? Hrn]; try done. by inversion Hrn. }
    destruct (run_phase c (prt s) m st Ha Hrt Hl) as (s0 & Hrun & Q1 & _). simpl.
    destruct ((c_id c <? 1) || (MAX_SAFE <? c_id c)) eqn:Hv; [apply orb_true_iff in Hv as [Hv|Hv]; b2p; lia|].
    rewrite Hrun. simpl. eauto.
  - intros s0 Hs. destruct (active_call s s0 Hok Hs) as (c & Hc & Hi & _ & Hse & _). eauto.
  - intros c o Hc Ho. destruct (ok_call _ Hok c Hc) as (_ & _ & Hp). inversion Hp; congruence.
Qed.

(** A run of the system. *)
Definition run_events (es : list sys_event) (s : system) : option system :=
  foldl (λ o e, o ≫= sys_step e) (Some s) es.

Lemma run_events_reachable mx es s s' : reachable mx s → run_events es s = Some s' → reachable mx s'.
Proof.
  unfold run_events. revert s. induction es as [|e es IH]; intros s Hs; simpl; [by intros [= <-]|].
  destruct (sys_step e s) as [s1|] eqn:He.
  - intros H. apply (IH s1); [|done]. by apply reach_step with s e.
  - intros H. exfalso. clear -H. induction es as [|e es IH]; [done|]. by apply IH.
Qed.

Definition sample_run : list sys_event :=
  [User (CallRun true None); ToPort; User (Item [104; 105]); Engine Next; ToPort; Engine Resume; ToHost; User (Item [33])].

Definition sample_system : system := default (ready_system None) (run_events sample_run (ready_system None)).

Lemma sample_reachable : reachable None sample_system.
Proof. apply (run_events_reachable None sample_run (ready_system None)); [apply reach_ready|by vm_compute]. Qed.

Lemma worker_input_faithful_witness :
  ∃ c s0, h_active (host sample_system) = Some c ∧ active (prt sample_system) = Some s0 ∧
    concat (it_value <$> (s_taken s0 ++ s_queue s0)) `prefix_of` concat (c_sent c).
Proof.
  eexists _, _. split; [by vm_compute|]. split; [by vm_compute|].
  eapply (worker_input_faithful None sample_system); [exact sample_reachable|by vm_compute|by vm_compute].
Defined.

Lemma worker_run_accepted_witness :
  ∃ s0 c, active (prt sample_system) = Some s0 ∧ h_active (host sample_system) = Some c ∧ c_id c = s_id s0 ∧ c_settled c = None.
Proof.
  destruct (worker_run_accepted None sample_system sample_reachable) as (_ & H & _).
  destruct (active (prt sample_system)) as [s0|] eqn:Hs; [|by vm_compute in Hs].
  destruct (H s0 eq_refl) as (c & H1 & H2 & H3). exists s0, c. auto.
Defined.

(** ** The engine's reader *)

(** The port's sessions on their own: any messages, any engine. *)
Inductive port_reachable : port → Prop :=
| pr_new : port_reachable new_port
| pr_message p m : port_reachable p → port_reachable (on_message m p).1
| pr_engine p e p' out : port_reachable p → engine_step e p = Some (p', out) → port_reachable p'.

Definition reader_ok (s : session) : Prop :=
  (s_reader s = RWaiting → s_queue s = [] ∧ s_eof s = false) ∧ zlen (got s) ≤ s_received s ∧
  zlen (got s) ≤ Z.max 0 (s_maxInput s).

Lemma got_push taken queue i :
  concat (it_value <$> (taken ++ queue ++ [i])) = concat (it_value <$> (taken ++ queue)) ++ it_value i.
Proof. rewrite app_assoc, fmap_app, concat_app. simpl. by rewrite app_nil_r. Qed.

Lemma wake_not_waiting r : wake r ≠ RWaiting.
Proof. by destruct r. Qed.

Lemma input_reader n b last s : reader_ok s → reader_ok (input_message n b last s).1.
Proof.
  intros (H1 & H2 & H3). unfold input_message. destruct (negb (s_streaming s) || s_eof s); [done|].
  destruct n as [n|]; [|done]. destruct b as [b|]; [|done]. destruct (n =? s_sequence s + 1); [|done].
  unfold accept_input. pose proof (zlen_nonneg b). pose proof (zlen_nonneg (got s)).
  case (Z.ltb_spec (s_maxInput s) (s_received s + zlen b)); intros Hl; simpl.
  - split; [done|]. unfold got in *. simpl. lia.
  - split; [intros Hw; by apply wake_not_waiting in Hw|].
    unfold got in *. simpl. rewrite got_push, zlen_app. simpl. lia.
Qed.

Lemma next_reader s : reader_ok s → reader_ok (next_item s).
Proof.
  intros (H1 & H2 & H3). pose proof (next_alike s) as [_ _ _ Hg _ Hr Hm _]. unfold reader_ok. rewrite Hg, Hr, Hm.
  split; [|done]. unfold next_item. destruct (s_queue s) eqn:Hq; [destruct (s_eof s) eqn:He|]; simpl; done.
Qed.

Lemma return_reader s : reader_ok s → reader_ok (return_iterator s).
Proof. intros (H1 & H2 & H3). split; [intros Hw; by apply wake_not_waiting in Hw|done]. Qed.

Definition port_readers (p : port) : Prop := ∀ s, active p = Some s → reader_ok s.

Lemma port_readers_message m p : port_readers p → port_readers (on_message m p).1.
Proof.
  intros Hp. destruct m as [i|i mx|i|i n b last|i st mx job|i]; simpl; [done| | | | |]; destruct (_ || _); try exact Hp.
  - destruct (active p) as [s|] eqn:Hs; [|done]. destruct (s_id s =? i); [|done]. intros s' [= <-]. exact (Hp s Hs).
  - destruct (active p) as [s|] eqn:Hs; [|done]. destruct (s_id s =? i); [|done].
    pose proof (input_reader n b last s (Hp s Hs)) as Hr. destruct (input_message n b last s) as [s1 out]. by intros s' [= <-].
  - unfold run_message. destruct (_ || _); [done|]. destruct job; intros s [= <-].
    split; [done|]. unfold got, zlen. simpl. lia.
Qed.

Lemma port_readers_engine e p p' out : port_readers p → engine_step e p = Some (p', out) → port_readers p'.
Proof.
  intros Hp He. destruct e as [ok| | | |ok]; simpl in He.
  { destruct (initializing p); [|done]. by injection He as <- <-. }
  1-3: (destruct (active p) as [s0|] eqn:Hs; [|done]; destruct (_ : bool) eqn:Hb in He; [|done]; injection He as <- <-;
        intros s [= <-]; specialize (Hp s0 Hs); auto using next_reader, return_reader).
  destruct (active p); [|done]. by injection He as <- <-.
Qed.

Lemma port_readers_reachable p : port_reachable p → port_readers p.
Proof.
  induction 1 as [|p m _ IH|p e p' out _ IH He]; [done|by apply port_readers_message|by eapply port_readers_engine].
Qed.

(** Whatever messages arrive at the worker, from any sender, and whatever its engine does: the engine's
    reader never sleeps while there is input or the end of input to deliver, and the bytes queued
    and delivered for a run never exceed its input limit. *)
Theorem worker_reader_safe p s :
  port_reachable p → active p = Some s →
  (s_reader s = RWaiting → s_queue s = [] ∧ s_eof s = false) ∧
  zlen (concat (it_value <$> (s_taken s ++ s_queue s))) ≤ Z.max 0 (s_maxInput s).
Proof.
  intros Hr Hs. destruct (port_readers_reachable p Hr s Hs) as (? & ? & ?). done.
Qed.

Definition sample_port : port :=
  (on_message (Input 1 (Some 1) (Some [7; 8]) false)
    (on_message (Run 1 true (Some 100) true) (mkPort true false None 0 None)).1).1.

Lemma sample_port_reachable : port_reachable sample_port.
Proof.
  unfold sample_port. apply pr_message, pr_message.
  apply (pr_engine (on_message (Init 0 None) new_port).1 (InitDone true) _ [Ready]); [apply pr_message, pr_new|done].
Qed.

Lemma worker_reader_safe_witness :
  ∃ s, active sample_port = Some s ∧ (s_reader s = RWaiting → s_queue s = [] ∧ s_eof s = false) ∧
    zlen (concat (it_value <$> (s_taken s ++ s_queue s))) ≤ Z.max 0 (s_maxInput s).
Proof.
  eexists. split; [by vm_compute|]. eapply (worker_reader_safe sample_port); [exact sample_port_reachable|by vm_compute].
Defined.

(** ** The options record *)

Lemma put_words_ok l i bytes :
  put_words i l = Ok bytes → length bytes = (4 * length l)%nat ∧
  ∀ k v, l !! k = Some v → 0 ≤ v ≤ 4294967295 ∧ get_le32 (drop (4 * k) bytes) = Some v.
Proof.
  revert i bytes. induction l as [|v l IH]; intros i bytes; cbn [put_words]; [by intros [= <-]|].
  destruct (_ || _) eqn:Hb; [done|]. apply orb_false_iff in Hb as [Hb1 Hb2]. b2p.
  destruct (put_words (i + 1) l) as [tail|] eqn:Ht; [|done]. cbn [rbind]. injection 1 as <-. destruct (IH _ _ Ht) as [Hl Hk].
  split; [simpl; lia|]. intros [|k] v' Hv; simpl in Hv.
  - injection Hv as <-. split; [destruct (i =? 2); lia|]. apply get_le32_app. destruct (i =? 2); lia.
  - replace (4 * S k)%nat with (4 + 4 * k)%nat by lia. change (drop (4 + 4 * k) (le32 v ++ tail)) with (drop (4 * k) tail). by apply Hk.
Qed.

(** The options record [run] sends is 64 bytes long and holds every limit at its place; values
    outside their range never reach the engine. *)
Theorem options_record_layout l bytes :
  length (words l) = 7%nat → options_record l = Ok bytes →
  zlen bytes = 64 ∧ get_le32 bytes = Some 64 ∧
  ∀ k v, words l !! k = Some v → 0 ≤ v ≤ 4294967295 ∧ get_le32 (drop (4 + 4 * k) bytes) = Some v.
Proof.
  intros H7. unfold options_record. destruct (put_words 0 (words l)) as [body|] eqn:Hb; [|done]. cbn [rbind].
  destruct (_ || _); [done|]. intros H. assert (bytes = le32 64 ++ body ++ le64 (maxInstructions l) ++ replicate 24 0) as ->.
  { by injection H. }
  clear H. destruct (put_words_ok _ _ _ Hb) as [Hl Hk].
  split; [rewrite !zlen_app; unfold zlen; rewrite Hl, H7; done|]. split; [done|].
  intros k v Hv. destruct (Hk k v Hv) as [Hr Hg]. split; [done|].
  change (drop (4 + 4 * k) (le32 64 ++ ?x)) with (drop (4 * k) x).
  pose proof (lookup_lt_Some _ _ _ Hv). rewrite drop_app_le by lia.
  assert (4 ≤ length (drop (4 * k) body))%nat as H4 by (rewrite length_drop; lia).
  destruct (drop (4 * k) body) as [|b0 [|b1 [|b2 [|b3 r]]]]; simpl in H4; try lia. done.
Qed.
