(* ===== verification/CommandLife.v ===== *)
(** * The life of a command worker (src/html-rt/command/waste.mjs: createWasteWorker)

    How the proxy comes up, fails and is disposed of: the object URL of bundled worker source,
    the worker, the [ready] promise, the promise of [createWasteWorker] itself and the run in
    progress.  What a run exchanges with the worker is the subject of [Command].  The worker delivers no
    events once it has been terminated. *)

From stdpp Require Import base numbers list.
From Stdlib Require Import ZArith Lia.
From S2P Require Import Prelude JsNum TermModel Command.

#[local] Open Scope Z_scope.

(** A promise that carries nothing. *)
Inductive promise : Type := Pending | Fulfilled | Broken.

#[export] Instance promise_eq_dec : EqDecision promise.
Proof. solve_decision. Defined.

(** The first settlement counts. *)
Definition settle_with (v p : promise) : promise := match p with Pending => v | _ => p end.

Record life : Type := mkLife {
  objectURL : bool;          (* the variable is set *)
  urls : Z;                  (* object URLs created and not revoked *)
  live : bool;               (* the worker is not terminated *)
  l_disposed : bool;
  ready : promise; created : promise;
  run : option promise;      (* the [completion] of [active] *)
  runs : list promise }.     (* how the runs that are over ended *)

(** Up to [await ready]; [bundled]: [workerSource] is given.  [posts]: the files are valid and the
    first message could be posted; otherwise the [catch] follows. *)
Definition revokeURL (s : life) : life :=
  mkLife false (if objectURL s then urls s - 1 else urls s) (live s) (l_disposed s) (ready s) (created s) (run s) (runs s).

Definition terminate (s : life) : life :=
  mkLife (objectURL s) (urls s) false (l_disposed s) (ready s) (created s) (run s) (runs s).

(** The [catch] of [createWasteWorker]: it does not clear the variable. *)
Definition abandon (s : life) : life :=
  mkLife (objectURL s) (if objectURL s then urls s - 1 else urls s) false (l_disposed s) (ready s) Broken (run s) (runs s).

Definition create (bundled posts : bool) : life :=
  let s := mkLife bundled (if bundled then 1 else 0) true false Pending Pending None [] in
  if posts then s else abandon s.

Definition failAll (s : life) : life :=
  let s1 := if l_disposed s then s else terminate s in
  mkLife (objectURL s1) (urls s1) (live s1) true (settle_with Broken (ready s1)) (created s1)
    (settle_with Broken <$> run s1) (runs s1).

(** Messages by what the listener does with them; those of a run settle it, or do nothing. *)
Inductive worker_message : Type := OtherProtocol | ReadyMessage | InitError | RunMessage (outcome : option promise).

Definition on_worker_message (m : worker_message) (s : life) : life :=
  match m with
  | OtherProtocol => failAll s
  | ReadyMessage =>
    let s1 := if objectURL s then revokeURL s else s in
    mkLife (objectURL s1) (urls s1) (live s1) (l_disposed s1) (settle_with Fulfilled (ready s1)) (created s1) (run s1) (runs s1)
  | InitError => mkLife (objectURL s) (urls s) (live s) (l_disposed s) (settle_with Broken (ready s)) (created s) (run s) (runs s)
  | RunMessage o =>
    mkLife (objectURL s) (urls s) (live s) (l_disposed s) (ready s) (created s)
      (match o with Some v => settle_with v <$> run s | None => run s end) (runs s)
  end.

(** The call of [dispose]; [None] when it throws. *)
Definition dispose (s : life) : option life :=
  match run s with
  | Some _ => None
  | None =>
    if l_disposed s then Some s
    else Some (mkLife (objectURL s) (urls s) false true (ready s) (created s) None (runs s))
  end.

Definition start_run (s : life) : option life :=
  if l_disposed s || bool_decide (is_Some (run s)) then None
  else Some (mkLife (objectURL s) (urls s) (live s) (l_disposed s) (ready s) (created s) (Some Pending) (runs s)).

(** The [finally] of a run. *)
Definition end_run (s : life) : option life :=
  match run s with
  | Some Pending | None => None
  | Some p => Some (mkLife (objectURL s) (urls s) (live s) (l_disposed s) (ready s) (created s) None (runs s ++ [p]))
  end.

Inductive life_event : Type :=
| WorkerError | WorkerMessage (m : worker_message)
| Settled                          (* what follows [await ready] *)
| Dispose | StartRun | EndRun.

(** [None] when the event cannot happen now, or the call throws. *)
Definition life_step (e : life_event) (s : life) : option life :=
  match e with
  | WorkerError => if live s then Some (failAll s) else None
  | WorkerMessage m => if live s then Some (on_worker_message m s) else None
  | Settled =>
    match created s, ready s with
    | Pending, Fulfilled => Some (mkLife (objectURL s) (urls s) (live s) (l_disposed s) (ready s) Fulfilled (run s) (runs s))
    | Pending, Broken => Some (abandon s)
    | _, _ => None
    end
  | Dispose => if bool_decide (created s = Fulfilled) then dispose s else None
  | StartRun => if bool_decide (created s = Fulfilled) then start_run s else None
  | EndRun => end_run s
  end.

Inductive life_reachable : life → Prop :=
| life_created bundled posts : life_reachable (create bundled posts)
| life_next s e s' : life_reachable s → life_step e s = Some s' → life_reachable s'.

(** ** The invariant *)

Record life_ok (s : life) : Prop := {
  lo_urls : match created s with
            | Pending | Fulfilled => urls s = (if objectURL s then 1 else 0) ∧ (ready s = Fulfilled → objectURL s = false)
            | Broken => urls s = 0 ∧ live s = false
            end;
  lo_created : created s = Fulfilled → ready s = Fulfilled;
  lo_run : created s ≠ Fulfilled → run s = None;
  lo_live : live s = false → l_disposed s = true ∨ created s = Broken;
  lo_disposed : l_disposed s = true → live s = false;
  lo_failed : created s = Fulfilled → l_disposed s = true → run s ≠ Some Pending }.

Lemma life_ok_create bundled posts : life_ok (create bundled posts).
Proof. destruct bundled, posts; constructor; simpl; naive_solver. Qed.

Lemma life_ok_fail s : life_ok s → live s = true → life_ok (failAll s).
Proof.
  intros [Hu Hc Hr Hl Hd Hf] Hlive. destruct (l_disposed s) eqn:Hdis; [specialize (Hd eq_refl); congruence|].
  unfold failAll. rewrite Hdis. constructor; simpl; auto.
  - destruct (created s); [..|destruct Hu; congruence]; destruct Hu as [-> Hu]; (split; [done|]);
      destruct (ready s); simpl; auto; done.
  - intros H. by rewrite (Hc H).
  - intros H. by rewrite (Hr H).
  - intros _ _. by destruct (run s) as [[]|].
Qed.

Lemma life_ok_message m s : life_ok s → live s = true → life_ok (on_worker_message m s).
Proof.
  intros H Hlive. destruct m; simpl; [by apply life_ok_fail|..]; destruct H as [Hu Hc Hr Hl Hd Hf].
  - destruct (objectURL s) eqn:Ho; constructor; simpl; auto; rewrite ?Ho in *;
      try (intros H; by rewrite (Hc H)); destruct (created s); try (destruct Hu; congruence);
      destruct Hu as [Hu1 Hu2]; split; auto; lia.
  - constructor; simpl; auto; try (intros H; by rewrite (Hc H)).
    destruct (created s); try (destruct Hu; congruence); destruct Hu as [Hu1 Hu2]; split; auto;
      destruct (ready s); simpl; auto; done.
  - constructor; simpl; auto; [intros H; rewrite (Hr H); by destruct outcome|].
    intros H1 H2. rewrite (Hd H2) in Hlive. done.
Qed.

Lemma life_ok_step e s s' : life_ok s → life_step e s = Some s' → life_ok s'.
Proof.
  intros H. destruct e; simpl.
  - destruct (live s) eqn:Hl; [|done]. intros [= <-]. by apply life_ok_fail.
  - destruct (live s) eqn:Hl; [|done]. intros [= <-]. by apply life_ok_message.
  - destruct H as [Hu Hc Hr Hl Hd Hf]. destruct (created s) eqn:Hcr; [|done|done].
    destruct (ready s) eqn:Hrd; [done| |]; intros [= <-]; destruct Hu as [Hu1 Hu2].
    + constructor; simpl; auto; try done; [intros H; destruct (Hl H); [by left|done]|]. intros _ _. by rewrite Hr.
    + constructor; simpl; auto; try done. split; [|done]. destruct (objectURL s); lia.
  - case_bool_decide as Hcr; [|done]. unfold dispose. destruct (run s) as [p|] eqn:Hrun; [done|].
    destruct (l_disposed s) eqn:Hdis; intros [= <-]; [done|].
    destruct H as [Hu Hc Hr Hl Hd Hf]. constructor; simpl; auto. rewrite Hcr in *. done.
  - case_bool_decide as Hcr; [|done]. unfold start_run. destruct (_ || _) eqn:Hb; [done|]. intros [= <-].
    apply orb_false_iff in Hb as [Hb _]. destruct H as [Hu Hc Hr Hl Hd Hf]. constructor; simpl; auto; congruence.
  - unfold end_run. destruct (run s) as [p|] eqn:Hrun; [|done]. destruct H as [Hu Hc Hr Hl Hd Hf].
    destruct p; [done| |]; intros [= <-]; constructor; simpl; auto; done.
Qed.


(** The worker crashes during a run. *)
Definition life_run (l : list life_event) : option life :=
  foldl (λ os e, s ← os; life_step e s) (Some (create true true)) l.

Definition crashed : life :=
  default (create true true) (life_run [WorkerMessage ReadyMessage; Settled; StartRun; WorkerError]).

