(* ===== verification/Runtime.v ===== *)
(** * The command runtime (createWaste in src/html-rt/command/waste.mjs)

    One runtime runs one command at a time: it creates an engine session,
    stages files, starts the command, steps it until it ends, collects output
    and destroys the session.  The engine is a parameter: a function from the
    history of its calls to the next answer and to the bytes a read of its
    memory sees.  [run] is cut at its [await]s: between them an abort signal or
    the items of a streamed input may come. *)

From stdpp Require Import base numbers list strings gmap.
From Stdlib Require Import ZArith Lia.
From S2P Require Import Prelude JsNum TermModel Command.

#[local] Open Scope Z_scope.

(** ** Engine calls: the [waste_command_] exports, and stores into the engine's memory *)

Inductive call : Type :=
| Alloc (n : Z) | Free (p : Z) | Store (p : Z) (bytes : list Z)
| Error (p n : Z)
| Create (p n : Z) | Destroy (h : Z)
| Inspect (h p n : Z) | Mkdir (h p n mode : Z) | PutFile (h p n q m mode : Z) | Cwd (h p n : Z) | InputBytes (h p n eof : Z)
| Start (h p n : Z) | Step (h : Z) | Cancel (h : Z) | Output (h fd p n : Z) | Stat (h p n q : Z) | ReadFile (h p n q m : Z).

Record engine : Type := mkEngine { answer : list call → call → Z; memory : list call → Z → Z → list Z }.

Inductive exn : Type :=
| Disposed | Busy | BadCommand (e : command_error) | NoBuffer | EngineError (status : Z) | TooLarge | Changed | InputFailed.

(** What [inspect] returns of the 328-byte record. *)
Record inspection : Type := mkInspection {
  i_state : Z; i_wait : Z; i_exitCode : Z; i_signal : Z; i_stdoutBytes : Z; i_stderrBytes : Z }.

Record completion : Type := mkCompletion {
  o_state : Z; o_exitCode : option Z; o_stdout : list Z; o_stderr : list Z; o_files : list (list Z * list Z) }.

(** A run between two turns: its handle, what it must collect, the state of its input. *)
Record current : Type := mkCurrent {
  r_handle : Z; r_outputPaths : list (list Z); r_maxOutput : Z; r_feeding : bool; r_inputError : bool }.

Record rt : Type := mkRt {
  calls : list call; busy : bool; disposed : bool; running : option current; outcomes : list (result exn completion) }.

Definition set_calls (l : list call) (w : rt) : rt := mkRt l (busy w) (disposed w) (running w) (outcomes w).
Definition set_busy (b : bool) (w : rt) : rt := mkRt (calls w) b (disposed w) (running w) (outcomes w).
Definition set_running (r : option current) (w : rt) : rt := mkRt (calls w) (busy w) (disposed w) r (outcomes w).
Definition set_disposed (w : rt) : rt := mkRt (calls w) (busy w) true (running w) (outcomes w).
Definition add_outcome (o : result exn completion) (w : rt) : rt :=
  mkRt (calls w) (busy w) (disposed w) (running w) (outcomes w ++ [o]).

(** ** Computations: exceptions keep the state *)

Definition M (A : Type) : Type := rt → result exn A * rt.
#[export] Instance M_ret : MRet M := λ A a w, (Ok a, w).
#[export] Instance M_bind : MBind M := λ A B k m w,
  match m w with (Ok a, w') => k a w' | (Err e, w') => (Err e, w') end.

Definition throw {A} (e : exn) : M A := λ w, (Err e, w).
Definition upd (f : rt → rt) : M unit := λ w, (Ok tt, f w).
Definition lift {A} (r : result command_error A) : M A := λ w, (match r with Ok a => Ok a | Err e => Err (BadCommand e) end, w).
(** [try m finally f] where [f] does not throw. *)
Definition finally {A} (m : M A) (f : M unit) : M A := λ w, let '(r, w1) := m w in (r, (f w1).2).
Fixpoint mfor {A} (f : A → M unit) (l : list A) : M unit :=
  match l with [] => mret tt | a :: l' => f a;; mfor f l' end.

Section runtime.
Context (E : engine).

Definition ask (c : call) : M Z := λ w, (Ok (answer E (calls w) c), set_calls (c :: calls w) w).
Definition do_call (c : call) : M unit := ask c;; mret tt.
Definition read (p n : Z) : M (list Z) := λ w, (Ok (memory E (calls w) p n), w).

Definition allocation {A} (size : Z) (callback : Z → M A) : M A :=
  pointer ← ask (Alloc (Z.max size 1));
  if pointer =? 0 then throw NoBuffer else finally (callback pointer) (do_call (Free pointer)).

(** [throw error(code)]. *)
Definition throw_error {A} (code : Z) : M A :=
  status ← allocation 256 (λ p, ask (Error p 256));
  throw (EngineError (if status =? 0 then - code else status)).

Definition checked (code : Z) : M Z := if code <? 0 then throw_error code else mret code.
Definition checked_call (c : call) : M Z := code ← ask c; checked code.

Definition transfer {A} (value : list Z) (callback : Z → Z → M A) : M A :=
  allocation (zlen value) (λ p, do_call (Store p value);; callback p (zlen value)).

Definition word (record : list Z) (offset : nat) : Z := default 0 (get_le32 (drop offset record)).

Definition inspect (handle : Z) : M inspection :=
  allocation 328 (λ p,
    checked_call (Inspect handle p 328);;
    copy ← read p 328;
    mret (mkInspection (word copy 4) (word copy 8) (to_int32 (word copy 12)) (word copy 16) (word copy 20) (word copy 24))).

Definition output (handle fd length : Z) : M (list Z) :=
  allocation length (λ p, copied ← checked_call (Output handle fd p length); read p copied).

Definition double_word (record : list Z) (offset : nat) : Z := word record offset + 2^32 * word record (offset + 4).

Definition readFile (handle : Z) (path : list Z) (maximum : Z) : M (list Z) :=
  transfer path (λ pathPointer pathLength,
    allocation 32 (λ metadata,
      checked_call (Stat handle pathPointer pathLength metadata);;
      info ← read metadata 32;
      let size := double_word info 8 in
      if maximum <? size then throw TooLarge
      else allocation size (λ p,
        count ← checked_call (ReadFile handle pathPointer pathLength p size);
        if count =? size then read p count else throw Changed))).

(** ** Staging *)

(** [path.slice(0, path.lastIndexOf("/")) || "/"]; without a slash [slice(0, -1)] drops the last character. *)
Definition parent_of (path : list Z) : list Z :=
  let head := match split_on 47 (rev path) with
              | tail_rev :: _ :: _ => take (length path - length tail_rev - 1) path
              | _ => removelast path
              end in
  if bool_decide (head = []) then [47] else head.

Definition first_directories : list (list Z) :=
  codes <$> ["/"; "/bin"; "/dev"; "/usr"; "/usr/bin"; "/usr/lib"; "/lib"; "/root"; "/tmp"; "/work"]%string.

(** [parents]: the missing directories above [path], outermost first. The recursion shortens the path. *)
Fixpoint parents (fuel : nat) (handle : Z) (path : list Z) (directories : list (list Z)) : M (list (list Z)) :=
  match fuel with
  | O => mret directories
  | S fuel =>
    let parent := parent_of path in
    if bool_decide (parent ∈ directories) then mret directories
    else
      known ← parents fuel handle parent directories;
      transfer parent (λ p n, checked_call (Mkdir handle p n 493));;
      mret (parent :: known)
  end.

Record asset : Type := mkAsset { a_path : list Z; a_bytes : list Z; a_mode : Z }.

Fixpoint stage_assets (handle : Z) (files : list asset) (directories : list (list Z)) : M unit :=
  match files with
  | [] => mret tt
  | f :: rest =>
    known ← parents (S (length (a_path f))) handle (a_path f) directories;
    transfer (a_path f) (λ p n, transfer (a_bytes f) (λ q m, checked_call (PutFile handle p n q m (a_mode f))));;
    stage_assets handle rest known
  end.

Definition append (handle : Z) (value : list Z) (eof : bool) : M unit :=
  transfer value (λ p n, checked_call (InputBytes handle p n (if eof then 1 else 0)));; mret tt.

Definition cancel (handle : Z) : M unit := checked_call (Cancel handle);; mret tt.

(** ** A run *)

(** The arguments of [run]; [j_stdin] is [None] for a streamed input. *)
Record job : Type := mkJob {
  j_executable : list Z; j_args : list (list Z); j_env : option (list (list Z)); j_cwd : list Z; j_files : list asset;
  j_stdin : option (list Z); j_outputPaths : list (list Z); j_limits : limits; j_aborted : bool }.

Definition maxOutputBytes (l : limits) : Z := default 0 (words l !! 1%nat).

(** [[...new Set(l)]]: the first of each. *)
Fixpoint without_doubles (seen l : list (list Z)) : list (list Z) :=
  match l with
  | [] => []
  | a :: rest => if bool_decide (a ∈ seen) then without_doubles seen rest else a :: without_doubles (a :: seen) rest
  end.

(** The collected files; one that cannot be read is reported, not fatal. *)
Fixpoint collect (handle : Z) (paths : list (list Z)) (left : Z) : M (list (list Z * list Z)) :=
  match paths with
  | [] => mret []
  | path :: rest => λ w,
    match readFile handle path left w with
    | (Ok value, w1) => (more ← collect handle rest (left - zlen value); mret ((path, value) :: more)) w1
    | (Err _, w1) => collect handle rest left w1
    end
  end.

(** Leaving the [try] of [run]. *)
Definition close (handle : Z) : M unit :=
  (if handle =? 0 then mret tt else do_call (Destroy handle));;
  upd (set_running None);; upd (set_busy false).

(** After the loop: the result. *)
Definition conclude (c : current) (i : inspection) : M completion :=
  if r_inputError c then throw InputFailed
  else
    files ← collect (r_handle c) (r_outputPaths c) (r_maxOutput c);
    out ← output (r_handle c) 1 (i_stdoutBytes i);
    err ← output (r_handle c) 2 (i_stderrBytes i);
    mret (mkCompletion (i_state i) (if i_state i =? 3 then Some (i_exitCode i) else None) out err files).

(** The run settles with [m], or pauses. *)
Definition settle_run (handle : Z) (m : M (option completion)) : M unit := λ w,
  match m w with
  | (Ok None, w1) => (Ok tt, w1)
  | (Ok (Some o), w1) => (close handle;; upd (add_outcome (Ok o))) w1
  | (Err e, w1) => (close handle;; upd (add_outcome (Err e))) w1
  end.

(** A step of the loop, up to the next [pause] or the result. *)
Definition loop_step (c : current) : M (option completion) :=
  checked_call (Step (r_handle c));;
  i ← inspect (r_handle c);
  if i_state i <? 3 then upd (set_running (Some c));; mret None
  else o ← conclude c i; mret (Some o).

(** From the staging to the first [pause]. *)
Definition launch (handle : Z) (vector : list Z) (j : job) : M (option completion) :=
  stage_assets handle (j_files j) first_directories;;
  transfer (j_cwd j) (λ p n, checked_call (Cwd handle p n));;
  match j_stdin j with Some bytes => append handle bytes true | None => mret tt end;;
  (if j_aborted j then cancel handle else mret tt);;
  i ← inspect handle;
  (if i_state i <? 3 then
     started ← transfer vector (λ p n, ask (Start handle p n));
     if started <? 0 then i2 ← inspect handle; if i_state i2 <? 3 then throw_error started else mret tt else mret tt
   else mret tt);;
  feeding ← match j_stdin j with
            | Some _ => mret false
            | None => i3 ← inspect handle; mret (i_state i3 <? 3)
            end;
  i4 ← inspect handle;
  let c := mkCurrent handle (without_doubles [] (j_outputPaths j)) (maxOutputBytes (j_limits j)) feeding false in
  if i_state i4 <? 3 then loop_step c else o ← conclude c i4; mret (Some o).

Definition no_nuls (l : list (list Z)) : result command_error unit := if forallb no_nul l then Ok tt else Err HasNul.

(** Inside the [try] of [run]. *)
Definition create_and_launch (record vector : list Z) (j : job) : M unit := λ w,
  match transfer record (λ p n, ask (Create p n)) w with
  | (Err e, w1) => (close 0;; upd (add_outcome (Err e))) w1
  | (Ok handle, w1) => settle_run handle (if handle =? 0 then throw_error (-1) else launch handle vector j) w1
  end.

(** [run] up to its first [await]. *)
Definition run_start (j : job) : M unit := λ w,
  if disposed w then (Err Disposed, w) else if busy w then (Err Busy, w)
  else
    (vector ← lift (commandVector (j_executable j) (j_args j) (j_env j));
     lift (no_nuls (j_outputPaths j));;
     record ← lift (options_record (j_limits j));
     upd (set_busy true);;
     create_and_launch record vector j) w.

(** ** Between the turns *)

Inductive event : Type :=
| Run (j : job)
| Tick                        (* the loop continues after [pause] *)
| AbortSignal
| StreamItem (bytes : list Z)
| StreamDone
| StreamFail
| Dispose.

Definition stop_feeding (error : bool) (c : current) : current :=
  mkCurrent (r_handle c) (r_outputPaths c) (r_maxOutput c) false (r_inputError c || error).

(** An error of the input: remembered, and the run is cancelled. *)
Definition input_failed (c : current) : M unit :=
  upd (set_running (Some (stop_feeding true c)));; cancel (r_handle c).

(** [append] in the feeding loop. *)
Definition feed (c : current) (bytes : list Z) (eof : bool) : M unit := λ w,
  match append (r_handle c) bytes eof w with
  | (Ok _, w1) => (upd (if eof then set_running (Some (stop_feeding false c)) else id)) w1
  | (Err _, w1) => input_failed c w1
  end.

Definition step (e : event) (w : rt) : option rt :=
  match e, running w with
  | Run j, _ => Some (run_start j w).2
  | Tick, Some c => Some (settle_run (r_handle c) (loop_step c) w).2
  | AbortSignal, Some c => Some (cancel (r_handle c) w).2
  | StreamItem bytes, Some c => if r_feeding c then Some (feed c bytes false w).2 else None
  | StreamDone, Some c => if r_feeding c then Some (feed c [] true w).2 else None
  | StreamFail, Some c => if r_feeding c then Some (input_failed c w).2 else None
  | Dispose, _ => if busy w then None else Some (set_disposed w)
  | _, _ => None
  end.

Definition fresh : rt := mkRt [] false false None [].

Inductive reachable : rt → Prop :=
| reach_fresh : reachable fresh
| reach_step w e w' : reachable w → step e w = Some w' → reachable w'.
End runtime.
