(* ===== verification/RuntimeTheorems.v ===== *)
(** * Theorems on the command runtime *)

From stdpp Require Import base numbers list strings gmap.
From Stdlib Require Import ZArith Lia.
From S2P Require Import Prelude JsNum TermModel Command Runtime.

#[local] Open Scope Z_scope.

(** ** Reading the history of engine calls, newest first *)

(** The handle a call works on. *)
Definition handle_of (c : call) : option Z :=
  match c with
  | Inspect h _ _ | Mkdir h _ _ _ | PutFile h _ _ _ _ _ | Cwd h _ _ | InputBytes h _ _ _ | Start h _ _ | Step h | Cancel h
  | Output h _ _ _ | Stat h _ _ _ | ReadFile h _ _ _ _ => Some h
  | _ => None
  end.

Section history.
Context (E : engine).

(** Buffers handed out and not yet freed, newest first; [None] after a free of anything else. *)
Fixpoint live (h : list call) : option (list Z) :=
  match h with
  | [] => Some []
  | c :: h' =>
    l ← live h';
    match c with
    | Alloc n => let p := answer E h' (Alloc n) in Some (if p =? 0 then l else p :: l)
    | Free p => match l with q :: r => if p =? q then Some r else None | [] => None end
    | _ => Some l
    end
  end.

(** The open session; [None] after a call on any other handle, or a session left open. *)
Fixpoint open_session (h : list call) : option (option Z) :=
  match h with
  | [] => Some None
  | c :: h' =>
    s ← open_session h';
    match c with
    | Create p n =>
      match s with
      | None => let a := answer E h' (Create p n) in Some (if a =? 0 then None else Some a)
      | Some _ => None
      end
    | Destroy i => if bool_decide (s = Some i) then Some None else None
    | _ => match handle_of c with Some i => if bool_decide (s = Some i) then Some s else None | None => Some s end
    end
  end.

(** ** Computations inside a session *)

(** [m] frees what it allocates, uses only the session [h] and leaves the runtime's fields alone. *)
Definition within (s : option Z) {A} (m : M A) : Prop :=
  ∀ w l, live (calls w) = Some l → open_session (calls w) = Some s →
  let w1 := (m w).2 in
  live (calls w1) = Some l ∧ open_session (calls w1) = Some s ∧ busy w1 = busy w ∧ running w1 = running w ∧
  disposed w1 = disposed w ∧ outcomes w1 = outcomes w.

Lemma within_ret s {A} (a : A) : within s (mret a).
Proof. by intros w l Hl Hs. Qed.

Lemma within_throw s {A} e : within s (throw e : M A).
Proof. by intros w l Hl Hs. Qed.

Lemma within_lift s {A} (r : result command_error A) : within s (lift r).
Proof. by intros w l Hl Hs. Qed.

Lemma within_read s p n : within s (read E p n).
Proof. by intros w l Hl Hs. Qed.

Lemma within_bind s {A B} (m : M A) (k : A → M B) : within s m → (∀ a, within s (k a)) → within s (m ≫= k).
Proof.
  intros Hm Hk w l Hl Hs. unfold mbind, M_bind. destruct (Hm w l Hl Hs) as (H1 & H2 & H3 & H4 & H5 & H6).
  destruct (m w) as [[a|e] w1]; simpl in *; [|done].
  destruct (Hk a w1 l H1 H2) as (? & ? & ? & ? & ? & ?). repeat (split; [congruence|]). congruence.
Qed.

(** A call that is neither about buffers nor about the life of a session. *)
Definition plain (s : option Z) (c : call) : Prop :=
  match c with Alloc _ | Free _ | Create _ _ | Destroy _ => False | _ => handle_of c = None ∨ handle_of c = s end.

Lemma within_ask s c : plain s c → within s (ask E c).
Proof.
  intros Hc w l Hl Hs. simpl. rewrite Hl, Hs. simpl.
  assert (∀ i, handle_of c = Some i → s = Some i) as Hi by (intros i Hi; destruct c; simpl in *; naive_solver).
  destruct c; simpl in *; try done; repeat (split; [done|]); try (rewrite bool_decide_eq_true_2 by (by apply Hi)); done.
Qed.

Lemma within_allocation s {A} n (k : Z → M A) : (∀ p, within s (k p)) → within s (allocation E n k).
Proof.
  intros Hk w l Hl Hs. unfold allocation, mbind, M_bind. simpl. set (c := Alloc (Z.max n 1)). set (p := answer E (calls w) c).
  destruct (p =? 0) eqn:Hp; simpl.
  - fold p. rewrite Hl, Hs. simpl. fold c p. by rewrite Hp.
  - set (w0 := set_calls (c :: calls w) w).
    assert (live (calls w0) = Some (p :: l)) as Hl0 by (simpl; rewrite Hl; simpl; fold c p; by rewrite Hp).
    assert (open_session (calls w0) = Some s) as Hs0 by (simpl; by rewrite Hs).
    destruct (Hk p w0 (p :: l) Hl0 Hs0) as (H1 & H2 & H3 & H4 & H5 & H6). unfold finally.
    destruct (k p w0) as [r w1]. simpl in *. rewrite H1, H2. simpl. by rewrite Z.eqb_refl.
Qed.

Lemma within_collect_step s {A B} (m : M A) (k : A → M B) (d : M B) :
  within s m → (∀ a, within s (k a)) → within s d →
  within s (λ w, match m w with (Ok a, w1) => k a w1 | (Err _, w1) => d w1 end).
Proof.
  intros Hm Hk Hd w l Hl Hs. destruct (Hm w l Hl Hs) as (H1 & H2 & H3 & H4 & H5 & H6).
  destruct (m w) as [[a|e] w1]; simpl in *.
  - destruct (Hk a w1 l H1 H2) as (? & ? & ? & ? & ? & ?). repeat (split; [congruence|]). congruence.
  - destruct (Hd w1 l H1 H2) as (? & ? & ? & ? & ? & ?). repeat (split; [congruence|]). congruence.
Qed.
End history.

Create HintDb session discriminated.
#[export] Hint Resolve within_ret within_throw within_lift within_read : session.
#[export] Hint Extern 1 (within _ _ (ask _ _)) => apply within_ask; simpl; auto : session.
#[export] Hint Extern 2 (within _ _ (allocation _ _ _)) => apply within_allocation; intros : session.
#[export] Hint Extern 2 (within _ _ (_ ≫= _)) => apply within_bind; [|intros] : session.
#[export] Hint Extern 2 (within _ _ (if ?b then _ else _)) => destruct b : session.
#[export] Hint Extern 2 (within _ _ (match ?o with Some _ => _ | None => _ end)) => destruct o : session.

Section operations.
Context (E : engine) (h : Z).

Lemma within_throw_error s {A} code : within E s (throw_error E code : M A).
Proof. unfold throw_error. auto 10 with session. Qed.
Hint Resolve within_throw_error : session.

Lemma within_checked_call c : plain (Some h) c → within E (Some h) (checked_call E c).
Proof. intros Hc. unfold checked_call, checked. auto 10 with session. Qed.
Hint Extern 1 (within _ _ (checked_call _ _)) => apply within_checked_call; simpl; auto : session.

Lemma within_do_call s c : plain s c → within E s (do_call E c).
Proof. intros Hc. unfold do_call. auto 10 with session. Qed.
Hint Extern 1 (within _ _ (do_call _ _)) => apply within_do_call; simpl; auto : session.

Lemma within_transfer s {A} v (k : Z → Z → M A) : (∀ p n, within E s (k p n)) → within E s (transfer E v k).
Proof. intros Hk. unfold transfer. auto 10 with session. Qed.
Hint Extern 2 (within _ _ (transfer _ _ _)) => apply within_transfer; intros : session.

Lemma within_inspect : within E (Some h) (inspect E h).
Proof. unfold inspect. auto 10 with session. Qed.

Lemma within_output fd n : within E (Some h) (output E h fd n).
Proof. unfold output. auto 10 with session. Qed.

Lemma within_readFile path maximum : within E (Some h) (readFile E h path maximum).
Proof. unfold readFile. auto 15 with session. Qed.
Hint Resolve within_inspect within_output within_readFile : session.

Lemma within_parents fuel path dirs : within E (Some h) (parents E fuel h path dirs).
Proof. revert path dirs. induction fuel as [|fuel IH]; intros path dirs; simpl; auto 15 with session. Qed.
Hint Resolve within_parents : session.

Lemma within_stage_assets files dirs : within E (Some h) (stage_assets E h files dirs).
Proof. revert dirs. induction files as [|f files IH]; intros dirs; simpl; auto 15 with session. Qed.

Lemma within_append v eof : within E (Some h) (append E h v eof).
Proof. unfold append. auto 15 with session. Qed.

Lemma within_cancel : within E (Some h) (cancel E h).
Proof. unfold cancel. auto 15 with session. Qed.

Lemma within_collect paths left : within E (Some h) (collect E h paths left).
Proof.
  revert left. induction paths as [|path paths IH]; intros left; simpl; [auto with session|].
  apply (within_collect_step E (Some h) (readFile E h path left) (λ value, more ← collect E h paths (left - zlen value); mret ((path, value) :: more)));
    intros; cbn beta; auto 15 with session.
Qed.
Hint Resolve within_stage_assets within_append within_cancel within_collect : session.

Lemma within_conclude c i : r_handle c = h → within E (Some h) (conclude E c i).
Proof. intros Hc. unfold conclude. rewrite Hc. auto 15 with session. Qed.
End operations.
#[export] Hint Resolve within_throw_error within_inspect within_output within_readFile within_parents within_stage_assets
  within_append within_cancel within_collect : session.
#[export] Hint Extern 1 (within _ _ (checked_call _ _)) => apply within_checked_call; simpl; auto : session.
#[export] Hint Extern 1 (within _ _ (do_call _ _)) => apply within_do_call; simpl; auto : session.
#[export] Hint Extern 2 (within _ _ (transfer _ _ _)) => apply within_transfer; intros : session.

(** ** Runs *)

Section runs.
Context (E : engine).

Definition rt_ok (w : rt) : Prop :=
  live E (calls w) = Some [] ∧ open_session E (calls w) = Some (r_handle <$> running w) ∧
  busy w = bool_decide (is_Some (running w)) ∧ ∀ c, running w = Some c → r_handle c ≠ 0.

(** [m] stays in its session and, if it pauses, leaves the run in place. *)
Definition pausing (h : Z) (m : M (option completion)) : Prop :=
  ∀ w, live E (calls w) = Some [] → open_session E (calls w) = Some (Some h) →
  let '(r, w1) := m w in
  live E (calls w1) = Some [] ∧ open_session E (calls w1) = Some (Some h) ∧ busy w1 = busy w ∧
  (r = Ok None → ∃ c, running w1 = Some c ∧ r_handle c = h).

Lemma pausing_bind h {A} (m : M A) k : within E (Some h) m → (∀ a, pausing h (k a)) → pausing h (m ≫= k).
Proof.
  intros Hm Hk w Hl Hs. unfold mbind, M_bind. destruct (Hm w [] Hl Hs) as (H1 & H2 & H3 & _).
  destruct (m w) as [[a|e] w1]; simpl in *; [|done]. specialize (Hk a w1 H1 H2). destruct (k a w1) as [r w2].
  destruct Hk as (? & ? & ? & ?). repeat (split; [congruence|]). done.
Qed.

Lemma pausing_result h (m : M completion) : within E (Some h) m → pausing h (o ← m; mret (Some o)).
Proof. intros Hm. apply pausing_bind; [done|]. by intros o w Hl Hs. Qed.

Lemma pausing_throw h e : pausing h (throw e).
Proof. by intros w Hl Hs. Qed.

Lemma pausing_loop_step c : pausing (r_handle c) (loop_step E c).
Proof.
  unfold loop_step. apply pausing_bind; [auto with session|]. intros _. apply pausing_bind; [auto with session|]. intros i.
  destruct (i_state i <? 3); [|apply pausing_result; by apply within_conclude].
  intros w Hl Hs. simpl. repeat (split; [done|]). intros _. by exists c.
Qed.

Lemma pausing_launch h vector j : pausing h (launch E h vector j).
Proof.
  unfold launch.
  apply pausing_bind; [auto with session|]. intros _. apply pausing_bind; [auto with session|]. intros _.
  apply pausing_bind; [auto with session|]. intros _. apply pausing_bind; [auto with session|]. intros _.
  apply pausing_bind; [auto with session|]. intros i. apply pausing_bind; [auto 15 with session|]. intros _.
  apply pausing_bind; [auto 15 with session|]. intros feeding. apply pausing_bind; [auto with session|]. intros i4.
  cbv zeta. destruct (i_state i4 <? 3); [apply (pausing_loop_step (mkCurrent h _ _ _ _))|].
  apply pausing_result. by apply within_conclude.
Qed.

Lemma close_ok h w o :
  live E (calls w) = Some [] → open_session E (calls w) = Some (if h =? 0 then None else Some h) →
  rt_ok ((close E h;; upd (add_outcome o)) w).2.
Proof.
  intros Hl Hs. unfold close, rt_ok, mbind, M_bind. destruct (h =? 0) eqn:Hh; simpl.
  - rewrite Hl, Hs. simpl. repeat (split; [done|]). done.
  - rewrite Hl, Hs. simpl. rewrite bool_decide_eq_true_2 by done. repeat (split; [done|]). done.
Qed.

Lemma settle_run_ok h m w :
  h ≠ 0 → pausing h m → live E (calls w) = Some [] → open_session E (calls w) = Some (Some h) → busy w = true →
  rt_ok (settle_run E h m w).2.
Proof.
  intros Hh Hm Hl Hs Hb. unfold settle_run. specialize (Hm w Hl Hs). destruct (m w) as [[[o|]|e] w1]; destruct Hm as (H1 & H2 & H3 & H4).
  - apply close_ok; [done|]. by rewrite (proj2 (Z.eqb_neq _ _) Hh).
  - destruct (H4 eq_refl) as (c & Hc & Hid). simpl. unfold rt_ok. rewrite H1, H2, H3, Hb, Hc. simpl. rewrite Hid.
    repeat (split; [done|]). intros c' [= <-]. by rewrite Hid.
  - apply close_ok; [done|]. by rewrite (proj2 (Z.eqb_neq _ _) Hh).
Qed.

(** Creating a session. *)
Lemma create_run record w :
  live E (calls w) = Some [] → open_session E (calls w) = Some None →
  let '(r, w1) := transfer E record (λ p n, ask E (Create p n)) w in
  live E (calls w1) = Some [] ∧ busy w1 = busy w ∧
  open_session E (calls w1) = Some (match r with Ok h => if h =? 0 then None else Some h | Err _ => None end).
Proof.
  intros Hl Hs. unfold transfer, allocation, mbind, M_bind. simpl. set (p := answer E (calls w) _).
  destruct (p =? 0) eqn:Hp; simpl.
  - rewrite Hl, Hs. simpl. fold p. by rewrite Hp.
  - rewrite Hl, Hs. simpl. fold p. rewrite Hp. simpl. rewrite Z.eqb_refl. done.
Qed.

Lemma create_and_launch_ok record vector j w :
  live E (calls w) = Some [] → open_session E (calls w) = Some None → busy w = true →
  rt_ok (create_and_launch E record vector j w).2.
Proof.
  intros Hl Hs Hb. unfold create_and_launch. pose proof (create_run record w Hl Hs) as Hc.
  destruct (transfer E record _ w) as [[h|e] w1]; destruct Hc as (H1 & H2 & H3).
  - destruct (h =? 0) eqn:Hh.
    + apply Z.eqb_eq in Hh as ->. unfold settle_run.
      destruct (within_throw_error E None (A := option completion) (-1) w1 [] H1 H3) as (Q1 & Q2 & _).
      destruct (throw_error E (-1) w1) as [[[o|]|e] w2] eqn:He; simpl in Q1, Q2; try by apply (close_ok 0).
      exfalso. unfold throw_error, mbind, M_bind in He. by destruct (allocation E 256 _ w1) as [[]].
    + apply settle_run_ok; [by apply Z.eqb_neq|apply pausing_launch|done|done|congruence].
  - by apply (close_ok 0).
Qed.

Lemma run_start_ok j w : rt_ok w → rt_ok (run_start E j w).2.
Proof.
  intros Hok. pose proof Hok as (Hl & Hs & Hb & Hh). unfold run_start. destruct (disposed w); [done|]. destruct (busy w) eqn:Hbusy; [done|].
  assert (running w = None) as Hr.
  { symmetry in Hb. apply bool_decide_eq_false in Hb. destruct (running w); [exfalso; by apply Hb|done]. }
  rewrite Hr in Hs. unfold mbind, M_bind, lift. simpl.
  destruct (commandVector _ _ _); [|done]. simpl. destruct (no_nuls _); [|done]. simpl. destruct (options_record _); [|done]. simpl.
  by apply create_and_launch_ok.
Qed.

(** A call inside the session of a paused run. *)
Lemma within_ok c {A} (m : M A) w :
  rt_ok w → running w = Some c → within E (Some (r_handle c)) m → rt_ok (m w).2.
Proof.
  intros (Hl & Hs & Hb & Hh) Hr Hm. rewrite Hr in Hs. destruct (Hm w [] Hl Hs) as (H1 & H2 & H3 & H4 & _).
  unfold rt_ok. rewrite H1, H2, H3, H4, Hr. simpl. rewrite Hr in Hb. repeat (split; [done|]). intros c' [= <-]. by apply Hh.
Qed.

Lemma set_running_ok c c' w : rt_ok w → running w = Some c → r_handle c' = r_handle c → rt_ok (set_running (Some c') w).
Proof.
  intros (Hl & Hs & Hb & Hh) Hr Hc. unfold rt_ok. simpl. rewrite Hc. rewrite Hr in Hs, Hb.
  repeat (split; [done|]). intros c0 [= <-]. rewrite Hc. by apply Hh.
Qed.

Lemma input_failed_ok c w : rt_ok w → running w = Some c → rt_ok (input_failed E c w).2.
Proof.
  intros Hok Hr. unfold input_failed, mbind, M_bind. simpl. eapply (within_ok (stop_feeding true c)); [by eapply set_running_ok|done|].
  auto with session.
Qed.

Lemma feed_ok c bytes eof w : rt_ok w → running w = Some c → rt_ok (feed E c bytes eof w).2.
Proof.
  intros Hok Hr. unfold feed. pose proof (within_append E (r_handle c) bytes eof) as Hw.
  pose proof (within_ok c _ w Hok Hr Hw) as Hok1. pose proof Hok as (Hl & Hs & _). rewrite Hr in Hs.
  destruct (Hw w [] Hl Hs) as (_ & _ & _ & H4 & _). destruct (append E (r_handle c) bytes eof w) as [[]w1]; simpl in *.
  - destruct eof; [|done]. apply (set_running_ok c); [done|congruence|done].
  - apply input_failed_ok; [done|congruence].
Qed.

Lemma step_ok e w w' : rt_ok w → step E e w = Some w' → rt_ok w'.
Proof.
  intros Hok. unfold step. destruct e; [intros [= <-]; by apply run_start_ok|..]; destruct (running w) as [c|] eqn:Hr; try done.
  - intros [= <-]. pose proof Hok as (Hl & Hs & Hb & Hh). rewrite Hr in Hs, Hb.
    apply settle_run_ok; [by apply Hh|apply pausing_loop_step|done|done|done].
  - intros [= <-]. apply (within_ok c); auto with session.
  - destruct (r_feeding c); [|done]. intros [= <-]. by apply feed_ok.
  - destruct (r_feeding c); [|done]. intros [= <-]. by apply feed_ok.
  - destruct (r_feeding c); [|done]. intros [= <-]. by apply input_failed_ok.
  - destruct (busy w); [done|]. by intros [= <-].
  - destruct (busy w); [done|]. by intros [= <-].
Qed.

Lemma runtime_reachable_ok w : reachable E w → rt_ok w.
Proof. induction 1 as [|w e w' _ IH Hs]; [by repeat split|by eapply step_ok]. Qed.
End runs.

(** C10: The runtime leaks nothing: for every engine, job and order of events, and on every error path,
    at each pause and after each run all transfer buffers have been freed, each once and newest
    first; every engine call was made on the session then open, and a session is open exactly while a
    run is on, so each one created was destroyed, exactly once. *)
Theorem runtime_leaks_nothing E w :
  reachable E w →
  live E (calls w) = Some [] ∧ open_session E (calls w) = Some (r_handle <$> running w) ∧
  busy w = bool_decide (is_Some (running w)).
Proof. intros (? & ? & ? & _)%runtime_reachable_ok. done. Qed.

(** An engine for the witness: buffers at 64, session 7, a command that is done after its first step. *)
Definition toy : engine :=
  mkEngine (λ h c, match c with Alloc _ => 64 | Create _ _ => 7 | _ => 0 end)
    (λ h p n, le32 0 ++ le32 (if existsb (λ c, match c with Step _ => true | _ => false end) h then 3 else 1) ++ replicate 320 0).

Definition toy_job : job := mkJob (codes "/bin/true") [] None (codes "/work") [mkAsset (codes "/data/a") [1; 2] 420] (Some []) [] defaults false.
Definition toy_done : rt := (run_start toy toy_job fresh).2.

Lemma runtime_leaks_nothing_witness :
  outcomes toy_done ≠ [] ∧ live toy (calls toy_done) = Some [] ∧
  open_session toy (calls toy_done) = Some (r_handle <$> running toy_done) ∧ busy toy_done = bool_decide (is_Some (running toy_done)).
Proof.
  split; [by vm_compute|]. apply (runtime_leaks_nothing toy toy_done).
  apply (reach_step toy fresh (Run toy_job)); [apply reach_fresh|by vm_compute].
Defined.

(** ** Directories *)

Lemma parent_shorter path : parent_of path = [47] ∨ (length (parent_of path) < length path)%nat.
Proof.
  unfold parent_of. case_bool_decide as Hn; [by left|right].
  destruct path as [|a path]; [done|]. set (p := a :: path) in *.
  destruct (split_on 47 (rev p)) as [|t [|u l]].
  - rewrite removelast_firstn_len, length_take. unfold p. simpl. lia.
  - rewrite removelast_firstn_len, length_take. unfold p. simpl. lia.
  - rewrite length_take. unfold p. simpl. lia.
Qed.

(** Every directory of the set has its parent in the set. *)
Definition rooted (dirs : list (list Z)) : Prop := ([47] : list Z) ∈ dirs ∧ ∀ d, d ∈ dirs → parent_of d ∈ dirs.

Lemma first_rooted : rooted first_directories.
Proof.
  split; [apply (bool_decide_unpack _); by vm_compute|]. intros d Hd. revert d Hd. rewrite <- Forall_forall.
  apply (bool_decide_unpack _). by vm_compute.
Qed.

Lemma parents_spec E fuel h path dirs w dirs' w' :
  (length path < fuel)%nat → rooted dirs → parents E fuel h path dirs w = (Ok dirs', w') →
  rooted dirs' ∧ parent_of path ∈ dirs' ∧ dirs ⊆ dirs'.
Proof.
  revert path dirs w dirs' w'. induction fuel as [|fuel IH]; intros path dirs w dirs' w' Hf Hr; [lia|]. cbn [parents].
  case_bool_decide as Hin; [by intros [= <- <-]|].
  destruct (parent_shorter path) as [Hroot|Hshort]; [destruct Hr as [Hr _]; by rewrite Hroot in Hin|].
  unfold mbind, M_bind. destruct (parents E fuel h (parent_of path) dirs w) as [[known|e] w1] eqn:Hp; [|done].
  assert (length (parent_of path) < fuel)%nat as Hf' by lia.
  destruct (IH _ _ _ _ _ Hf' Hr Hp) as ([Hk1 Hk2] & Hk3 & Hk4).
  destruct (transfer E (parent_of path) _ w1) as [[]w2]; [|done]. intros [= <- <-].
  split; [|split; [by left|set_solver]]. split; [by right|]. intros d [->|Hd]%elem_of_cons; [by right|right; by apply Hk2].
Qed.

(** Files are staged below existing directories: when the staging of a file reaches its
    [put_file], the set of known directories holds the file's directory and, for each of its members,
    the member's own directory; it only grows, and the recursion up the path always ends at "/". *)
Theorem staging_makes_parents E h path dirs w dirs' w' :
  rooted dirs → parents E (S (length path)) h path dirs w = (Ok dirs', w') →
  rooted dirs' ∧ parent_of path ∈ dirs' ∧ dirs ⊆ dirs'.
Proof. intros Hr. apply parents_spec; [lia|done]. Qed.

Lemma staging_makes_parents_witness :
  ∃ dirs', rooted dirs' ∧ parent_of (codes "/data/x/a") ∈ dirs' ∧ first_directories ⊆ dirs'.
Proof.
  destruct (parents toy (S (length (codes "/data/x/a"))) 7 (codes "/data/x/a") first_directories fresh) as [[dirs'|e] w'] eqn:Hp;
    [|by vm_compute in Hp].
  exists dirs'. apply (staging_makes_parents toy 7 (codes "/data/x/a") first_directories fresh dirs' w'); [exact first_rooted|exact Hp].
Defined.
