(* ===== verification/HostCalls.v ===== *)
(** * The random source and the input streams of the command host (src/html-rt/command/waste.mjs)

    [random], which the engine calls for random bytes, over the engine's memory as its
    size; [streamIterator] and [closeIterator] over the lock of a stream's reader. *)

From stdpp Require Import base numbers list.
From Stdlib Require Import ZArith Lia.
From S2P Require Import Prelude.

#[local] Open Scope Z_scope.

(** ** [random] *)

(** The limit of one [getRandomValues] call. *)
Definition quota : Z := 65536.

(** [crypto.getRandomValues(new Uint8Array(buffer, pointer, length))]: both can throw. *)
Definition fill_ok (memory pointer length : Z) : bool :=
  (0 <=? pointer) && (0 <=? length) && (pointer + length <=? memory) && (length <=? quota).

(** The loop from [at]: the status, and the ranges that were filled. *)
Fixpoint random_loop (fuel : nat) (memory pointer length at_ : Z) : Z * list (Z * Z) :=
  if at_ <? length then
    match fuel with
    | O => (0, [])
    | S fuel =>
      let n := Z.min quota (length - at_) in
      if fill_ok memory (pointer + at_) n then
        let '(status, filled) := random_loop fuel memory pointer length (at_ + quota) in
        (status, (pointer + at_, n) :: filled)
      else (-5, [])
    end
  else (0, []).

(** The engine passes 32-bit values, which JavaScript reads as signed. *)
Definition random (has_crypto : bool) (memory pointer length : Z) : Z * list (Z * Z) :=
  if has_crypto
  then random_loop (Z.to_nat (length / quota + 1)) memory (to_int32 pointer) (to_int32 length) 0
  else (-38, []).

(** The bytes of the filled ranges, in order. *)
Definition filled_bytes (l : list (Z * Z)) : list Z := l ≫= λ r, seqZ r.1 r.2.

Lemma seqZ_join a m n : 0 ≤ m → 0 ≤ n → seqZ a m ++ seqZ (a + m) n = seqZ a (m + n).
Proof.
  intros Hm Hn. apply list_eq. intros i. destruct (decide (Z.of_nat i < m)).
  - rewrite lookup_app_l by (rewrite length_seqZ; lia). rewrite !lookup_seqZ_lt by lia. done.
  - rewrite lookup_app_r by (rewrite length_seqZ; lia). rewrite length_seqZ.
    destruct (decide (Z.of_nat i < m + n)).
    + rewrite !lookup_seqZ_lt by lia. f_equal. lia.
    + rewrite !lookup_seqZ_ge by lia. done.
Qed.

Lemma random_loop_fills fuel memory pointer length at_ :
  0 ≤ at_ → 0 ≤ pointer → pointer + length ≤ memory → length ≤ at_ + quota * Z.of_nat fuel →
  ∃ filled, random_loop fuel memory pointer length at_ = (0, filled) ∧
    filled_bytes filled = seqZ (pointer + at_) (length - at_) ∧ Forall (λ r, 0 < r.2 ≤ quota) filled.
Proof.
  revert at_. induction fuel as [|fuel IH]; intros at_ Hat Hp Hm Hf; cbn [random_loop]; destruct (Z.ltb_spec at_ length) as [Hlt|Hge].
  - lia.
  - exists []. split; [done|]. rewrite seqZ_nil by lia. done.
  - assert (fill_ok memory (pointer + at_) (Z.min quota (length - at_)) = true) as ->.
    { unfold fill_ok. rewrite !andb_true_iff, !Z.leb_le. unfold quota. lia. }
    destruct (IH (at_ + quota)) as (filled & -> & Hb & HF); [unfold quota; lia|done|done|unfold quota in *; lia|].
    eexists. split; [done|]. split; [|constructor; [unfold quota; cbn; lia|done]].
    unfold filled_bytes in *. rewrite bind_cons, Hb. cbn [fst snd]. destruct (Z.le_gt_cases (length - at_) quota).
    + rewrite (seqZ_nil _ (length - (at_ + quota))) by lia. rewrite app_nil_r. f_equal. lia.
    + rewrite Z.min_l by lia. replace (pointer + (at_ + quota)) with (pointer + at_ + quota) by lia.
      rewrite seqZ_join by (unfold quota in *; lia). f_equal. lia.
  - exists []. split; [done|]. rewrite seqZ_nil by lia. done.
Qed.

(** A request for random bytes in the engine's memory below 2^31 is answered with success, and every byte of its range is filled
    exactly once and in order, by calls that stay within the limit of [getRandomValues]; from 2^31 on the length
    is read as a negative number, and success is answered with no byte filled. *)
Theorem random_fills_range memory pointer length :
  0 ≤ pointer → 0 ≤ length → pointer + length ≤ memory → pointer < 2^31 → length < 2^32 →
  ∃ filled, random true memory pointer length = (0, filled) ∧ Forall (λ r, 0 < r.2 ≤ quota) filled ∧
    filled_bytes filled = if length <? 2^31 then seqZ pointer length else [].
Proof.
  intros Hp Hl Hm Hp31 Hl32. unfold random. rewrite (to_int32_id pointer) by lia. destruct (Z.ltb_spec length (2^31)).
  - rewrite (to_int32_id length) by lia.
    destruct (random_loop_fills (Z.to_nat (length / quota + 1)) memory pointer length 0) as (filled & -> & Hb & HF); [lia..| |].
    + unfold quota. assert (0 ≤ length / 65536) by (apply Z.div_pos; lia). rewrite Z2Nat.id by lia.
      pose proof (Z.div_mod length 65536). pose proof (Z.mod_pos_bound length 65536). lia.
    + exists filled. split_and!; [done..|]. rewrite Hb. f_equal; lia.
  - assert (to_int32 length < 0) as Hneg.
    { unfold to_int32. replace (length + 2^31) with (length - 2^31 + 1 * 2^32) by lia. rewrite Z.mod_add by lia.
      rewrite Z.mod_small by lia. lia. }
    exists []. split; [|done]. destruct (Z.to_nat _); cbn [random_loop]; by rewrite (proj2 (Z.ltb_ge _ _)) by lia.
Qed.

Lemma random_fills_range_witness :
  ∃ filled, random true 200000 10 100000 = (0, filled) ∧ Forall (λ r, 0 < r.2 ≤ quota) filled ∧ filled_bytes filled = seqZ 10 100000.
Proof. destruct (random_fills_range 200000 10 100000) as (filled & H1 & H2 & H3); [lia..|]. by exists filled. Defined.

(** ** Streams *)

(** What an input gives: no iterator with [return], one whose [return] throws or rejects ([false]) or not, or a stream's reader, whose [cancel]
    throws or rejects or not. *)
Inductive source : Type := NoReturn | Iterator (returns : bool) | Stream (cancels : bool).

(** A stream's reader holds the lock of its stream. *)
Record stream_state : Type := mkStream { locked : bool; cancel_called : bool }.

(** [source.getReader()]. *)
Definition streamIterator (s : source) : stream_state := mkStream (match s with Stream _ => true | _ => false end) false.

(** [iterator.return()]: whether it throws or rejects. For a stream the lock is released in [finally]. *)
Definition iterator_return (s : source) (st : stream_state) : bool * stream_state :=
  match s with
  | NoReturn => (true, st)
  | Iterator returns => (returns, st)
  | Stream cancels => (cancels, mkStream false true)
  end.

(** [closeIterator]: its own outcome, and the stream once the promise settles. *)
Definition closeIterator (s : option source) (st : stream_state) : result unit stream_state :=
  match s with
  | None | Some NoReturn => Ok st
  | Some s => let '(_, st1) := iterator_return s st in Ok st1
  end.

(** Closing never fails, and a stream it was given is free again, whatever [cancel] does. *)
Lemma close_releases s : ∃ st, closeIterator (Some s) (streamIterator s) = Ok st ∧ locked st = false.
Proof. destruct s as [| |c]; by eexists. Qed.
