(* ===== verification/Packager.v ===== *)
(** * The embedding packager (src/html-rt/tools/package-embedding.mjs)

    A build script: it selects guest files by tool, copies them under an output
    directory, bundles the command host with its worker, and writes one page that
    carries everything, with a manifest.  The file system is a finite map that every
    command may change, failures included; SHA-256, JSON, WebAssembly modules and the
    resolution of symbolic links are parameters. *)

From stdpp Require Import base numbers list strings gmap sorting.
From Stdlib Require Import ZArith Lia.
From S2P Require Import Prelude JsNum TermModel Utf8 Base64.

#[local] Open Scope Z_scope.
#[local] Open Scope waste_scope.

(** Strings, in UTF-16 units. *)
Abbreviation text := (list Z) (only parsing).

(** ** String operations ([split] is [TermModel.split_on]) *)

Fixpoint strip_prefix (p l : text) : option text :=
  match p, l with
  | [], _ => Some l
  | c :: p', d :: l' => if c =? d then strip_prefix p' l' else None
  | _ :: _, [] => None
  end.

Fixpoint join_with (sep : text) (l : list text) : text :=
  match l with [] => [] | [w] => w | w :: l' => w ++ sep ++ join_with sep l' end.

(** [l.indexOf(p)] as the part before and the part from the match on. *)
Fixpoint split_at (p l : text) : option (text * text) :=
  match strip_prefix p l with
  | Some _ => Some ([], l)
  | None => match l with [] => None | c :: l' => '(a, b) ← split_at p l'; Some (c :: a, b) end
  end.

Definition is_line_end (c : Z) : bool := (c =? 10) || (c =? 13) || (c =? 8232) || (c =? 8233).

(** [replace(/^export /gm, "")]; [skip] units of a match are left, [bol] tells a line start. *)
Fixpoint strip_exports (skip : nat) (bol : bool) (l : text) : text :=
  match l with
  | [] => []
  | c :: l' =>
    match skip with
    | S skip => strip_exports skip false l'
    | O =>
      if bol && bool_decide (is_Some (strip_prefix (codes "export ") l)) then strip_exports 6 false l'
      else c :: strip_exports 0 (is_line_end c) l'
    end
  end.

(** The replacement patterns of [replace] with a string: dollar signs before a dollar sign, an
    ampersand, a back quote or a quote. *)
Fixpoint expand (before matched after : text) (l : text) : text :=
  match l with
  | [] => []
  | c :: l' =>
    match l' with
    | d :: l'' =>
      if c =? 36 then
        if d =? 36 then 36 :: expand before matched after l''
        else if d =? 38 then matched ++ expand before matched after l''
        else if d =? 96 then before ++ expand before matched after l''
        else if d =? 39 then after ++ expand before matched after l''
        else c :: expand before matched after l'
      else c :: expand before matched after l'
    | [] => [c]
    end
  end.

(** [l.replace(p, r)]: the first match only. *)
Definition replace_first (p r l : text) : text :=
  match split_at p l with
  | Some (before, rest) => let after := drop (length p) rest in before ++ expand before p after r ++ after
  | None => l
  end.

(** [replaceAll("<", "\u003c")]. *)
Definition escape_lt (l : text) : text := l ≫= λ c, if c =? 60 then 92 :: codes "u003c" else [c].

(** [[...new Set(l)]]. *)
Definition dedupe (l : list text) : list text := foldl (λ acc x, if decide (x ∈ acc) then acc else acc ++ [x]) [] l.

(** The order of [sort()]: by UTF-16 units. *)
Fixpoint text_leb (a b : text) : bool :=
  match a, b with
  | [], _ => true
  | _ :: _, [] => false
  | c :: a', d :: b' => (c <? d) || ((c =? d) && text_leb a' b')
  end.
Definition text_le (a b : text) : Prop := text_leb a b = true.
#[export] Instance text_le_dec : RelDecision text_le.
Proof. intros a b. unfold text_le. apply _. Defined.

(** ** Paths *)

(** An absolute path as its segments. *)
Abbreviation path := (list (list Z)) (only parsing).

Definition path_step (base : path) (s : text) : path :=
  if decide (s = [] ∨ s = codes ".") then base
  else if decide (s = codes "..") then take (length base - 1) base
  else base ++ [s].

(** [path.join(base, relative)]. *)
Definition path_join (base : path) (relative : text) : path := foldl path_step base (split_on 47 relative).

(** [path.resolve(value)]. *)
Definition path_resolve (cwd : path) (value : text) : path :=
  path_join (match value with 47 :: _ => [] | _ => cwd end) value.

(** [p.startsWith(base + path.sep)]. *)
Definition inside (base p : path) : bool := bool_decide (base `prefix_of` p) && negb (bool_decide (base = p)).

(** ** Arguments *)

Inductive pack_error : Type :=
| UnknownArgument (value : text)
| InvalidRelease
| OutputOutside
| Missing (p : path)       (* no such file *)
| NotADirectory (p : path) (* a file where a directory is needed, or the other way round *)
| BadJson
| UnknownProfile
| ExternalResource (guestPath : text)
| CompileError
| UndeclaredProvider (name guestPath : text)
| IncompatibleEngine
| ImportChanged
| BoundaryChanged.

Definition argument_names : list text := [codes "build"; codes "output"; codes "tools"; codes "with-shell"; codes "release"].

(** [/^--(build|output|tools|with-shell|release)=(.+)$/]. *)
Definition parse_argument (value : text) : option (text * text) :=
  head (omap (λ name,
    rest ← strip_prefix (codes "--" ++ name ++ codes "=") value;
    if bool_decide (rest = []) || existsb is_line_end rest then None else Some (name, rest)) argument_names).

Fixpoint parse_arguments (l : list text) : result pack_error (list (text * text)) :=
  match l with
  | [] => Ok []
  | v :: l' =>
    let* a := of_option (UnknownArgument v) (parse_argument v) in
    let* rest := parse_arguments l' in Ok (a :: rest)
  end.

(** [Object.fromEntries]: the last value of a name. *)
Definition argument (name : string) (l : list (text * text)) : option text :=
  snd <$> last (filter (λ a, a.1 = codes name) l).

(** [/^[A-Za-z0-9.+_-]{1,64}$/]. *)
Definition is_release_char (c : Z) : bool :=
  ((65 <=? c) && (c <=? 90)) || ((97 <=? c) && (c <=? 122)) || ((48 <=? c) && (c <=? 57)) ||
  (c =? 46) || (c =? 43) || (c =? 95) || (c =? 45).
Definition valid_release (l : text) : bool := (1 <=? zlen l) && (zlen l <=? 64) && forallb is_release_char l.

(** ** Profiles *)

Record profile : Type := mkProfile { pf_files : list text; pf_sourceTarget : text }.
Record profiles : Type := mkProfiles { common : list text; tool_table : gmap text profile }.

Definition select_tools (args : list (text * text)) : list text :=
  let tools := dedupe (split_on 44 (default (codes "awk,m4,dot") (argument "tools" args))) in
  if bool_decide (argument "with-shell" args = Some (codes "1")) && negb (bool_decide (codes "bash" ∈ tools))
  then tools ++ [codes "bash"] else tools.

Definition tool_files (p : profiles) (name : text) : list text := from_option pf_files [] (tool_table p !! name).

Definition select_files (p : profiles) (tools : list text) : result pack_error (list text) :=
  if forallb (λ name, bool_decide (is_Some (tool_table p !! name))) tools
  then Ok (merge_sort text_le (dedupe (common p ++ (tools ≫= tool_files p))))
  else Err UnknownProfile.

(** ** The bundle *)

Definition worker_import : text := codes "import {createWaste} from " ++ [34] ++ codes "./waste.mjs" ++ [34; 59].
Definition host_boundary : text := codes "// Worker jobs use separate engine instances".

Definition bundle (host worker : text) : result pack_error text :=
  let* rest := of_option ImportChanged (strip_prefix worker_import worker) in
  let* '(before, _) := of_option BoundaryChanged (split_at host_boundary host) in
  Ok (strip_exports 0 true (before ++ [10] ++ rest)).

(** ** The file system *)

(** Files by real path: bytes and mode. *)
Abbreviation files := (gmap (list (list Z)) (list Z * Z)) (only parsing).

(** A file's entry in the manifest. *)
Record published : Type := mkPublished { pb_path : text; pb_bytes : Z; pb_sha256 : text }.

Record wasm_import : Type := mkImport { im_module : text; im_name : text; im_kind : text }.

Record resource : Type := mkResource {
  rs_published : published; rs_guestPath : text; rs_mode : Z; rs_imports : option (list wasm_import) }.

(** What the embedding page carries of a file: Base64 text and mode. *)
Abbreviation embedded := (gmap (list Z) (list Z * Z)) (only parsing).

Record host_abi : Type := mkAbi { version : Z; features : Z; optionsBytes : Z; resultBytes : Z; fileInfoBytes : Z }.

Record manifest : Type := mkManifest {
  mf_release : text; mf_major : Z; mf_minor : Z; mf_abi : host_abi; mf_layouts : text; mf_tools : list text;
  mf_resources : list resource; mf_engineImports : list wasm_import; mf_sources : list (text * text * text);
  mf_artifacts : list published }.

Record assets : Type := mkAssets { as_engine : text; as_resources : embedded; as_tools : list text; as_worker : text }.

(** A command of the file system: its outcome and the files after it. *)
Definition P (A : Type) : Type := files → result pack_error A * files.

#[export] Instance P_ret : MRet P := λ A a w, (Ok a, w).
#[export] Instance P_bind : MBind P := λ A B f m w, match m w with (Ok a, w') => f a w' | (Err e, w') => (Err e, w') end.

Definition fail {A} (e : pack_error) : P A := λ w, (Err e, w).
Definition lift {A} (r : result pack_error A) : P A := λ w, (r, w).
Definition require (b : bool) (e : pack_error) : P unit := if b then mret () else fail e.

Fixpoint for_each {S A : Type} (f : A → S → P S) (l : list A) (s : S) : P S :=
  match l with [] => mret s | a :: l' => s' ← f a s; for_each f l' s' end.

Section packager.
(** The real path behind a name, SHA-256 in hexadecimal, the file mode mask, the JSON texts, and WebAssembly:
    the imports of a module and the answers of an engine's instance. *)
Context (real : path → path) (sha256 : list Z → text) (umask : Z)
  (parse_profiles : list Z → option profiles) (parse_layouts : list Z → option text)
  (manifest_json : manifest → text) (assets_json : assets → text)
  (module_imports : list Z → option (list wasm_import)) (instantiate : list Z → option host_abi).

Definition readFile (p : path) : P (list Z * Z) := λ w,
  match w !! real p with Some f => (Ok f, w) | None => (Err (Missing p), w) end.

Definition realpath (p : path) : P path := λ w,
  match w !! real p with Some _ => (Ok (real p), w) | None => (Err (Missing p), w) end.

(** A path can be a directory when no file is it or above it, and a file when moreover no file is below it. *)
Definition free_for (w : files) (p : path) (directory : bool) : bool :=
  forallb (λ q, negb (bool_decide (q `prefix_of` p) && (directory || negb (bool_decide (q = p))) ||
                      negb directory && inside p q)) (fst <$> map_to_list w).

Definition mkdir (p : path) : P unit := λ w, (if free_for w (real p) true then Ok () else Err (NotADirectory p), w).

(** [writeFile] with a mode: a file that exists keeps its own. *)
Definition writeFile (p : path) (bytes : list Z) (mode : Z) : P unit := λ w,
  if free_for w (real p) false
  then (Ok (), <[real p := (bytes, from_option snd (Z.land mode (Z.lnot umask)) (w !! real p))]> w)
  else (Err (NotADirectory p), w).

(** [rm(p, {recursive: true, force: true})]. *)
Definition remove_tree (p : path) : P unit := λ w, (Ok (), filter (λ kv, ¬ (real p `prefix_of` kv.1)) w).
(** [rm(p, {force: true})]. *)
Definition remove_file (p : path) : P unit := λ w,
  if existsb (inside (real p)) (fst <$> map_to_list w) then (Err (NotADirectory p), w) else (Ok (), delete (real p) w).

(** [publish], with [output] as its argument. *)
Definition publish (output : path) (relative : text) (bytes : list Z) (mode : Z) : P published :=
  let target := path_join output relative in
  mkdir (take (length target - 1) target);;
  writeFile target bytes mode;;
  mret (mkPublished relative (zlen bytes) (sha256 bytes)).

Definition wasm_magic : list Z := [0; 97; 115; 109; 1; 0; 0; 0].
Definition providers : list text := [codes "env"; codes "GOT.func"; codes "GOT.mem"; codes "waste_kernel"; codes "libc"].

(** The [imports] of a record: only for WebAssembly modules, all from known providers. *)
Definition checked_imports (guestPath : text) (bytes : list Z) : result pack_error (option (list wasm_import)) :=
  if bool_decide (take 8 bytes = wasm_magic) then
    let* imports := of_option CompileError (module_imports bytes) in
    match find (λ i, negb (bool_decide (im_module i ∈ providers))) imports with
    | Some i => Err (UndeclaredProvider (im_module i) guestPath)
    | None => Ok (Some imports)
    end
  else Ok None.

(** One round of the loop over the selected files. *)
Definition copy_resource (root output : path) (guestPath : text) (s : embedded * list resource) : P (embedded * list resource) :=
  let vfs := path_join root (codes "src/vfs") in
  let source := path_join vfs guestPath in
  resolved ← realpath source;
  require (inside vfs resolved) (ExternalResource guestPath);;
  '(bytes, full) ← readFile source;
  let mode := Z.land full 511 in
  p ← publish output (codes "resources" ++ guestPath) bytes mode;
  imports ← lift (checked_imports guestPath bytes);
  mret (<[guestPath := (b64_encode bytes, mode)]> s.1, s.2 ++ [mkResource p guestPath mode imports]).

(** [readFile(p, "utf8")] as a string. *)
Definition read_text (p : path) : P text := '(b, _) ← readFile p; mret (units (decode_once true b)).

Definition publish_artifact (output : path) (a : text * list Z) (s : list published) : P (list published) :=
  p ← publish output a.1 a.2 420; mret (s ++ [p]).

Definition readme (tools : list text) : text :=
  codes "WASTE command package" ++ [10; 10] ++ codes "Selected commands: " ++ join_with (codes ", ") tools ++ codes "." ++ [10] ++
  codes "Open embedding.html directly with file://. No server is required." ++ [10] ++
  codes "See embedding.md for the C, JS and wire contracts; manifest.json records current asset digests and providers." ++ [10; 10] ++
  codes "Preserve LICENSE and resources/usr/share/licenses when redistributing." ++ [10] ++
  codes "For binary releases, generate and distribute the corresponding-source archives listed in manifest.json." ++ [10] ++
  codes "These explicit source-package commands are separate from packaging and never run implicitly." ++ [10; 10].

Definition source_package (p : profiles) (name : text) : text * text * text :=
  (name, codes "make -C src/aux " ++ from_option pf_sourceTarget (codes "undefined") (tool_table p !! name),
   codes "build/aux/" ++ name ++ codes "/" ++ name ++ codes "-corresponding-source.tar.gz").

Definition safeJSON (a : assets) : text := escape_lt (assets_json a).

(** The embedding page. *)
Definition embedding_html (template host : text) (a : assets) : text :=
  replace_first (codes "/* WASTE_ASSETS */") (codes "const embedded = " ++ safeJSON a ++ codes ";")
    (replace_first (codes "/* WASTE_HOST */") host template).

Definition build_dir (cwd root : path) (args : list (text * text)) : path :=
  from_option (path_resolve cwd) (path_join root (codes "build/html-rt")) (argument "build" args).
Definition output_dir (cwd root : path) (args : list (text * text)) : path :=
  from_option (path_resolve cwd) (path_join (build_dir cwd root args) (codes "embedding")) (argument "output" args).

(** The script, with its working directory and repository root, the arguments after the script's name. *)
Definition package (cwd root : path) (argv : list text) : P manifest :=
  args ← lift (parse_arguments argv);
  let build := build_dir cwd root args in
  let output := output_dir cwd root args in
  let release := default (codes "development") (argument "release" args) in
  require (valid_release release) InvalidRelease;;
  mkdir output;;
  require (inside (real (path_join root (codes "build"))) (real output)) OutputOutside;;
  remove_tree (path_join output (codes "resources"));;
  remove_file (path_join output (codes "waste.worker.bundle.mjs"));;
  '(packages, _) ← readFile (path_join root (codes "src/html-rt/command/packages.json"));
  profiles ← lift (of_option BadJson (parse_profiles packages));
  let tools := select_tools args in
  selected ← lift (select_files profiles tools);
  '(resources, records) ← for_each (copy_resource root output) selected (∅, []);
  '(engine, _) ← readFile (path_join build (codes "wasm.wasm"));
  engineImports ← lift (of_option CompileError (module_imports engine));
  abi ← lift (of_option IncompatibleEngine (instantiate engine));
  host ← read_text (path_join root (codes "src/html-rt/command/waste.mjs"));
  worker ← read_text (path_join root (codes "src/html-rt/command/waste.worker.mjs"));
  workerBundle ← lift (bundle host worker);
  '(license, _) ← readFile (path_join root (codes "LICENSE"));
  '(header, _) ← readFile (path_join root (codes "src/engine/include/waste.h"));
  '(example, _) ← readFile (path_join root (codes "src/cli-rt/examples/embedding.c"));
  '(doc, _) ← readFile (path_join root (codes "docs/embedding.md"));
  artifacts ← for_each (publish_artifact output)
    [(codes "wasm.wasm", engine); (codes "waste.mjs", text_encode host); (codes "waste.worker.mjs", text_encode worker);
     (codes "waste.worker.bundle.js", text_encode workerBundle); (codes "LICENSE", license); (codes "include/waste.h", header);
     (codes "examples/embedding.c", example); (codes "embedding.md", doc)] [];
  '(sdk, _) ← readFile (path_join root (codes "src/vfs/usr/share/waste/sdk.json"));
  layouts ← lift (of_option BadJson (parse_layouts sdk));
  template ← read_text (path_join root (codes "src/html-rt/command/example.html"));
  let html := embedding_html template host (mkAssets (b64_encode engine) resources tools workerBundle) in
  artifacts ← publish_artifact output (codes "embedding.html", text_encode html) artifacts;
  artifacts ← publish_artifact output (codes "README.md", text_encode (readme tools)) artifacts;
  let metadata := mkManifest release (Z.shiftr (to_uint32 (version abi)) 16) (Z.land (version abi) 65535) abi layouts tools records
    engineImports (source_package profiles <$> tools) artifacts in
  publish output (codes "manifest.json") (text_encode (manifest_json metadata ++ [10])) 420;;
  mret metadata.
End packager.
