(* ===== verification/PackagerTheorems.v ===== *)
(** * Theorems on the embedding packager

    What a run may change, that its manifest and its page describe the files it leaves,
    and what the bundle keeps of its sources. *)

From stdpp Require Import base numbers list strings gmap sorting.
From Stdlib Require Import ZArith Lia.
From S2P Require Import Prelude JsNum TermModel Utf8 Base64 Packager.

#[local] Open Scope Z_scope.
#[local] Open Scope waste_scope.

(** ** Texts *)

Lemma strip_prefix_spec p l r : strip_prefix p l = Some r ↔ l = p ++ r.
Proof.
  revert l. induction p as [|c p IH]; intros [|d l]; cbn [strip_prefix app]; [naive_solver..|].
  destruct (Z.eqb_spec c d) as [->|Hne]; [rewrite IH; naive_solver|naive_solver].
Qed.

Lemma split_at_spec p l a b : split_at p l = Some (a, b) → l = a ++ b ∧ p `prefix_of` b.
Proof.
  revert a b. induction l as [|c l IH]; intros a b; cbn [split_at].
  - destruct (strip_prefix p []) as [r|] eqn:E; [|done]. intros [= <- <-]. split; [done|]. apply strip_prefix_spec in E. by exists r.
  - destruct (strip_prefix p (c :: l)) as [r|] eqn:E.
    { intros [= <- <-]. split; [done|]. apply strip_prefix_spec in E. by exists r. }
    destruct (split_at p l) as [[a' b']|]; [|done]. cbn. intros [= <- <-]. destruct (IH a' b' eq_refl) as [-> ?]. done.
Qed.

Lemma split_on_cons c d l : d ≠ c → ∃ w ws, split_on c l = w :: ws ∧ split_on c (d :: l) = (d :: w) :: ws.
Proof.
  intros Hne. cbn. rewrite (proj2 (Z.eqb_neq _ _)) by done. pose proof (split_on_nonempty c l) as Hn.
  destruct (split_on c l) as [|w ws]; [done|]. by exists w, ws.
Qed.

Lemma join_split c l : join_with [c] (split_on c l) = l.
Proof.
  induction l as [|d l IH]; [done|]. cbn [split_on]. destruct (Z.eqb_spec d c) as [->|Hne].
  - cbn [join_with app]. pose proof (split_on_nonempty c l) as Hn. destruct (split_on c l) eqn:E; [done|]. by rewrite IH.
  - pose proof (split_on_nonempty c l) as Hn. destruct (split_on c l) as [|w ws]; [done|].
    destruct ws; cbn [join_with app] in *; by rewrite IH.
Qed.

Lemma split_on_inj c l1 l2 : split_on c l1 = split_on c l2 → l1 = l2.
Proof. intros H. by rewrite <- (join_split c l1), <- (join_split c l2), H. Qed.

Lemma elem_of_dedupe x l : x ∈ dedupe l ↔ x ∈ l.
Proof.
  unfold dedupe. enough (∀ acc, x ∈ foldl (λ acc x, if decide (x ∈ acc) then acc else acc ++ [x]) acc l ↔ x ∈ acc ∨ x ∈ l) as ->.
  { rewrite elem_of_nil. naive_solver. }
  induction l as [|y l IH]; intros acc; cbn [foldl]; [rewrite elem_of_nil; naive_solver|].
  rewrite IH, elem_of_cons. case_decide; [|rewrite elem_of_app, list_elem_of_singleton]; naive_solver.
Qed.

Lemma NoDup_dedupe l : NoDup (dedupe l).
Proof.
  unfold dedupe. enough (∀ acc, NoDup acc → NoDup (foldl (λ acc x, if decide (x ∈ acc) then acc else acc ++ [x]) acc l)) as H; [apply H; constructor|].
  induction l as [|y l IH]; intros acc Ha; cbn [foldl]; [done|]. apply IH. case_decide as Hy; [done|].
  apply NoDup_app. split_and!; [done| |apply NoDup_singleton]. intros z Hz ->%list_elem_of_singleton. done.
Qed.

#[export] Instance text_le_total : Total text_le.
Proof.
  intros a. induction a as [|c a IH]; intros [|d b]; unfold text_le in *; cbn [text_leb]; [by left..|by right|].
  destruct (Z.ltb_spec c d), (Z.ltb_spec d c); cbn [orb]; [lia|by left|by right|].
  assert (c = d) as -> by lia. rewrite Z.eqb_refl. cbn [andb]. apply IH.
Qed.

#[export] Instance text_le_trans : Transitive text_le.
Proof.
  intros a. unfold text_le. induction a as [|x a IH]; intros [|y b] [|z c]; cbn [text_leb]; try done.
  rewrite !orb_true_iff, !andb_true_iff, !Z.ltb_lt, !Z.eqb_eq. intros [H1|[H1 H1']] [H2|[H2 H2']]; [left; lia..|].
  right. split; [lia|]. by apply (IH b).
Qed.

Lemma escape_lt_safe l : 60 ∉ escape_lt l.
Proof.
  unfold escape_lt. rewrite list_elem_of_bind. intros (c & Hc & _). destruct (Z.eqb_spec c 60).
  - revert Hc. apply (bool_decide_unpack _). by vm_compute.
  - apply list_elem_of_singleton in Hc. congruence.
Qed.

(** A text without dollar signs is put in as it is. *)
Lemma expand_plain b m a l : 36 ∉ l → expand b m a l = l.
Proof.
  induction l as [|c l IH]; [done|]. intros [Hc Hl]%not_elem_of_cons. cbn [expand]. destruct l as [|d l]; [done|].
  rewrite (proj2 (Z.eqb_neq _ _)) by congruence. by rewrite IH.
Qed.

(** ** The bundle *)

Definition unexport (line : text) : text := default line (strip_prefix (codes "export ") line).

(** Line ends other than line feeds. *)
Definition other_line_end (c : Z) : bool := is_line_end c && negb (c =? 10).

Lemma split_on_prefix c p l w ws : c ∉ p → split_on c l = w :: ws → split_on c (p ++ l) = (p ++ w) :: ws.
Proof.
  intros Hp Hl. induction p as [|d p IH]; [done|]. apply not_elem_of_cons in Hp as [Hne Hp]. cbn [app split_on].
  rewrite (proj2 (Z.eqb_neq _ _)) by done. by rewrite IH.
Qed.

Lemma split_on_first c l w ws : split_on c l = w :: ws → w `prefix_of` l.
Proof.
  intros H. assert (l = join_with [c] (w :: ws)) as -> by (by rewrite <- H, join_split). destruct ws; cbn [join_with]; [done|by eexists].
Qed.

(** One line, then the rest. *)
Lemma strip_exports_lines n l bol w ws :
  (length l ≤ n)%nat → Forall (λ c, other_line_end c = false) l → split_on 10 l = w :: ws →
  strip_exports 0 bol l = join_with [10] ((if bol then unexport w else w) :: (unexport <$> ws)).
Proof.
  revert l bol w ws. induction n as [|n IH]; intros l bol w ws Hn HF Hs.
  { destruct l; [|cbn in Hn; lia]. injection Hs as <- <-. by destruct bol. }
  destruct l as [|c l]; [injection Hs as <- <-; by destruct bol|].
  cbn [strip_exports]. destruct (bol && bool_decide (is_Some (strip_prefix (codes "export ") (c :: l)))) eqn:E.
  - apply andb_true_iff in E as [-> [r Hr]%bool_decide_eq_true]. apply strip_prefix_spec in Hr.
    assert (10 ∉ codes "export ") as H10 by (apply (bool_decide_unpack _); by vm_compute).
    destruct (split_on 10 r) as [|w' ws'] eqn:Er; [by apply split_on_nonempty in Er|].
    rewrite Hr, (split_on_prefix _ _ _ w' ws' H10 Er) in Hs.
    assert (w = codes "export " ++ w' ∧ ws = ws') as [-> ->] by (split; congruence).
    assert (unexport (codes "export " ++ w') = w') as -> by (unfold unexport; by rewrite (proj2 (strip_prefix_spec _ _ w') eq_refl)).
    rewrite Hr in HF, Hn. apply Forall_app in HF as [_ HF]. rewrite <- (IH r false w' ws'); [|rewrite length_app in Hn; change (length (codes "export ")) with 7%nat in Hn; lia|done|done].
    assert (l = codes "xport " ++ r) as -> by (by injection Hr). done.
  - inversion HF as [|? ? Hc HF']; subst. cbn in Hn. destruct (Z.eqb_spec c 10) as [->|Hne].
    + cbn [split_on] in Hs. rewrite Z.eqb_refl in Hs. injection Hs as <- Hs.
      destruct ws as [|w' ws']; [by apply split_on_nonempty in Hs|]. change (is_line_end 10) with true.
      rewrite (IH l true w' ws') by (done || lia). by destruct bol.
    + destruct (split_on_cons 10 c l Hne) as (w' & ws' & Hl & Hl'). rewrite Hl' in Hs. injection Hs as <- <-.
      assert (is_line_end c = false) as ->.
      { unfold other_line_end in Hc. rewrite (proj2 (Z.eqb_neq _ _)), andb_true_r in Hc by done. done. }
      rewrite (IH l false w' ws') by (done || lia).
      assert ((if bol then unexport (c :: w') else c :: w') = c :: w') as ->.
      { destruct bol; [|done]. unfold unexport. destruct (strip_prefix (codes "export ") (c :: w')) as [r|] eqn:Er; [|done].
        apply strip_prefix_spec in Er. cbn [andb] in E. apply bool_decide_eq_false in E. exfalso. apply E.
        destruct (split_on_first _ _ _ _ Hl') as [k Hk]. exists (r ++ k). apply strip_prefix_spec. by rewrite Hk, Er, <- app_assoc. }
      by destruct (unexport <$> ws').
Qed.

(** The lines of a text. *)
Definition lines (l : list Z) : list (list Z) := split_on 10 l.

Lemma strip_exports_spec l :
  Forall (λ c, other_line_end c = false) l → strip_exports 0 true l = join_with [10] (unexport <$> lines l).
Proof.
  intros HF. unfold lines. destruct (split_on 10 l) as [|w ws] eqn:E; [by apply split_on_nonempty in E|].
  by rewrite (strip_exports_lines (length l) l true w ws).
Qed.

(** C30: The worker bundle is made only of a worker that starts with the import of the host and of a
    host with the boundary comment; it is then the host up to the boundary and the worker after its
    import, line by line, each line without a leading [export]. *)
Theorem bundle_exact host worker b :
  Forall (λ c, other_line_end c = false) (host ++ worker) →
  bundle host worker = Ok b ↔
  ∃ before after rest, split_at host_boundary host = Some (before, after) ∧ host = before ++ after ∧
    host_boundary `prefix_of` after ∧ worker = worker_import ++ rest ∧
    b = join_with [10] (unexport <$> (lines before ++ lines rest)).
Proof.
  intros HF. unfold bundle. destruct (strip_prefix worker_import worker) as [rest|] eqn:Ew; cbn [of_option rbind].
  - apply strip_prefix_spec in Ew as ->. destruct (split_at host_boundary host) as [[before after]|] eqn:Eh; cbn [of_option rbind].
    + destruct (split_at_spec _ _ _ _ Eh) as [-> Hp].
      assert (strip_exports 0 true (before ++ [10] ++ rest) = join_with [10] (unexport <$> (lines before ++ lines rest))) as ->.
      { rewrite strip_exports_spec.
        - do 2 f_equal. unfold lines. clear. change ([10] ++ rest) with (10 :: rest). induction before as [|c before IH]; cbn [app split_on]; [by rewrite Z.eqb_refl|].
          destruct (c =? 10); [by rewrite IH|]. rewrite IH. pose proof (split_on_nonempty 10 before).
          by destruct (split_on 10 before).
        - rewrite !Forall_app in *. destruct HF as [[? ?] [? ?]]. split_and!; [done|by constructor|done]. }
      split; [intros [= <-]; naive_solver|]. intros (? & ? & rest' & [= <- <-] & _ & _ & Hr & ->).
      by apply app_inv_head in Hr as <-.
    + split; [done|]. naive_solver.
  - split; [done|]. intros (? & ? & rest & _ & _ & _ & -> & _). by rewrite (proj2 (strip_prefix_spec _ _ rest) eq_refl) in Ew.
Qed.

(** ** Paths *)

Definition good_segment (s : list Z) : bool :=
  negb (bool_decide (s = [])) && negb (bool_decide (s = codes ".")) && negb (bool_decide (s = codes "..")).
(** A relative name without empty, [.] or [..] segments, and the absolute name of a guest file. *)
Definition clean (relative : list Z) : bool := forallb good_segment (split_on 47 relative).
Definition clean_guest (g : list Z) : bool := match g with c :: r => (c =? 47) && clean r | [] => false end.

Lemma path_join_clean base relative : clean relative = true → path_join base relative = base ++ split_on 47 relative.
Proof.
  unfold clean, path_join. generalize (split_on 47 relative). intros l. revert base. induction l as [|s l IH]; intros base H; cbn [foldl forallb] in *; [by rewrite app_nil_r|].
  apply andb_true_iff in H as [Hs Hl]. unfold good_segment in Hs. rewrite !andb_true_iff, !negb_true_iff, !bool_decide_eq_false in Hs.
  rewrite IH by done. unfold path_step. rewrite !decide_False by tauto. by rewrite <- app_assoc.
Qed.

Lemma resource_segments g : clean_guest g = true → ∃ r, g = 47 :: r ∧ clean r = true ∧
  split_on 47 (codes "resources" ++ g) = codes "resources" :: split_on 47 r.
Proof.
  destruct g as [|c r]; [done|]. intros [->%Z.eqb_eq Hr]%andb_true_iff. exists r. split_and!; [done..|].
  apply split_on_app. apply (bool_decide_unpack _). by vm_compute.
Qed.

Lemma resource_clean g : clean_guest g = true → clean (codes "resources" ++ g) = true.
Proof. intros (r & -> & Hr & Hs)%resource_segments. unfold clean in *. rewrite Hs. cbn [forallb]. by rewrite Hr. Qed.

Lemma inside_spec base p : inside base p = true ↔ ∃ s q, p = base ++ s :: q.
Proof.
  unfold inside. rewrite andb_true_iff, bool_decide_eq_true, negb_true_iff, bool_decide_eq_false. split.
  - intros [[[|s q] ->] Hne]; [by rewrite app_nil_r in Hne|by exists s, q].
  - intros (s & q & ->). split; [by eexists|]. intros H%(f_equal length). rewrite length_app in H. cbn in H. lia.
Qed.

(** ** Commands *)

Lemma pbind_ok {A B} (m : P A) (f : A → P B) w b w' :
  (m ≫= f) w = (Ok b, w') ↔ ∃ a w1, m w = (Ok a, w1) ∧ f a w1 = (Ok b, w').
Proof. unfold mbind, P_bind. destruct (m w) as [[a|e] w1]; naive_solver. Qed.

Lemma pret_ok {A} (a b : A) w w' : (mret a : P A) w = (Ok b, w') ↔ a = b ∧ w = w'.
Proof. unfold mret, P_ret. naive_solver. Qed.

Lemma lift_ok {A} (r : result pack_error A) b w w' : lift r w = (Ok b, w') ↔ r = Ok b ∧ w = w'.
Proof. unfold lift. naive_solver. Qed.

Lemma require_ok b e u w w' : require b e w = (Ok u, w') ↔ b = true ∧ w = w'.
Proof. unfold require, fail, mret, P_ret. destruct u, b; naive_solver. Qed.

Lemma of_option_ok {E A} (e : E) (o : option A) a : of_option e o = Ok a ↔ o = Some a.
Proof. destruct o; cbn; naive_solver. Qed.

Lemma for_each_inv {S A} (f : A → S → P S) (J : list A → S → gmap (list (list Z)) (list Z * Z) → Prop) l s w s' w' :
  J [] s w →
  (∀ pre a suf s w s' w', l = pre ++ a :: suf → J pre s w → f a s w = (Ok s', w') → J (pre ++ [a]) s' w') →
  for_each f l s w = (Ok s', w') → J l s' w'.
Proof.
  intros H0 Hstep. enough (∀ suf pre s w, l = pre ++ suf → J pre s w → for_each f suf s w = (Ok s', w') → J l s' w') as H by (by apply (H l [] s w)).
  induction suf as [|a suf IH]; intros pre s1 w1 Hl HJ H; cbn [for_each] in H.
  - apply pret_ok in H as [-> ->]. by rewrite app_nil_r in Hl; subst.
  - apply pbind_ok in H as (s2 & w2 & H1 & H2). apply (IH (pre ++ [a]) s2 w2); [by rewrite <- app_assoc|by eapply Hstep|done].
Qed.

(** Commands that change no file outside a directory, however they end. *)
Definition confined {A} (dir : list (list Z)) (m : P A) : Prop := ∀ w p, ¬ (dir `prefix_of` p) → (m w).2 !! p = w !! p.

Lemma confined_same {A} dir (m : P A) : (∀ w, (m w).2 = w) → confined dir m.
Proof. intros H w p _. by rewrite H. Qed.

Lemma confined_bind {A B} dir (m : P A) (f : A → P B) :
  confined dir m → (∀ w a w', m w = (Ok a, w') → confined dir (f a)) → confined dir (m ≫= f).
Proof.
  intros Hm Hf w p Hp. unfold mbind, P_bind. specialize (Hm w p Hp). destruct (m w) as [[a|e] w1] eqn:E; [|done].
  rewrite (Hf w a w1 E w1 p Hp). done.
Qed.

Lemma confined_for_each {S A} dir (f : A → S → P S) l s : (∀ a s, a ∈ l → confined dir (f a s)) → confined dir (for_each f l s).
Proof.
  revert s. induction l as [|a l IH]; intros s H; cbn [for_each]; [by apply confined_same|].
  apply confined_bind; [apply H; by left|]. intros _ s' _ _. apply IH. intros a' s'' Ha'. apply H. by right.
Qed.

(** ** Selection *)

Lemma select_files_spec pf tools l :
  select_files pf tools = Ok l →
  (∀ t, t ∈ tools → is_Some (tool_table pf !! t)) ∧ NoDup l ∧ StronglySorted text_le l ∧
  ∀ f, f ∈ l ↔ f ∈ common pf ∨ ∃ t, t ∈ tools ∧ f ∈ tool_files pf t.
Proof.
  unfold select_files. destruct (forallb _ tools) eqn:E; [|done]. intros [= <-].
  pose proof (merge_sort_Permutation text_le (dedupe (common pf ++ (tools ≫= tool_files pf)))) as HP. split_and!.
  - intros t Ht. rewrite forallb_forall in E. specialize (E t). rewrite <- list_elem_of_In in E. by apply bool_decide_eq_true in E.
  - rewrite HP. apply NoDup_dedupe.
  - by apply (StronglySorted_merge_sort text_le).
  - intros f. rewrite HP, elem_of_dedupe, elem_of_app, list_elem_of_bind. naive_solver.
Qed.

(** Profiles whose files are absolute names without [.] and [..]. *)
Definition clean_profiles (pf : profiles) : Prop :=
  Forall (λ g, clean_guest g = true) (common pf) ∧
  ∀ t p, tool_table pf !! t = Some p → Forall (λ g, clean_guest g = true) (pf_files p).

Lemma select_files_clean pf tools l g : clean_profiles pf → select_files pf tools = Ok l → g ∈ l → clean_guest g = true.
Proof.
  intros [Hc Ht] (_ & _ & _ & H)%select_files_spec Hg. rewrite Forall_forall in Hc. apply H in Hg as [Hg|(t & _ & Hg)]; [by apply Hc|].
  unfold tool_files in Hg. destruct (tool_table pf !! t) as [p|] eqn:E; cbn in Hg; [|by apply elem_of_nil in Hg].
  specialize (Ht t p E). rewrite Forall_forall in Ht. by apply Ht.
Qed.

(** ** The script *)

Section packager.
Context (real : list (list Z) → list (list Z)) (sha256 : list Z → list Z) (umask : Z)
  (parse_profiles : list Z → option profiles) (parse_layouts : list Z → option (list Z))
  (manifest_json : manifest → list Z) (assets_json : assets → list Z)
  (module_imports : list Z → option (list wasm_import)) (instantiate : list Z → option host_abi).
#[local] Abbreviation run := (package real sha256 umask parse_profiles parse_layouts manifest_json assets_json module_imports instantiate).
#[local] Abbreviation disk := (gmap (list (list Z)) (list Z * Z)).

Lemma readFile_ok p f w w' : readFile real p w = (Ok f, w') → w !! real p = Some f ∧ w = w'.
Proof. unfold readFile. destruct (w !! real p); naive_solver. Qed.

Lemma realpath_ok p q w w' : realpath real p w = (Ok q, w') → q = real p ∧ w = w'.
Proof. unfold realpath. destruct (w !! real p); naive_solver. Qed.

Lemma read_text_ok p t w w' : read_text real p w = (Ok t, w') → w = w'.
Proof. unfold read_text. intros ([b m] & w1 & [_ ->]%readFile_ok & [_ ->]%pret_ok)%pbind_ok. done. Qed.

Lemma read_text_same p w : (read_text real p w).2 = w.
Proof. unfold read_text, readFile, mbind, P_bind. by destruct (w !! real p) as [[b m]|]. Qed.

Section output.
(** There are no symbolic links below the output directory. *)
Context (out : list (list Z)) (Hout : ∀ q, real (out ++ q) = real out ++ q).

Lemma publish_run relative bytes mode w :
  clean relative = true →
  let target := real out ++ split_on 47 relative in
  publish real sha256 umask out relative bytes mode w =
    (if free_for w (real (take (length out + length (split_on 47 relative) - 1) (out ++ split_on 47 relative))) true then
       if free_for w target false then
         (Ok (mkPublished relative (zlen bytes) (sha256 bytes)),
          <[target := (bytes, from_option snd (Z.land mode (Z.lnot umask)) (w !! target))]> w)
       else (Err (NotADirectory (out ++ split_on 47 relative)), w)
     else (Err (NotADirectory (take (length out + length (split_on 47 relative) - 1) (out ++ split_on 47 relative))), w)).
Proof.
  intros Hc target. unfold publish. rewrite path_join_clean by done. rewrite length_app.
  unfold mbind, P_bind, mkdir. destruct (free_for w _ true); [|done]. unfold writeFile. rewrite Hout. fold target.
  by destruct (free_for w target false).
Qed.

Lemma publish_ok relative bytes mode w e w' :
  clean relative = true → publish real sha256 umask out relative bytes mode w = (Ok e, w') →
  e = mkPublished relative (zlen bytes) (sha256 bytes) ∧
  w' = <[real out ++ split_on 47 relative := (bytes, from_option snd (Z.land mode (Z.lnot umask)) (w !! (real out ++ split_on 47 relative)))]> w.
Proof. intros Hc. rewrite publish_run by done. cbv zeta. repeat case_match; naive_solver. Qed.

Lemma publish_confined relative bytes mode : clean relative = true → confined (real out) (publish real sha256 umask out relative bytes mode).
Proof.
  intros Hc w p Hp. rewrite publish_run by done. cbv zeta. repeat case_match; try done. cbn [snd]. apply lookup_insert_ne.
  intros <-. apply Hp. by eexists.
Qed.

Lemma artifact_confined a s : clean a.1 = true → confined (real out) (publish_artifact real sha256 umask out a s).
Proof.
  intros Hc. unfold publish_artifact. apply confined_bind; [by apply publish_confined|]. intros. by apply confined_same.
Qed.

Lemma copy_confined root g s : clean_guest g = true → confined (real out) (copy_resource real sha256 umask module_imports root out g s).
Proof.
  intros Hg. unfold copy_resource. cbv zeta.
  apply confined_bind; [apply confined_same; intros w; unfold realpath; by case_match|intros].
  apply confined_bind; [apply confined_same; intros; unfold require; by case_match|intros].
  apply confined_bind; [apply confined_same; intros; unfold readFile; by case_match|intros _ [bytes full] _ _].
  apply confined_bind; [by apply publish_confined, resource_clean|intros].
  apply confined_bind; [by apply confined_same|intros]. by apply confined_same.
Qed.

(** *** What is on the disk *)

Definition target (e : published) : list (list Z) := real out ++ split_on 47 (pb_path e).

(** The file an entry of the manifest names has the size and the digest of the entry. *)
Definition on_disk (w : disk) (e : published) : Prop :=
  ∃ bytes mode, w !! target e = Some (bytes, mode) ∧ zlen bytes = pb_bytes e ∧ sha256 bytes = pb_sha256 e.

(** A resource is a copy of its source in [w0], on the disk and in the page, with its permissions and imports. *)
Definition resource_ok (w0 : disk) (root : list (list Z)) (page : gmap (list Z) (list Z * Z)) (w : disk) (r : resource) : Prop :=
  pb_path (rs_published r) = codes "resources" ++ rs_guestPath r ∧
  ∃ bytes full, let vfs := path_join root (codes "src/vfs") in
    inside vfs (real (path_join vfs (rs_guestPath r))) = true ∧ w0 !! real (path_join vfs (rs_guestPath r)) = Some (bytes, full) ∧
    rs_mode r = Z.land full 511 ∧ w !! target (rs_published r) = Some (bytes, Z.land (rs_mode r) (Z.lnot umask)) ∧
    page !! rs_guestPath r = Some (b64_encode bytes, rs_mode r) ∧ checked_imports module_imports (rs_guestPath r) bytes = Ok (rs_imports r).

Definition resources_dir : list (list Z) := real out ++ [codes "resources"].

Record copied (w0 : disk) (root : list (list Z)) (names : list (list Z)) (s : gmap (list Z) (list Z * Z) * list resource)
    (arts : list published) (w : disk) : Prop := {
  cp_names : rs_guestPath <$> s.2 = names;
  cp_nodup : NoDup (pb_path <$> ((rs_published <$> s.2) ++ arts));
  cp_disk : Forall (on_disk w) ((rs_published <$> s.2) ++ arts);
  cp_res : Forall (resource_ok w0 root s.1 w) s.2;
  cp_only : ∀ p, resources_dir `prefix_of` p → is_Some (w !! p) → ∃ r, r ∈ s.2 ∧ p = target (rs_published r);
  cp_rest : ∀ p, ¬ (real out `prefix_of` p) → w !! p = w0 !! p }.

Lemma target_ne e relative : relative ≠ pb_path e → target e ≠ real out ++ split_on 47 relative.
Proof. intros Hne H. apply app_inv_head, split_on_inj in H. congruence. Qed.

Lemma on_disk_keep w e relative v : relative ≠ pb_path e → on_disk w e → on_disk (<[real out ++ split_on 47 relative := v]> w) e.
Proof.
  intros Hne (bytes & mode & H & Hz). exists bytes, mode. split; [|done]. rewrite lookup_insert_ne; [done|].
  intros He. by apply (target_ne e relative).
Qed.

Lemma resource_keep w0 root page w r relative v :
  relative ≠ pb_path (rs_published r) → resource_ok w0 root page w r → resource_ok w0 root page (<[real out ++ split_on 47 relative := v]> w) r.
Proof.
  intros Hne (Hp & bytes & full & H1 & H2 & H3 & H4 & H5 & H6). split; [done|]. exists bytes, full. split_and!; try done.
  rewrite lookup_insert_ne; [done|]. intros He. by apply (target_ne (rs_published r) relative).
Qed.

(** One more file, with a name of its own, leaves the earlier ones as they are. *)
Lemma copied_keep w0 root names s arts w relative v :
  copied w0 root names s arts w → relative ∉ pb_path <$> ((rs_published <$> s.2) ++ arts) →
  let w' := <[real out ++ split_on 47 relative := v]> w in
  Forall (on_disk w') ((rs_published <$> s.2) ++ arts) ∧ Forall (resource_ok w0 root s.1 w') s.2 ∧
  ∀ p, ¬ (real out `prefix_of` p) → w' !! p = w0 !! p.
Proof.
  intros [_ _ Hd Hr _ Hrest] Hni w'. rewrite Forall_forall in Hd. rewrite Forall_forall in Hr. split_and!.
  - apply Forall_forall. intros e He. apply on_disk_keep; [|by apply Hd]. intros ->. apply Hni. by apply list_elem_of_fmap_2.
  - apply Forall_forall. intros r Hr'. apply resource_keep; [|by apply Hr]. intros ->. apply Hni.
    apply list_elem_of_fmap_2, elem_of_app. left. by apply list_elem_of_fmap_2.
  - intros p Hp. unfold w'. rewrite lookup_insert_ne; [by apply Hrest|]. intros <-. apply Hp. by eexists.
Qed.

Lemma NoDup_snoc_fmap (L : list published) e : NoDup (pb_path <$> L) → pb_path e ∉ pb_path <$> L → NoDup (pb_path <$> (L ++ [e])).
Proof.
  intros Hn Hni. rewrite fmap_app. apply NoDup_app. split_and!; [done| |apply NoDup_singleton].
  intros x Hx ->%list_elem_of_singleton. done.
Qed.

(** A name outside the resources. *)
Definition plain_name (n : list Z) : bool := clean n && negb (bool_decide (head (split_on 47 n) = Some (codes "resources"))).

Lemma plain_not_resource n g : plain_name n = true → clean_guest g = true → n ≠ codes "resources" ++ g.
Proof.
  intros [_ Hn%negb_true_iff%bool_decide_eq_false]%andb_true_iff (r & _ & _ & Hs)%resource_segments ->. apply Hn. by rewrite Hs.
Qed.

Lemma copied_artifact w0 root names s arts w n bytes arts' w' :
  copied w0 root names s arts w → Forall (λ g, clean_guest g = true) names → plain_name n = true → n ∉ pb_path <$> arts →
  publish_artifact real sha256 umask out (n, bytes) arts w = (Ok arts', w') →
  ∃ e m, arts' = arts ++ [e] ∧ pb_path e = n ∧ copied w0 root names s arts' w' ∧ w' = <[real out ++ split_on 47 n := (bytes, m)]> w.
Proof.
  intros Hc Hclean Hn Hni Hpub. pose proof Hn as Hn'. apply andb_true_iff in Hn' as [Hcn Hhead].
  unfold publish_artifact in Hpub. apply pbind_ok in Hpub as (e & w1 & Hpub & [<- <-]%pret_ok).
  apply publish_ok in Hpub as [-> ->]; [|done]. cbn [fst snd]. eexists _, _. split; [done|]. split; [done|]. split; [|done].
  assert (n ∉ pb_path <$> ((rs_published <$> s.2) ++ arts)) as Hni'.
  { rewrite fmap_app, elem_of_app. intros [H|H]; [|done]. apply list_elem_of_fmap in H as (e & -> & He).
    apply list_elem_of_fmap in He as (r & -> & Hr). pose proof (cp_res _ _ _ _ _ _ Hc) as Hres. rewrite Forall_forall in Hres.
    destruct (Hres r Hr) as [Hp _]. rewrite <- (cp_names _ _ _ _ _ _ Hc) in Hclean. rewrite Forall_fmap, Forall_forall in Hclean.
    exact (plain_not_resource _ _ Hn (Hclean r Hr) Hp). }
  match goal with |- copied _ _ _ _ _ (<[_ := ?v]> _) => destruct (copied_keep _ _ _ _ _ _ n v Hc Hni') as (H1 & H2 & H3) end. constructor.
  - apply Hc.
  - rewrite app_assoc. apply NoDup_snoc_fmap; [apply Hc|done].
  - rewrite app_assoc, Forall_app, Forall_singleton. split; [exact H1|]. eexists _, _. split; [apply lookup_insert_eq|done].
  - exact H2.
  - intros p Hp [x Hx]. rewrite lookup_insert_ne in Hx; [eapply (cp_only _ _ _ _ _ _ Hc); by eauto|].
    intros <-. destruct Hp as [k Hk]. unfold resources_dir in Hk. rewrite <- app_assoc in Hk. apply app_inv_head in Hk.
    apply negb_true_iff, bool_decide_eq_false in Hhead. apply Hhead. rewrite Hk. done.
  - exact H3.
Qed.

Lemma copied_resource w0 root pre s w g s' w' :
  (∀ p, inside (path_join root (codes "src/vfs")) p = true → ¬ (real out `prefix_of` p)) →
  copied w0 root pre s [] w → g ∉ pre → clean_guest g = true →
  copy_resource real sha256 umask module_imports root out g s w = (Ok s', w') → copied w0 root (pre ++ [g]) s' [] w'.
Proof.
  intros Hsep Hc Hni Hg H. unfold copy_resource in H. cbv zeta in H. set (source := path_join (path_join root (codes "src/vfs")) g) in *.
  apply pbind_ok in H as (q & w1 & [-> ->]%realpath_ok & H).
  apply pbind_ok in H as (u & w2 & [Hin ->]%require_ok & H).
  apply pbind_ok in H as ([bytes full] & w3 & [Hsrc ->]%readFile_ok & H).
  apply pbind_ok in H as (e & w4 & Hpub & H). apply publish_ok in Hpub as [-> ->]; [|by apply resource_clean].
  apply pbind_ok in H as (imports & w5 & [Himp <-]%lift_ok & [<- <-]%pret_ok).
  set (rel := codes "resources" ++ g) in *.
  assert (rel ∉ pb_path <$> ((rs_published <$> s.2) ++ [])) as Hni'.
  { rewrite app_nil_r. intros He. apply list_elem_of_fmap in He as (e & Heq & He). apply list_elem_of_fmap in He as (r & -> & Hr).
    pose proof (cp_res _ _ _ _ _ _ Hc) as Hres. rewrite Forall_forall in Hres. destruct (Hres r Hr) as [Hp _].
    apply Hni. rewrite <- (cp_names _ _ _ _ _ _ Hc). apply list_elem_of_fmap. exists r. split; [|done].
    unfold rel in Heq. rewrite Hp in Heq. by apply app_inv_head in Heq. }
  assert (split_on 47 rel = codes "resources" :: split_on 47 (drop 1 g)) as Hsegs.
  { destruct (resource_segments g Hg) as (r & -> & _ & Hs). exact Hs. }
  assert (w3 !! (real out ++ split_on 47 rel) = None) as Hnew.
  { apply eq_None_not_Some. intros Hs. destruct (cp_only _ _ _ _ _ _ Hc (real out ++ split_on 47 rel)) as (r & Hr & He); [|done|].
    - rewrite Hsegs. exists (split_on 47 (drop 1 g)). unfold resources_dir. by rewrite <- app_assoc.
    - unfold target in He. apply app_inv_head, split_on_inj in He. apply Hni'. rewrite app_nil_r. rewrite He.
      by apply list_elem_of_fmap_2, list_elem_of_fmap_2. }
  rewrite Hnew. cbn [from_option]. 
  match goal with |- copied _ _ _ _ _ (<[_ := ?v]> _) => destruct (copied_keep _ _ _ _ _ _ rel v Hc Hni') as (H1 & H2 & H3) end.
  constructor; cbn [fst snd].
  - rewrite fmap_app. cbn. by rewrite (cp_names _ _ _ _ _ _ Hc).
  - rewrite app_nil_r, fmap_app. apply NoDup_snoc_fmap; [|by rewrite app_nil_r in Hni'].
    pose proof (cp_nodup _ _ _ _ _ _ Hc) as Hn. by rewrite app_nil_r in Hn.
  - rewrite app_nil_r in H1 |- *. rewrite fmap_app, Forall_app. split; [exact H1|]. cbn. apply Forall_singleton.
    eexists _, _. split; [apply lookup_insert_eq|done].
  - apply Forall_app. split.
    + apply Forall_forall. intros r Hr. rewrite Forall_forall in H2. destruct (H2 r Hr) as (Hp & b & f & E1 & E2 & E3 & E4 & E5 & E6).
      split; [done|]. exists b, f. split_and!; try done. rewrite lookup_insert_ne; [done|]. intros ->. apply Hni.
      rewrite <- (cp_names _ _ _ _ _ _ Hc). by apply list_elem_of_fmap_2.
    + apply Forall_singleton. split; [done|]. exists bytes, full. cbn [rs_guestPath rs_mode rs_published rs_imports]. split_and!; try done.
      * rewrite <- (cp_rest _ _ _ _ _ _ Hc); [done|]. by apply Hsep.
      * apply lookup_insert_eq.
      * apply lookup_insert_eq.
  - intros p Hp [x Hx]. destruct (decide (p = real out ++ split_on 47 rel)) as [->|Hne].
    + eexists. split; [apply elem_of_app; right; by apply list_elem_of_singleton|]. done.
    + rewrite lookup_insert_ne in Hx by done. destruct (cp_only _ _ _ _ _ _ Hc p Hp) as (r & Hr & ->); [by eexists|].
      exists r. split; [|done]. apply elem_of_app. by left.
  - exact H3.
Qed.

Lemma copied_start w0 root :
  copied w0 root [] (∅, []) [] (delete (real out ++ [codes "waste.worker.bundle.mjs"]) (filter (λ kv, ¬ (resources_dir `prefix_of` kv.1)) w0)).
Proof.
  constructor; cbn; try done; [constructor| |].
  - intros p Hp [x Hx]. rewrite lookup_delete_Some, map_lookup_filter_Some in Hx. destruct Hx as (_ & _ & Hx). done.
  - intros p Hp. rewrite lookup_delete_ne by (intros <-; apply Hp; by eexists). rewrite map_lookup_filter.
    destruct (w0 !! p) as [f|]; [|done]. cbn [mbind option_bind]. rewrite option_guard_True; [done|]. cbn [fst].
    intros [k ->]. apply Hp. unfold resources_dir. rewrite <- app_assoc. by eexists.
Qed.


(** The artifacts written one after the other. *)
Lemma artifacts_all w0 root names s arts w l arts' w' :
  copied w0 root names s arts w → Forall (λ g, clean_guest g = true) names →
  NoDup ((pb_path <$> arts) ++ (fst <$> l)) → Forall (λ a, plain_name a.1 = true) l →
  for_each (publish_artifact real sha256 umask out) l arts w = (Ok arts', w') →
  copied w0 root names s arts' w' ∧ pb_path <$> arts' = (pb_path <$> arts) ++ (fst <$> l).
Proof.
  intros Hc Hcl. revert arts w Hc. induction l as [|[n bytes] l IH]; intros arts w Hc Hnd HF H; cbn [for_each] in H.
  { apply pret_ok in H as [<- <-]. by rewrite app_nil_r. }
  apply pbind_ok in H as (arts1 & w1 & H1 & H2). apply Forall_cons in HF as [Hn HF]. cbn [fst] in Hn. cbn [fmap list_fmap fst] in Hnd |- *.
  assert (n ∉ pb_path <$> arts) as Hni by (apply NoDup_app in Hnd as (_ & Hd & _); intros Hin; apply (Hd n Hin); left).
  destruct (copied_artifact _ _ _ _ _ _ _ _ _ _ Hc Hcl Hn Hni H1) as (e & m & -> & He & Hc1 & _).
  destruct (IH (arts ++ [e]) w1 Hc1) as [Hc2 Hp2]; [|done|done|].
  - rewrite fmap_app, <- app_assoc. cbn. by rewrite He.
  - split; [exact Hc2|]. rewrite Hp2, fmap_app, <- app_assoc. cbn. by rewrite He.
Qed.

Lemma copy_all w0 root selected s w w' :
  (∀ p, inside (path_join root (codes "src/vfs")) p = true → ¬ (real out `prefix_of` p)) →
  copied w0 root [] (∅, []) [] w → NoDup selected → Forall (λ g, clean_guest g = true) selected →
  for_each (copy_resource real sha256 umask module_imports root out) selected (∅, []) w = (Ok s, w') →
  copied w0 root selected s [] w'.
Proof.
  intros Hsep H0 Hnd Hcl H. revert H. apply (for_each_inv _ (λ pre s w, copied w0 root pre s [] w)); [exact H0|].
  intros pre g suf s1 w1 s2 w2 -> Hc H. rewrite Forall_forall in Hcl. apply NoDup_app in Hnd as (_ & Hnd & _).
  apply (copied_resource w0 root pre s1 w1 g s2 w2 Hsep Hc); [|apply Hcl; apply elem_of_app; right; left|exact H].
  intros Hin. apply (Hnd g Hin). left.
Qed.

Lemma cleared_start w0 root u1 w1 u2 w2 :
  remove_tree real (path_join out (codes "resources")) w0 = (Ok u1, w1) →
  remove_file real (path_join out (codes "waste.worker.bundle.mjs")) w1 = (Ok u2, w2) → copied w0 root [] (∅, []) [] w2.
Proof.
  unfold remove_tree, remove_file. rewrite !path_join_clean, !Hout by done. intros H1 H2.
  apply (f_equal snd) in H1. cbn [snd] in H1. subst w1. destruct (existsb _ _); [done|].
  apply (f_equal snd) in H2. cbn [snd] in H2. subst w2. apply copied_start.
Qed.
End output.

Ltac quiet := apply confined_bind; [apply confined_same; intros; rewrite ?read_text_same; unfold readFile, require, mkdir; repeat case_match; done|].


Lemma repository_apart root out p :
  real (path_join root (codes "build")) = path_join root (codes "build") →
  inside (real (path_join root (codes "build"))) (real out) = true →
  inside (path_join root (codes "src/vfs")) p = true → ¬ (real out `prefix_of` p).
Proof.
  intros -> (s & q & ->)%inside_spec (s' & q' & ->)%inside_spec [k Hk].
  rewrite !path_join_clean, <- !app_assoc in Hk by (by vm_compute). apply app_inv_head in Hk.
  change (split_on 47 (codes "build")) with [codes "build"] in Hk.
  change (split_on 47 (codes "src/vfs")) with [codes "src"; codes "vfs"] in Hk. cbn [app] in Hk.
  apply (f_equal head) in Hk. cbn [head] in Hk. revert Hk. intros [= Hk].
Qed.

Definition artifact_names : list (list Z) :=
  [codes "wasm.wasm"; codes "waste.mjs"; codes "waste.worker.mjs"; codes "waste.worker.bundle.js"; codes "LICENSE";
   codes "include/waste.h"; codes "examples/embedding.c"; codes "embedding.md"; codes "embedding.html"; codes "README.md"].

(** What a successful run leaves in the output directory [out] for the manifest [m]. *)
Definition shipped (root out : list (list Z)) (w : disk) (m : manifest) (w' : disk) : Prop :=
  (* the manifest's entries have names of their own and describe the files *)
  NoDup (pb_path <$> ((rs_published <$> mf_resources m) ++ mf_artifacts m)) ∧
  Forall (on_disk out w') ((rs_published <$> mf_resources m) ++ mf_artifacts m) ∧
  pb_path <$> mf_artifacts m = artifact_names ∧
  (* the resources are those files, copies of their sources, and the page carries the same *)
  (∀ p, resources_dir out `prefix_of` p → is_Some (w' !! p) → ∃ r, r ∈ mf_resources m ∧ p = target out (rs_published r)) ∧
  (∃ template host a mode,
     w' !! (real out ++ [codes "embedding.html"]) = Some (text_encode (embedding_html assets_json template host a), mode) ∧
     as_tools a = mf_tools m ∧ Forall (resource_ok out w root (as_resources a) w') (mf_resources m)) ∧
  (* the manifest itself *)
  (∃ mode, w' !! (real out ++ [codes "manifest.json"]) = Some (text_encode (manifest_json m ++ [10]), mode)).

(** The page and the readme, after the other artifacts. *)
Lemma late_artifacts out w0 root names s arts w page arts1 w1 text arts2 w2 :
  (∀ q, real (out ++ q) = real out ++ q) → copied out w0 root names s arts w → Forall (λ g, clean_guest g = true) names →
  pb_path <$> arts = take 8 artifact_names →
  publish_artifact real sha256 umask out (codes "embedding.html", page) arts w = (Ok arts1, w1) →
  publish_artifact real sha256 umask out (codes "README.md", text) arts1 w1 = (Ok arts2, w2) →
  copied out w0 root names s arts2 w2 ∧ pb_path <$> arts2 = artifact_names ∧
  ∃ mode, w2 !! (real out ++ [codes "embedding.html"]) = Some (page, mode).
Proof.
  intros Hout Hc Hcl Hp H1 H2.
  apply (copied_artifact out Hout w0 root names s) in H1 as (e1 & m1 & -> & He1 & Hc1 & Hw1);
    [|exact Hc|exact Hcl|by vm_compute|rewrite Hp; by apply (bool_decide_unpack _); vm_compute].
  apply (copied_artifact out Hout w0 root names s) in H2 as (e2 & m2 & -> & He2 & Hc2 & Hw2);
    [|exact Hc1|exact Hcl|by vm_compute|rewrite fmap_app, Hp; cbn [fmap list_fmap]; rewrite He1; by apply (bool_decide_unpack _); vm_compute].
  split; [exact Hc2|]. split; [rewrite !fmap_app, Hp; cbn [fmap list_fmap]; by rewrite He1, He2|].
  exists m1. rewrite Hw2, lookup_insert_ne by (intros Hx%app_inv_head; done). rewrite Hw1. apply lookup_insert_eq.
Qed.

(** The manifest is written last and changes none of the files it describes. *)
Lemma shipped_end out w root names s w4 m w' :
  (∀ q, real (out ++ q) = real out ++ q) →
  copied out w root names s (mf_artifacts m) w4 → Forall (λ g, clean_guest g = true) names →
  pb_path <$> mf_artifacts m = artifact_names → mf_resources m = s.2 →
  (∃ template host a mode, w4 !! (real out ++ [codes "embedding.html"]) = Some (text_encode (embedding_html assets_json template host a), mode) ∧
     as_tools a = mf_tools m ∧ as_resources a = s.1) →
  (∃ mode, w' = <[real out ++ split_on 47 (codes "manifest.json") := (text_encode (manifest_json m ++ [10]), mode)]> w4) →
  shipped root out w m w'.
Proof.
  intros Hout Hc Hcl Hnames Hrs (template & host & a & mode & Hhtml & Ht & Ha) (mode' & ->).
  assert (codes "manifest.json" ∉ pb_path <$> ((rs_published <$> s.2) ++ mf_artifacts m)) as Hni.
  { rewrite fmap_app, elem_of_app, Hnames. intros [H|H].
    - apply list_elem_of_fmap in H as (e & Heq & He). apply list_elem_of_fmap in He as (r & -> & Hr).
      pose proof (cp_res _ _ _ _ _ _ _ Hc) as Hres. rewrite Forall_forall in Hres. destruct (Hres r Hr) as [Hp _].
      rewrite <- (cp_names _ _ _ _ _ _ _ Hc), Forall_fmap, Forall_forall in Hcl.
      apply (plain_not_resource (codes "manifest.json") (rs_guestPath r)); [by vm_compute|by apply Hcl|congruence].
    - revert H. apply (bool_decide_unpack _). by vm_compute. }
  destruct (copied_keep out w root names s (mf_artifacts m) w4 (codes "manifest.json") (text_encode (manifest_json m ++ [10]), mode') Hc Hni) as (H1 & H2 & _).
  unfold shipped. rewrite Hrs. split_and!; [apply Hc|exact H1|exact Hnames| | |].
  - intros p Hp [x Hx]. apply (cp_only _ _ _ _ _ _ _ Hc p Hp). rewrite lookup_insert_ne in Hx; [by eexists|].
    intros <-. destruct Hp as [k Hk]. unfold resources_dir in Hk. rewrite <- app_assoc in Hk. by apply app_inv_head in Hk.
  - exists template, host, a, mode. rewrite Ha. split_and!; [|done|exact H2]. rewrite lookup_insert_ne; [done|].
    intros Hx%app_inv_head. done.
  - exists mode'. apply lookup_insert_eq.
Qed.

(** C21: A successful run selects exactly the files of the profiles' common part and of its tools,
    once each and in order; every entry of its manifest names a file that is there with that size and that digest;
    below [resources] there are those files and none that an earlier run left; each is a copy of its
    source in the guest's tree, with its permission bits; the page carries the same bytes; and
    the manifest is on the disk. *)
Theorem package_ships_manifest cwd root argv args w m w' :
  parse_arguments argv = Ok args →
  let out := output_dir cwd root args in
  (∀ q, real (out ++ q) = real out ++ q) → (∀ bytes pf, parse_profiles bytes = Some pf → clean_profiles pf) →
  real (path_join root (codes "build")) = path_join root (codes "build") →
  run cwd root argv w = (Ok m, w') →
  ∃ pf bytes, parse_profiles bytes = Some pf ∧ mf_tools m = select_tools args ∧
    select_files pf (mf_tools m) = Ok (rs_guestPath <$> mf_resources m) ∧ shipped root out w m w'.
Proof.
  intros Hargs out Hout Hpf Hbuild H. unfold package in H.
  apply pbind_ok in H as (args' & w1 & [H1 <-]%lift_ok & H). rewrite Hargs in H1. injection H1 as <-. cbv zeta in H. fold out in H.
  apply pbind_ok in H as (u1 & w2 & [_ <-]%require_ok & H).
  apply pbind_ok in H as (u2 & w3 & Hmk & H). assert (w3 = w) as -> by (unfold mkdir in Hmk; congruence). clear Hmk.
  apply pbind_ok in H as (u3 & w4 & [Hin <-]%require_ok & H).
  apply pbind_ok in H as (u4 & w5 & Hrm & H). apply pbind_ok in H as (u5 & w6 & Hrf & H).
  pose proof (cleared_start out Hout w root u4 w5 u5 w6 Hrm Hrf) as Hc0.
  apply pbind_ok in H as ([packages ?] & w7 & [_ <-]%readFile_ok & H).
  apply pbind_ok in H as (pf & w8 & [Hpp%of_option_ok <-]%lift_ok & H).
  apply pbind_ok in H as (selected & w9 & [Hsel <-]%lift_ok & H).
  apply pbind_ok in H as ([resources records] & w10 & Hcopy & H).
  pose proof (select_files_spec _ _ _ Hsel) as (_ & Hnd & _ & _).
  assert (Forall (λ g, clean_guest g = true) selected) as Hcl by (apply Forall_forall; intros g; apply (select_files_clean pf (select_tools args)); eauto).
  apply (copy_all out Hout w root) in Hcopy as Hc1; [|intros p; by apply repository_apart|exact Hc0|done|done]. clear Hc0 Hcopy.
  apply pbind_ok in H as ([engine ?] & w11 & [_ <-]%readFile_ok & H).
  apply pbind_ok in H as (eimports & w12 & [_ <-]%lift_ok & H).
  apply pbind_ok in H as (abi & w13 & [_ <-]%lift_ok & H).
  apply pbind_ok in H as (host & w14 & <-%read_text_ok & H).
  apply pbind_ok in H as (worker & w15 & <-%read_text_ok & H).
  apply pbind_ok in H as (wb & w16 & [_ <-]%lift_ok & H).
  do 4 (apply pbind_ok in H as ([? ?] & ? & [_ <-]%readFile_ok & H)).
  apply pbind_ok in H as (arts1 & w17 & Harts & H).
  apply (artifacts_all out Hout w root selected (resources, records)) in Harts as [Hc2 Hp2];
    [|exact Hc1|exact Hcl|by apply (bool_decide_unpack _); vm_compute|by repeat constructor].
  apply pbind_ok in H as ([? ?] & ? & [_ <-]%readFile_ok & H).
  apply pbind_ok in H as (layouts & w18 & [_ <-]%lift_ok & H).
  apply pbind_ok in H as (template & w19 & <-%read_text_ok & H). cbv zeta in H.
  apply pbind_ok in H as (arts2 & w20 & Hhtml & H). apply pbind_ok in H as (arts3 & w21 & Hreadme & H).
  destruct (late_artifacts out w root selected (resources, records) arts1 w17 _ arts2 w20 _ arts3 w21 Hout Hc2 Hcl Hp2 Hhtml Hreadme)
    as (Hc4 & Hnames & m1 & Hm1).
  apply pbind_ok in H as (e3 & w22 & Hman & [<- <-]%pret_ok).
  apply (publish_ok out Hout) in Hman as [_ Hw5]; [|by vm_compute].
  exists pf, packages. split; [done|]. split; [done|]. cbn [mf_tools mf_resources mf_artifacts].
  pose proof (cp_names _ _ _ _ _ _ _ Hc4) as Hrecs. cbn [snd] in Hrecs. rewrite Hrecs. split; [done|].
  apply (shipped_end out w root selected (resources, records)) with (w4 := w21); [exact Hout|exact Hc4|exact Hcl|exact Hnames|reflexivity|..].
  - exists template, host, (mkAssets (b64_encode engine) resources (select_tools args) wb), m1. split; [|by split].
    exact Hm1.
  - eexists. exact Hw5.
Qed.
End packager.

(** ** A small repository *)

Lemma bundle_exact_witness :
  bundle (codes "export const a" ++ [10] ++ host_boundary) (worker_import ++ [10] ++ codes "export b") =
    Ok (codes "const a" ++ [10; 10; 10] ++ codes "b").
Proof.
  apply bundle_exact; [by apply (bool_decide_unpack _); vm_compute|].
  exists (codes "export const a" ++ [10]), host_boundary, ([10] ++ codes "export b").
  split_and!; [by vm_compute|by rewrite <- app_assoc|done|done|by vm_compute].
Defined.

Definition small_profiles : profiles :=
  mkProfiles [codes "/lib/libc"] (<[codes "awk" := mkProfile [codes "/usr/bin/awk"; codes "/lib/libc"] (codes "awk-source-package")]> ∅).

Definition small_root : list (list Z) := [codes "repo"].

Definition small_file (name : string) (bytes : list Z) (mode : Z) : list (list Z) * (list Z * Z) := (path_join small_root (codes name), (bytes, mode)).

Definition small_disk : gmap (list (list Z)) (list Z * Z) := list_to_map
  [small_file "src/html-rt/command/packages.json" [] 420; small_file "src/vfs/lib/libc" [1; 2] 420; small_file "src/vfs/usr/bin/awk" [3] 493;
   small_file "build/html-rt/wasm.wasm" wasm_magic 420; small_file "build/html-rt/embedding/resources/old" [9] 420;
   small_file "src/html-rt/command/waste.mjs" (codes "export const a" ++ [10] ++ host_boundary) 420;
   small_file "src/html-rt/command/waste.worker.mjs" worker_import 420; small_file "LICENSE" [] 420;
   small_file "src/engine/include/waste.h" [] 420; small_file "src/cli-rt/examples/embedding.c" [] 420; small_file "docs/embedding.md" [] 420;
   small_file "src/vfs/usr/share/waste/sdk.json" [] 420; small_file "src/html-rt/command/example.html" (codes "/* WASTE_HOST *//* WASTE_ASSETS */") 420].

Definition small_package : list (list Z) → P manifest :=
  package id id 18 (λ _, Some small_profiles) Some (λ _, codes "{}") (λ _, codes "{}") (λ _, Some [])
    (λ _, Some (mkAbi 65536 15 64 328 32)) [] small_root.

Lemma small_clean (bytes : list Z) pf : Some small_profiles = Some pf → clean_profiles pf.
Proof.
  intros [= <-]. split; [by repeat constructor|]. intros t p. unfold small_profiles. cbn [tool_table].
  rewrite lookup_insert_Some. intros [[<- <-]|[_ H]]; [by repeat constructor|by rewrite lookup_empty in H].
Qed.


Lemma small_run_ok : match small_package [codes "--tools=awk"] small_disk with
  | (Ok m, w) => rs_guestPath <$> mf_resources m = [codes "/lib/libc"; codes "/usr/bin/awk"] ∧ w !! path_join small_root (codes "build/html-rt/embedding/resources/old") = None
  | _ => False end.
Proof. by vm_compute. Qed.

Lemma package_ships_manifest_witness :
  match small_package [codes "--tools=awk"] small_disk with
  | (Ok m, w) => shipped id id 18 (λ _, codes "{}") (λ _, codes "{}") (λ _, Some []) small_root (path_join small_root (codes "build/html-rt/embedding")) small_disk m w
  | _ => False
  end.
Proof.
  pose proof small_run_ok as H0. destruct (small_package [codes "--tools=awk"] small_disk) as [[m|] w] eqn:E; [clear H0|exact H0].
  destruct (package_ships_manifest id id 18 (λ _, Some small_profiles) Some (λ _, codes "{}") (λ _, codes "{}") (λ _, Some [])
      (λ _, Some (mkAbi 65536 15 64 328 32)) [] small_root [codes "--tools=awk"] [(codes "tools", codes "awk")] small_disk m w eq_refl
      (λ q, eq_refl) small_clean eq_refl E) as (_ & _ & _ & _ & _ & H).
  exact H.
Defined.
